(* ===== verification/_CoqProject ===== *)
-Q . S2P
Prelude.v
Buf.v
Rmap.v
Dsort.v
Clist.v
Links.v
Kernel.v
Callout.v
Sched.v
Prot.v
Time.v
Sig.v
Clock.v
Sig2.v
Ring.v
Bio.v
Fs.v
Md.v
Disk.v
Ahead.v
Alloc.v
Freelist.v
Bmap.v
Inode.v
Dinode.v
Ufs.v
Descrip.v
Refcount.v
Rw.v
Reading.v
Writing.v
Pipe.v
Generic.v
Select.v
Ncache.v
