(* ===== verification/Prelude.v ===== *)
(** The DiscoBSD kernel core: data, algorithms and their correctness

    DiscoBSD is 2.11BSD for microcontrollers. This library models the
    machine-independent core of its kernel (src/sys/kern, src/sys/sys) as
    executable definitions on an explicit kernel state, and proves what that
    core promises.

    The model. A kernel function is a function [K A = kstate → res kstate A]
    (Kernel.v): it returns a value and the new state, or panics, sleeps for
    good, touches memory outside every object ([Faulted]), or exhausts the
    model's iteration bound ([NoFuel]). Pointers into tables are slot numbers
    and a stray one faults; integers have C's width (Prelude.v: [i32], [u32],
    ..., [cchar] for plain char, which is signed on MIPS and unsigned on Arm);
    [KConfig] holds what the ports configure (DIAGNOSTIC, the clock rate, table
    sizes), [KLayout] what the link editor fixes. Rmap.v, Clist.v and Dsort.v
    need only their own data and keep a state of their own. splhigh(), splx()
    and the like are no-ops here: the theorems are about one processor's code
    between interrupts; interrupt routines are operations of their own
    (hardclock, softclock, biodone).

    The parts, in the order of _CoqProject, and the source they model:

    - Prelude: machine integers, flag idioms, record updates, the monad.
    - Buf (sys/buf.h): buffer headers, their typed pointers and flags.
    - Rmap (subr_rmap.c): the swap space allocator, [malloc], [mfree],
      [malloc3]. [malloc_first_fit], [mfree_correct] and the round trip refine
      a map to its list of free segments; [malloc3] gets all or nothing.
    - Dsort (ufs_dsort.c): [disksort] keeps the elevator order.
    - Clist (tty_subr.c): character queues on chained blocks; [clist_refines]
      relates every operation to one on byte lists.
    - Links, Ring: singly linked lists by slot number, and circular doubly
      linked lists with heads, which the kernel's queues share.
    - Kernel (proc.h, user.h, callout.h, file.h, inode.h, fs.h, mount.h, time.h,
      machdep.c): the state, its access functions, copyin and copyout.
    - Callout (kern_clock.c, subr of init_main.c): the delta-timed callout list;
      [timeout], [untimeout], the tick and softclock refine an agenda of
      (ticks left, call) pairs.
    - Sched (kern_synch.c, kern_proc.c): run and sleep queues, [wakeup],
      [setrun], [setrq], [remrq], [swtch]'s choice, [pfind].
    - Prot (kern_prot.c, kern_prot2.c, ufs_fio.c): ids, groups, [access],
      [chmod1], [chown1].
    - Time (kern_time.c): clocks, interval timers, profiling.
    - Sig (kern_sig.c), Sig2 (kern_sig2.c): posting, taking and delivering
      signals; dispositions and masks.
    - Clock (kern_synch.c, kern_clock.c): [tsleep], [sleep], [endtsleep],
      [schedcpu], [hardclock], [softclock].
    - Bio (ufs_bio.c, buf.h, init_main.c): the buffer cache.
      [getblk_gets], [brelse_requeues] and [incore_searches_pool] say what its
      operations do to the pool of buffers, which [cache_ok] keeps whole.
    - Md (dev/md.c): the memory disk, the driver below the cache.
    - Disk: cache and driver together. [cache_transparent] relates any sequence
      of reads, writes, delayed writes and flushes to a flat array of blocks,
      [cache_durable] says that after a flush the disk holds it.
    - Ahead: [breada], with its read-ahead, and [geteblk] are a plain read and a
      buffer of no block, on that array.
    - Fs (fs.h, inode.h, mount.h): the layout of superblocks and inodes on the
      disk, the mount table's access functions.
    - Alloc, Freelist (ufs_alloc.c, ufs_subr.c): [getfs], [balloc], [free],
      [ifree]; the free list with its chain of blocks on the disk is a stack
      ([freelist_is_stack]).
    - Bmap (ufs_bmap.c): [bmap] on every branch; on a mapped block it is the
      look-up in the file's tree of blocks ([bmap_finds]).
    - Inode, Dinode (ufs_inode.c): the inode table and its hash chains and
      free list, [iget], [iput], [iupdat], [itrunc]; [iupdat_writes_back] and
      [superblock_roundtrip].
    - Ufs (ufs_alloc.c, ufs_subr.c, ufs_syscalls2.c, ufs_mount.c): [ialloc],
      [sync], [ufs_sync], [syncip], mounting and unmounting.
    - Descrip (kern_descrip.c, sys_inode.c): the descriptor table, the file
      table's slots, [fcntl], [flock], [fstat].
    - Refcount: [descriptors_counted]: whatever a program calls, every file's
      count is the number of references to it.
    - Rw (kern_subr.c, sys_inode.c, vfs_vnops.c): [uiomove], [rwip], and a
      file's read, write, ioctl, select, open and close routines.
    - Reading, Writing: a file is the bytes of its blocks; [rwip_reads] and
      [rwip_writes] say that a read or write of any length moves exactly those
      bytes, through the block map, the cache and the disk.
    - Pipe (sys_pipe.c): pipes, and [selwakeup].
    - Generic, Select (sys_generic.c): the table of a file's operations, read,
      write, readv, writev, ioctl, select, pselect; [selscan_exact].

    How they interact. Callout's [timeout] is called by Clock's [tsleep], whose
    [endtsleep] it calls back through softclock; tsleep and Sig's [psignal] use
    Sched's queues; Bio's [brelse] wakes through Sched and its loops sleep
    through Clock. Alloc, Bmap, Inode and Ufs reach the disk only through Bio's
    [bread], [getblk], [bwrite] and the like, and Bio reaches Md through the
    device table ([BioEnv]); Disk.v proves once what a bread or a bdwrite of the
    cache is on the array of blocks, and Freelist, Bmap and Dinode prove their
    theorems against that ([Disk.coh], [Disk.bread_coh], ...), never opening the
    cache; Reading and Writing stand on [Bmap.bmap_looks] and Disk in the same
    way. Generic's read and write reach a file through [fops_of], by its type:
    Rw's [ino_rw] or Pipe's [pipe_rw], which both end in [rwip]; its [file_env]
    is the instance of [FileEnv] that the kernel's own table is. Descrip's [closef] gives up advisory locks and wakes through Sched;
    [fsetown] looks processes up with Sched's [pfind]. What a context switch
    does to the state (other processes run) is the parameter [swtch] of
    [SigEnv], so a theorem about a sleeping path says what the code does with
    whatever state it wakes in. The component invariants ([Callout.co_inv],
    [Sched.sched_inv], [Sig.sig_wf], [Bio.cache_ok], [Disk.coh], [Freelist.rep],
    [Refcount.dt], [Reading.ready]) come with lemmas that say which updates they survive, and
    clients are proved against those.

    Parameters. Code reached through tables of the ports, or machine code, is
    a class: [SigEnv] (the context switch, sendsig, core, exit, another
    process's user area), [ClockEnv] (drivers' callouts, vmmeter, the status
    word), [BioEnv] (the drivers' strategy routines and flags), [MdEnv] (where
    the regions of memory are), [FsEnv] and [MountEnv] (the name
    cache, the devices' open and close, path look-up), [FileEnv] (a file's operations
    table), [DevEnv] (the character and block devices' routines and conf.c's
    tests), [AbiEnv] (a register that a missing argument is read from). Theorems about an arbitrary instance are witnessed with a concrete
    one; those of Disk, Freelist, Bmap, Dinode, Reading and Writing are about Bio on
    top of Md.

    Fuel. Loops over tables run with the table's size: a chain without
    repetition is no longer ([Links.chain_length], [Bio.nodup_size]), so the
    bound is proved enough wherever the list is well formed. [wakeup_fuel] is
    twice the square of the number of processes, which the two nested restarts
    of [wakeup] need; [issignal] looks at most once at each of 31 signals
    (theorems ask [32 <= sig_passes]); [ffs] takes at most 32 shifts. Loops
    that wait for other processes ([getblk], [biowait], [sigsuspend], [ino_lock])
    take their fuel as an argument, and theorems give the amount that suffices
    when there is nothing to wait for: [getblk] starts over at most once for
    every buffer whose write is due, so [NBUF + 2] does for every operation of
    the cache. [rwip]'s loop runs once for every block touched, and a read once more
    to see the end of the file; [selscan_bits] once for each of at most 30
    descriptors.

    Findings. Subjects of a theorem: [unputc] on a signed-char port
    ([Clist.unputc_sign]); [swapmap]'s limit one past its array
    ([Rmap.swapmap_limit_overrun]); [SCHMAG] dividing before multiplying
    ([Sched.updatepri_forgets]); [seteuid] and what [kill] looks at
    ([Prot.set_ids_guarded]); [adjtime] stepping the clock
    ([Time.adjtime_steps]); [sigwait] spinning ([Sig2.sigwait_spins]); [getblk]
    caching a block twice after a sleep ([Bio.getblk_duplicates]). Seen while
    modelling: [b_resid] is set by the memory disk and never reset, so a later
    use of the header takes it for a short transfer (Disk.v assumes transfers
    inside the disk, which leave it 0); [iget] on a read error truncates the
    slot's last file again; [falloc] with a full table leaves [u_lastfile]
    raised (the invariant [Refcount.dt] allows for that); [bmap] leaves the wrong
    read-ahead block at the end of an indirect block; dev/swap.c's lengths wrap
    around and its errors leave the request undone; [pipe_rw] is called without
    its third argument; a pipe's write that a signal ends reports bytes it never
    wrote; [rwuio]'s check for wraparound cannot fire, and read and write check
    no user address; [pselect] leaves SAS_OLDMASK set.

    Not modelled. The ports (src/sys/arch: startup, traps, context switch,
    drivers, and the vendors' register headers) and the device and USB code are
    hardware access. Exec, fork, exit and swapping (kern_exec.c, exec_*.c,
    kern_fork.c, kern_exit.c, vm_*.c, dev/swap.c) move process images, which
    the state does not hold. Terminals (tty.c), path names
    (ufs_namei.c, ufs_syscalls.c, vn_open), ptrace, sysctl and resource limits
    are not covered; mounting is, up to the path look-up. Pipes are modelled, but no
    theorem follows their contents: their buffers are thrown away unwritten
    ([rwip_read_done]), which the array of blocks of Disk.v does not describe. The C library, the utilities, the
    games, the compilers (smlrc, lccom, pcc's as and ld) and the build tools are
    separate programs. *)
From Stdlib Require Export ZArith Lia String.
From stdpp Require Export base gmap list numbers strings fin_maps.

#[global] Open Scope Z_scope.
#[global] Set Default Goal Selector "!".
#[global] Set Warnings "-postfix-notation-not-level-1".

(** * Kernel configuration

    What differs between the ports: the [DIAGNOSTIC] option (on in the gba
    configurations, off in the stm32 and pic32 ones), whether plain [char] is
    signed (no -fsigned-char is passed, so the ABI decides: unsigned on Arm,
    signed on MIPS), the clock rate [HZ] and the table sizes. *)
Class KConfig := {
  DIAGNOSTIC : bool;
  char_signed : bool;
  hz : Z;
  NBUF : nat;
  NFILE : nat;
  NINODE : nat;
}.

Definition gba_cfg : KConfig :=
  {| DIAGNOSTIC := true; char_signed := false; hz := 100; NBUF := 3; NFILE := 40; NINODE := 32 |}.
Definition stm32_cfg : KConfig :=
  {| DIAGNOSTIC := false; char_signed := false; hz := 1000; NBUF := 10; NFILE := 24; NINODE := 24 |}.
Definition pic32_cfg : KConfig :=
  {| DIAGNOSTIC := false; char_signed := true; hz := 200; NBUF := 10; NFILE := 24; NINODE := 24 |}.

(** * Machine integers *)

(** [u_int], [size_t], [uid_t]...: 32-bit unsigned. *)
Definition u32 (z : Z) : Z := z `mod` 2 ^ 32.
(** [int] and [long]: 32-bit two's complement. *)
Definition i32 (z : Z) : Z := (z + 2 ^ 31) `mod` 2 ^ 32 - 2 ^ 31.
(** [short] and [unsigned short]. *)
Definition i16 (z : Z) : Z := (z + 2 ^ 15) `mod` 2 ^ 16 - 2 ^ 15.
Definition u16 (z : Z) : Z := z `mod` 2 ^ 16.
(** [unsigned char], [signed char], and plain [char] under the port's ABI. *)
Definition u8 (z : Z) : Z := z `mod` 2 ^ 8.
Definition i8 (z : Z) : Z := (z + 2 ^ 7) `mod` 2 ^ 8 - 2 ^ 7.
Definition cchar `{KConfig} (z : Z) : Z := if char_signed then i8 z else u8 z.

(** C truth values and the bit-flag idioms [f & m], [f |= m], [f &= ~m]. *)
Definition b2z (b : bool) : Z := if b then 1 else 0.
Definition has (f m : Z) : bool := negb (Z.land f m =? 0).
Definition setf (f m : Z) : Z := Z.lor f m.
Definition clrf (f m : Z) : Z := Z.ldiff f m.

Lemma has_setf f m x : Z.land m x = 0 → has (setf f m) x = has f x.
Proof. intros E. unfold has, setf. by rewrite Z.land_lor_distr_l, E, Z.lor_0_r. Qed.
Lemma has_clrf_mono f m x : has f x = false → has (clrf f m) x = false.
Proof.
  unfold has, clrf. intros E%negb_false_iff%Z.eqb_eq. apply negb_false_iff, Z.eqb_eq.
  apply Z.bits_inj'. intros n Hn. apply (f_equal (λ z, Z.testbit z n)) in E.
  rewrite Z.land_spec, ?Z.ldiff_spec, ?Z.bits_0 in *. by destruct (Z.testbit f n), (Z.testbit x n), (Z.testbit m n).
Qed.
Lemma has_clrf_self f m : has (clrf f m) m = false.
Proof.
  apply negb_false_iff, Z.eqb_eq, Z.bits_inj'. intros n Hn. unfold clrf.
  rewrite Z.land_spec, Z.ldiff_spec, Z.bits_0. by destruct (Z.testbit f n), (Z.testbit m n).
Qed.
Lemma has_clrf_disj f m x : Z.land m x = 0 → has (clrf f m) x = has f x.
Proof.
  intros E. unfold has, clrf. f_equal. f_equal. apply Z.bits_inj'. intros n Hn.
  apply (f_equal (λ z, Z.testbit z n)) in E. rewrite Z.bits_0 in E.
  rewrite !Z.land_spec, Z.ldiff_spec in *. by destruct (Z.testbit f n), (Z.testbit x n), (Z.testbit m n).
Qed.

Lemma has_setf_self f m : m ≠ 0 → has (setf f m) m = true.
Proof.
  intros Hm. unfold has, setf. rewrite Z.land_lor_distr_l, Z.land_diag.
  apply negb_true_iff, Z.eqb_neq. intros E. apply Hm. apply Z.bits_inj'. intros n Hn.
  apply (f_equal (λ z, Z.testbit z n)) in E. rewrite Z.lor_spec, Z.bits_0 in *.
  by destruct (Z.testbit m n), (Z.testbit (Z.land f m) n).
Qed.

Lemma u32_small z : 0 ≤ z < 2 ^ 32 → u32 z = z.
Proof. apply Z.mod_small. Qed.
Lemma u32_range z : 0 ≤ u32 z < 2 ^ 32.
Proof. apply Z.mod_pos_bound. lia. Qed.
Lemma i32_small z : - 2 ^ 31 ≤ z < 2 ^ 31 → i32 z = z.
Proof. intros. unfold i32. rewrite Z.mod_small; lia. Qed.
Lemma i32_range z : - 2 ^ 31 ≤ i32 z < 2 ^ 31.
Proof. unfold i32. pose proof (Z.mod_pos_bound (z + 2 ^ 31) (2 ^ 32)). lia. Qed.
Lemma u8_range z : 0 ≤ u8 z < 2 ^ 8.
Proof. apply Z.mod_pos_bound. lia. Qed.
Lemma u8_small z : 0 ≤ z < 2 ^ 8 → u8 z = z.
Proof. apply Z.mod_small. Qed.
Lemma i8_small z : - 2 ^ 7 ≤ z < 2 ^ 7 → i8 z = z.
Proof. intros. unfold i8. rewrite Z.mod_small; lia. Qed.

(** * Record field updates: [s <| field := v |>] *)

Class Fields (R : Type) := fields_of : R → R.
Class Updates {R E : Type} (get : R → E) := upd : (E → E) → R → R.
Arguments upd {R E} get {_} _ _.

Ltac find_updates get :=
  lazymatch type of get with
  | ?R → ?E =>
    let inst := constr:(ltac:(let i := constr:(_ : Fields R) in exact i)) in
    let body := eval hnf in inst in
    lazymatch eval pattern get in body with
    | ?F _ =>
      let r := eval cbv beta in (fun f : E → E => F (fun r : R => f (get r))) in
      exact r
    end
  end.
#[export] Hint Extern 1 (Updates ?get) => find_updates get : typeclass_instances.

Declare Scope kern_scope.
Delimit Scope kern_scope with kern.
Notation "s <| f := v |>" := (upd f (fun _ => v) s)
  (at level 12, left associativity, f at level 9) : kern_scope.
Notation "s <| f ::= v |>" := (upd f v s)
  (at level 12, left associativity, f at level 9) : kern_scope.
#[global] Open Scope kern_scope.

(** * The kernel monad: state, panic, sleep and memory faults *)

(** What a sleeping process waits on: the kernel's sleep channels are
    addresses of objects; here, the object's name and an index. *)
Inductive wchan := WChan (obj : string) (idx : Z).
#[export] Instance wchan_eq_dec : EqDecision wchan.
Proof. solve_decision. Defined.

Inductive res (S A : Type) : Type :=
  | Done (a : A) (s : S)          (** returned [a] in state [s] *)
  | Panicked (msg : string)       (** called [panic] *)
  | Asleep (c : wchan) (s : S)    (** blocked in [sleep] on [c] *)
  | Faulted                       (** touched memory outside any object *)
  | NoFuel.                       (** the model's iteration bound was too small *)
Arguments Done {S A} _ _.
Arguments Panicked {S A} _.
Arguments Asleep {S A} _ _.
Arguments Faulted {S A}.
Arguments NoFuel {S A}.

Definition M (S A : Type) : Type := S → res S A.

#[export] Instance M_ret S : MRet (M S) := λ A a s, Done a s.
#[export] Instance M_bind S : MBind (M S) := λ A B k m s,
  match m s with
  | Done a s' => k a s'
  | Panicked msg => Panicked msg
  | Asleep c s' => Asleep c s'
  | Faulted => Faulted
  | NoFuel => NoFuel
  end.

Section monad.
Context {S : Type}.
Definition get_s : M S S := λ s, Done s s.
Definition gets {A} (f : S → A) : M S A := λ s, Done (f s) s.
Definition modify (f : S → S) : M S unit := λ s, Done tt (f s).
Definition panic {A} (msg : string) : M S A := λ _, Panicked msg.
Definition asleep {A} (c : wchan) : M S A := λ s, Asleep c s.
Definition fault {A} : M S A := λ _, Faulted.
Definition nofuel {A} : M S A := λ _, NoFuel.
Definition unless_none {A} (o : option A) : M S A :=
  match o with Some a => mret a | None => fault end.
Definition when (b : bool) (m : M S unit) : M S unit := if b then m else mret tt.

Lemma bind_done {A B} (m : M S A) (k : A → M S B) s a s' :
  m s = Done a s' → (m ≫= k) s = k a s'.
Proof. unfold mbind, M_bind. by intros ->. Qed.
Lemma bind_assoc {A B C} (m : M S A) (f : A → M S B) (g : B → M S C) s :
  ((m ≫= f) ≫= g) s = (m ≫= (λ a, f a ≫= g)) s.
Proof. unfold mbind, M_bind. by destruct (m s). Qed.
Lemma bind_inv {A B} (m : M S A) (k : A → M S B) s b s' :
  (m ≫= k) s = Done b s' → ∃ a s1, m s = Done a s1 ∧ k a s1 = Done b s'.
Proof. unfold mbind, M_bind. destruct (m s); naive_solver. Qed.
Lemma get_s_eq (s : S) : get_s s = Done s s.
Proof. done. Qed.
Lemma gets_eq {A} (f : S → A) (s : S) : gets f s = Done (f s) s.
Proof. done. Qed.
Lemma modify_eq (f : S → S) (s : S) : modify f s = Done tt (f s).
Proof. done. Qed.
Lemma mret_eq {A} (a : A) (s : S) : mret (M := M S) a s = Done a s.
Proof. done. Qed.
End monad.

(** Run the first action of a bind in the goal by a lemma about it. *)
Tactic Notation "mstep" uconstr(lem) :=
  etrans; [eapply bind_done; eapply lem|]; cbv beta.

(** Unfold the monad's plumbing in a goal or hypotheses. *)
Ltac m_unfold :=
  unfold when, gets, get_s, modify, unless_none, panic, asleep, fault, nofuel,
    mret, M_ret, mbind, M_bind in *; cbn beta iota in *.

(** * Lists as arrays: reading and writing the slot between a prefix and the
    rest *)

Lemma lookup_mid {A} (l1 l2 : list A) x n :
  n = length l1 → (l1 ++ x :: l2) !! n = Some x.
Proof. intros ->. by rewrite lookup_app_r, Nat.sub_diag by lia. Qed.

Lemma insert_mid {A} (l1 l2 : list A) x y n :
  n = length l1 → <[n := y]> (l1 ++ x :: l2) = l1 ++ y :: l2.
Proof. intros ->. by rewrite insert_app_r_alt, Nat.sub_diag by lia. Qed.

Lemma lookup_mid_S {A} (l1 l2 : list A) x y n :
  n = length l1 → (l1 ++ x :: y :: l2) !! S n = Some y.
Proof.
  intros ->. change (x :: y :: l2) with ([x] ++ y :: l2).
  rewrite app_assoc. apply lookup_mid. rewrite length_app. simpl. lia.
Qed.

Lemma snoc_app {A} (l1 l2 : list A) x : l1 ++ x :: l2 = (l1 ++ [x]) ++ l2.
Proof. by rewrite <- app_assoc. Qed.

(** Goals on lengths of concatenations. *)
Ltac len := repeat progress (simpl; rewrite ?length_app, ?length_insert in *); simpl in *; lia.

Lemma filter_all {A} (P : A → Prop) `{!∀ x, Decision (P x)} l :
  Forall P l → filter P l = l.
Proof.
  induction 1 as [|x l Hx _ IH]; [done|]. by rewrite filter_cons_True, IH.
Qed.
