(* ===== verification/Buf.v ===== *)
(** Buffer headers and their queues (sys/buf.h): the store of headers, its
    typed pointers, and the list a chain of links spells. *)
From S2P Require Import Prelude.

(** The objects a [struct buf *] points at: a buffer of the pool, a hash head
    ([bufhash]), a free-list head ([bfreelist]) or a driver's queue head. *)
Inductive bptr := BufP (n : nat) | HashP (n : nat) | FreeP (n : nat) | DrvP (n : nat).
#[export] Instance bptr_eq_dec : EqDecision bptr.
Proof. solve_decision. Defined.
#[export] Instance bptr_countable : Countable bptr.
Proof.
  refine (inj_countable'
    (λ p, match p with
          | BufP n => (0%nat, n) | HashP n => (1%nat, n)
          | FreeP n => (2%nat, n) | DrvP n => (3%nat, n) end)
    (λ q, match q with
          | (0%nat, n) => BufP n | (1%nat, n) => HashP n
          | (2%nat, n) => FreeP n | (_, n) => DrvP n end) _).
  by intros [].
Defined.

(** [struct buf]. [b_addr] is the core block's address; [b_resid] is also
    [b_cylin], [av_forw] and [av_back] are also [b_actf] and [b_actl]. *)
Record buf := MkBuf {
  b_flags : Z;
  b_forw : option bptr;
  b_back : option bptr;
  av_forw : option bptr;
  av_back : option bptr;
  b_bcount : Z;
  b_error : Z;
  b_dev : Z;
  b_addr : Z;
  b_blkno : Z;
  b_resid : Z;
}.
#[export] Instance buf_fields : Fields buf :=
  λ b, MkBuf (b_flags b) (b_forw b) (b_back b) (av_forw b) (av_back b) (b_bcount b)
    (b_error b) (b_dev b) (b_addr b) (b_blkno b) (b_resid b).

Definition B_WRITE : Z := 0x00000.
Definition B_READ : Z := 0x00001.
Definition B_DONE : Z := 0x00002.
Definition B_ERROR : Z := 0x00004.
Definition B_BUSY : Z := 0x00008.
Definition B_PHYS : Z := 0x00010.
Definition B_WANTED : Z := 0x00040.
Definition B_AGE : Z := 0x00080.
Definition B_ASYNC : Z := 0x00100.
Definition B_DELWRI : Z := 0x00200.
Definition B_TAPE : Z := 0x00400.
Definition B_INVAL : Z := 0x00800.
Definition B_LOCKED : Z := 0x02000.
Definition B_RAMREMAP : Z := 0x08000.
Definition NODEV : Z := -1.
Definition BUFHSZ : nat := 16.
Definition BQUEUES : nat := 3.
Definition BQ_LOCKED : nat := 0.
Definition BQ_LRU : nat := 1.
Definition BQ_AGE : nat := 2.
Definition DEV_BSIZE : Z := 1024.

Notation b_actf := av_forw (only parsing).
Notation b_actl := av_back (only parsing).
Notation b_cylin := b_resid (only parsing).

Notation bufs := (gmap bptr buf).

(** Dereferencing and storing through a [struct buf *]. *)
Definition rd (p : bptr) : M bufs buf := λ s,
  match s !! p with Some b => Done b s | None => Faulted end.
Definition wr (p : bptr) (f : buf → buf) : M bufs unit := λ s,
  match s !! p with Some b => Done tt (<[p := f b]> s) | None => Faulted end.
