(* ===== verification/Rmap.v ===== *)
(** Resource maps (kern/subr_rmap.c, sys/map.h): the first-fit allocator of
    swap space. *)
From S2P Require Import Prelude.

(** [struct mapent]: one free segment. *)
Record mapent := MkEnt { m_size : Z; m_addr : Z }.
#[export] Instance mapent_fields : Fields mapent :=
  λ r, MkEnt (m_size r) (m_addr r).

(** [struct map]: the slot array, the index [m_limit - m_map], and the
    overflow warnings printed so far as (size, addr) pairs. *)
Record rmap := MkMap {
  m_map : list mapent;
  m_limit : nat;
  m_log : list (Z * Z);
}.
#[export] Instance rmap_fields : Fields rmap :=
  λ r, MkMap (m_map r) (m_limit r) (m_log r).

Module Rmap.
Section rmap.
Context `{KConfig}.

(** Reads and writes of a slot; a slot outside the array is a fault. *)
Definition ent (i : nat) : M rmap mapent :=
  λ m, match m_map m !! i with Some e => Done e m | None => Faulted end.
Definition put (i : nat) (e : mapent) : M rmap unit :=
  λ m, if decide (i < length (m_map m))%nat
       then Done tt (m <| m_map ::= <[i := e]> |>) else Faulted.

(** [for (ep = bp;; ++ep) { *ep = *++bp; if (!bp->m_size) break; }] *)
Fixpoint malloc_shift (fuel ep : nat) : M rmap unit :=
  match fuel with
  | O => nofuel
  | S fuel =>
    e ← ent (S ep);
    put ep e ;;
    if m_size e =? 0 then mret tt else malloc_shift fuel (S ep)
  end.

(** The first-fit scan of [malloc], from slot [bp]. *)
Fixpoint malloc_scan (fuel bp : nat) (size : Z) : M rmap Z :=
  match fuel with
  | O => nofuel
  | S fuel =>
    e ← ent bp;
    if m_size e =? 0 then mret 0
    else if m_size e >=? size then
      let addr := m_addr e in
      let left := u32 (m_size e - size) in
      put bp (e <| m_size := left |>) ;;
      (if left =? 0 then
         m ← get_s;
         malloc_shift (length (m_map m)) bp
       else put bp (MkEnt left (u32 (m_addr e + size)))) ;;
      mret addr
    else malloc_scan fuel (S bp) size
  end.

Definition malloc (size : Z) : M rmap Z :=
  if size =? 0 then panic "malloc: size = 0"
  else m ← get_s; malloc_scan (length (m_map m)) 0 size.

(** [while (bp->m_size && bp->m_addr <= addr) ++bp;] *)
Fixpoint mfree_find (fuel bp : nat) (addr : Z) : M rmap nat :=
  match fuel with
  | O => nofuel
  | S fuel =>
    e ← ent bp;
    if negb (m_size e =? 0) && (m_addr e <=? addr)
    then mfree_find fuel (S bp) addr else mret bp
  end.

(** [do { *++ep = *++bp; } while (bp->m_size);] *)
Fixpoint mfree_squeeze (fuel ep bp : nat) : M rmap unit :=
  match fuel with
  | O => nofuel
  | S fuel =>
    e ← ent (S bp);
    put (S ep) e ;;
    if m_size e =? 0 then mret tt else mfree_squeeze fuel (S ep) (S bp)
  end.

(** [for (start = bp; bp->m_size; ++bp);] *)
Fixpoint mfree_end (fuel bp : nat) : M rmap nat :=
  match fuel with
  | O => nofuel
  | S fuel =>
    e ← ent bp;
    if m_size e =? 0 then mret bp else mfree_end fuel (S bp)
  end.

(** [for (ep = bp - 1; ep >= start; *bp-- = *ep--);], [n] slots moved up,
    the last of them from [ep]. *)
Fixpoint mfree_slide (n ep : nat) : M rmap unit :=
  match n with
  | O => mret tt
  | S n => e ← ent ep; put (S ep) e ;; mfree_slide n (pred ep)
  end.

(** The tail of [mfree], when nothing abuts on the left: join the piece at
    [bp] or open a slot for a new piece, warning on overflow. *)
Definition mfree_right (fuel : nat) (size addr : Z) (bp : nat) : M rmap unit :=
  eb ← ent bp;
  if negb (m_size eb =? 0) && (u32 (addr + size) >=? m_addr eb) then
    if DIAGNOSTIC && (u32 (addr + size) >? m_addr eb)
    then panic "mfree overlap #3"
    else put bp (MkEnt (u32 (m_size eb + size)) addr)
  else
    let start := bp in
    bp ← mfree_end fuel bp;
    m ← get_s;
    if decide (m_limit m < S bp)%nat then modify (λ m, m <| m_log ::= cons (size, addr) |>)
    else mfree_slide (S bp - start) bp ;; put start (MkEnt size addr).

Definition mfree (size addr : Z) : M rmap unit :=
  if size =? 0 then mret tt
  else if addr =? 0 then panic "mfree: addr = 0"
  else
    m ← get_s;
    let fuel := length (m_map m) in
    bp ← mfree_find fuel 0 addr;
    match bp with
    | O => mfree_right fuel size addr bp
    | S ep =>
      e ← ent ep;
      if u32 (m_addr e + m_size e) >=? addr then
        (* a piece on the left abuts us: combine with it *)
        if DIAGNOSTIC && (u32 (m_addr e + m_size e) >? addr)
        then panic "mfree overlap #1"
        else
          put ep (e <| m_size := u32 (m_size e + size) |>) ;;
          eb ← ent bp;
          if negb (m_size eb =? 0) && (u32 (addr + size) >=? m_addr eb) then
            if DIAGNOSTIC && (u32 (addr + size) >? m_addr eb)
            then panic "mfree overlap #2"
            else
              e ← ent ep;
              put ep (e <| m_size := u32 (m_size e + m_size eb) |>) ;;
              mfree_squeeze fuel ep bp
          else mret tt
      else mfree_right fuel size addr bp
    end.

(** The locals of [malloc3]: [madd], [found] and [remap]. *)
Record m3 := MkM3 { madd : list (option nat); found : nat; remap : option nat }.

(** The body of the scan of [malloc3] for one [next]; [true] is the jump to
    [resolve]. *)
Definition malloc3_try (sizes : list Z) (bp next : nat) (l : m3) : M rmap (bool * m3) :=
  e ← ent bp;
  ad ← unless_none (madd l !! next);
  sz ← unless_none (sizes !! next);
  match ad with
  | None =>
    if sz <=? m_size e then
      let left := u32 (m_size e - sz) in
      put bp (e <| m_size := left |>) ;;
      let l' := MkM3 (<[next := Some bp]> (madd l)) (S (found l))
                  (match remap l with
                   | None => if left =? 0 then Some bp else None
                   | Some r => Some r
                   end) in
      mret (bool_decide (found l' = 3%nat), l')
    else mret (false, l)
  | Some _ => mret (false, l)
  end.

(** [for (next = 0; next < 3; ++next)] at one slot. *)
Definition malloc3_slot (sizes : list Z) (bp : nat) (l : m3) : M rmap (bool * m3) :=
  '(b, l) ← malloc3_try sizes bp 0 l;
  if (b : bool) then mret (true, l) else
  '(b, l) ← malloc3_try sizes bp 1 l;
  if (b : bool) then mret (true, l) else
  malloc3_try sizes bp 2 l.

Fixpoint malloc3_scan (fuel bp : nat) (sizes : list Z) (l : m3) : M rmap (bool * m3) :=
  match fuel with
  | O => nofuel
  | S fuel =>
    e ← ent bp;
    if m_size e =? 0 then mret (false, l)
    else
      '(b, l) ← malloc3_slot sizes bp l;
      if (b : bool) then mret (true, l) else malloc3_scan fuel (S bp) sizes l
  end.

(** Couldn't get it all: [madd[next]->m_size += sizes[next]]. *)
Definition malloc3_restore (ad : option nat) (sz : Z) : M rmap unit :=
  match ad with
  | None => mret tt
  | Some bp => e ← ent bp; put bp (e <| m_size := u32 (m_size e + sz) |>)
  end.

(** Got it all: [a[next] = bp->m_addr; bp->m_addr += sizes[next];]. *)
Definition malloc3_resolve (ad : option nat) (sz : Z) : M rmap Z :=
  bp ← unless_none ad;
  e ← ent bp;
  put bp (e <| m_addr := u32 (m_addr e + sz) |>) ;;
  mret (m_addr e).

(** Remove the entries of size 0; address 0 terminates. *)
Fixpoint malloc3_remap (fuel bp rp : nat) : M rmap unit :=
  match fuel with
  | O => nofuel
  | S fuel =>
    e ← ent bp;
    if negb (m_size e =? 0) || (m_addr e =? 0) then
      put rp e ;;
      if m_addr e =? 0 then mret tt else malloc3_remap fuel (S bp) (S rp)
    else malloc3_remap fuel (S bp) rp
  end.

(** Returns [a[2]] and the array [a]; 0 when the request cannot be met. *)
Definition malloc3 (d_size s_size u_size : Z) : M rmap (Z * list Z) :=
  let sizes := [d_size; s_size; u_size] in
  m ← get_s;
  let fuel := length (m_map m) in
  '(ok, l) ← malloc3_scan fuel 0 sizes (MkM3 [None; None; None] 0 None);
  ad0 ← unless_none (madd l !! 0%nat);
  ad1 ← unless_none (madd l !! 1%nat);
  ad2 ← unless_none (madd l !! 2%nat);
  if (ok : bool) then
    a0 ← malloc3_resolve ad0 d_size;
    a1 ← malloc3_resolve ad1 s_size;
    a2 ← malloc3_resolve ad2 u_size;
    match remap l with
    | Some rp => malloc3_remap fuel (S rp) rp
    | None => mret tt
    end ;;
    mret (a2, [a0; a1; a2])
  else
    malloc3_restore ad0 d_size ;;
    malloc3_restore ad1 s_size ;;
    malloc3_restore ad2 u_size ;;
    mret (0, []).
End rmap.

(** The state after [rminit]-style set-up: a map of [n] slots whose limit
    pointer is slot [lim], holding one free segment. *)
Definition one_seg (n lim : nat) (size addr : Z) : rmap :=
  MkMap (MkEnt size addr :: replicate (pred n) (MkEnt 0 0)) lim [].

(** ** The free space a map describes *)

Definition seg_end (e : mapent) : Z := m_addr e + m_size e.

(** Unit [x] lies in one of the segments. *)
Definition free_in (l : list mapent) (x : Z) : Prop :=
  ∃ e, e ∈ l ∧ m_addr e ≤ x < seg_end e.

(** Segments are non-empty, increasing, separated by gaps, above [lo], and end
    below 2^32. *)
Fixpoint chain (lo : Z) (l : list mapent) : Prop :=
  match l with
  | [] => True
  | e :: l => lo < m_addr e ∧ 0 < m_size e ∧ seg_end e < 2 ^ 32 ∧ chain (seg_end e) l
  end.

(** The map holds the segments [l], then the (0, 0) terminator. *)
Definition holds (m : rmap) (l : list mapent) : Prop :=
  chain 0 l ∧ ∃ tail, m_map m = l ++ MkEnt 0 0 :: tail.

Definition last_end (lo : Z) (l : list mapent) : Z :=
  match last l with Some e => seg_end e | None => lo end.

Lemma last_end_cons lo e l : last_end lo (e :: l) = last_end (seg_end e) l.
Proof. unfold last_end. rewrite last_cons. by destruct (last l). Qed.

Lemma chain_app lo l1 l2 :
  chain lo (l1 ++ l2) ↔ chain lo l1 ∧ chain (last_end lo l1) l2.
Proof.
  revert lo. induction l1 as [|e l1 IH]; intros lo; simpl; [tauto|].
  rewrite last_end_cons, IH. tauto.
Qed.

Lemma chain_weaken lo lo' l : lo' ≤ lo → chain lo l → chain lo' l.
Proof. destruct l; simpl; [tauto|]. intros ? (?&?&?&?). repeat split; trivial; lia. Qed.

Lemma rchain_elem lo l e :
  chain lo l → e ∈ l → lo < m_addr e ∧ 0 < m_size e ∧ seg_end e < 2 ^ 32.
Proof.
  revert lo. induction l as [|e' l IH]; intros lo Hc He.
  { by apply not_elem_of_nil in He. }
  destruct Hc as (?&?&?&Hc). apply elem_of_cons in He as [->|He]; [auto|].
  destruct (IH _ Hc He) as (?&?&?). unfold seg_end in *. auto with lia.
Qed.

Lemma chain_nonzero lo l : chain lo l → Forall (λ e, m_size e ≠ 0) l.
Proof.
  intros Hc. apply Forall_forall. intros e He.
  pose proof (rchain_elem _ _ _ Hc He). lia.
Qed.

Lemma chain_last_end_ge lo l : chain lo l → lo ≤ last_end lo l.
Proof.
  revert lo. induction l as [|e l IH]; intros lo; simpl; [done|].
  rewrite last_end_cons. intros (?&?&?&Hc). apply IH in Hc. unfold seg_end in *. lia.
Qed.

Lemma free_in_app l1 l2 x : free_in (l1 ++ l2) x ↔ free_in l1 x ∨ free_in l2 x.
Proof. unfold free_in. setoid_rewrite elem_of_app. naive_solver. Qed.

Lemma free_in_cons e l x :
  free_in (e :: l) x ↔ m_addr e ≤ x < seg_end e ∨ free_in l x.
Proof. unfold free_in. setoid_rewrite elem_of_cons. naive_solver. Qed.

Lemma free_in_nil x : free_in [] x ↔ False.
Proof. unfold free_in. setoid_rewrite elem_of_nil. naive_solver. Qed.

Lemma chain_free_bound lo l x : chain lo l → free_in l x → lo < x < last_end lo l.
Proof.
  revert lo. induction l as [|e l IH]; intros lo.
  { by rewrite free_in_nil. }
  simpl. rewrite free_in_cons, last_end_cons. intros (?&?&?&Hc) [Hx|Hx].
  - apply chain_last_end_ge in Hc. unfold seg_end in *. lia.
  - specialize (IH _ Hc Hx). unfold seg_end in *. lia.
Qed.

(** ** Slot access in a known array *)
Section access.
Context `{KConfig}.

Lemma ent_mid l1 e l2 lim lg n :
  n = length l1 → ent n (MkMap (l1 ++ e :: l2) lim lg) = Done e (MkMap (l1 ++ e :: l2) lim lg).
Proof. intros Hn. unfold ent. simpl. by rewrite lookup_mid. Qed.

Lemma ent_mid_S l1 x e l2 lim lg n :
  n = length l1 →
  ent (S n) (MkMap (l1 ++ x :: e :: l2) lim lg) = Done e (MkMap (l1 ++ x :: e :: l2) lim lg).
Proof. intros Hn. unfold ent. simpl. by rewrite lookup_mid_S. Qed.

Lemma put_mid l1 e e' l2 lim lg n :
  n = length l1 →
  put n e' (MkMap (l1 ++ e :: l2) lim lg) = Done tt (MkMap (l1 ++ e' :: l2) lim lg).
Proof.
  intros Hn. unfold put. simpl. rewrite decide_True.
  2:{ rewrite length_app. simpl. lia. }
  unfold upd. simpl. by rewrite insert_mid.
Qed.

(** The left shift drops the slot [ep] and leaves the terminator twice. *)
Lemma malloc_shift_spec fuel pre e post t tail lim lg :
  Forall (λ e, m_size e ≠ 0) post → m_size t = 0 → (length post < fuel)%nat →
  malloc_shift fuel (length pre) (MkMap (pre ++ e :: post ++ t :: tail) lim lg)
  = Done tt (MkMap (pre ++ post ++ t :: t :: tail) lim lg).
Proof.
  revert pre e post. induction fuel as [|fuel IH]; intros pre e post Hpost Ht Hlen; [lia|].
  simpl. unfold mbind, M_bind.
  destruct post as [|e' post]; simpl.
  - rewrite snoc_app, ent_mid by (rewrite length_app; simpl; lia).
    rewrite <- snoc_app, put_mid by done. by rewrite Ht.
  - rewrite snoc_app, ent_mid by (rewrite length_app; simpl; lia).
    rewrite <- snoc_app, put_mid by done.
    apply Forall_cons in Hpost as [He' Hpost].
    rewrite (proj2 (Z.eqb_neq _ _) He').
    rewrite (snoc_app pre), (snoc_app pre (post ++ _)).
    replace (S (length pre)) with (length (pre ++ [e'])) by (rewrite length_app; simpl; lia).
    apply IH; [done..|simpl in Hlen; lia].
Qed.
End access.

(** ** The reference allocator on segment lists *)

Fixpoint first_fit (l : list mapent) (size : Z) : option (Z * list mapent) :=
  match l with
  | [] => None
  | e :: l =>
    if size <=? m_size e then
      Some (m_addr e,
            if m_size e =? size then l
            else MkEnt (m_size e - size) (m_addr e + size) :: l)
    else match first_fit l size with
         | Some (a, l') => Some (a, e :: l')
         | None => None
         end
  end.

Lemma first_fit_chain lo l size a l' :
  0 < size → chain lo l → first_fit l size = Some (a, l') → chain lo l'.
Proof.
  intros Hsz. revert lo l'. induction l as [|e l IH]; intros lo l' Hc Hf; [done|].
  simpl in Hc, Hf. destruct Hc as (?&?&?&Hc).
  destruct (Z.leb_spec size (m_size e)).
  - simplify_eq. unfold seg_end in *. destruct (Z.eqb_spec (m_size e) size).
    + by eapply chain_weaken; [|exact Hc]; lia.
    + simpl. unfold seg_end. simpl.
      replace (m_addr e + size + (m_size e - size)) with (m_addr e + m_size e) by lia.
      repeat split; [lia..|done].
  - destruct (first_fit l size) as [[a1 l1]|] eqn:E; [|done]. simplify_eq.
    simpl. eauto.
Qed.

Lemma first_fit_free l size a l' lo x :
  0 < size → chain lo l → first_fit l size = Some (a, l') →
  free_in l x ↔ (a ≤ x < a + size) ∨ free_in l' x.
Proof.
  intros Hsz. revert lo l'. induction l as [|e l IH]; intros lo l' Hc Hf; [done|].
  simpl in Hc, Hf. destruct Hc as (?&?&?&Hc). rewrite free_in_cons.
  destruct (Z.leb_spec size (m_size e)).
  - simplify_eq. unfold seg_end in *. destruct (Z.eqb_spec (m_size e) size).
    + subst. tauto.
    + rewrite free_in_cons. unfold seg_end. simpl.
      assert (∀ P, (m_addr e ≤ x < m_addr e + m_size e ∨ P) ↔
        (m_addr e ≤ x < m_addr e + size ∨ m_addr e + size ≤ x < m_addr e + size + (m_size e - size) ∨ P))
        as Hx; [|apply Hx].
      intros P. split; [|naive_solver lia].
      intros [?|?]; [|tauto]. destruct (Z_lt_dec x (m_addr e + size)); [left; lia|right; left; lia].
  - destruct (first_fit l size) as [[a1 l1]|] eqn:E; [|done]. simplify_eq.
    rewrite free_in_cons. rewrite (IH _ _ Hc eq_refl). tauto.
Qed.

Lemma first_fit_disjoint l size a l' lo x :
  0 < size → chain lo l → first_fit l size = Some (a, l') →
  a ≤ x < a + size → ¬ free_in l' x.
Proof.
  intros Hsz. revert lo l'. induction l as [|e l IH]; intros lo l' Hc Hf Hx Hin; [done|].
  simpl in Hc, Hf. destruct Hc as (?&?&?&Hc).
  destruct (Z.leb_spec size (m_size e)).
  - simplify_eq. destruct (Z.eqb_spec (m_size e) size).
    + apply (chain_free_bound _ _ _ Hc) in Hin. unfold seg_end in *. lia.
    + apply free_in_cons in Hin as [Hin|Hin].
      * unfold seg_end in Hin. simpl in Hin. lia.
      * apply (chain_free_bound _ _ _ Hc) in Hin. unfold seg_end in *. lia.
  - destruct (first_fit l size) as [[a1 l1]|] eqn:E; [|done]. simplify_eq.
    apply free_in_cons in Hin as [Hin|Hin].
    + assert (free_in l x) as Hl by (rewrite (first_fit_free l size a l1 (seg_end e) x); auto).
      apply (chain_free_bound _ _ _ Hc) in Hl. unfold seg_end in *. lia.
    + eapply IH; eauto.
Qed.

Lemma first_fit_none l size :
  first_fit l size = None ↔ Forall (λ e, m_size e < size) l.
Proof.
  induction l as [|e l IH]; simpl; [by split|].
  rewrite Forall_cons. destruct (Z.leb_spec size (m_size e)).
  - split; [done|lia].
  - destruct (first_fit l size) as [[??]|]; naive_solver.
Qed.

Lemma first_fit_addr_pos lo l size a l' :
  0 ≤ lo → chain lo l → first_fit l size = Some (a, l') → lo < a.
Proof.
  revert lo l'. induction l as [|e l IH]; intros lo l' Hlo Hc Hf; [done|].
  simpl in Hc, Hf. destruct Hc as (?&?&?&Hc).
  destruct (size <=? m_size e); [by simplify_eq|].
  destruct (first_fit l size) as [[a1 l1]|] eqn:E; [|done]. simplify_eq.
  assert (seg_end e < a) by (eapply IH; [|exact Hc|done]; unfold seg_end; lia).
  unfold seg_end in *. lia.
Qed.

Section refine.
Context `{KConfig}.

Lemma malloc_scan_spec fuel pre l tail lim lg size lo :
  0 ≤ lo → chain lo l → 0 < size → (length l < fuel)%nat →
  ∃ tail',
  malloc_scan fuel (length pre) size (MkMap (pre ++ l ++ MkEnt 0 0 :: tail) lim lg) =
  match first_fit l size with
  | Some (a, l') => Done a (MkMap (pre ++ l' ++ MkEnt 0 0 :: tail') lim lg)
  | None => Done 0 (MkMap (pre ++ l ++ MkEnt 0 0 :: tail) lim lg)
  end ∧
  match first_fit l size with
  | Some (a, l') => length l' + length tail' = length l + length tail
  | None => True
  end%nat.
Proof.
  revert pre l lo. induction fuel as [|fuel IH]; intros pre l lo Hlo Hc Hsz Hlen; [lia|].
  simpl. unfold mbind, M_bind. destruct l as [|e l]; simpl.
  { rewrite ent_mid by done. by exists []. }
  rewrite ent_mid by done. simpl in Hc. destruct Hc as (?&?&?&Hc).
  destruct (Z.eqb_spec (m_size e) 0); [lia|].
  unfold Z.geb, Z.leb. rewrite (Z.compare_antisym (m_size e) size).
  destruct (Z.compare_spec (m_size e) size) as [Heq|Hlt|Hgt]; simpl.
  - rewrite Heq, Z.sub_diag. rewrite put_mid by done. simpl.
    unfold get_s. simpl. rewrite Z.eqb_refl.
    rewrite malloc_shift_spec; [eexists; split; [done|simpl; lia]|by eapply chain_nonzero|done|].
    simpl. rewrite !length_app. simpl. rewrite length_app. lia.
  - rewrite (snoc_app pre).
    replace (S (length pre)) with (length (pre ++ [e])) by (rewrite length_app; simpl; lia).
    assert (0 ≤ seg_end e) as He by (unfold seg_end; lia).
    destruct (IH (pre ++ [e]) l (seg_end e) He Hc Hsz ltac:(simpl in Hlen; lia)) as [tail' [-> Hl]].
    destruct (first_fit l size) as [[a l']|]; [|by exists tail].
    exists tail'. rewrite <- snoc_app. split; [done|simpl; lia].
  - unfold seg_end in *.
    rewrite u32_small by lia. destruct (Z.eqb_spec (m_size e - size) 0); [lia|].
    destruct (Z.eqb_spec (m_size e) size); [lia|].
    rewrite put_mid, put_mid by done. simpl. rewrite u32_small by lia. by exists tail.
Qed.

(** [malloc] on the slot array computes first fit on the segments. *)
Lemma malloc_refines m l size :
  holds m l → 0 < size →
  ∃ m', m_limit m' = m_limit m ∧ m_log m' = m_log m ∧
  length (m_map m') = length (m_map m) ∧
  match first_fit l size with
  | Some (a, l') => malloc size m = Done a m' ∧ holds m' l'
  | None => malloc size m = Done 0 m' ∧ m' = m
  end.
Proof.
  intros [Hc [tail Ht]] Hsz. destruct m as [arr lim lg]. simpl in Ht. subst arr.
  unfold malloc. destruct (Z.eqb_spec size 0); [lia|].
  unfold mbind, M_bind, get_s. cbv beta iota. simpl m_map.
  destruct (malloc_scan_spec (length (l ++ MkEnt 0 0 :: tail)) [] l tail lim lg size 0)
    as [tail' [Hs Hl]]; [done..|rewrite length_app; simpl; lia|].
  simpl in Hs. rewrite Hs.
  destruct (first_fit l size) as [[a l']|] eqn:E.
  - exists (MkMap (l' ++ MkEnt 0 0 :: tail') lim lg). simpl. do 2 (split; [done|]).
    split; [rewrite !length_app; simpl; lia|]. split; [done|]. split.
    + by eapply first_fit_chain.
    + by exists tail'.
  - by eexists.
Qed.
End refine.

(** ** The reference release: insert and coalesce *)

Fixpoint give (l : list mapent) (size addr : Z) : list mapent :=
  match l with
  | [] => [MkEnt size addr]
  | e :: l =>
    if addr + size <? m_addr e then MkEnt size addr :: e :: l
    else if addr + size =? m_addr e then MkEnt (m_size e + size) addr :: l
    else if seg_end e =? addr then
      match l with
      | e' :: l' =>
        if addr + size =? m_addr e' then MkEnt (m_size e + size + m_size e') (m_addr e) :: l'
        else MkEnt (m_size e + size) (m_addr e) :: l
      | [] => [MkEnt (m_size e + size) (m_addr e)]
      end
    else e :: give l size addr
  end.

(** The units [addr, addr + size) are all allocated. *)
Definition taken (l : list mapent) (size addr : Z) : Prop :=
  ∀ x, addr ≤ x < addr + size → ¬ free_in l x.

Lemma taken_cons e l size addr :
  0 < size → 0 < m_size e → taken (e :: l) size addr →
  (addr + size ≤ m_addr e ∨ seg_end e ≤ addr) ∧ taken l size addr.
Proof.
  intros Hsz He Ht. split.
  - destruct (Z_le_dec (addr + size) (m_addr e)); [by left|].
    destruct (Z_le_dec (seg_end e) addr); [by right|]. exfalso.
    apply (Ht (Z.max addr (m_addr e))); [lia|].
    apply free_in_cons. left. unfold seg_end in *. lia.
  - intros x Hx Hf. apply (Ht x Hx), free_in_cons. by right.
Qed.

Lemma give_chain lo l size addr :
  0 < size → lo < addr → addr + size < 2 ^ 32 → chain lo l → taken l size addr →
  chain lo (give l size addr).
Proof.
  intros Hsz Hlo Hlim. revert lo Hlo. induction l as [|e l IH]; intros lo Hlo Hc Ht.
  { simpl. unfold seg_end. simpl. lia. }
  simpl in Hc. destruct Hc as (He1&He2&He3&Hc).
  destruct (taken_cons _ _ _ _ Hsz He2 Ht) as [Hd Htl].
  simpl. destruct (Z.ltb_spec (addr + size) (m_addr e)).
  { simpl. unfold seg_end in *. simpl. repeat split; [lia..|done]. }
  destruct (Z.eqb_spec (addr + size) (m_addr e)).
  { simpl. unfold seg_end in *. simpl.
    replace (addr + (m_size e + size)) with (m_addr e + m_size e) by lia.
    repeat split; [lia..|done]. }
  destruct Hd as [Hd|Hd]; [lia|].
  destruct (Z.eqb_spec (seg_end e) addr).
  - destruct l as [|e' l]; [simpl; unfold seg_end in *; simpl; lia|].
    simpl in Hc. destruct Hc as (?&He2'&?&Hc).
    destruct (taken_cons _ _ _ _ Hsz He2' Htl) as [Hd' _].
    destruct (Z.eqb_spec (addr + size) (m_addr e')); simpl; unfold seg_end in *; simpl.
    + replace (m_addr e + (m_size e + size + m_size e')) with (m_addr e' + m_size e') by lia.
      repeat split; [lia..|done].
    + repeat split; [lia..|done].
  - simpl. unfold seg_end in *. repeat split; [lia..|]. apply IH; [lia|done..].
Qed.

Lemma give_free l size addr lo x :
  0 < size → chain lo l → taken l size addr →
  free_in (give l size addr) x ↔ addr ≤ x < addr + size ∨ free_in l x.
Proof.
  intros Hsz. revert lo. induction l as [|e l IH]; intros lo Hc Ht.
  { simpl. rewrite free_in_cons, free_in_nil. unfold seg_end. simpl. tauto. }
  simpl in Hc. destruct Hc as (He1&He2&He3&Hc).
  destruct (taken_cons _ _ _ _ Hsz He2 Ht) as [Hd Htl].
  simpl. destruct (Z.ltb_spec (addr + size) (m_addr e)).
  { by rewrite (free_in_cons (MkEnt _ _)). }
  destruct (Z.eqb_spec (addr + size) (m_addr e)).
  { rewrite !free_in_cons. unfold seg_end. simpl.
    assert (addr ≤ x < addr + (m_size e + size) ↔
      addr ≤ x < addr + size ∨ m_addr e ≤ x < m_addr e + m_size e) as -> by lia. tauto. }
  destruct Hd as [Hd|Hd]; [lia|].
  destruct (Z.eqb_spec (seg_end e) addr).
  - destruct l as [|e' l].
    { rewrite !free_in_cons, free_in_nil. unfold seg_end in *. simpl. lia. }
    simpl in Hc. destruct Hc as (?&He2'&?&Hc).
    destruct (Z.eqb_spec (addr + size) (m_addr e')); rewrite !free_in_cons; unfold seg_end in *; simpl.
    + assert (m_addr e ≤ x < m_addr e + (m_size e + size + m_size e') ↔
       addr ≤ x < addr + size ∨ m_addr e ≤ x < m_addr e + m_size e ∨
       m_addr e' ≤ x < m_addr e' + m_size e') as -> by lia. tauto.
    + assert (m_addr e ≤ x < m_addr e + (m_size e + size) ↔
       addr ≤ x < addr + size ∨ m_addr e ≤ x < m_addr e + m_size e) as -> by lia. tauto.
  - rewrite !free_in_cons, (IH _ Hc Htl). tauto.
Qed.

(** Releasing what first fit returned gives back the very same segments. *)
Lemma give_first_fit lo l size a l' :
  0 ≤ lo → 0 < size → chain lo l → first_fit l size = Some (a, l') → give l' size a = l.
Proof.
  intros Hlo Hsz. revert lo l' Hlo. induction l as [|e l IH]; intros lo l' Hlo Hc Hf; [done|].
  simpl in Hc, Hf. destruct Hc as (?&?&?&Hc).
  destruct (Z.leb_spec size (m_size e)).
  - simplify_eq. destruct (Z.eqb_spec (m_size e) size) as [Heq|].
    + destruct l as [|e' l]; simpl.
      { subst. by destruct e. }
      simpl in Hc. destruct Hc as (?&?&?&_). unfold seg_end in *.
      destruct (Z.ltb_spec (m_addr e + size) (m_addr e')); [subst; by destruct e|lia].
    + simpl. destruct (Z.ltb_spec (m_addr e + size) (m_addr e + size)); [lia|].
      rewrite Z.eqb_refl. rewrite Z.sub_add. by destruct e.
  - destruct (first_fit l size) as [[a1 l1]|] eqn:E; [|done]. simplify_eq.
    assert (seg_end e < a) as Hlt.
    { refine (first_fit_addr_pos _ _ _ _ _ _ Hc E). unfold seg_end. lia. }
    simpl. destruct (Z.ltb_spec (a + size) (m_addr e)); [unfold seg_end in *; lia|].
    destruct (Z.eqb_spec (a + size) (m_addr e)); [unfold seg_end in *; lia|].
    destruct (Z.eqb_spec (seg_end e) a); [lia|].
    f_equal. refine (IH _ _ _ Hc eq_refl). unfold seg_end. lia.
Qed.

Lemma give_skip l1 l2 size addr :
  0 < size → Forall (λ e, seg_end e < addr ∧ 0 < m_size e) l1 →
  give (l1 ++ l2) size addr = l1 ++ give l2 size addr.
Proof.
  intros Hsz. induction 1 as [|e l1 [He Hp] _ IH]; [done|]. simpl.
  unfold seg_end in *.
  destruct (Z.ltb_spec (addr + size) (m_addr e)); [lia|].
  destruct (Z.eqb_spec (addr + size) (m_addr e)); [lia|].
  destruct (Z.eqb_spec (m_addr e + m_size e) addr); [lia|]. by rewrite IH.
Qed.

(** Where [mfree]'s search stops: the segments at or below [addr], then those
    above it. *)
Lemma split_at lo l addr :
  chain lo l → ∃ l1 l2, l = l1 ++ l2 ∧ Forall (λ e, m_addr e ≤ addr) l1 ∧
    match l2 with e :: _ => addr < m_addr e | [] => True end.
Proof.
  revert lo. induction l as [|e l IH]; intros lo Hc; [by exists [], []|].
  destruct Hc as (?&?&?&Hc). destruct (Z_le_dec (m_addr e) addr).
  - destruct (IH _ Hc) as (l1&l2&->&Hl1&Hl2). exists (e :: l1), l2.
    split_and!; [done|by constructor|done].
  - exists [], (e :: l). split_and!; [done..|lia].
Qed.

Lemma taken_app l1 l2 size addr :
  taken (l1 ++ l2) size addr → taken l1 size addr ∧ taken l2 size addr.
Proof.
  intros Ht. split; intros x Hx Hf; apply (Ht x Hx), free_in_app; tauto.
Qed.

Section mfree.
Context `{KConfig}.

Lemma mfree_find_spec fuel pre l1 l2 tail lim lg addr :
  Forall (λ e, m_size e ≠ 0 ∧ m_addr e ≤ addr) l1 →
  match l2 with e :: _ => addr < m_addr e | [] => True end →
  (length l1 < fuel)%nat →
  mfree_find fuel (length pre) addr (MkMap (pre ++ l1 ++ l2 ++ MkEnt 0 0 :: tail) lim lg) =
  Done (length (pre ++ l1)) (MkMap (pre ++ l1 ++ l2 ++ MkEnt 0 0 :: tail) lim lg).
Proof.
  revert pre l1. induction fuel as [|fuel IH]; intros pre l1 Hl1 Hl2 Hlen; [lia|].
  simpl. unfold mbind, M_bind. destruct l1 as [|e l1]; simpl.
  - rewrite app_nil_r. destruct l2 as [|e2 l2]; simpl; rewrite ent_mid by done; [done|].
    destruct (Z.leb_spec (m_addr e2) addr); [lia|]. by rewrite andb_false_r.
  - apply Forall_cons in Hl1 as [[He1 He2] Hl1]. rewrite ent_mid by done.
    rewrite (proj2 (Z.eqb_neq _ _) He1), (proj2 (Z.leb_le _ _) He2). simpl.
    rewrite (snoc_app pre).
    replace (S (length pre)) with (length (pre ++ [e])) by (rewrite length_app; simpl; lia).
    rewrite IH by (done || simpl in Hlen; lia). f_equal. by rewrite <- !snoc_app.
Qed.

Lemma mfree_end_spec fuel pre l tail lim lg :
  Forall (λ e, m_size e ≠ 0) l → (length l < fuel)%nat →
  mfree_end fuel (length pre) (MkMap (pre ++ l ++ MkEnt 0 0 :: tail) lim lg) =
  Done (length pre + length l)%nat (MkMap (pre ++ l ++ MkEnt 0 0 :: tail) lim lg).
Proof.
  revert pre l. induction fuel as [|fuel IH]; intros pre l Hl Hlen; [lia|].
  simpl. unfold mbind, M_bind. destruct l as [|e l]; simpl.
  - rewrite ent_mid by done. simpl. by rewrite Nat.add_0_r.
  - apply Forall_cons in Hl as [He Hl]. rewrite ent_mid by done.
    rewrite (proj2 (Z.eqb_neq _ _) He). rewrite (snoc_app pre).
    replace (S (length pre)) with (length (pre ++ [e])) by (rewrite length_app; simpl; lia).
    rewrite IH by (done || simpl in Hlen; lia). f_equal. rewrite length_app. simpl. lia.
Qed.

Lemma mfree_squeeze_spec fuel pre x y l tail lim lg :
  Forall (λ e, m_size e ≠ 0) l → (length l < fuel)%nat →
  mfree_squeeze fuel (length pre) (S (length pre))
    (MkMap (pre ++ x :: y :: l ++ MkEnt 0 0 :: tail) lim lg) =
  Done tt (MkMap (pre ++ x :: l ++ MkEnt 0 0 :: MkEnt 0 0 :: tail) lim lg).
Proof.
  revert pre x y l. induction fuel as [|fuel IH]; intros pre x y l Hl Hlen; [lia|].
  simpl. unfold mbind, M_bind.
  assert (∀ (a b : mapent) q, pre ++ a :: b :: q = ((pre ++ [a]) ++ [b]) ++ q) as Hq
    by (intros; by rewrite <- !app_assoc).
  assert (∀ (a : mapent) q, pre ++ a :: q = (pre ++ [a]) ++ q) as Hq1
    by (intros; by rewrite <- !app_assoc).
  destruct l as [|e l]; simpl.
  - rewrite Hq, ent_mid by (rewrite !length_app; simpl; lia). rewrite <- Hq, Hq1.
    rewrite put_mid by (rewrite !length_app; simpl; lia). simpl. by rewrite <- Hq1.
  - apply Forall_cons in Hl as [He Hl].
    rewrite Hq, ent_mid by (rewrite !length_app; simpl; lia). rewrite <- Hq, Hq1.
    rewrite put_mid by (rewrite !length_app; simpl; lia).
    rewrite (proj2 (Z.eqb_neq _ _) He).
    replace (S (length pre)) with (length (pre ++ [x])) by (rewrite length_app; simpl; lia).
    rewrite IH by (done || simpl in Hlen; lia). by rewrite <- Hq1.
Qed.

Lemma mfree_slide_spec q pre x y tail lim lg :
  mfree_slide (S (length q)) (length pre + length q) (MkMap (pre ++ (x :: q) ++ y :: tail) lim lg)
  = Done tt (MkMap (pre ++ x :: x :: q ++ tail) lim lg).
Proof.
  revert y tail. induction q as [|z q IH] using rev_ind; intros y tail.
  - simpl. unfold mbind, M_bind. rewrite Nat.add_0_r, ent_mid by done.
    rewrite snoc_app, put_mid by (rewrite length_app; simpl; lia). by rewrite <- snoc_app.
  - rewrite length_app, Nat.add_1_r. cbn [mfree_slide]. unfold mbind, M_bind.
    assert (∀ r, pre ++ (x :: q ++ [z]) ++ r = (pre ++ x :: q) ++ z :: r) as Hq
      by (intros; by rewrite <- !app_assoc, <- !app_comm_cons, <- !app_assoc).
    rewrite Hq, ent_mid by (rewrite !length_app; simpl; lia).
    rewrite snoc_app, put_mid by (rewrite !length_app; simpl; lia).
    rewrite <- !app_assoc. simpl.
    replace (pred (length pre + S (length q))) with (length pre + length q)%nat by lia.
    apply (IH z (z :: tail)).
Qed.
End mfree.

Section mfree_refines.
Context `{KConfig}.

Lemma mfree_right_spec fuel pre l2 tail lim lg size addr :
  0 < size → 0 < addr → addr + size < 2 ^ 32 → chain addr l2 → taken l2 size addr →
  (length l2 < fuel)%nat → (lim < length (pre ++ l2 ++ MkEnt 0 0 :: tail))%nat →
  mfree_right fuel size addr (length pre) (MkMap (pre ++ l2 ++ MkEnt 0 0 :: tail) lim lg) =
  let l' := give l2 size addr in
  if decide (length l' ≤ length l2)%nat
  then Done tt (MkMap (pre ++ l' ++ MkEnt 0 0 :: tail) lim lg)
  else if decide (lim < S (length pre + length l2))%nat
  then Done tt (MkMap (pre ++ l2 ++ MkEnt 0 0 :: tail) lim ((size, addr) :: lg))
  else Done tt (MkMap (pre ++ l' ++ MkEnt 0 0 :: list.tail tail) lim lg).
Proof.
  intros Hsz Haddr Hlim Hc Ht Hfuel Hlen.
  assert (∀ q, q = MkEnt size addr :: l2 →
    (if decide (lim < S (length pre + length l2))%nat
     then modify (λ m, m <| m_log ::= cons (size, addr) |>)
     else mfree_slide (S (length pre + length l2) - length pre) (length pre + length l2) ;;
          put (length pre) (MkEnt size addr)) (MkMap (pre ++ l2 ++ MkEnt 0 0 :: tail) lim lg) =
    if decide (lim < S (length pre + length l2))%nat
    then Done tt (MkMap (pre ++ l2 ++ MkEnt 0 0 :: tail) lim ((size, addr) :: lg))
    else Done tt (MkMap (pre ++ q ++ MkEnt 0 0 :: list.tail tail) lim lg)) as Hnew.
  { intros q ->. destruct (decide _) as [|Hroom]; [done|].
    rewrite !length_app in Hlen. simpl in Hlen.
    destruct tail as [|t0 tail]; [simpl in Hlen; lia|].
    replace (S (length pre + length l2) - length pre)%nat with (S (length l2)) by lia.
    destruct l2 as [|e l2].
    - mstep (mfree_slide_spec [] pre (MkEnt 0 0) t0 tail lim lg). by apply put_mid.
    - erewrite bind_done.
      2:{ pose proof (mfree_slide_spec (l2 ++ [MkEnt 0 0]) pre e t0 tail lim lg) as Hs.
          rewrite length_app, Nat.add_1_r in Hs. simpl app in Hs. rewrite <- !app_assoc in Hs.
          exact Hs. }
      by apply put_mid. }
  unfold mfree_right. destruct l2 as [|e l2].
  - mstep ent_mid; [done|]. cbn [m_size m_addr]. rewrite Z.eqb_refl. cbn [negb andb].
    mstep (mfree_end_spec fuel pre []); [constructor|simpl; lia|].
    mstep get_s_eq. etrans; [by apply (Hnew _ eq_refl)|].
    by rewrite (decide_False (P := (length (give [] size addr) ≤ _)%nat)) by (simpl; lia).
  - pose proof (chain_nonzero _ _ Hc) as Hnz.
    simpl in Hc. destruct Hc as (He1&He2&He3&Hc). unfold seg_end in He3.
    destruct (taken_cons _ _ _ _ Hsz He2 Ht) as [[Hd|Hd] _]; [|unfold seg_end in *; lia].
    mstep ent_mid; [done|]. rewrite u32_small by lia.
    simpl give in *. destruct (Z.eqb_spec (m_size e) 0); [lia|]. cbn [negb].
    unfold Z.geb, Z.gtb. destruct (Z.compare_spec (addr + size) (m_addr e)) as [Heq|Hlt|]; [| |lia].
    + rewrite andb_false_r. cbn [andb]. rewrite put_mid by done.
      destruct (Z.ltb_spec (addr + size) (m_addr e)); [lia|].
      rewrite (proj2 (Z.eqb_eq _ _) Heq), u32_small by lia.
      by rewrite decide_True by (simpl; lia).
    + cbn [andb]. mstep (mfree_end_spec fuel pre (e :: l2)); [done..|].
      mstep get_s_eq. rewrite (proj2 (Z.ltb_lt _ _) Hlt). cbv zeta.
      rewrite (decide_False (P := (length (MkEnt size addr :: e :: l2) ≤ _)%nat)) by (simpl; lia).
      by apply Hnew.
Qed.

(** What [mfree] leaves behind, by the reference release. *)
Definition freed (m m' : rmap) (l : list mapent) (size addr : Z) : Prop :=
  m_limit m' = m_limit m ∧ length (m_map m') = length (m_map m) ∧
  let l' := give l size addr in
  if decide (length l' ≤ length l ∨ S (length l) ≤ m_limit m)%nat
  then holds m' l' ∧ m_log m' = m_log m
  else m_map m' = m_map m ∧ m_log m' = (size, addr) :: m_log m.

Lemma freed_intro m lim lg l size addr tail tail' :
  m = MkMap (l ++ MkEnt 0 0 :: tail) lim lg →
  chain 0 (give l size addr) →
  (length (give l size addr) + length tail' = length l + length tail)%nat →
  (length (give l size addr) ≤ length l ∨ S (length l) ≤ lim)%nat →
  freed m (MkMap (give l size addr ++ MkEnt 0 0 :: tail') lim lg) l size addr.
Proof.
  intros -> Hc Hl Hroom. unfold freed. cbv zeta.
  split; [done|]. split; [cbn [m_map]; rewrite !length_app; simpl; lia|].
  rewrite decide_True by done. split; [|done]. split; [done|]. by eexists.
Qed.

Lemma give_right_length l size addr :
  0 < size → chain addr l → taken l size addr →
  (length l ≤ length (give l size addr))%nat.
Proof.
  destruct l as [|e l]; simpl; [lia|]. unfold seg_end. intros Hsz (?&?&?&?) Ht.
  destruct (taken_cons _ _ _ _ Hsz ltac:(eassumption) Ht) as [[Hd|Hd] _];
    [|unfold seg_end in *; lia].
  destruct (Z.ltb_spec (addr + size) (m_addr e)); [simpl; lia|].
  destruct (Z.eqb_spec (addr + size) (m_addr e)); [simpl; lia|lia].
Qed.

Lemma mfree_right_freed fuel l1 l2 tail lim lg size addr m :
  m = MkMap ((l1 ++ l2) ++ MkEnt 0 0 :: tail) lim lg →
  0 < size → 0 < addr → addr + size < 2 ^ 32 → chain addr l2 → taken l2 size addr →
  chain 0 (give (l1 ++ l2) size addr) →
  (length l2 < fuel)%nat → (lim < length (m_map m))%nat →
  give (l1 ++ l2) size addr = l1 ++ give l2 size addr →
  (length (give l2 size addr) ≤ S (length l2))%nat →
  ∃ m', mfree_right fuel size addr (length l1) m = Done tt m' ∧
    freed m m' (l1 ++ l2) size addr.
Proof.
  intros Hm Hsz Haddr Hlim Hc2 Ht2 Hgc Hfuel Hroom Hg Hglen. pose proof Hm as Hm0.
  rewrite <- app_assoc in Hm. subst m. simpl in Hroom.
  assert (∀ r, l1 ++ give l2 size addr ++ r = give (l1 ++ l2) size addr ++ r) as Hgr
    by (intros r; by rewrite Hg, <- app_assoc).
  pose proof (give_right_length _ _ _ Hsz Hc2 Ht2).
  rewrite mfree_right_spec by done. cbv zeta. pose proof Hgc as Hgc'. rewrite Hg in Hgc'.
  destruct (decide _) as [Hle|Hgt]; [|destruct (decide _) as [Hfull|Hok]].
  - eexists. split; [done|]. rewrite Hgr.
    eapply freed_intro; [done..| |]; rewrite Hg, !length_app; lia.
  - eexists. split; [done|]. unfold freed. cbv zeta. split_and!; [done..|].
    rewrite decide_False; [done|].
    rewrite Hg, !length_app. simpl. lia.
  - eexists. split; [done|]. rewrite Hgr.
    assert (tail ≠ []) by (intros ->; rewrite !length_app in Hroom; simpl in Hroom; lia).
    eapply freed_intro; [done..| |]; rewrite Hg, !length_app; [|simpl; lia].
    destruct tail; [done|simpl; lia].
Qed.

Lemma give_length l size addr : (length (give l size addr) ≤ S (length l))%nat.
Proof.
  induction l as [|e l IH]; simpl; [lia|]. destruct (_ <? _); [simpl; lia|].
  destruct (_ =? _); [simpl; lia|]. destruct (_ =? _); [|simpl; lia].
  destruct l as [|e' l']; [simpl; lia|]. destruct (_ =? _); simpl; lia.
Qed.

(** A piece starting at the end of the last segment below it. *)
Lemma mfree_left_freed fuel l1 e l2 tail lim lg size addr m :
  (length l2 < fuel)%nat →
  m = MkMap ((l1 ++ e :: l2) ++ MkEnt 0 0 :: tail) lim lg →
  0 < size → addr + size < 2 ^ 32 → seg_end e = addr → 0 < m_addr e → 0 < m_size e →
  chain addr l2 → taken l2 size addr → chain 0 (give (l1 ++ e :: l2) size addr) →
  Forall (λ e, seg_end e < addr ∧ 0 < m_size e) l1 →
  ∃ m', (put (length l1) (e <| m_size := u32 (m_size e + size) |>) ;;
     eb ← ent (S (length l1));
     if negb (m_size eb =? 0) && (u32 (addr + size) >=? m_addr eb) then
       if DIAGNOSTIC && (u32 (addr + size) >? m_addr eb)
       then panic "mfree overlap #2"
       else
         e ← ent (length l1);
         put (length l1) (e <| m_size := u32 (m_size e + m_size eb) |>) ;;
         mfree_squeeze fuel (length l1) (S (length l1))
     else mret tt) m = Done tt m' ∧ freed m m' (l1 ++ e :: l2) size addr.
Proof.
  intros Hfuel Hm Hsz Hlim Hend Hpos He Hc2 Ht2 Hgc Hl1. pose proof Hm as Hm0.
  rewrite <- app_assoc in Hm. simpl app in Hm.
  assert (give (l1 ++ e :: l2) size addr = l1 ++ give (e :: l2) size addr) as Hg
    by (by apply give_skip).
  simpl give in Hg. unfold seg_end in *.
  destruct (Z.ltb_spec (addr + size) (m_addr e)); [lia|].
  destruct (Z.eqb_spec (addr + size) (m_addr e)); [lia|].
  rewrite (proj2 (Z.eqb_eq _ _) Hend) in Hg.
  rewrite (u32_small (m_size e + size)), (u32_small (addr + size)) by lia.
  unfold upd. cbn [m_addr].
  destruct l2 as [|e2 l2].
  - exists (MkMap (give (l1 ++ [e]) size addr ++ MkEnt 0 0 :: tail) lim lg). split.
    + rewrite Hm. simpl app. mstep put_mid; [done|]. mstep ent_mid_S; [done|].
      rewrite Hg. by rewrite <- app_assoc.
    + eapply freed_intro; [done..| |]; rewrite Hg, ?length_app; simpl; rewrite ?length_app; simpl; lia.
  - simpl in Hc2. destruct Hc2 as (?&He2&?&Hc2). unfold seg_end in *.
    destruct (taken_cons _ _ _ _ Hsz He2 Ht2) as [[Hd|Hd] _]; [|unfold seg_end in *; lia].
    destruct (Z.eqb_spec (addr + size) (m_addr e2)) as [Heq|Hne].
    + exists (MkMap (give (l1 ++ e :: e2 :: l2) size addr ++ MkEnt 0 0 :: MkEnt 0 0 :: tail) lim lg).
      split.
      * rewrite Hm. simpl app. mstep put_mid; [done|]. mstep ent_mid_S; [done|].
        destruct (Z.eqb_spec (m_size e2) 0); [lia|]. cbn [negb andb].
        unfold Z.geb, Z.gtb. rewrite Heq, Z.compare_refl, andb_false_r.
        mstep ent_mid; [done|]. mstep put_mid; [done|]. cbn [m_size m_addr].
        etrans; [apply mfree_squeeze_spec|].
        -- by eapply chain_nonzero.
        -- simpl in Hfuel. lia.
        -- rewrite Hg, <- app_assoc. simpl. rewrite u32_small by lia. done.
      * eapply freed_intro; [done..| |]; rewrite Hg, ?length_app; simpl; rewrite ?length_app; simpl; lia.
    + exists (MkMap (give (l1 ++ e :: e2 :: l2) size addr ++ MkEnt 0 0 :: tail) lim lg). split.
      * rewrite Hm. simpl app. mstep put_mid; [done|]. mstep ent_mid_S; [done|].
        unfold Z.geb. destruct (Z.compare_spec (addr + size) (m_addr e2)); [lia| |lia].
        rewrite andb_false_r. rewrite Hg, <- app_assoc. done.
      * eapply freed_intro; [done..| |]; rewrite Hg, ?length_app; simpl; rewrite ?length_app; simpl; lia.
Qed.

(** [mfree] on the slot array inserts and coalesces on the segments; a piece
    that needs a slot the map does not have is lost with a warning. *)
Lemma mfree_refines m l size addr :
  holds m l → 0 < size → 0 < addr → addr + size < 2 ^ 32 → taken l size addr →
  (m_limit m < length (m_map m))%nat →
  ∃ m', mfree size addr m = Done tt m' ∧ freed m m' l size addr.
Proof.
  intros [Hc [tail Htl]] Hsz Haddr Hlim Ht Hroom.
  pose proof (give_chain _ _ _ _ Hsz Haddr Hlim Hc Ht) as Hgc.
  destruct m as [arr lim lg]. simpl in Htl, Hroom. subst arr.
  destruct (split_at _ _ addr Hc) as (l1&l2&->&Hl1&Hl2).
  pose proof Hc as [Hc1 Hc2]%chain_app.
  destruct (taken_app _ _ _ _ Ht) as [Ht1 Ht2].
  assert (Forall (λ e, m_size e ≠ 0 ∧ m_addr e ≤ addr) l1) as Hl1'.
  { apply Forall_and. split; [by eapply chain_nonzero|done]. }
  assert (chain addr l2) as Hca by (destruct l2; simpl in *; tauto).
  set (m0 := MkMap ((l1 ++ l2) ++ MkEnt 0 0 :: tail) lim lg) in *.
  assert (mfree_find (length (m_map m0)) 0 addr m0 = Done (length l1) m0) as Hfind.
  { subst m0. rewrite <- app_assoc. apply (mfree_find_spec _ []); [done..|].
    simpl. rewrite !length_app. simpl. lia. }
  unfold mfree. destruct (Z.eqb_spec size 0); [lia|]. destruct (Z.eqb_spec addr 0); [lia|].
  setoid_rewrite (bind_done _ _ _ _ _ (get_s_eq m0)).
  setoid_rewrite (bind_done _ _ _ _ _ Hfind).
  pose proof (give_length l2 size addr) as Hgl.
  assert (length l2 < length (m_map m0))%nat as Hfuel
    by (subst m0; simpl; rewrite !length_app; simpl; lia).
  destruct l1 as [|e l1 _] using rev_ind.
  { eapply (mfree_right_freed _ []); done. }
  rewrite length_app, Nat.add_1_r. apply Forall_app in Hl1' as [Hlow [[He1 He2] _]%Forall_cons].
  apply chain_app in Hc1 as [Hc1 (Hlo&Hsz1&Hlim1&_)].
  destruct (taken_app _ _ _ _ Ht1) as [_ Hte].
  destruct (taken_cons _ _ _ _ Hsz Hsz1 Hte) as [[Hd|Hd] _]; [lia|].
  assert (Forall (λ e, seg_end e < addr ∧ 0 < m_size e) l1) as Hskip.
  { apply Forall_forall. intros e' He'. pose proof (rchain_elem _ _ _ Hc1 He') as (?&?&?).
    split; [|done]. cbn in *. assert (free_in l1 (seg_end e' - 1)) as Hf.
    { exists e'. split; [done|]. unfold seg_end. lia. }
    apply (chain_free_bound _ _ _ Hc1) in Hf. lia. }
  pose proof (chain_last_end_ge _ _ Hc1).
  assert (ent (length l1) m0 = Done e m0) as Hent.
  { subst m0. rewrite <- !app_assoc. by apply ent_mid. }
  setoid_rewrite (bind_done _ _ _ _ _ Hent).
  unfold seg_end in Hd, Hlim1. rewrite u32_small by lia.
  destruct (Z.geb_spec (m_addr e + m_size e) addr).
  - destruct (Z.gtb_spec (m_addr e + m_size e) addr); [lia|].
    assert (m0 = MkMap ((l1 ++ e :: l2) ++ MkEnt 0 0 :: tail) lim lg) as Hm0
      by (subst m0; by rewrite <- (app_assoc l1)).
    rewrite andb_false_r. rewrite <- (app_assoc l1) in Hgc, Ht |- *. simpl app in *.
    eapply (mfree_left_freed _ _ _ _ tail lim lg); done || (unfold seg_end; lia).
  - replace (S (length l1)) with (length (l1 ++ [e])) by (rewrite length_app; simpl; lia).
    eapply mfree_right_freed; try done.
    apply give_skip; [done|]. apply Forall_app. split; [done|].
    constructor; [|done]. unfold seg_end. lia.
Qed.
End mfree_refines.

(** ** [malloc3]: three requests carved out of the segments *)

(** Entry [i] of [l] with [f i] units cut off its size and its address moved
    up by [g i]. *)
Definition carve (f g : nat → Z) (l : list mapent) : list mapent :=
  imap (λ i e, MkEnt (m_size e - f i) (m_addr e + g i)) l.

Lemma carve_ext f g f' g' l :
  (∀ i, f i = f' i) → (∀ i, g i = g' i) → carve f g l = carve f' g' l.
Proof. intros Hf Hg. apply imap_ext. intros i e _. by rewrite Hf, Hg. Qed.

Lemma carve_0 l : carve (λ _, 0) (λ _, 0) l = l.
Proof.
  apply list_eq. intros i. unfold carve. rewrite list_lookup_imap.
  destruct (l !! i) as [[sz ad]|]; [|done]. simpl. by rewrite Z.sub_0_r, Z.add_0_r.
Qed.

(** [sz] units of the slot the request was given, if any. *)
Definition cut (ad : option nat) (sz : Z) (i : nat) : Z :=
  if decide (ad = Some i) then sz else 0.

Lemma carve_put f g f' g' l bp e :
  l !! bp = Some e → (∀ i, i ≠ bp → f' i = f i ∧ g' i = g i) →
  <[bp := MkEnt (m_size e - f' bp) (m_addr e + g' bp)]> (carve f g l) = carve f' g' l.
Proof.
  intros He Hf. apply list_eq. intros i. unfold carve.
  rewrite list_lookup_insert. destruct (decide _) as [[<- ?]|Hne]; rewrite !list_lookup_imap.
  - by rewrite He.
  - destruct (decide (i = bp)) as [->|Hi].
    + rewrite He. destruct Hne. split; [done|]. rewrite length_imap.
      by eapply lookup_lt_Some.
    + destruct (l !! i); [|done]. simpl. by destruct (Hf i Hi) as [-> ->].
Qed.

Section malloc3.
Context `{KConfig} (sz : nat → Z) (l tail : list mapent) (lim : nat) (lg : list (Z * Z)).
Context (Hsz : ∀ k, 0 ≤ sz k) (Hl : chain 0 l).

Let sizes : list Z := [sz 0; sz 1; sz 2]%nat.

(** The units taken from slot [i] by the requests placed so far. *)
Definition tot (ad : nat → option nat) (i : nat) : Z :=
  cut (ad 0%nat) (sz 0) i + cut (ad 1%nat) (sz 1) i + cut (ad 2%nat) (sz 2) i.

(** The map with slots carved. *)
Definition cmap (f g : nat → Z) : rmap :=
  MkMap (carve f g l ++ MkEnt 0 0 :: tail) lim lg.

Definition placed (ad : nat → option nat) : nat :=
  length (filter (λ a, is_Some a) [ad 0; ad 1; ad 2]%nat).

(** The invariant of the scan, the slots before [bp] being done. *)
Record scanned (bp : nat) (ad : nat → option nat) (v : m3) : Prop := MkScanned {
  sc_madd : madd v = [ad 0; ad 1; ad 2]%nat;
  sc_found : found v = placed ad;
  sc_slot : ∀ k i, ad k = Some i → (i ≤ bp)%nat ∧ (i < length l)%nat;
  sc_fits : ∀ i e, l !! i = Some e → tot ad i ≤ m_size e;
  sc_remap : match remap v with
    | None => ∀ i e, l !! i = Some e → tot ad i < m_size e
    | Some r => (r ≤ bp)%nat ∧ (∃ e, l !! r = Some e ∧ tot ad r = m_size e) ∧
        ∀ i e, (i < r)%nat → l !! i = Some e → tot ad i < m_size e
    end;
  sc_small : ∀ k i e, (k < 3)%nat → ad k = None → (i < bp)%nat → l !! i = Some e →
    m_size e - tot ad i < sz k;
}.

Lemma ent_cmap f g i e :
  l !! i = Some e → ent i (cmap f g) = Done (MkEnt (m_size e - f i) (m_addr e + g i)) (cmap f g).
Proof.
  intros Hi. unfold ent, cmap. simpl. rewrite lookup_app_l.
  2:{ unfold carve. rewrite length_imap. by eapply lookup_lt_Some. }
  unfold carve. by rewrite list_lookup_imap, Hi.
Qed.

Lemma put_cmap f g f' g' i e e' :
  l !! i = Some e → e' = MkEnt (m_size e - f' i) (m_addr e + g' i) →
  (∀ j, j ≠ i → f' j = f j ∧ g' j = g j) →
  put i e' (cmap f g) = Done tt (cmap f' g').
Proof.
  intros Hi -> Hne. pose proof (lookup_lt_Some _ _ _ Hi). unfold put, cmap. simpl.
  rewrite decide_True.
  2:{ unfold carve. rewrite length_app, length_imap. lia. }
  unfold upd. simpl. rewrite insert_app_l by (unfold carve; by rewrite length_imap).
  by rewrite (carve_put f g f' g' l i e).
Qed.

Definition place (ad : nat → option nat) (k bp : nat) (j : nat) : option nat :=
  if decide (j = k) then Some bp else ad j.

Lemma tot_place ad k bp i :
  (k < 3)%nat → ad k = None →
  tot (place ad k bp) i = tot ad i + (if decide (i = bp) then sz k else 0).
Proof.
  intros Hk Had. unfold tot, cut.
  assert (k = 0 ∨ k = 1 ∨ k = 2)%nat as [->|[->| ->]] by lia; rewrite Had;
    unfold place; simpl; repeat case_decide; simplify_eq; lia.
Qed.

Lemma tot_nonneg ad i : 0 ≤ tot ad i.
Proof. unfold tot, cut. repeat case_decide; pose proof (Hsz 0); pose proof (Hsz 1); pose proof (Hsz 2); lia. Qed.

Lemma placed_place ad k bp :
  (k < 3)%nat → ad k = None → placed (place ad k bp) = S (placed ad).
Proof.
  intros Hk Had. unfold placed.
  assert (k = 0 ∨ k = 1 ∨ k = 2)%nat as [->|[->| ->]] by lia; rewrite Had;
    unfold place; simpl; rewrite !filter_cons; repeat case_decide; try done;
    try (by exfalso; eauto using is_Some_None).
Qed.

Lemma placed_all ad : placed ad = 3%nat → ∀ k, (k < 3)%nat → is_Some (ad k).
Proof.
  unfold placed. rewrite !filter_cons. intros Hp k Hk.
  repeat case_decide; simplify_eq/=.
  assert (k = 0 ∨ k = 1 ∨ k = 2)%nat as [->|[->| ->]] by lia; done.
Qed.

Lemma try_spec bp e ad v k :
  (k < 3)%nat → l !! bp = Some e → scanned bp ad v → placed ad ≠ 3%nat →
  ∃ b ad' v', malloc3_try sizes bp k v (cmap (tot ad) (λ _, 0)) =
      Done (b, v') (cmap (tot ad') (λ _, 0)) ∧
    scanned bp ad' v' ∧ b = bool_decide (placed ad' = 3%nat) ∧ tot ad bp ≤ tot ad' bp ∧
    (∀ j, j ≠ k → ad' j = ad j) ∧ (b = false → ad' k = None → m_size e - tot ad' bp < sz k).
Proof.
  intros Hk He Hs Hp. pose proof Hs as [Hm Hf Hb Hfit Hr Hsm].
  pose proof (Hfit _ _ He). pose proof (tot_nonneg ad bp).
  destruct (rchain_elem _ _ _ Hl ltac:(by eapply list_elem_of_lookup_2)) as (?&?&?).
  unfold seg_end in *.
  assert (madd v !! k = Some (ad k) ∧ sizes !! k = Some (sz k)) as [Hmk Hsk].
  { rewrite Hm. subst sizes. by assert (k = 0 ∨ k = 1 ∨ k = 2)%nat as [->|[->| ->]] by lia. }
  unfold malloc3_try. setoid_rewrite (bind_done _ _ _ _ _ (ent_cmap _ _ _ _ He)).
  rewrite Hmk, Hsk. unfold unless_none, mbind, M_bind, mret, M_ret. cbn [m_size].
  destruct (ad k) as [i|] eqn:Hak.
  { exists false, ad, v. rewrite Hak, bool_decide_false by done. by split_and!. }
  destruct (Z.leb_spec (sz k) (m_size e - tot ad bp)).
  2:{ exists false, ad, v. rewrite bool_decide_false by done. split_and!; [done..|lia]. }
  rewrite (put_cmap _ _ (tot (place ad k bp)) (λ _, 0) bp e); [|done| |].
  2:{ rewrite tot_place, decide_True by done. unfold upd. cbn.
      rewrite u32_small by (pose proof (Hsz k); lia). f_equal. lia. }
  2:{ intros j Hj. rewrite tot_place, decide_False by done. by rewrite Z.add_0_r. }
  cbn [madd found remap]. eexists _, (place ad k bp), _. split; [done|]. split; [|split_and!].
  - split; cbn [madd found remap].
    + rewrite Hm. unfold place.
      by assert (k = 0 ∨ k = 1 ∨ k = 2)%nat as [->|[->| ->]] by lia.
    + by rewrite placed_place, Hf.
    + intros j i. unfold place. case_decide; [|by apply Hb]. intros [= <-].
      split; [done|]. by eapply lookup_lt_Some.
    + intros i e' Hi. rewrite tot_place by done. specialize (Hfit _ _ Hi).
      case_decide; simplify_eq; lia.
    + rewrite u32_small by (pose proof (Hsz k); lia). destruct (remap v) as [r|].
      * destruct Hr as (Hrb&(er&Her&Htr)&Hlt). split_and!; [done| |].
        -- exists er. split; [done|]. rewrite tot_place by done. case_decide; simplify_eq; [|lia].
           pose proof (Hsz k). lia.
        -- intros i e' Hi Hi'. rewrite tot_place, decide_False by (done || lia). rewrite Z.add_0_r. eauto.
      * destruct (Z.eqb_spec (m_size e - tot ad bp - sz k) 0).
        -- split_and!; [done| |].
           ++ exists e. split; [done|]. rewrite tot_place, decide_True by done. lia.
           ++ intros i e' Hi Hi'. rewrite tot_place, decide_False by (done || lia). rewrite Z.add_0_r. eauto.
        -- intros i e' Hi. rewrite tot_place by done. specialize (Hr _ _ Hi).
           case_decide; simplify_eq; lia.
    + intros j i e' Hj Hn Hi He'. rewrite tot_place, decide_False by (done || lia).
      rewrite Z.add_0_r. unfold place in Hn. case_decide; [done|]. eauto.
  - by rewrite placed_place, Hf.
  - rewrite tot_place, decide_True by done. pose proof (Hsz k). lia.
  - intros j Hj. unfold place. by rewrite decide_False.
  - intros _. unfold place. by rewrite decide_True.
Qed.

Lemma slot_spec bp e ad v :
  l !! bp = Some e → scanned bp ad v → placed ad ≠ 3%nat →
  ∃ b ad' v', malloc3_slot sizes bp v (cmap (tot ad) (λ _, 0)) =
      Done (b, v') (cmap (tot ad') (λ _, 0)) ∧
    b = bool_decide (placed ad' = 3%nat) ∧
    scanned (if b then bp else S bp) ad' v' ∧
    ∀ k i, ad' k = Some i → (i < S bp)%nat.
Proof.
  intros He Hs Hp. unfold malloc3_slot.
  destruct (try_spec bp e ad v 0 ltac:(lia) He Hs Hp) as (b0&ad0&v0&Heq0&Hs0&Hb0&Ht0&Hj0&Hl0).
  setoid_rewrite (bind_done _ _ _ _ _ Heq0). cbn iota.
  assert (∀ ad v, scanned bp ad v → ∀ k i, ad k = Some i → (i < S bp)%nat) as Hbd.
  { intros ad1 v1 Hs1 k i Hk. destruct (sc_slot _ _ _ Hs1 _ _ Hk). lia. }
  case_bool_decide as Hp0; subst b0; [by eexists true, ad0, v0; rewrite bool_decide_true; eauto|].
  destruct (try_spec bp e ad0 v0 1 ltac:(lia) He Hs0 Hp0) as (b1&ad1&v1&Heq1&Hs1&Hb1&Ht1&Hj1&Hl1).
  setoid_rewrite (bind_done _ _ _ _ _ Heq1). cbn iota.
  case_bool_decide as Hp1; subst b1; [by eexists true, ad1, v1; rewrite bool_decide_true; eauto|].
  destruct (try_spec bp e ad1 v1 2 ltac:(lia) He Hs1 Hp1) as (b2&ad2&v2&Heq2&Hs2&Hb2&Ht2&Hj2&Hl2).
  exists b2, ad2, v2. split_and!; [done|done| |by eauto].
  destruct b2; [done|]. destruct Hs2 as [Hm Hf Hb Hfit Hr Hsm]. split; try done.
  - intros k i Hk. destruct (Hb k i Hk). lia.
  - destruct (remap v2); [|done]. destruct Hr as (?&?&?). split_and!; [lia|done..].
  - intros k i e' Hk Hn Hi He'. destruct (decide (i = bp)) as [->|]; [|apply (Hsm k i); done || lia].
    simplify_eq. assert (k = 0 ∨ k = 1 ∨ k = 2)%nat as [->|[->| ->]] by lia.
    + rewrite Hj2, Hj1 in Hn by done. specialize (Hl0 eq_refl Hn). lia.
    + rewrite Hj2 in Hn by done. specialize (Hl1 eq_refl Hn). lia.
    + by apply Hl2.
Qed.

Lemma tot_fresh ad bp : (∀ k i, ad k = Some i → (i < bp)%nat) → tot ad bp = 0.
Proof.
  intros Hf. unfold tot, cut.
  repeat case_decide; try done; match goal with Ha : ad _ = Some bp |- _ => apply Hf in Ha; lia end.
Qed.

Lemma scan_spec fuel bp ad v :
  (length l < fuel + bp)%nat → (bp ≤ length l)%nat →
  scanned bp ad v → placed ad ≠ 3%nat → (∀ k i, ad k = Some i → (i < bp)%nat) →
  ∃ b ad' v', malloc3_scan fuel bp sizes v (cmap (tot ad) (λ _, 0)) =
      Done (b, v') (cmap (tot ad') (λ _, 0)) ∧
    b = bool_decide (placed ad' = 3%nat) ∧
    ∃ bp', scanned bp' ad' v' ∧ (b = false → bp' = length l).
Proof.
  revert bp ad v. induction fuel as [|fuel IH]; intros bp ad v Hlen Hle Hs Hp Hfr; [lia|].
  cbn [malloc3_scan]. destruct (decide (bp = length l)) as [->|Hne].
  - assert (ent (length l) (cmap (tot ad) (λ _, 0)) = Done (MkEnt 0 0) (cmap (tot ad) (λ _, 0))) as Hend.
    { unfold ent, cmap. simpl. rewrite lookup_mid; [done|]. unfold carve. by rewrite length_imap. }
    setoid_rewrite (bind_done _ _ _ _ _ Hend). cbn. exists false, ad, v.
    rewrite bool_decide_false by done. split_and!; eauto.
  - destruct (lookup_lt_is_Some_2 l bp ltac:(lia)) as [e He].
    setoid_rewrite (bind_done _ _ _ _ _ (ent_cmap _ _ _ _ He)). cbn [m_size].
    rewrite tot_fresh by done. rewrite Z.sub_0_r.
    destruct (rchain_elem _ _ _ Hl ltac:(by eapply list_elem_of_lookup_2)) as (?&?&?).
    destruct (Z.eqb_spec (m_size e) 0); [lia|].
    destruct (slot_spec bp e ad v He Hs Hp) as (b&ad'&v'&Heq&Hb&Hs'&Hfr').
    setoid_rewrite (bind_done _ _ _ _ _ Heq). cbn iota. destruct b.
    + exists true, ad', v'. split_and!; eauto. exists bp. by split.
    + apply IH; try done; [lia..|]. by rewrite <- bool_decide_eq_false.
Qed.

Lemma cmap_ext f g f' g' :
  (∀ i, f i = f' i) → (∀ i, g i = g' i) → cmap f g = cmap f' g'.
Proof. intros. unfold cmap. f_equal. f_equal. by apply carve_ext. Qed.

Lemma restore_spec f a s :
  (∀ i, a = Some i → ∃ e, l !! i = Some e ∧ s ≤ f i ≤ m_size e) → 0 ≤ s →
  malloc3_restore a s (cmap f (λ _, 0)) = Done tt (cmap (λ j, f j - cut a s j) (λ _, 0)).
Proof.
  intros Ha Hs. destruct a as [i|]; simpl.
  - destruct (Ha i eq_refl) as (e&He&?).
    destruct (rchain_elem _ _ _ Hl ltac:(by eapply list_elem_of_lookup_2)) as (?&?&?).
    unfold seg_end in *. setoid_rewrite (bind_done _ _ _ _ _ (ent_cmap _ _ _ _ He)).
    eapply put_cmap; [done| |].
    + unfold cut, upd. rewrite decide_True by done. cbn. rewrite u32_small by lia. f_equal; lia.
    + intros j Hj. unfold cut. rewrite decide_False by congruence. by rewrite Z.sub_0_r.
  - unfold mret, M_ret. f_equal. apply cmap_ext; [|done]. intros j. unfold cut. simpl. lia.
Qed.

Lemma restore_all ad :
  (∀ k i, ad k = Some i → (i < length l)%nat) →
  (∀ i e, l !! i = Some e → tot ad i ≤ m_size e) →
  (malloc3_restore (ad 0%nat) (sz 0) ;; malloc3_restore (ad 1%nat) (sz 1) ;;
   malloc3_restore (ad 2%nat) (sz 2) ;; mret (0, @nil Z)) (cmap (tot ad) (λ _, 0)) =
  Done (0, []) (MkMap (l ++ MkEnt 0 0 :: tail) lim lg).
Proof.
  intros Hb Hfit. pose proof (Hsz 0). pose proof (Hsz 1). pose proof (Hsz 2).
  assert (∀ k i, ad k = Some i → ∃ e, l !! i = Some e ∧ tot ad i ≤ m_size e) as Hk.
  { intros k i Hk. destruct (lookup_lt_is_Some_2 l i (Hb _ _ Hk)) as [e He]. eauto. }
  mstep restore_spec; [|done|].
  { intros i Hi. destruct (Hk _ _ Hi) as (e&?&?). exists e. split_and!; [done| |done].
    unfold tot, cut. cbn beta. repeat case_decide; simplify_eq; lia. }
  mstep restore_spec; [|done|].
  { intros i Hi. destruct (Hk _ _ Hi) as (e&?&Ht). exists e. revert Ht.
    unfold tot, cut. cbn beta. intros. repeat case_decide; simplify_eq; split_and!; done || lia. }
  mstep restore_spec; [|done|].
  { intros i Hi. destruct (Hk _ _ Hi) as (e&?&Ht). exists e. revert Ht.
    unfold tot, cut. cbn beta. intros. repeat case_decide; simplify_eq; split_and!; done || lia. }
  unfold mret, M_ret. f_equal. unfold cmap. f_equal. f_equal. rewrite <- (carve_0 l) at 2.
  apply carve_ext; [|done]. intros i. unfold tot. lia.
Qed.

Lemma resolve_spec f g a s i e :
  a = Some i → l !! i = Some e → 0 ≤ g i → 0 ≤ s → g i + s ≤ m_size e →
  malloc3_resolve a s (cmap f g) =
  Done (m_addr e + g i) (cmap f (λ j, g j + cut a s j)).
Proof.
  intros -> He Hg Hs Hfit.
  destruct (rchain_elem _ _ _ Hl ltac:(by eapply list_elem_of_lookup_2)) as (?&?&?).
  unfold seg_end in *. unfold malloc3_resolve.
  setoid_rewrite (bind_done _ _ _ _ _ (ent_cmap _ _ _ _ He)).
  mstep put_cmap; [done| | |done].
  - unfold cut, upd. rewrite decide_True by done. cbn. rewrite u32_small by lia. f_equal; lia.
  - intros j Hj. unfold cut. rewrite decide_False by congruence. by rewrite Z.add_0_r.
Qed.
End malloc3.

(** The compaction loop drops the exhausted entries after the gap. *)
Lemma remap_spec `{KConfig} fuel pre gap q tail lim lg :
  (length q < fuel)%nat → gap ≠ [] → Forall (λ e, m_addr e ≠ 0) q →
  ∃ tail', malloc3_remap fuel (length (pre ++ gap)) (length pre)
    (MkMap (pre ++ gap ++ q ++ MkEnt 0 0 :: tail) lim lg) =
  Done tt (MkMap (pre ++ filter (λ e, m_size e ≠ 0) q ++ MkEnt 0 0 :: tail') lim lg) ∧
  length (pre ++ gap ++ q ++ MkEnt 0 0 :: tail) =
  length (pre ++ filter (λ e, m_size e ≠ 0) q ++ MkEnt 0 0 :: tail').
Proof.
  revert pre gap q. induction fuel as [|fuel IH]; intros pre gap q Hlen Hgap Hq; [lia|].
  cbn [malloc3_remap]. destruct q as [|e q].
  - exists (list.tail gap ++ MkEnt 0 0 :: tail). destruct gap as [|x gap]; [done|].
    simpl app. rewrite app_comm_cons, app_assoc.
    split; [|rewrite !length_app; simpl; rewrite !length_app; simpl; lia].
    etrans; [eapply bind_done, ent_mid; done|]. cbn. rewrite <- app_assoc. by mstep put_mid.
  - apply Forall_cons in Hq as [He Hq].
    assert (∀ g q', pre ++ g ++ e :: q' = (pre ++ g) ++ e :: q') as Heq
      by (intros; by rewrite <- app_assoc).
    simpl app. rewrite Heq. erewrite bind_done by (by apply ent_mid).
    rewrite filter_cons. destruct (Z.eqb_spec (m_size e) 0) as [Hz|Hnz].
    + rewrite (proj2 (Z.eqb_neq _ _) He), decide_False by lia. cbn [negb orb].
      destruct (IH pre (gap ++ [e]) q) as [tail' [Hr Hlr]]; [simpl in Hlen; lia|by destruct gap|done|].
      exists tail'. rewrite <- !app_assoc in Hr. simpl app in Hr.
      rewrite <- Hlr, <- !app_assoc. simpl app. split; [|done].
      rewrite <- Hr, !length_app. f_equal. simpl. lia.
    + destruct gap as [|x gap]; [done|]. rewrite decide_True by done. cbn [negb orb].
      rewrite <- Heq. simpl app. erewrite bind_done by (by apply put_mid). rewrite (proj2 (Z.eqb_neq _ _) He).
      destruct (IH (pre ++ [e]) (gap ++ [e]) q) as [tail' [Hr Hlr]];
        [simpl in Hlen; lia|by destruct gap|done|].
      exists tail'. simpl app. rewrite (snoc_app pre (gap ++ _) e), (snoc_app pre (filter _ _ ++ _) e).
      rewrite <- (app_assoc gap) in Hr, Hlr. simpl app in Hr, Hlr.
      split; [|rewrite <- Hlr; len].
      rewrite <- Hr. f_equal; len.
Qed.

(** The segments left when every slot has been carved. *)
Definition remains (f : nat → Z) (l : list mapent) : list mapent :=
  filter (λ e, m_size e ≠ 0) (carve f f l).

Lemma remains_cons f e l :
  remains f (e :: l) =
  if decide (m_size e - f 0%nat = 0) then remains (f ∘ S) l
  else MkEnt (m_size e - f 0%nat) (m_addr e + f 0%nat) :: remains (f ∘ S) l.
Proof.
  unfold remains, carve. rewrite imap_cons, filter_cons. cbn [m_size].
  destruct (decide (m_size e - f 0%nat ≠ 0)); destruct (decide (_ = _)); try done; lia.
Qed.

Lemma remains_chain f lo l :
  chain lo l → (∀ i e, l !! i = Some e → 0 ≤ f i ≤ m_size e) → chain lo (remains f l).
Proof.
  revert f lo. induction l as [|e l IH]; intros f lo Hc Hf; [done|].
  destruct Hc as (?&?&?&Hc). rewrite remains_cons.
  pose proof (Hf 0%nat e eq_refl). specialize (IH (f ∘ S) _ Hc (λ i e' He', Hf (S i) e' He')).
  unfold seg_end in *. case_decide.
  - by eapply chain_weaken; [|exact IH]; lia.
  - split_and!; cbn; unfold seg_end; cbn; [lia..|].
    by replace (m_addr e + f 0%nat + (m_size e - f 0%nat)) with (m_addr e + m_size e) by lia.
Qed.

Lemma remains_free f l x :
  (∀ i e, l !! i = Some e → 0 ≤ f i ≤ m_size e) →
  free_in (remains f l) x ↔ ∃ i e, l !! i = Some e ∧ m_addr e + f i ≤ x < seg_end e.
Proof.
  revert f. induction l as [|e l IH]; intros f Hf.
  { rewrite free_in_nil. split; [done|]. by intros (?&?&?&?). }
  rewrite remains_cons. specialize (IH (f ∘ S) (λ i e' He', Hf (S i) e' He')).
  pose proof (Hf 0%nat e eq_refl).
  assert ((∃ i e', (e :: l) !! i = Some e' ∧ m_addr e' + f i ≤ x < seg_end e') ↔
    m_addr e + f 0%nat ≤ x < seg_end e ∨ free_in (remains (f ∘ S) l) x) as ->.
  { rewrite IH. split.
    - intros ([|i]&e'&He'&Hx); [simplify_eq/=; by left|right; eauto].
    - intros [Hx|(i&e'&He'&Hx)]; [by exists 0%nat, e|by exists (S i), e']. }
  case_decide; [|rewrite free_in_cons]; unfold seg_end in *; cbn; [|].
  - split; [tauto|]. intros [?|?]; [lia|done].
  - by replace (m_addr e + f 0%nat + (m_size e - f 0%nat)) with (m_addr e + m_size e) by lia.
Qed.

Lemma chain_index lo l i j e e' x :
  chain lo l → l !! i = Some e → l !! j = Some e' →
  m_addr e ≤ x < seg_end e → m_addr e' ≤ x < seg_end e' → i = j.
Proof.
  revert lo i j. induction l as [|e0 l IH]; intros lo i j Hc Hi Hj Hx Hx'; [done|].
  destruct Hc as (_&_&_&Hc).
  assert (∀ k a, l !! k = Some a → seg_end e0 < m_addr a) as Hlt.
  { intros k a Ha. eapply (rchain_elem _ _ _ Hc). by eapply list_elem_of_lookup_2. }
  destruct i as [|i], j as [|j]; simpl in Hi, Hj; simplify_eq; [done| | |f_equal; eauto].
  - specialize (Hlt _ _ Hj). lia.
  - specialize (Hlt _ _ Hi). lia.
Qed.

(** The pieces (address, size) carved out of [l], leaving [l']. *)
Definition in_piece (p : Z * Z) (x : Z) : Prop := p.1 ≤ x < p.1 + p.2.
Definition carved (l l' : list mapent) (ps : list (Z * Z)) : Prop :=
  (∀ x, free_in l x ↔ Exists (λ p, in_piece p x) ps ∨ free_in l' x) ∧
  (∀ p x, p ∈ ps → in_piece p x → ¬ free_in l' x) ∧
  (∀ i j p q x, ps !! i = Some p → ps !! j = Some q → i ≠ j → in_piece p x → ¬ in_piece q x).

Section malloc3_refines.
Context `{KConfig} (sz : nat → Z) (l : list mapent).
Context (Hsz : ∀ k, 0 ≤ sz k) (Hl : chain 0 l).

(** The address given to request [k] on slot [i]: above the requests before
    it on the same slot. *)
Definition shift (ad : nat → option nat) (k i : nat) : Z :=
  match k with
  | O => 0
  | S O => cut (ad 0%nat) (sz 0) i
  | _ => cut (ad 0%nat) (sz 0) i + cut (ad 1%nat) (sz 1) i
  end.

Lemma shift_tot ad k i :
  (k < 3)%nat → ad k = Some i → 0 ≤ shift ad k i ∧ shift ad k i + sz k ≤ tot sz ad i.
Proof.
  pose proof (Hsz 0); pose proof (Hsz 1); pose proof (Hsz 2).
  intros Hk Ha. unfold tot, shift.
  assert (k = 0 ∨ k = 1 ∨ k = 2)%nat as [->|[->| ->]] by lia;
    unfold cut; repeat case_decide; simplify_eq; lia.
Qed.

Lemma shift_apart ad i j k :
  (i < j < 3)%nat → ad i = Some k → ad j = Some k → shift ad i k + sz i ≤ shift ad j k.
Proof.
  pose proof (Hsz 0); pose proof (Hsz 1); pose proof (Hsz 2).
  intros Hij Hi Hj.
  assert ((i = 0 ∧ j = 1) ∨ (i = 0 ∧ j = 2) ∨ (i = 1 ∧ j = 2))%nat
    as [[-> ->]|[[-> ->]|[-> ->]]] by lia;
    unfold shift, cut; repeat case_decide; simplify_eq; lia.
Qed.

Lemma tot_pieces ad i y :
  0 ≤ y < tot sz ad i →
  ∃ k, (k < 3)%nat ∧ ad k = Some i ∧ shift ad k i ≤ y < shift ad k i + sz k.
Proof.
  pose proof (Hsz 0); pose proof (Hsz 1); pose proof (Hsz 2).
  intros Hy. destruct (Z_lt_dec y (cut (ad 0%nat) (sz 0) i)) as [Hy0|Hy0].
  { exists 0%nat. unfold cut, shift in *. case_decide; [|lia]. split_and!; [lia|done|lia..]. }
  destruct (Z_lt_dec y (shift ad 2 i)) as [Hy1|Hy1].
  - exists 1%nat. unfold shift in *. unfold cut in *. repeat case_decide; try lia;
      (split_and!; [lia|done|lia..]).
  - exists 2%nat. unfold tot, shift in *. unfold cut in *. repeat case_decide; try lia;
      (split_and!; [lia|done|lia..]).
Qed.

Lemma carved_pieces ad (e : nat → mapent) (i : nat → nat) :
  (∀ k, (k < 3)%nat → ad k = Some (i k) ∧ l !! i k = Some (e k)) →
  (∀ j a, l !! j = Some a → tot sz ad j ≤ m_size a) →
  carved l (remains (tot sz ad) l)
    ((λ k, (m_addr (e k) + shift ad k (i k), sz k)) <$> [0; 1; 2]%nat).
Proof.
  intros Had Hfit.
  assert (∀ j a, l !! j = Some a → 0 ≤ tot sz ad j ≤ m_size a) as Hfit'.
  { intros j a Ha. split; [by apply tot_nonneg|by apply Hfit]. }
  assert (∀ k x, (k < 3)%nat → in_piece (m_addr (e k) + shift ad k (i k), sz k) x →
    l !! i k = Some (e k) ∧ m_addr (e k) ≤ x < m_addr (e k) + tot sz ad (i k) ∧
    x < seg_end (e k)) as Hin.
  { intros k x Hk [Hx1 Hx2]. simpl in *. destruct (Had k Hk) as [Ha He].
    destruct (shift_tot ad k (i k) Hk Ha). specialize (Hfit _ _ He). unfold seg_end.
    split_and!; [done|lia..]. }
  assert (∀ p, p ∈ (λ k, (m_addr (e k) + shift ad k (i k), sz k)) <$> [0; 1; 2]%nat →
    ∃ k, (k < 3)%nat ∧ p = (m_addr (e k) + shift ad k (i k), sz k)) as Hps.
  { intros p. rewrite list_elem_of_fmap. intros (k&->&Hk). exists k. split; [|done].
    rewrite !elem_of_cons, elem_of_nil in Hk. lia. }
  split_and!.
  - intros x. rewrite remains_free by done. rewrite Exists_exists. split.
    + intros (a&Ha&Hx). apply list_elem_of_lookup in Ha as [j Hj].
      destruct (Z_lt_dec x (m_addr a + tot sz ad j)) as [Hlt|]; [|right; exists j, a; split; [done|lia]].
      left. destruct (tot_pieces ad j (x - m_addr a)) as (k&Hk&Hak&Hr); [lia|].
      destruct (Had k Hk) as [Ha' He]. simplify_eq.
      exists (m_addr (e k) + shift ad k (i k), sz k). split.
      * apply list_elem_of_fmap. exists k. split; [done|].
        rewrite !elem_of_cons, elem_of_nil. lia.
      * unfold in_piece. simpl. lia.
    + intros [(p&Hp&Hx)|(j&a&Ha&Hx)].
      * destruct (Hps p Hp) as (k&Hk&->). destruct (Hin k x Hk Hx) as (He&?&?).
        exists (e k). split; [by eapply list_elem_of_lookup_2|lia].
      * exists a. split; [by eapply list_elem_of_lookup_2|]. specialize (Hfit' _ _ Ha). lia.
  - intros p x Hp Hx. rewrite remains_free by done. intros (j&a&Ha&Hxa).
    destruct (Hps p Hp) as (k&Hk&->). destruct (Hin k x Hk Hx) as (He&?&?).
    specialize (Hfit' _ _ Ha).
    assert (j = i k) as -> by (eapply (chain_index _ _ j (i k) _ _ x); [done..|lia|lia]).
    simplify_eq. lia.
  - assert (∀ j j' x, (j < j' < 3)%nat →
      in_piece (m_addr (e j) + shift ad j (i j), sz j) x →
      ¬ in_piece (m_addr (e j') + shift ad j' (i j'), sz j') x) as Hdis.
    { intros j j' x Hj Hx Hx'.
      destruct (Hin j x ltac:(lia) Hx) as (He&?&?), (Hin j' x ltac:(lia) Hx') as (He'&?&?).
      assert (i j = i j') as Heq by (eapply (chain_index _ _ (i j) (i j') _ _ x); [done..|lia|lia]).
      destruct (Had j) as [Ha _]; [lia|]. destruct (Had j') as [Ha' _]; [lia|].
      rewrite Heq in Ha. pose proof (shift_apart ad j j' _ Hj Ha Ha').
      assert (e j = e j') as Hee by congruence.
      unfold in_piece in *. simpl in *. rewrite Heq, Hee in *. lia. }
    intros a b p q x Hp Hq Hab Hxp Hxq. rewrite list_lookup_fmap in Hp, Hq.
    apply fmap_Some in Hp as (k&Hk&->), Hq as (k'&Hk'&->).
    assert (∀ n m, [0; 1; 2]%nat !! n = Some m → m = n ∧ (n < 3)%nat) as Hidx.
    { intros [|[|[|n]]] m; simpl; intros; simplify_eq; lia. }
    apply Hidx in Hk as [-> ?], Hk' as [-> ?].
    destruct (Nat.lt_total a b) as [?|[?|?]]; [|done|].
    + by eapply (Hdis a b x).
    + by eapply (Hdis b a x).
Qed.
End malloc3_refines.

Section malloc3_total.
Context `{KConfig} (sz : nat → Z) (l tail : list mapent) (lim : nat) (lg : list (Z * Z)).
Context (Hsz : ∀ k, 0 ≤ sz k) (Hl : chain 0 l).

Lemma carve_lookup f g i : carve f g l !! i = (λ e, MkEnt (m_size e - f i) (m_addr e + g i)) <$> l !! i.
Proof. unfold carve. by rewrite list_lookup_imap. Qed.

(** The last step of [malloc3]. *)
Lemma compact_spec bp ad v fuel :
  scanned sz l bp ad v → (length l < fuel)%nat →
  ∃ tail', match remap v with
    | Some rp => malloc3_remap fuel (S rp) rp
    | None => mret tt
    end (cmap l tail lim lg (tot sz ad) (tot sz ad)) =
    Done tt (MkMap (remains (tot sz ad) l ++ MkEnt 0 0 :: tail') lim lg) ∧
    length (remains (tot sz ad) l ++ MkEnt 0 0 :: tail') = length (l ++ MkEnt 0 0 :: tail).
Proof.
  intros Hs Hfuel. pose proof (sc_remap _ _ _ _ _ Hs) as Hr.
  set (f := tot sz ad) in *. set (c := carve f f l).
  assert (length c = length l) as Hlc by (unfold c, carve; apply length_imap).
  assert (Forall (λ e, m_addr e ≠ 0) c) as Hnz.
  { apply Forall_lookup. intros i e. unfold c. rewrite carve_lookup, fmap_Some.
    intros (e'&He'&->). cbn. pose proof (tot_nonneg sz Hsz ad i).
    destruct (rchain_elem _ _ _ Hl ltac:(by eapply list_elem_of_lookup_2)) as (?&?&?).
    unfold f in *. lia. }
  destruct (remap v) as [r|].
  - destruct Hr as (_&(e&He&Hre)&Hlt).
    assert (c !! r = Some (MkEnt 0 (m_addr e + f r))) as Hcr.
    { unfold c. rewrite carve_lookup, He. cbn. do 2 f_equal. lia. }
    pose proof (take_drop_middle _ _ _ Hcr) as Hmid.
    assert (Forall (λ e, m_size e ≠ 0) (take r c)) as Hpre.
    { apply Forall_lookup. intros i e'. rewrite lookup_take_Some. unfold c.
      rewrite carve_lookup, fmap_Some. intros ((a&Ha&->)&Hi). cbn.
      specialize (Hlt _ _ Hi Ha). lia. }
    assert (r < length l)%nat by (by eapply lookup_lt_Some).
    destruct (remap_spec fuel (take r c) [MkEnt 0 (m_addr e + f r)] (drop (S r) c) tail lim lg)
      as [tail' [Hm Hlen]]; [rewrite length_drop; lia|done|by apply Forall_drop|].
    exists tail'. unfold remains, cmap. fold c.
    assert (filter (λ e, m_size e ≠ 0) c =
      take r c ++ filter (λ e, m_size e ≠ 0) (drop (S r) c)) as ->.
    { rewrite <- Hmid at 1. rewrite filter_app, filter_cons_False by (cbn; lia).
      f_equal. by rewrite filter_all. }
    rewrite <- app_assoc. split; [|rewrite <- Hlen; apply (f_equal length) in Hmid; len].
    rewrite <- Hm. f_equal.
    + rewrite length_app, length_take. simpl. lia.
    + rewrite length_take. lia.
    + f_equal. rewrite <- Hmid at 1. by rewrite <- app_assoc.
  - exists tail. unfold remains, cmap. fold c.
    rewrite (filter_all _ c); [split; [done|len]|].
    apply Forall_lookup. intros i e'. unfold c. rewrite carve_lookup, fmap_Some.
    intros (a&Ha&->). cbn. specialize (Hr _ _ Ha). lia.
Qed.

Lemma placed_lt ad : placed ad ≠ 3%nat → ∃ k, (k < 3)%nat ∧ ad k = None.
Proof.
  intros Hp. destruct (ad 0%nat) eqn:H0; [|by exists 0%nat; auto with lia].
  destruct (ad 1%nat) eqn:H1; [|by exists 1%nat; auto with lia].
  destruct (ad 2%nat) eqn:H2; [|by exists 2%nat; auto with lia].
  destruct Hp. unfold placed. rewrite H0, H1, H2. done.
Qed.

(** Without request [k], the slots carry at most the other two. *)
Lemma tot_without ad k i :
  (k < 3)%nat → ad k = None → tot sz ad i + sz k ≤ sz 0%nat + sz 1%nat + sz 2%nat.
Proof.
  pose proof (Hsz 0); pose proof (Hsz 1); pose proof (Hsz 2).
  intros Hk Ha. assert (k = 0 ∨ k = 1 ∨ k = 2)%nat as [->|[->| ->]] by lia;
    unfold tot, cut; rewrite Ha; repeat case_decide; simplify_eq; lia.
Qed.

Lemma malloc3_spec :
  let m := MkMap (l ++ MkEnt 0 0 :: tail) lim lg in
  (∃ a0 a1 a2 l' tail',
    malloc3 (sz 0) (sz 1) (sz 2) m =
      Done (a2, [a0; a1; a2]) (MkMap (l' ++ MkEnt 0 0 :: tail') lim lg) ∧
    length (l' ++ MkEnt 0 0 :: tail') = length (l ++ MkEnt 0 0 :: tail) ∧
    chain 0 l' ∧ carved l l' [(a0, sz 0%nat); (a1, sz 1%nat); (a2, sz 2%nat)] ∧ 0 < a2) ∨
  (malloc3 (sz 0) (sz 1) (sz 2) m = Done (0, []) m ∧
    Forall (λ e, m_size e < sz 0%nat + sz 1%nat + sz 2%nat) l).
Proof.
  intros m. set (ad0 := λ _ : nat, @None nat).
  assert (m = cmap l tail lim lg (tot sz ad0) (λ _, 0)) as Hm.
  { unfold m, cmap. do 2 f_equal. symmetry. apply carve_0. }
  assert (scanned sz l 0 ad0 (MkM3 [None; None; None] 0 None)) as Hs0.
  { split; [done|done|done| | |lia].
    - intros i e He. destruct (rchain_elem _ _ _ Hl ltac:(by eapply list_elem_of_lookup_2)) as (?&?&?).
      rewrite (tot_fresh sz ad0 i) by (by intros ??). lia.
    - intros i e He. destruct (rchain_elem _ _ _ Hl ltac:(by eapply list_elem_of_lookup_2)) as (?&?&?).
      cbn [remap]. rewrite (tot_fresh sz ad0 i) by (by intros ??). lia. }
  destruct (scan_spec sz l tail lim lg Hsz Hl (length (m_map m)) 0 ad0 _ ltac:(unfold m; len)
    ltac:(lia) Hs0 ltac:(done) ltac:(done)) as (b&ad&v&Heq&Hb&bp&Hs&Hbp).
  rewrite <- Hm in Heq. unfold malloc3.
  setoid_rewrite (bind_done _ _ _ _ _ (get_s_eq m)). cbv zeta.
  setoid_rewrite (bind_done _ _ _ _ _ Heq). cbn iota.
  rewrite (sc_madd _ _ _ _ _ Hs). cbn [lookup list_lookup unless_none].
  do 3 (erewrite bind_done by apply mret_eq).
  pose proof (sc_fits _ _ _ _ _ Hs) as Hfit.
  case_bool_decide as Hp; subst b.
  - left.
    assert (∃ (i : nat → nat) (e : nat → mapent), ∀ k, (k < 3)%nat →
      ad k = Some (i k) ∧ l !! i k = Some (e k)) as (i&e&Hie).
    { exists (λ k, default 0%nat (ad k)),
        (λ k, default (MkEnt 0 0) (l !! default 0%nat (ad k))). intros k Hk.
      destruct (placed_all ad Hp k Hk) as [i Hi]. rewrite Hi. split; [done|]. cbn.
      destruct (sc_slot _ _ _ _ _ Hs k i Hi) as [_ Hlt].
      by destruct (lookup_lt_is_Some_2 l i Hlt) as [? ->]. }
    assert (∀ k, (k < 3)%nat → 0 ≤ shift sz ad k (i k) ∧
      shift sz ad k (i k) + sz k ≤ m_size (e k)) as Hsh.
    { intros k Hk. destruct (Hie k Hk) as [Ha He].
      destruct (shift_tot sz Hsz ad k (i k) Hk Ha). specialize (Hfit _ _ He). lia. }
    pose proof (carved_pieces sz l Hsz Hl ad e i Hie Hfit) as Hcar.
    destruct (compact_spec bp ad v (length (m_map m)) Hs ltac:(unfold m; len)) as (tail'&Hc&Hlen).
    destruct (Hie 0%nat) as [Ha0 He0]; [lia|]. destruct (Hie 1%nat) as [Ha1 He1]; [lia|].
    destruct (Hie 2%nat) as [Ha2 He2]; [lia|].
    eexists _, _, _, (remains (tot sz ad) l), tail'. split_and!; [|done| |exact Hcar|].
    + mstep (resolve_spec l tail lim lg Hl _ (λ _, 0) (ad 0%nat) (sz 0%nat));
        [done..|apply (Hsh 0%nat); lia|].
      mstep (resolve_spec l tail lim lg Hl _ _ (ad 1%nat) (sz 1%nat));
        [done..|apply (Hsh 1%nat); lia|done|apply (Hsh 1%nat); lia|].
      mstep (resolve_spec l tail lim lg Hl _ _ (ad 2%nat) (sz 2%nat));
        [done..|apply (Hsh 2%nat); lia|done|apply (Hsh 2%nat); lia|].
      etrans; [eapply bind_done|].
      * erewrite cmap_ext; [exact Hc|done|done].
      * done.
    + apply remains_chain; [done|]. intros j a Ha. split; [by apply tot_nonneg|by apply Hfit].
    + destruct (rchain_elem _ _ _ Hl (list_elem_of_lookup_2 _ _ _ He2)) as (?&?&?).
      destruct (Hsh 2%nat); lia.
  - right. rewrite Hbp in Hs by done. split.
    + rewrite Hm in Heq. etrans; [apply (restore_all sz l tail lim lg Hsz Hl ad)|done].
      * intros k j Hk. apply (sc_slot _ _ _ _ _ Hs k j Hk).
      * done.
    + destruct (placed_lt ad Hp) as (k&Hk&Hn). apply Forall_lookup. intros j a Ha.
      pose proof (sc_small _ _ _ _ _ Hs k j a Hk Hn ltac:(by eapply lookup_lt_Some) Ha).
      pose proof (tot_without ad k j Hk Hn). lia.
Qed.
End malloc3_total.

Lemma first_fit_split l size a l' :
  first_fit l size = Some (a, l') →
  ∃ pre e post, l = pre ++ e :: post ∧ m_addr e = a ∧ size ≤ m_size e ∧
    Forall (λ e, m_size e < size) pre.
Proof.
  revert l'. induction l as [|e l IH]; intros l' Hf; [done|]. simpl in Hf.
  destruct (Z.leb_spec size (m_size e)); simplify_eq.
  - by exists [], e, l.
  - destruct (first_fit l size) as [[a1 l1]|]; [|done]. simplify_eq.
    destruct (IH _ eq_refl) as (pre&e'&post&->&?&?&?). exists (e :: pre), e', post.
    split_and!; [done..|by constructor].
Qed.

Lemma first_fit_carved l size a l' lo :
  0 < size → chain lo l → first_fit l size = Some (a, l') → carved l l' [(a, size)].
Proof.
  intros Hsz Hc Hf. split_and!.
  - intros x. rewrite Exists_cons, Exists_nil. unfold in_piece. simpl.
    rewrite (first_fit_free l size a l' lo x) by done. tauto.
  - intros p x ->%list_elem_of_singleton Hx. by eapply first_fit_disjoint.
  - by intros i j p q x [-> _]%list_lookup_singleton_Some [-> _]%list_lookup_singleton_Some.
Qed.

(** A release needs a new slot only when it touches no segment. *)
Lemma give_grows lo l size addr :
  0 < size → chain lo l → taken l size addr →
  (length l < length (give l size addr))%nat →
  ¬ free_in l (addr - 1) ∧ ¬ free_in l (addr + size).
Proof.
  intros Hsz. revert lo. induction l as [|e l IH]; intros lo Hc Ht Hlen.
  { rewrite !free_in_nil. tauto. }
  simpl in Hc. destruct Hc as (He1&He2&He3&Hc).
  destruct (taken_cons _ _ _ _ Hsz He2 Ht) as [Hd Htl]. simpl in Hlen.
  assert (∀ x, free_in l x → seg_end e < x) as Hlx by (intros x Hx; apply (chain_free_bound _ _ _ Hc) in Hx; lia).
  rewrite !free_in_cons.
  destruct (Z.ltb_spec (addr + size) (m_addr e)).
  { unfold seg_end in *. split; intros [?|Hx%Hlx]; lia. }
  destruct (Z.eqb_spec (addr + size) (m_addr e)); [simpl in Hlen; lia|].
  destruct (Z.eqb_spec (seg_end e) addr).
  { destruct l as [|e' l]; [simpl in Hlen; lia|]. destruct (_ =? _); simpl in Hlen; lia. }
  destruct (IH _ Hc Htl) as [H1 H2]; [simpl in Hlen; lia|].
  unfold seg_end in *. split; intros [?|?]; try done; lia.
Qed.

Lemma first_fit_length l size a l' :
  first_fit l size = Some (a, l') → (length l ≤ S (length l') ∧ length l' ≤ length l)%nat.
Proof.
  revert l'. induction l as [|e l IH]; intros l' Hf; [done|]. simpl in Hf.
  destruct (size <=? m_size e); simplify_eq.
  - destruct (_ =? _); simpl; lia.
  - destruct (first_fit l size) as [[a1 l1]|]; [|done]. simplify_eq.
    destruct (IH _ eq_refl). simpl. lia.
Qed.

(** ** The allocator's contract *)
Section contract.
Context `{KConfig}.

(** C24: [malloc] never panics, faults or loops on a well-formed map: it
    either carves [size] units off the free space, from the first segment that
    is large enough, and leaves a well-formed map, or, exactly when no segment
    is large enough, returns 0 and leaves the map alone. *)
Theorem malloc_first_fit m l size :
  holds m l → 0 < size →
  (∃ a m' l' pre e post, malloc size m = Done a m' ∧ holds m' l' ∧ 0 < a ∧
    carved l l' [(a, size)] ∧ l = pre ++ e :: post ∧ m_addr e = a ∧ size ≤ m_size e ∧
    Forall (λ e, m_size e < size) pre) ∨
  (malloc size m = Done 0 m ∧ Forall (λ e, m_size e < size) l).
Proof.
  intros Hm Hsz. destruct (malloc_refines _ _ _ Hm Hsz) as (m'&_&_&_&Hr).
  destruct Hm as [Hc _]. destruct (first_fit l size) as [[a l']|] eqn:E.
  - left. destruct Hr as [Hr Hh]. destruct (first_fit_split _ _ _ _ E) as (pre&e&post&?&?&?&?).
    exists a, m', l', pre, e, post. split_and!; try done.
    + by eapply (first_fit_addr_pos 0).
    + by eapply first_fit_carved.
  - right. destruct Hr as [Hr ->]. split; [done|]. by apply first_fit_none.
Qed.

(** C26: [mfree] of allocated units returns them to the map, coalescing with
    the neighbours so that the segments stay disjoint, ordered and separated;
    it never panics. The units are lost (with a warning, the map unchanged)
    only when they touch no segment and the slot array is full. *)
Theorem mfree_correct m l size addr :
  holds m l → 0 < size → 0 < addr → addr + size < 2 ^ 32 → taken l size addr →
  (m_limit m < length (m_map m))%nat →
  ∃ m', mfree size addr m = Done tt m' ∧ m_limit m' = m_limit m ∧
    length (m_map m') = length (m_map m) ∧
    ((∃ l', holds m' l' ∧ m_log m' = m_log m ∧
        ∀ x, free_in l' x ↔ addr ≤ x < addr + size ∨ free_in l x) ∨
     (m_map m' = m_map m ∧ m_log m' = (size, addr) :: m_log m ∧
        (m_limit m ≤ length l)%nat ∧ ¬ free_in l (addr - 1) ∧ ¬ free_in l (addr + size))).
Proof.
  intros Hm Hsz Ha Hlim Ht Hroom.
  destruct (mfree_refines _ _ _ _ Hm Hsz Ha Hlim Ht Hroom) as (m'&Hr&Hl&Hn&Hf).
  exists m'. split_and!; [done..|]. destruct Hm as [Hc _].
  cbv zeta in Hf. destruct (decide _) as [|Hfull].
  - left. destruct Hf as [Hh Hlg]. exists (give l size addr). split_and!; [done..|].
    intros x. by eapply give_free.
  - right. destruct Hf as [Hmm Hlg].
    assert (length l < length (give l size addr))%nat as Hgl by lia.
    destruct (give_grows _ _ _ _ Hsz Hc Ht Hgl). split_and!; [done|done|lia|done|done].
Qed.

(** C28: allocating and then releasing the same units restores the very
    segments the map held. *)
Theorem malloc_mfree_roundtrip m l size a m1 :
  holds m l → 0 < size → (length l ≤ m_limit m < length (m_map m))%nat →
  malloc size m = Done a m1 → a ≠ 0 →
  ∃ m2, mfree size a m1 = Done tt m2 ∧ holds m2 l ∧ m_log m2 = m_log m.
Proof.
  intros Hm Hsz [Hcap Hroom] Hmal Ha.
  destruct (malloc_refines _ _ _ Hm Hsz) as (m'&Hl&Hlg&Hn&Hr). destruct Hm as [Hc _].
  destruct (first_fit l size) as [[a' l']|] eqn:E;
    [|destruct Hr as [Hr _]; rewrite Hr in Hmal; by simplify_eq].
  destruct Hr as [Hr Hh]. rewrite Hr in Hmal. injection Hmal as -> ->.
  pose proof (first_fit_addr_pos 0 _ _ _ _ ltac:(lia) Hc E).
  assert (taken l' size a) as Ht by (intros x Hx; by apply (first_fit_disjoint l size a l' 0)).
  assert (free_in l (a + size - 1)) as Hend.
  { rewrite (first_fit_free l size a l' 0) by done. left. lia. }
  assert (a + size < 2 ^ 32) as Hlim.
  { destruct Hend as (e&He&Hx). pose proof (rchain_elem _ _ _ Hc He). lia. }
  pose proof (give_first_fit 0 l size a l' ltac:(lia) Hsz Hc E) as Hg.
  destruct (mfree_refines m1 l' size a) as (m2&Hf&_&_&Hfr); try done; [lia|].
  exists m2. split; [done|]. cbv zeta in Hfr. rewrite Hg in Hfr.
  destruct (decide _) as [|Hfull].
  - destruct Hfr as [Hh2 Hlg2]. by rewrite Hlg2, Hlg.
  - exfalso. apply Hfull. pose proof (first_fit_length _ _ _ _ E). lia.
Qed.

(** C30: [malloc3] gives three requests (empty ones included) pairwise disjoint
    pieces of the free space, or leaves the map as it was and returns 0; it
    always succeeds when one segment could hold the three together. *)
Theorem malloc3_all_or_nothing m l d s u :
  holds m l → 0 ≤ d → 0 ≤ s → 0 ≤ u →
  (∃ a0 a1 a2 m' l', malloc3 d s u m = Done (a2, [a0; a1; a2]) m' ∧ 0 < a2 ∧
    holds m' l' ∧ carved l l' [(a0, d); (a1, s); (a2, u)] ∧
    m_limit m' = m_limit m ∧ length (m_map m') = length (m_map m)) ∨
  (malloc3 d s u m = Done (0, []) m ∧ Forall (λ e, m_size e < d + s + u) l).
Proof.
  intros [Hc [tail Ht]] Hd Hs Hu. destruct m as [arr lim lg]. simpl in Ht. subst arr.
  destruct (malloc3_spec (λ k, match k with O => d | S O => s | _ => u end) l tail lim lg
      ltac:(by intros [|[|k]]) Hc) as [(a0&a1&a2&l'&tail'&?&?&?&?&?)|]; [|by right].
  left. eexists a0, a1, a2, _, l'. split_and!; try done. split; [done|]. by exists tail'.
Qed.

(** with [m_limit] set to [&swapent[SMAPSIZ]], one past the last slot (as
    the machdep.c of every port initialises [swapmap]), [mfree] on a full map
    writes beyond the array instead of reporting the overflow. *)
Theorem swapmap_limit_overrun l size addr lg :
  chain 0 l → 0 < size → last_end 0 l < addr → addr + size < 2 ^ 32 →
  mfree size addr (MkMap (l ++ [MkEnt 0 0]) (length (l ++ [MkEnt 0 0])) lg) = Faulted.
Proof.
  intros Hc Hsz Haddr Hlim. pose proof (chain_last_end_ge _ _ Hc).
  assert (∀ e, e ∈ l → m_size e ≠ 0 ∧ seg_end e < addr ∧ m_addr e ≤ addr) as Hlow.
  { intros e He. destruct (rchain_elem _ _ _ Hc He) as (?&?&?).
    assert (free_in l (seg_end e - 1)) as Hf by (exists e; split; [done|unfold seg_end; lia]).
    apply (chain_free_bound _ _ _ Hc) in Hf. unfold seg_end in *. lia. }
  set (m := MkMap _ _ _).
  assert (mfree_right (length (m_map m)) size addr (length l) m = Faulted) as Hright.
  { assert (ent (length l) m = Done (MkEnt 0 0) m) as Hent by (by apply ent_mid).
    assert (mfree_end (length (m_map m)) (length l) m = Done (length l) m) as Hend.
    { etrans; [apply (mfree_end_spec _ l [] []); [done|subst m; len]|]. by rewrite Nat.add_0_r. }
    unfold mfree_right. setoid_rewrite (bind_done _ _ _ _ _ Hent).
    cbn [m_size]. rewrite Z.eqb_refl. cbn [negb andb].
    setoid_rewrite (bind_done _ _ _ _ _ Hend).
    setoid_rewrite (bind_done _ _ _ _ _ (get_s_eq m)).
    rewrite decide_False by (subst m; len).
    replace (S (length l) - length l)%nat with 1%nat by lia. cbn [mfree_slide].
    unfold mbind, M_bind. rewrite Hent.
    unfold put. rewrite decide_False by (subst m; len). done. }
  unfold mfree. destruct (Z.eqb_spec size 0); [lia|]. destruct (Z.eqb_spec addr 0); [lia|].
  setoid_rewrite (bind_done _ _ _ _ _ (get_s_eq m)).
  assert (mfree_find (length (m_map m)) 0 addr m = Done (length l) m) as Hfind.
  { apply (mfree_find_spec _ [] l []); [|done|subst m; len].
    apply Forall_forall. intros e He. by destruct (Hlow e He) as (?&?&?). }
  setoid_rewrite (bind_done _ _ _ _ _ Hfind).
  destruct l as [|e l _] using rev_ind; [done|].
  rewrite length_app, Nat.add_1_r in *.
  assert (ent (length l) m = Done e m) as He.
  { unfold m. rewrite <- app_assoc. by apply ent_mid. }
  setoid_rewrite (bind_done _ _ _ _ _ He).
  assert (e ∈ l ++ [e]) as Hel by (apply elem_of_app; right; by left).
  destruct (Hlow e Hel) as (?&?&?).
  destruct (rchain_elem _ _ _ Hc Hel) as (?&?&?). unfold seg_end in *.
  rewrite u32_small by lia. destruct (Z.geb_spec (m_addr e + m_size e) addr); [lia|done].
Qed.
End contract.

Lemma malloc_first_fit_witness :
  malloc 5 (MkMap [MkEnt 3 10; MkEnt 8 20; MkEnt 0 0; MkEnt 0 0] 3 [])
  = Done 20 (MkMap [MkEnt 3 10; MkEnt 3 25; MkEnt 0 0; MkEnt 0 0] 3 []) ∧
  ∃ a m', malloc 5 (MkMap [MkEnt 3 10; MkEnt 8 20; MkEnt 0 0; MkEnt 0 0] 3 []) = Done a m' ∧ 0 < a.
Proof.
  split; [reflexivity|].
  destruct (malloc_first_fit (MkMap [MkEnt 3 10; MkEnt 8 20; MkEnt 0 0; MkEnt 0 0] 3 [])
    [MkEnt 3 10; MkEnt 8 20] 5) as [(a&m'&?&?&?&?&?&?&?&?)|[? Hall]].
  - split; [cbn; unfold seg_end; cbn; lia|by eexists].
  - lia.
  - eauto.
  - apply Forall_cons in Hall as [_ [Hall _]%Forall_cons]. cbn in Hall. lia.
Defined.


Lemma mfree_correct_witness :
  ∃ m', mfree (H := gba_cfg) 5 20 (MkMap [MkEnt 3 10; MkEnt 3 25; MkEnt 0 0; MkEnt 0 0] 3 []) = Done tt m'
    ∧ m_limit m' = 3%nat.
Proof.
  destruct (mfree_correct (H := gba_cfg) (MkMap [MkEnt 3 10; MkEnt 3 25; MkEnt 0 0; MkEnt 0 0] 3 [])
    [MkEnt 3 10; MkEnt 3 25] 5 20) as (m'&?&?&_); [|lia..| |cbn; lia|by exists m'].
  - split; [cbn; unfold seg_end; cbn; lia|by eexists].
  - intros x Hx Hf. rewrite !free_in_cons, free_in_nil in Hf. unfold seg_end in Hf. cbn in Hf. lia.
Defined.

Lemma malloc_mfree_roundtrip_witness :
  ∃ m2, mfree (H := gba_cfg) 5 20 (MkMap [MkEnt 3 10; MkEnt 0 0; MkEnt 0 0; MkEnt 0 0] 3 []) = Done tt m2 ∧
    holds m2 [MkEnt 3 10; MkEnt 5 20].
Proof.
  destruct (malloc_mfree_roundtrip (H := gba_cfg) (MkMap [MkEnt 3 10; MkEnt 5 20; MkEnt 0 0; MkEnt 0 0] 3 [])
    [MkEnt 3 10; MkEnt 5 20] 5 20 (MkMap [MkEnt 3 10; MkEnt 0 0; MkEnt 0 0; MkEnt 0 0] 3 []))
    as (m2&?&?&_); [|lia|cbn; lia|reflexivity|lia|by exists m2].
  split; [cbn; unfold seg_end; cbn; lia|by eexists].
Defined.

Lemma malloc3_all_or_nothing_witness :
  malloc3 4 1 3 (MkMap [MkEnt 3 10; MkEnt 5 20; MkEnt 9 40; MkEnt 0 0] 3 []) =
    Done (40, [20; 10; 40]) (MkMap [MkEnt 2 11; MkEnt 1 24; MkEnt 6 43; MkEnt 0 0] 3 []) ∧
  malloc3 4 1 3 (MkMap [MkEnt 3 10; MkEnt 5 20; MkEnt 9 40; MkEnt 0 0] 3 []) ≠
    Done (0, []) (MkMap [MkEnt 3 10; MkEnt 5 20; MkEnt 9 40; MkEnt 0 0] 3 []).
Proof.
  split; [reflexivity|].
  destruct (malloc3_all_or_nothing (H := gba_cfg) (MkMap [MkEnt 3 10; MkEnt 5 20; MkEnt 9 40; MkEnt 0 0] 3 [])
    [MkEnt 3 10; MkEnt 5 20; MkEnt 9 40] 4 1 3)
    as [(a0&a1&a2&m'&l'&Heq&?&_)|[Heq ?]]; [|lia..| |].
  - split; [cbn; unfold seg_end; cbn; lia|by eexists].
  - by rewrite Heq.
  - vm_compute in Heq. done.
Defined.

Lemma swapmap_limit_overrun_witness :
  mfree (H := gba_cfg) 5 20 (MkMap [MkEnt 3 10; MkEnt 0 0] 2 []) = Faulted.
Proof.
  apply (swapmap_limit_overrun (H := gba_cfg) [MkEnt 3 10] 5 20 []);
    cbn; unfold seg_end; cbn; lia.
Defined.
End Rmap.
