(* ===== verification/Dsort.v ===== *)
(** Disk request ordering (kern/ufs_dsort.c): insertion of a transfer into a
    driver's request queue. *)
From S2P Require Import Prelude Buf.

Module Dsort.

(** The scan of [disksort]: [tp] is the request to insert [bp] after. *)
Fixpoint disksort_scan (fuel : nat) (bp : bptr) (ap tp : option bptr) : M bufs (option bptr) :=
  match fuel with
  | O => nofuel
  | S fuel =>
    match ap with
    | None => mret tp
    | Some a =>
      b ← rd bp;
      e ← rd a;
      if has (b_flags b) B_READ && negb (has (b_flags e) B_READ) then
        mret (match tp with None => Some a | Some _ => tp end)
      else if negb (has (b_flags b) B_READ) && has (b_flags e) B_READ then
        disksort_scan fuel bp (av_forw e) tp
      else
        tp ← (if b_cylin e <=? b_cylin b then
                match tp with
                | None => mret (Some a)
                | Some t => te ← rd t;
                    mret (if b_cylin e >=? b_cylin te then Some a else tp)
                end
              else mret tp);
        disksort_scan fuel bp (av_forw e) tp
    end
  end.

Definition disksort (dp bp : bptr) : M bufs unit :=
  d ← rd dp;
  match b_actf d with
  | None =>
    wr dp (λ d, d <| b_actf := Some bp |>) ;;
    wr dp (λ d, d <| b_actl := Some bp |>) ;;
    wr bp (λ b, b <| av_forw := None |>)
  | Some ap =>
    s ← get_s;
    tp ← disksort_scan (S (size s)) bp (Some ap) None;
    d ← rd dp;
    tp ← unless_none (match tp with None => b_actl d | Some _ => tp end);
    t ← rd tp;
    wr bp (λ b, b <| av_forw := av_forw t |>) ;;
    wr tp (λ t, t <| av_forw := Some bp |>) ;;
    d ← rd dp;
    when (bool_decide (b_actl d = Some tp)) (wr dp (λ d, d <| b_actl := Some bp |>))
  end.

(** [dk_n], [dk_name] and [dk_unit]; each is [DK_NDRIVE] long. *)
Record dkstate := MkDk { dk_n : Z; dk_name : list (option string); dk_unit : list Z }.
#[export] Instance dk_fields : Fields dkstate := λ d, MkDk (dk_n d) (dk_name d) (dk_unit d).

(** [for (i = 0; i < slots; i++)], filling from slot [n]. *)
Fixpoint dk_fill (slots : nat) (i n : nat) (name : string) (d : dkstate) : dkstate :=
  match slots with
  | O => d
  | S slots =>
    dk_fill slots (S i) (S n) name
      (d <| dk_name ::= <[n := Some name]> |> <| dk_unit ::= <[n := Z.of_nat i]> |>)
  end.

(** Returns the new [*dkn]. *)
Definition dk_alloc (DK_NDRIVE dkn slots : Z) (name : string) : M dkstate Z :=
  d ← get_s;
  if (dkn <? 0) && (dk_n d + slots <=? DK_NDRIVE) then
    modify (λ d, dk_fill (Z.to_nat slots) 0 (Z.to_nat (dk_n d)) name
      (d <| dk_n ::= λ n, n + slots |>)) ;;
    mret (dk_n d)
  else mret dkn.

(** ** The queue as a list of requests *)

Record req := MkReq { r_id : bptr; r_read : bool; r_cyl : Z }.

Definition req_of (p : bptr) (b : buf) : req :=
  MkReq p (has (b_flags b) B_READ) (b_cylin b).

(** Following the links from [o] visits the requests [l]. *)
Fixpoint spells (s : bufs) (o : option bptr) (l : list req) : Prop :=
  match l with
  | [] => o = None
  | r :: l => o = Some (r_id r) ∧
      ∃ b, s !! r_id r = Some b ∧ r = req_of (r_id r) b ∧ spells s (av_forw b) l
  end.

Definition queue (s : bufs) (dp : bptr) (l : list req) : Prop :=
  NoDup (dp :: (r_id <$> l)) ∧
  ∃ d, s !! dp = Some d ∧ spells s (b_actf d) l ∧ (l ≠ [] → b_actl d = r_id <$> last l).

(** The reference: the index of the request to insert after. *)
Fixpoint pick (b : req) (l : list req) (i : nat) (tp : option (nat * Z)) : option nat :=
  match l with
  | [] => fst <$> tp
  | e :: l =>
    if r_read b && negb (r_read e) then Some (match tp with None => i | Some (k, _) => k end)
    else if negb (r_read b) && r_read e then pick b l (S i) tp
    else pick b l (S i)
      (if r_cyl e <=? r_cyl b then
         match tp with
         | None => Some (i, r_cyl e)
         | Some (_, c) => if r_cyl e >=? c then Some (i, r_cyl e) else tp
         end
       else tp)
  end.

Definition insert_after (l : list req) (k : nat) (b : req) : list req :=
  take (S k) l ++ b :: drop (S k) l.

Definition place (l : list req) (b : req) : list req :=
  match l with
  | [] => [b]
  | _ => insert_after l (default (pred (length l)) (pick b l 0 None)) b
  end.

Lemma spells_lookup s o l k r :
  spells s o l → l !! k = Some r → ∃ b, s !! r_id r = Some b ∧ r = req_of (r_id r) b.
Proof.
  revert o k. induction l as [|r' l IH]; intros o k Hs Hk; [done|].
  destruct Hs as (_&b&Hb&Hr&Hs). destruct k as [|k]; simplify_eq/=; eauto.
Qed.

Lemma rd_eq (s : bufs) p b : s !! p = Some b → rd p s = Done b s.
Proof. unfold rd. by intros ->. Qed.

Lemma wr_eq (s : bufs) p b f : s !! p = Some b → wr p f s = Done tt (<[p := f b]> s).
Proof. unfold wr. by intros ->. Qed.

(** What the scan has chosen so far, as a request of the queue. *)
Definition chosen (l : list req) (k : option (nat * Z)) (tp : option bptr) : Prop :=
  match k with
  | None => tp = None
  | Some (i, c) => ∃ r, l !! i = Some r ∧ r_cyl r = c ∧ tp = Some (r_id r)
  end.

Lemma dsort_scan_spec fuel s bp b l1 l2 o0 o tp k :
  s !! bp = Some b → spells s o l2 → spells s o0 (l1 ++ l2) →
  (length l2 < fuel)%nat → chosen (l1 ++ l2) k tp →
  disksort_scan fuel bp o tp s =
  Done (match pick (req_of bp b) l2 (length l1) k with
        | Some i => r_id <$> (l1 ++ l2) !! i
        | None => None
        end) s.
Proof.
  revert l1 l2 o tp k. induction fuel as [|fuel IH]; intros l1 l2 o tp k Hb Hs Hs0 Hf Hk; [lia|].
  destruct l2 as [|r l2].
  { simpl in Hs. subst o. cbn. destruct k as [[i c]|]; cbn; [|by rewrite Hk].
    destruct Hk as (r&Hr&_&->). by rewrite Hr. }
  destruct Hs as (->&e&He&Hr&Hs). cbn [disksort_scan pick].
  mstep rd_eq; [done|]. mstep rd_eq; [done|].
  assert (has (b_flags e) B_READ = r_read r ∧ b_cylin e = r_cyl r) as [-> ->] by (by rewrite Hr).
  assert (has (b_flags b) B_READ = r_read (req_of bp b) ∧ b_cylin b = r_cyl (req_of bp b))
    as [-> ->] by done.
  assert ((l1 ++ r :: l2) !! length l1 = Some r) as Hmid by (by apply lookup_mid).
  assert (∀ tp k, chosen (l1 ++ r :: l2) k tp →
    disksort_scan fuel bp (av_forw e) tp s =
    Done (match pick (req_of bp b) l2 (S (length l1)) k with
          | Some i => r_id <$> (l1 ++ r :: l2) !! i
          | None => None
          end) s) as Hnext.
  { intros tp' k' Hk'. rewrite snoc_app in *.
    replace (S (length l1)) with (length (l1 ++ [r])) by len.
    apply IH; try done. simpl in Hf. lia. }
  destruct (_ && _).
  { destruct k as [[i c]|]; cbn; [|by rewrite Hk, Hmid].
    destruct Hk as (r'&Hr'&_&->). by rewrite Hr'. }
  destruct (_ && _); [by apply Hnext|].
  destruct (_ <=? _); [|by apply Hnext].
  destruct k as [[i c]|]; [|rewrite Hk; cbn; apply Hnext; by exists r].
  destruct Hk as (r'&Hr'&<-&->).
  destruct (spells_lookup _ _ _ _ _ Hs0 Hr') as (b'&Hb'&Hrb').
  etrans; [eapply bind_done; mstep rd_eq; [done|by apply mret_eq]|]. cbn beta.
  assert (b_cylin b' = r_cyl r') as -> by (by rewrite Hrb').
  apply Hnext. destruct (_ >=? _); [by exists r|by exists r'].
Qed.

Lemma spells_ne s o l p b :
  p ∉ (r_id <$> l) → spells (<[p := b]> s) o l ↔ spells s o l.
Proof.
  revert o. induction l as [|r l IH]; intros o Hp; [done|]. simpl in *.
  apply not_elem_of_cons in Hp as [Hne Hp]. setoid_rewrite IH; [|done].
  by rewrite lookup_insert_ne.
Qed.

(** The two stores that link [bp] in after [t]. *)
Definition link (t bp : bptr) (bt b : buf) (s : bufs) : bufs :=
  <[t := bt <| av_forw := Some bp |>]> (<[bp := b <| av_forw := av_forw bt |>]> s).

Lemma spells_link s o l1 t l2 bp b bt :
  NoDup (r_id <$> (l1 ++ t :: l2)) → bp ∉ (r_id <$> (l1 ++ t :: l2)) →
  s !! r_id t = Some bt → s !! bp = Some b → spells s o (l1 ++ t :: l2) →
  spells (link (r_id t) bp bt b s) o (l1 ++ t :: req_of bp b :: l2).
Proof.
  revert o. induction l1 as [|r l1 IH]; intros o Hnd Hbp Ht Hb Hs; simpl in *.
  - destruct Hs as (->&bt'&Hbt&Hr&Hs). simplify_eq.
    apply NoDup_cons in Hnd as [Hnt _]. apply not_elem_of_cons in Hbp as [Hne Hbp].
    split; [done|]. unfold link. eexists. rewrite lookup_insert_eq. split; [done|].
    split; [by rewrite Hr|]. cbn. split; [done|]. eexists.
    rewrite lookup_insert_ne, lookup_insert_eq by done. split; [done|]. split; [done|]. cbn.
    by rewrite !spells_ne.
  - destruct Hs as (->&br&Hbr&Hr&Hs). apply NoDup_cons in Hnd as [Hnr Hnd].
    apply not_elem_of_cons in Hbp as [Hne Hbp].
    split; [done|]. exists br. split; [|split; [done|by apply IH]].
    unfold link. rewrite !lookup_insert_ne; [done|done|]. intros Heq. apply Hnr.
    rewrite fmap_app. apply elem_of_app. right. rewrite <- Heq. by left.
Qed.

Lemma pick_bound b l i tp k :
  match tp with Some (j, _) => (j < i)%nat | None => True end →
  pick b l i tp = Some k → (k < i + length l)%nat.
Proof.
  revert i tp. induction l as [|e l IH]; intros i tp Htp Hp; simpl in Hp.
  { destruct tp as [[j c]|]; simplify_eq/=. lia. }
  destruct (_ && _); [destruct tp as [[j c]|]; simplify_eq/=; lia|].
  destruct (_ && _).
  { apply IH in Hp; [simpl; lia|]. destruct tp as [[j c]|]; lia. }
  apply IH in Hp; [simpl; lia|].
  destruct (_ <=? _); [destruct tp as [[j c]|]; [destruct (_ >=? _)|]|destruct tp as [[j c]|]]; lia.
Qed.

(** [disksort] on the links inserts after the request the reference picks. *)
Lemma disksort_refines s dp bp b l :
  queue s dp l → s !! bp = Some b → bp ≠ dp → bp ∉ (r_id <$> l) →
  (length l ≤ size s)%nat →
  ∃ s', disksort dp bp s = Done tt s' ∧ queue s' dp (place l (req_of bp b)) ∧
    ∀ p, p ∉ dp :: bp :: (r_id <$> l) → s' !! p = s !! p.
Proof.
  intros (Hnd&d&Hd&Hs&Hl) Hb Hne Hbp Hsz. unfold disksort. m_unfold.
  rewrite (rd_eq _ _ _ Hd). apply NoDup_cons in Hnd as [Hdp Hnd].
  destruct l as [|r0 l0].
  { simpl in Hs. rewrite Hs. rewrite (wr_eq _ _ _ _ Hd).
    rewrite (wr_eq _ _ _ _ (lookup_insert_eq _ _ _)).
    erewrite wr_eq by (rewrite !lookup_insert_ne by done; exact Hb).
    eexists. split; [done|]. split.
    - split; [simpl; apply NoDup_cons; split; [set_solver|apply NoDup_singleton]|].
      eexists. rewrite lookup_insert_ne, lookup_insert_eq by done. split; [done|].
      cbn. split_and!; [done| |done]. eexists. rewrite lookup_insert_eq. by split_and!.
    - intros p Hp. simpl in Hp. rewrite !lookup_insert_ne by set_solver. done. }
  set (l := r0 :: l0) in *.
  assert (b_actf d = Some (r_id r0)) as Hhd by (by destruct Hs). rewrite Hhd.
  rewrite (dsort_scan_spec _ s bp b [] l (b_actf d) _ _ None); [|done|by rewrite <- Hhd|done|lia|done].
  rewrite (rd_eq _ _ _ Hd). cbn [length app].
  set (k := default (pred (length l)) (pick (req_of bp b) l 0 None)).
  assert (k < length l)%nat as Hk.
  { unfold k. destruct (pick _ _ _ _) eqn:E; simpl; [|lia]. by apply (pick_bound _ _ 0) in E. }
  destruct (lookup_lt_is_Some_2 l k Hk) as [t Ht].
  set (tp := match pick _ _ _ _ with Some i => r_id <$> l !! i | None => None end).
  assert (match tp with Some _ => tp | None => b_actl d end = Some (r_id t)) as Htp.
  { unfold tp. unfold k in Ht. destruct (pick _ _ _ _) as [i|]; cbn [default from_option] in Ht.
    - cbn in Ht. by rewrite Ht.
    - rewrite Hl by done. rewrite last_lookup. by rewrite Ht. }
  rewrite Htp. cbn beta iota.
  destruct (spells_lookup _ _ _ _ _ Hs Ht) as (bt&Hbt&Hrt).
  assert (r_id t ∈ (r_id <$> l)) as Htl by (apply list_elem_of_fmap; eauto using list_elem_of_lookup_2).
  assert (r_id t ≠ bp ∧ r_id t ≠ dp) as [Htb Htd] by (split; intros <-; auto).
  rewrite (rd_eq _ _ _ Hbt), (wr_eq _ _ _ _ Hb).
  erewrite wr_eq by (rewrite lookup_insert_ne by done; exact Hbt).
  fold (link (r_id t) bp bt b s).
  assert (link (r_id t) bp bt b s !! dp = Some d) as Hd'
    by (unfold link; rewrite !lookup_insert_ne by done; exact Hd).
  rewrite (rd_eq _ _ _ Hd').
  pose proof (eq_sym (take_drop_middle _ _ _ Ht)) as Hsplit.
  assert (place l (req_of bp b) = take k l ++ t :: req_of bp b :: drop (S k) l) as Hplace.
  { unfold place, l. fold l. fold k. unfold insert_after.
    rewrite (take_S_r _ _ _ Ht). by rewrite <- app_assoc. }
  set (q := place l (req_of bp b)) in *. set (s1 := link _ _ _ _ s) in *.
  assert (q ≡ₚ req_of bp b :: l) as Hperm.
  { rewrite Hplace.
    trans (req_of bp b :: take k l ++ t :: drop (S k) l); [|by rewrite <- Hsplit].
    rewrite Permutation_middle. apply Permutation_app_head, perm_swap. }
  assert (∀ d', av_forw d' = av_forw d → av_back d' = r_id <$> last q →
    queue (<[dp := d']> s1) dp q) as Hq.
  { intros d' Hf' Hl'. assert (NoDup (dp :: (r_id <$> q))) as Hndq.
    { rewrite Hperm, fmap_cons. cbn [r_id req_of].
      apply NoDup_cons. split; [by apply not_elem_of_cons|by apply NoDup_cons]. }
    split; [done|]. apply NoDup_cons in Hndq as [Hdpq _].
    exists d'. rewrite lookup_insert_eq. split_and!; [done| |done]. rewrite Hf', spells_ne by done.
    rewrite Hplace. apply spells_link; rewrite <- ?Hsplit; done. }
  assert (∀ d' p, p ∉ dp :: bp :: (r_id <$> l) → <[dp := d']> s1 !! p = s !! p) as Hframe.
  { intros d' p Hp. unfold s1, link. rewrite !lookup_insert_ne by set_solver. done. }
  case_bool_decide as Hlast.
  - rewrite (wr_eq _ _ _ _ Hd'). eexists. split; [done|]. split; [apply Hq|apply Hframe]; [done|].
    change (Some bp = r_id <$> last q). rewrite Hl in Hlast by done.
    assert (S k = length l) as Hend.
    { rewrite last_lookup in Hlast. apply fmap_Some in Hlast as (t'&Ht'&Hid).
      assert (pred (length l) = k) as <-; [|lia].
      apply (NoDup_lookup (r_id <$> l) _ _ (r_id t)); [done|..];
        rewrite list_lookup_fmap; [by rewrite Ht', Hid|by rewrite Ht]. }
    rewrite Hplace, drop_ge by lia. by rewrite snoc_app, last_snoc.
  - exists s1. split; [done|]. rewrite <- (insert_id _ _ _ Hd').
    split; [apply Hq|apply Hframe]; [done|].
    rewrite Hl, Hplace by done. rewrite Hl in Hlast by done. f_equal.
    destruct (drop (S k) l) as [|x q'] eqn:Hdr.
    + destruct Hlast. by rewrite Hsplit, last_snoc.
    + trans (last (take k l ++ t :: x :: q')); [by rewrite <- Hsplit|].
      rewrite !last_app, !last_cons. by destruct (last q').
Qed.

(** ** The order kept *)

(** No write waits behind one that the upward sweep from an earlier write
    passes over it to reach. *)
Definition elevator (l : list req) : Prop :=
  ∀ i j k x y z, (i < j < k)%nat → l !! i = Some x → l !! j = Some y → l !! k = Some z →
    r_read x = false → r_read y = false → r_read z = false →
    ¬ (r_cyl x ≤ r_cyl z < r_cyl y).

(** What the scan picks for a write: the last of the highest writes at or
    below it. *)
Definition best (b : req) (l : list req) (k : nat) : Prop :=
  ∃ e, l !! k = Some e ∧ r_read e = false ∧ r_cyl e ≤ r_cyl b ∧
    ∀ j e', l !! j = Some e' → r_read e' = false → r_cyl e' ≤ r_cyl b →
      r_cyl e' ≤ r_cyl e ∧ ((k < j)%nat → r_cyl e' < r_cyl e).

Definition best_so_far (b : req) (l : list req) (tp : option (nat * Z)) : Prop :=
  match tp with
  | None => ∀ e, e ∈ l → r_read e = false → r_cyl b < r_cyl e
  | Some (k, c) => best b l k ∧ ∃ e, l !! k = Some e ∧ r_cyl e = c
  end.

Lemma best_snoc_skip b l e tp :
  best_so_far b l tp → (r_read e = true ∨ r_cyl b < r_cyl e) → best_so_far b (l ++ [e]) tp.
Proof.
  intros Htp He. destruct tp as [[k c]|]; simpl in *.
  - destruct Htp as [(x&Hx&Hxr&Hxc&Hall) (x'&Hx'&Hc)]. simplify_eq.
    assert ((l ++ [e]) !! k = Some x) as Hk by (by apply lookup_app_l_Some).
    split; [|by exists x]. exists x. split_and!; [done..|].
    intros j e' Hj. apply lookup_snoc_Some in Hj as [[_ Hj]|[_ ->]]; [by apply (Hall j)|].
    intros. destruct He; [congruence|lia].
  - intros e' He'. apply elem_of_app in He' as [?| ->%list_elem_of_singleton]; [auto|].
    destruct He; [congruence|done].
Qed.

Lemma best_snoc_take b l e :
  (∀ e', e' ∈ l → r_read e' = false → r_cyl e' ≤ r_cyl b → r_cyl e' ≤ r_cyl e) →
  r_read e = false → r_cyl e ≤ r_cyl b → best b (l ++ [e]) (length l).
Proof.
  intros Hall Hr Hc. exists e. split_and!; [by apply lookup_mid|done..|].
  intros j e' Hj Hr' Hc'. apply lookup_snoc_Some in Hj as [[Hlt Hj]|[-> ->]]; [|lia].
  split; [|lia]. apply Hall; try done. by eapply list_elem_of_lookup_2.
Qed.

Lemma pick_best b l1 l2 tp :
  r_read b = false → best_so_far b l1 tp →
  match pick b l2 (length l1) tp with
  | None => ∀ e, e ∈ l1 ++ l2 → r_read e = false → r_cyl b < r_cyl e
  | Some k => best b (l1 ++ l2) k
  end.
Proof.
  intros Hb. revert l1 tp. induction l2 as [|e l2 IH]; intros l1 tp Htp.
  { rewrite app_nil_r. destruct tp as [[k c]|]; simpl; [by destruct Htp|done]. }
  cbn [pick]. rewrite Hb. cbn [andb negb]. rewrite snoc_app.
  replace (S (length l1)) with (length (l1 ++ [e])) by len.
  destruct (r_read e) eqn:Hr; [apply IH, best_snoc_skip; auto|].
  apply IH. destruct (Z.leb_spec (r_cyl e) (r_cyl b)) as [Hle|]; [|apply best_snoc_skip; auto].
  assert (∀ k x, best b l1 k → l1 !! k = Some x → r_cyl x ≤ r_cyl e →
    ∀ e', e' ∈ l1 → r_read e' = false → r_cyl e' ≤ r_cyl b → r_cyl e' ≤ r_cyl e) as Hup.
  { intros k x (x'&Hx'&_&_&Hall) Hx Hxe e' He' Hr' Hc'. simplify_eq.
    apply list_elem_of_lookup in He' as [j Hj]. destruct (Hall j e' Hj Hr' Hc'). lia. }
  destruct tp as [[k c]|]; cbn in Htp.
  - destruct Htp as [Hbest (x&Hx&<-)].
    destruct (Z.geb_spec (r_cyl e) (r_cyl x)).
    + split; [|exists e; split; [by apply lookup_mid|done]].
      apply best_snoc_take; [|done..]. by eapply Hup.
    + pose proof Hbest as (x'&Hx'&Hxr&Hxc&Hall). simplify_eq.
      assert ((l1 ++ [e]) !! k = Some x) as Hk by (by apply lookup_app_l_Some).
      split; [|by exists x]. exists x. split_and!; [done..|].
      intros j e' Hj. apply lookup_snoc_Some in Hj as [[_ Hj]|[_ ->]]; [by apply (Hall j)|lia].
  - split; [|exists e; split; [by apply lookup_mid|done]].
    apply best_snoc_take; [|done..]. intros e' He' Hr' Hc'. specialize (Htp _ He' Hr'). lia.
Qed.

Lemma lookup_inserted (pre post : list req) b i x :
  (pre ++ b :: post) !! i = Some x →
  (i = length pre ∧ x = b) ∨
  ∃ i', (pre ++ post) !! i' = Some x ∧
    ((i < length pre)%nat ∧ i' = i ∨ (length pre < i)%nat ∧ i = S i').
Proof.
  intros Hi. destruct (Nat.lt_total i (length pre)) as [Hlt|[->|Hgt]].
  - right. exists i. rewrite lookup_app_l in Hi by done. by rewrite lookup_app_l; auto.
  - left. rewrite lookup_mid in Hi by done. by simplify_eq.
  - right. exists (pred i). rewrite lookup_app_r in Hi by lia.
    rewrite lookup_app_r by lia. destruct (i - length pre)%nat as [|n] eqn:E; [lia|].
    replace (pred i - length pre)%nat with n by lia. split; [done|lia].
Qed.

(** Inserting a read, or a write after its [best] predecessor, keeps the
    order. *)
Lemma elevator_insert pre post b :
  elevator (pre ++ post) →
  (r_read b = false →
    (∃ k, best b (pre ++ post) k ∧ length pre = S k) ∨
    (post = [] ∧ ∀ e, e ∈ pre → r_read e = false → r_cyl b < r_cyl e)) →
  elevator (pre ++ b :: post).
Proof.
  intros Hel Hb i j k x y z Hijk Hx Hy Hz Rx Ry Rz [Hxz Hzy].
  apply lookup_inserted in Hx as [[-> ->]|(i'&Hx&Hi)];
  apply lookup_inserted in Hy as [[-> ->]|(j'&Hy&Hj)];
  apply lookup_inserted in Hz as [[-> ->]|(k'&Hz&Hk)]; try lia.
  - destruct (Hb Rx) as [(m&(e&He&Hre&Hce&Hall)&Hm)|[-> _]].
    + apply (Hel m j' k' e y z); try done; lia.
    + rewrite app_nil_r in Hz. apply lookup_lt_Some in Hz. lia.
  - destruct (Hb Ry) as [(m&(e&He&Hre&Hce&Hall)&Hm)|[-> _]].
    + destruct (Hall k' z Hz Rz ltac:(lia)) as [_ Hlt].
      destruct (decide (i' = m)) as [->|]; [simplify_eq; lia|].
      apply (Hel i' m k' x e z); try done; lia.
    + rewrite app_nil_r in Hz. apply lookup_lt_Some in Hz. lia.
  - destruct (Hb Rz) as [(m&(e&He&Hre&Hce&Hall)&Hm)|[-> Hall]].
    + destruct (Hall i' x Hx Rx Hxz) as [Hle _].
      destruct (decide (j' = m)) as [->|]; [simplify_eq; lia|].
      apply (Hel i' j' m x y e); try done; lia.
    + rewrite app_nil_r in Hx. specialize (Hall x (list_elem_of_lookup_2 _ _ _ Hx) Rx). lia.
  - apply (Hel i' j' k' x y z); try done; lia.
Qed.

Notation is_write := (λ r, r_read r = false).

Lemma no_writes l : Forall (λ r, r_read r = true) l → filter is_write l = [].
Proof. induction 1 as [|r l Hr _ IH]; [done|]. by rewrite filter_cons_False by congruence. Qed.

(** A read never goes past the first write. *)
Lemma pick_read b l1 l2 tp :
  r_read b = true → Forall (λ r, r_read r = true) l1 →
  match tp with Some (k, _) => (k < length l1)%nat | None => True end →
  match pick b l2 (length l1) tp with
  | None => Forall (λ r, r_read r = true) (l1 ++ l2)
  | Some k => Forall (λ r, r_read r = true) (take k (l1 ++ l2))
  end.
Proof.
  intros Hb. revert l1 tp. induction l2 as [|e l2 IH]; intros l1 tp Hl1 Htp.
  { rewrite app_nil_r. destruct tp as [[k c]|]; simpl; [by apply Forall_take|done]. }
  cbn [pick]. rewrite Hb. cbn [andb negb]. destruct (r_read e) eqn:Hr; cbn [negb].
  - rewrite snoc_app. replace (S (length l1)) with (length (l1 ++ [e])) by len.
    apply IH; [by apply Forall_app; split; [|constructor]|].
    destruct (_ <=? _); destruct tp as [[k c]|]; try destruct (_ >=? _); len.
  - destruct tp as [[k c]|]; rewrite take_app_le by lia; by apply Forall_take.
Qed.

Lemma read_ahead l b k :
  r_read b = true → k = default (pred (length l)) (pick b l 0 None) →
  (length (filter is_write (take (S k) l)) ≤ 1)%nat.
Proof.
  intros Hb ->. pose proof (pick_read b [] l None Hb (Forall_nil_2 _) I) as Hp. simpl in Hp.
  destruct (pick b l 0 None) as [k|]; cbn [from_option id].
  - destruct (l !! k) as [e|] eqn:E.
    + rewrite (take_S_r _ _ _ E), filter_app, (no_writes (take k l)) by done.
      rewrite filter_cons. destruct (decide _); simpl; lia.
    + rewrite take_ge; [|apply lookup_ge_None in E; lia].
      rewrite take_ge in Hp by (by apply lookup_ge_None). rewrite no_writes by done. simpl. lia.
  - rewrite no_writes; [simpl; lia|by apply Forall_take].
Qed.

Lemma queue_size s dp l : queue s dp l → (length l ≤ size s)%nat.
Proof.
  intros (Hnd&d&_&Hs&_). apply NoDup_cons in Hnd as [_ Hnd].
  rewrite <- (length_fmap r_id), <- (size_list_to_set (C := gset bptr) (r_id <$> l)) by done.
  rewrite <- (size_dom (D := gset bptr)). apply subseteq_size. intros p Hp.
  apply elem_of_list_to_set, list_elem_of_fmap in Hp as (r&->&Hr).
  apply list_elem_of_lookup in Hr as [k Hk].
  destruct (spells_lookup _ _ _ _ _ Hs Hk) as (b&Hb&_). by apply elem_of_dom.
Qed.

(** C38: [disksort] links the transfer into the queue, which keeps the other
    requests in their order and the one being served in front; writes stay in
    elevator order, and a read is put ahead of all the writes but one. Headers
    that are not on the queue are not touched. *)
Theorem disksort_order s dp bp b l :
  queue s dp l → s !! bp = Some b → bp ∉ dp :: (r_id <$> l) →
  ∃ s' pre post, disksort dp bp s = Done tt s' ∧
    queue s' dp (pre ++ req_of bp b :: post) ∧ l = pre ++ post ∧
    (l ≠ [] → pre ≠ []) ∧
    (elevator l → elevator (pre ++ req_of bp b :: post)) ∧
    (has (b_flags b) B_READ = true → (length (filter is_write pre) ≤ 1)%nat) ∧
    ∀ p, p ∉ dp :: bp :: (r_id <$> l) → s' !! p = s !! p.
Proof.
  intros Hq Hb [Hne Hbp]%not_elem_of_cons.
  destruct (disksort_refines s dp bp b l Hq Hb Hne Hbp (queue_size _ _ _ Hq)) as (s'&Hd&Hq'&Hfr).
  set (rb := req_of bp b) in *. destruct l as [|r l].
  { exists s', [], []. split_and!; try done.
    - intros _ i j k x y z Hijk Hx Hy. apply list_lookup_singleton_Some in Hx as [-> _].
      apply list_lookup_singleton_Some in Hy as [-> _]. lia.
    - simpl. lia. }
  set (k := default (pred (length (r :: l))) (pick rb (r :: l) 0 None)).
  exists s', (take (S k) (r :: l)), (drop (S k) (r :: l)). split_and!; try done.
  - by rewrite take_drop.
  - intros Hel. apply elevator_insert; [by rewrite take_drop|].
    intros Hw. rewrite take_drop.
    pose proof (pick_best rb [] (r :: l) None Hw) as Hpick. cbn [length app] in Hpick.
    destruct (pick rb (r :: l) 0 None) as [m|] eqn:E.
    + left. exists m. split; [apply Hpick; intros e He; by apply elem_of_nil in He|].
      apply (pick_bound _ _ 0) in E; [|done]. unfold k. cbn [from_option id].
      rewrite length_take. lia.
    + right. unfold k. cbn [from_option id]. rewrite drop_ge by (simpl; lia).
      split; [done|]. intros e He. apply Hpick.
      * intros e' He'. by apply elem_of_nil in He'.
      * apply list_elem_of_lookup in He as [i Hi]. apply lookup_take_Some in Hi as [Hi _].
        by eapply list_elem_of_lookup_2.
  - intros Hr. by apply (read_ahead _ rb).
Qed.

(** A driver queue with writes at cylinders 50 and 20 and a third at 30. *)
Definition ex_buf (fl cyl : Z) (next last : option bptr) : buf :=
  MkBuf fl None None next last 0 0 0 0 0 cyl.
Definition ex_store : bufs :=
  list_to_map [(DrvP 0, ex_buf 0 0 (Some (BufP 0)) (Some (BufP 1)));
    (BufP 0, ex_buf 0 50 (Some (BufP 1)) None); (BufP 1, ex_buf 0 20 None None);
    (BufP 2, ex_buf 0 30 None None)].

Lemma disksort_order_witness :
  ∃ s' pre post, disksort (DrvP 0) (BufP 2) ex_store = Done tt s' ∧
    [MkReq (BufP 0) false 50; MkReq (BufP 1) false 20] = pre ++ post ∧
    elevator (pre ++ MkReq (BufP 2) false 30 :: post).
Proof.
  destruct (disksort_order ex_store (DrvP 0) (BufP 2) (ex_buf 0 30 None None)
    [MkReq (BufP 0) false 50; MkReq (BufP 1) false 20])
    as (s'&pre&post&?&?&?&?&Hel&_); [|reflexivity| |exists s', pre, post; split_and!; [done..|]].
  - split; [apply (bool_decide_unpack _); vm_compute; exact I|].
    exists (ex_buf 0 0 (Some (BufP 0)) (Some (BufP 1))).
    split_and!; [reflexivity| |reflexivity].
    split; [reflexivity|]. eexists. split_and!; [reflexivity..|].
    split; [reflexivity|]. eexists. split_and!; reflexivity.
  - apply (bool_decide_unpack _). vm_compute. exact I.
  - apply Hel. intros i j k x y z Hijk _ _ Hz. apply lookup_lt_Some in Hz. simpl in Hz. lia.
Defined.
End Dsort.
