(* ===== verification/Clist.v ===== *)
(** Character lists (kern/tty_subr.c, sys/clist.h): byte queues in chains of
    small aligned blocks, found again from a byte's address. *)
From S2P Require Import Prelude.

Definition CBLOCK : Z := 32.
Definition CBSIZE : Z := CBLOCK - 4.
Definition CROUND : Z := CBLOCK - 1.

(** [struct cblock]: the link (0 for NULL) and the [CBSIZE] characters, as
    values 0 to 255. *)
Record cblock := MkCb { c_next : Z; c_info : list Z }.
#[export] Instance cblock_fields : Fields cblock := λ b, MkCb (c_next b) (c_info b).

(** [struct clist] (sys/tty.h). *)
Record clist := MkCl { c_cc : Z; c_cf : Z; c_cl : Z }.
#[export] Instance clist_fields : Fields clist := λ q, MkCl (c_cc q) (c_cf q) (c_cl q).

(** The blocks by address, the free list, and the queues by number;
    [cwoken] counts the wakeups of [cwaiting]. *)
Record cstate := MkCs {
  cmem : gmap Z cblock;
  cfreelist : Z;
  cfreecount : Z;
  cwaiting : bool;
  cwoken : nat;
  clists : list clist;
}.
#[export] Instance cstate_fields : Fields cstate :=
  λ s, MkCs (cmem s) (cfreelist s) (cfreecount s) (cwaiting s) (cwoken s) (clists s).

Module Clist.
Section clist.
Context `{KConfig}.

(** Pointer arithmetic: the offset in a block, and the block of an address. *)
Definition off (a : Z) : Z := Z.land a CROUND.
Definition base (a : Z) : Z := Z.ldiff a CROUND.

(** [*p] for a queue, a block and a character. *)
Definition getq (p : nat) : M cstate clist :=
  s ← get_s; unless_none (clists s !! p).
Definition setq (p : nat) (f : clist → clist) : M cstate unit :=
  q ← getq p; modify (λ s, s <| clists ::= <[p := f q]> |>).
Definition getb (bp : Z) : M cstate cblock :=
  s ← get_s; unless_none (cmem s !! bp).
Definition setb (bp : Z) (f : cblock → cblock) : M cstate unit :=
  b ← getb bp; modify (λ s, s <| cmem ::= <[bp := f b]> |>).
Definition getch (a : Z) : M cstate Z :=
  if off a <? 4 then fault
  else b ← getb (base a); unless_none (c_info b !! Z.to_nat (off a - 4)).
Definition setch (a c : Z) : M cstate unit :=
  if off a <? 4 then fault
  else setb (base a) (λ b, b <| c_info ::= <[Z.to_nat (off a - 4) := u8 c]> |>).

(** [bcopy] out of and into a block. *)
Fixpoint getchs (a : Z) (n : nat) : M cstate (list Z) :=
  match n with
  | O => mret []
  | S n => c ← getch a; cs ← getchs (a + 1) n; mret (c :: cs)
  end.
Fixpoint setchs (a : Z) (cs : list Z) : M cstate unit :=
  match cs with
  | [] => mret tt
  | c :: cs => setch a c ;; setchs (a + 1) cs
  end.

(** [&bp->c_info]. *)
Definition c_info_of (bp : Z) : Z := bp + 4.

(** [bp->c_next = cfreelist; cfreelist = bp; cfreecount += CBSIZE;], the end
    of every operation that empties a block... *)
Definition putfree (bp : Z) : M cstate unit :=
  s ← get_s;
  setb bp (λ b, b <| c_next := cfreelist s |>) ;;
  modify (λ s, s <| cfreelist := bp |> <| cfreecount ::= Z.add CBSIZE |>).

(** ... and [if (cwaiting) { wakeup (&cwaiting); cwaiting = 0; }]. *)
Definition wakefree : M cstate unit :=
  s ← get_s;
  when (cwaiting s)
    (modify (λ s, s <| cwoken ::= S |> <| cwaiting := false |>)).

(** After [c_cf] and [c_cc] moved on: release the first block if the queue is
    now empty ([true]) or its last character was read. *)
Definition release (p : nat) : M cstate bool :=
  q ← getq p;
  if c_cc q <=? 0 then
    let bp := base (c_cf q - 1) in
    setq p (λ q, q <| c_cf := 0 |> <| c_cl := 0 |>) ;;
    putfree bp ;;
    wakefree ;;
    mret true
  else if off (c_cf q) =? 0 then
    let bp := c_cf q - CBLOCK in
    b ← getb bp;
    setq p (λ q, q <| c_cf := c_info_of (c_next b) |>) ;;
    putfree bp ;;
    wakefree ;;
    mret false
  else mret false.

Definition getc (p : nat) : M cstate Z :=
  q ← getq p;
  if c_cc q <=? 0 then
    setq p (λ _, MkCl 0 0 0) ;; mret (-1)
  else
    c ← getch (c_cf q);
    setq p (λ q, q <| c_cf ::= Z.add 1 |>) ;;
    setq p (λ q, q <| c_cc ::= Z.pred |>) ;;
    _ ← release p;
    mret (Z.land c 0xff).

(** The loop of [q_to_b]; returns the characters copied to [cp]. *)
Fixpoint q_to_b_loop (fuel : nat) (p : nat) (cc : Z) : M cstate (list Z) :=
  if cc =? 0 then mret [] else
  match fuel with
  | O => nofuel
  | S fuel =>
    q ← getq p;
    let nc := CBLOCK - off (c_cf q) in
    let nc := Z.min nc cc in
    let nc := Z.min nc (c_cc q) in
    cs ← getchs (c_cf q) (Z.to_nat nc);
    setq p (λ q, q <| c_cf ::= Z.add nc |> <| c_cc ::= λ n, n - nc |>) ;;
    done ← release p;
    if (done : bool) then mret cs
    else
      rest ← q_to_b_loop fuel p (cc - nc);
      mret (cs ++ rest)
  end.

Definition q_to_b (p : nat) (cc : Z) : M cstate (list Z) :=
  if cc <=? 0 then mret [] else
  q ← getq p;
  if c_cc q <=? 0 then setq p (λ _, MkCl 0 0 0) ;; mret []
  else q_to_b_loop (Z.to_nat cc) p cc.

(** The scan of [ndqb] for a character with a bit of [flag]: its offset. *)
Fixpoint ndqb_scan (n : nat) (a flag : Z) : M cstate nat :=
  match n with
  | O => mret O
  | S n =>
    c ← getch a;
    if has (cchar c) flag then mret O
    else k ← ndqb_scan n (a + 1) flag; mret (S k)
  end.

Definition ndqb (p : nat) (flag : Z) : M cstate Z :=
  q ← getq p;
  if c_cc q <=? 0 then mret (- c_cc q) else
  let cc := base (c_cf q + CBSIZE) - c_cf q in
  let cc := if c_cc q <? cc then c_cc q else cc in
  if flag =? 0 then mret cc
  else k ← ndqb_scan (Z.to_nat cc) (c_cf q) flag; mret (Z.of_nat k).

(** The loop of [ndflush]. *)
Fixpoint ndflush_loop (fuel : nat) (p : nat) (cc : Z) : M cstate unit :=
  q ← getq p;
  if negb ((0 <? cc) && negb (c_cc q =? 0)) then mret tt else
  match fuel with
  | O => nofuel
  | S fuel =>
    let bp := base (c_cf q) in
    let end_ := if bp =? base (c_cl q - 1) then c_cl q else bp + CBLOCK in
    let rem := end_ - c_cf q in
    if cc >=? rem then
      b ← getb bp;
      setq p (λ q, q <| c_cc ::= λ n, n - rem |> <| c_cf := c_info_of (c_next b) |>) ;;
      putfree bp ;;
      wakefree ;;
      ndflush_loop fuel p (cc - rem)
    else
      setq p (λ q, q <| c_cc ::= λ n, n - cc |> <| c_cf ::= Z.add cc |>) ;;
      q ← getq p;
      if c_cc q <=? 0 then putfree bp ;; wakefree else mret tt
  end.

Definition ndflush (p : nat) (cc : Z) : M cstate unit :=
  q ← getq p;
  if c_cc q <=? 0 then mret tt else
  ndflush_loop (Z.to_nat cc) p cc ;;
  q ← getq p;
  if c_cc q <=? 0 then setq p (λ _, MkCl 0 0 0) else mret tt.

(** [cfreelist = bp->c_next; cfreecount -= CBSIZE; bp->c_next = NULL;] *)
Definition takefree (bp : Z) : M cstate unit :=
  b ← getb bp;
  modify (λ s, s <| cfreelist := c_next b |> <| cfreecount ::= λ n, n - CBSIZE |>) ;;
  setb bp (λ b, b <| c_next := 0 |>).

Definition putc (c : Z) (p : nat) : M cstate Z :=
  q ← getq p;
  s ← get_s;
  let cp := c_cl q in
  let store cp :=
    setch cp c ;;
    setq p (λ q, q <| c_cc ::= Z.succ |> <| c_cl := cp + 1 |>) ;;
    mret 0 in
  if (cp =? 0) || (c_cc q <? 0) then
    let bp := cfreelist s in
    if bp =? 0 then mret (-1) else
    takefree bp ;;
    setq p (λ q, q <| c_cf := c_info_of bp |>) ;;
    store (c_info_of bp)
  else if off cp =? 0 then
    setb (cp - CBLOCK) (λ b, b <| c_next := cfreelist s |>) ;;
    let bp := cfreelist s in
    if bp =? 0 then mret (-1) else
    takefree bp ;;
    store (c_info_of bp)
  else store cp.

(** The loop of [b_to_q] at the write pointer [cq]; returns the final [cq]
    and [cc]. *)
Fixpoint b_to_q_loop (fuel : nat) (cp : list Z) (cq cc : Z) : M cstate (Z * Z) :=
  if cc =? 0 then mret (cq, cc) else
  match fuel with
  | O => nofuel
  | S fuel =>
    let copy cq :=
      let nc := Z.min cc (CBLOCK - off cq) in
      if Z.of_nat (length cp) <? nc then fault else
      setchs cq (take (Z.to_nat nc) cp) ;;
      b_to_q_loop fuel (drop (Z.to_nat nc) cp) (cq + nc) (cc - nc) in
    if off cq =? 0 then
      s ← get_s;
      let bp := cfreelist s in
      setb (cq - CBLOCK) (λ b, b <| c_next := bp |>) ;;
      if bp =? 0 then mret (cq, cc) else
      takefree bp ;;
      copy (c_info_of bp)
    else copy cq
  end.

Definition b_to_q (cp : list Z) (cc : Z) (p : nat) : M cstate Z :=
  if cc <=? 0 then mret 0 else
  q ← getq p;
  s ← get_s;
  let cq := c_cl q in
  let run cq :=
    '(cq, rest) ← b_to_q_loop (Z.to_nat cc) cp cq cc;
    setq p (λ q, q <| c_cl := cq |> <| c_cc ::= Z.add (cc - rest) |>) ;;
    mret rest in
  if (cq =? 0) || (c_cc q <? 0) then
    let bp := cfreelist s in
    if bp =? 0 then setq p (λ q, q <| c_cl := cq |>) ;; mret cc else
    takefree bp ;;
    setq p (λ q, q <| c_cf := c_info_of bp |>) ;;
    run (c_info_of bp)
  else run cq.

(** Returns the address of the next character, 0 for NULL. *)
Definition nextc (p : nat) (cp : Z) : M cstate Z :=
  q ← getq p;
  if negb (c_cc q =? 0) && negb (cp + 1 =? c_cl q) then
    let cp := cp + 1 in
    if off cp =? 0 then b ← getb (cp - CBLOCK); mret (c_info_of (c_next b))
    else mret cp
  else mret 0.

(** [while (bp->c_next != p->c_cl) bp = bp->c_next;] *)
Fixpoint unputc_find (fuel : nat) (bp cl : Z) : M cstate Z :=
  match fuel with
  | O => nofuel
  | S fuel =>
    b ← getb bp;
    if c_next b =? cl then mret bp else unputc_find fuel (c_next b) cl
  end.

Definition unputc (p : nat) : M cstate Z :=
  q ← getq p;
  if c_cc q <=? 0 then mret (-1) else
  setq p (λ q, q <| c_cl ::= Z.pred |>) ;;
  q ← getq p;
  c ← getch (c_cl q);
  setq p (λ q, q <| c_cc ::= Z.pred |>) ;;
  q ← getq p;
  (if c_cc q <=? 0 then
     let bp := base (c_cl q) in
     setq p (λ q, q <| c_cl := 0 |> <| c_cf := 0 |>) ;;
     putfree bp
   else if off (c_cl q) =? 4 then
     let cl := base (c_cl q) in
     s ← get_s;
     obp ← unputc_find (size (cmem s)) (base (c_cf q)) cl;
     setq p (λ q, q <| c_cl := obp + CBLOCK |>) ;;
     b ← getb obp;
     putfree (c_next b) ;;
     setb obp (λ b, b <| c_next := 0 |>)
   else mret tt) ;;
  mret (cchar c).

(** The copying loop of [catq]. *)
Fixpoint catq_loop (fuel : nat) (from to : nat) : M cstate unit :=
  q ← getq from;
  if c_cc q <=? 0 then mret tt else
  match fuel with
  | O => nofuel
  | S fuel =>
    cs ← q_to_b from (CBSIZE * 4);
    _ ← b_to_q cs (Z.of_nat (length cs)) to;
    catq_loop fuel from to
  end.

Definition catq (from to : nat) : M cstate unit :=
  t ← getq to;
  f ← getq from;
  if c_cc t =? 0 then
    setq to (λ _, f) ;;
    setq from (λ _, MkCl 0 0 0)
  else catq_loop (Z.to_nat (c_cc f)) from to.

(** [cinit] (init_main.c): chain up the blocks from the first aligned address
    of [cfree] to [&cfree[NCLIST - 1]]. *)
Fixpoint cinit_loop (fuel : nat) (cp last : Z) : M cstate unit :=
  if negb (cp <=? last) then mret tt else
  match fuel with
  | O => nofuel
  | S fuel =>
    putfree cp ;;
    cinit_loop fuel (cp + CBLOCK) last
  end.

Definition cinit (cfree : Z) (NCLIST : nat) : M cstate unit :=
  cinit_loop NCLIST (base (cfree + CROUND)) (cfree + CBLOCK * (Z.of_nat NCLIST - 1)).
End clist.

(** ** Addresses *)

Lemma off_spec a : off a = a `mod` 32.
Proof. apply (Z.land_ones a 5). lia. Qed.

Lemma base_spec a : base a = a - a `mod` 32.
Proof.
  unfold base. change CROUND with (Z.ones 5).
  rewrite Z.ldiff_ones_r, Z.shiftl_mul_pow2, Z.shiftr_div_pow2 by lia.
  change (2 ^ 5) with 32. pose proof (Z.div_mod a 32). lia.
Qed.

Lemma off_in b k : b `mod` 32 = 0 → 0 ≤ k < 32 → off (b + k) = k.
Proof. intros Hb Hk. rewrite off_spec, <- Z.add_mod_idemp_l, Hb by lia. apply Z.mod_small. lia. Qed.

Lemma base_in b k : b `mod` 32 = 0 → 0 ≤ k < 32 → base (b + k) = b.
Proof. intros Hb Hk. rewrite base_spec, <- off_spec, off_in by done. lia. Qed.

Lemma off_end b : b `mod` 32 = 0 → off (b + 32) = 0.
Proof. intros Hb. rewrite off_spec, <- Z.add_mod_idemp_l, Hb by lia. done. Qed.

(** ** Chains of blocks *)

Definition byte (c : Z) : Prop := 0 ≤ c < 256.
Definition link (bs : list Z) (nx : Z) : Z := default nx (head bs).

(** A block in use, linked to [nx] and holding [d]. *)
Definition blk (m : gmap Z cblock) (b : Z) (d : list Z) (nx : Z) : Prop :=
  0 < b ∧ b `mod` 32 = 0 ∧ m !! b = Some (MkCb nx d) ∧ length d = 28%nat ∧ Forall byte d.

(** The blocks [bs] are linked in this order, the last one to [nx], and hold
    [ds]. *)
Fixpoint chain (m : gmap Z cblock) (bs : list Z) (ds : list (list Z)) (nx : Z) : Prop :=
  match bs, ds with
  | [], [] => True
  | b :: bs, d :: ds => blk m b d (link bs nx) ∧ chain m bs ds nx
  | _, _ => False
  end.

Lemma cchain_length m bs ds nx : chain m bs ds nx → length ds = length bs.
Proof.
  revert ds. induction bs as [|b bs IH]; intros [|d ds]; simpl; try done.
  intros [_ Hc]. f_equal. by apply IH.
Qed.

Lemma cchain_agree m m' bs ds nx :
  (∀ a, a ∈ bs → m' !! a = m !! a) → chain m bs ds nx → chain m' bs ds nx.
Proof.
  revert ds. induction bs as [|b bs IH]; intros [|d ds] Ha; simpl; try done.
  unfold blk. rewrite (Ha b) by left. intros [? ?]. split; [done|].
  apply IH; [|done]. intros a Hin. apply Ha. by right.
Qed.

Lemma chain_ne m bs ds nx b x : b ∉ bs → chain m bs ds nx → chain (<[b := x]> m) bs ds nx.
Proof.
  intros Hb. apply cchain_agree. intros a Ha. apply lookup_insert_ne. by intros ->.
Qed.

Lemma chain_total m bs ds nx : chain m bs ds nx → length (concat ds) = (28 * length bs)%nat.
Proof.
  revert ds. induction bs as [|b bs IH]; intros [|d ds]; simpl; try done.
  intros [(_&_&_&Hd&_) Hc]. rewrite length_app, (IH _ Hc). lia.
Qed.

Lemma chain_bytes m bs ds nx : chain m bs ds nx → Forall byte (concat ds).
Proof.
  revert ds. induction bs as [|b bs IH]; intros [|d ds]; simpl; try done.
  intros [(_&_&_&_&?) Hc]. apply Forall_app. eauto.
Qed.

Lemma cchain_app m bs1 bs2 ds nx :
  chain m (bs1 ++ bs2) ds nx ↔
  ∃ ds1 ds2, ds = ds1 ++ ds2 ∧ chain m bs1 ds1 (link bs2 nx) ∧ chain m bs2 ds2 nx.
Proof.
  revert ds. induction bs1 as [|b bs1 IH]; intros ds; simpl.
  { split; [intros; by exists [], ds|]. by intros ([|??]&?&->&?&?). }
  assert (link (bs1 ++ bs2) nx = link bs1 (link bs2 nx)) as -> by (by destruct bs1).
  destruct ds as [|d ds].
  { split; [done|]. by intros ([|??]&?&?&?&?). }
  rewrite IH. split.
  - intros [Hb (ds1&ds2&->&?&?)]. by exists (d :: ds1), ds2.
  - intros ([|d1 ds1]&ds2&?&?&?); [done|]. simplify_eq/=. destruct_and!. eauto 10.
Qed.

Lemma chain_snoc m bs ds b nx :
  chain m (bs ++ [b]) ds nx ↔
  ∃ ds1 d, ds = ds1 ++ [d] ∧ chain m bs ds1 b ∧ blk m b d nx.
Proof.
  rewrite cchain_app. split.
  - intros (ds1&ds2&->&?&Hb). destruct ds2 as [|d [|??]]; simpl in Hb; [done| |by destruct Hb].
    destruct Hb. exists ds1, d. by split_and!.
  - intros (ds1&d&->&?&?). exists ds1, [d]. by split_and!.
Qed.

Lemma chain_blk m bs ds nx b : chain m bs ds nx → b ∈ bs → ∃ d nx', blk m b d nx'.
Proof.
  revert ds. induction bs as [|b0 bs IH]; intros [|d ds]; simpl; try done.
  - by intros _ ?%elem_of_nil.
  - intros [? ?] [->|?]%elem_of_cons; eauto.
Qed.

(** ** Queues and the free list *)

(** From offset [i] of its first block, the chain holds [cs]. *)
Record mid (m : gmap Z cblock) (q : clist) (bs : list Z) (ds : list (list Z)) (i : nat)
    (cs : list Z) : Prop := MkMid {
  mid_chain : chain m bs ds 0;
  mid_off : (i ≤ 28)%nat;
  mid_fit : (28 * length bs < i + length cs + 28 ∧ i + length cs ≤ 28 * length bs)%nat;
  mid_data : cs = take (length cs) (drop i (concat ds));
  mid_cc : c_cc q = Z.of_nat (length cs);
  mid_cf : c_cf q = link bs 0 + 4 + Z.of_nat i;
  mid_cl : c_cl q + 28 * Z.of_nat (length bs) =
    default 0 (last bs) + 32 + Z.of_nat i + Z.of_nat (length cs);
}.

(** The queue [q] owns the blocks [bs] and holds [cs]. *)
Definition holds (m : gmap Z cblock) (q : clist) (bs cs : list Z) : Prop :=
  (bs = [] ∧ cs = [] ∧ q = MkCl 0 0 0) ∨
  (∃ ds i, mid m q bs ds i cs ∧ (i < 28)%nat ∧ cs ≠ []).

Definition free (s : cstate) (fs : list Z) : Prop :=
  (∃ ds, chain (cmem s) fs ds 0) ∧ cfreelist s = link fs 0 ∧
  cfreecount s = 28 * Z.of_nat (length fs).

(** What an operation on queue [p] and the blocks [bl] leaves alone. *)
Record frame (s s' : cstate) (p : nat) (bl : list Z) : Prop := MkFrame {
  fr_mem : ∀ a, a ∉ bl → cmem s' !! a = cmem s !! a;
  fr_lists : ∀ p', p' ≠ p → clists s' !! p' = clists s !! p';
  fr_len : length (clists s') = length (clists s);
}.

Lemma frame_refl s p bl : frame s s p bl.
Proof. by split. Qed.

Lemma frame_trans s1 s2 s3 p bl bl' :
  frame s1 s2 p bl → frame s2 s3 p bl' → bl' ≡ₚ bl → frame s1 s3 p bl.
Proof.
  intros [Hm1 Hl1 Hn1] [Hm2 Hl2 Hn2] Hp. split; [|intros|congruence].
  - intros a Ha. rewrite Hm2, Hm1; [done..|by rewrite Hp].
  - by rewrite Hl2, Hl1.
Qed.

(** An operation's local outcome: from queue [p] on [bs] with free blocks
    [fs] to contents [cs'], the blocks conserved. *)
Definition moves (s s' : cstate) (p : nat) (bs fs cs' : list Z) : Prop :=
  ∃ q' bs' fs', clists s' !! p = Some q' ∧ holds (cmem s') q' bs' cs' ∧ free s' fs' ∧
    bs' ++ fs' ≡ₚ bs ++ fs ∧ frame s s' p (bs ++ fs).

Section steps.
Context `{KConfig}.

Lemma getq_eq s p q : clists s !! p = Some q → getq p s = Done q s.
Proof. unfold getq. m_unfold. by intros ->. Qed.

Lemma setq_eq s p q f :
  clists s !! p = Some q → setq p f s = Done tt (s <| clists ::= <[p := f q]> |>).
Proof. intros Hq. unfold setq. erewrite bind_done by (by apply getq_eq). done. Qed.

Lemma getb_eq s b x : cmem s !! b = Some x → getb b s = Done x s.
Proof. unfold getb. m_unfold. by intros ->. Qed.

Lemma setb_eq s b x f :
  cmem s !! b = Some x → setb b f s = Done tt (s <| cmem ::= <[b := f x]> |>).
Proof. intros Hb. unfold setb. erewrite bind_done by (by apply getb_eq). done. Qed.

Lemma blk_insert m b d nx nx' :
  blk m b d nx → blk (<[b := MkCb nx' d]> m) b d nx'.
Proof. intros (?&?&?&?&?). split_and!; try done. apply lookup_insert_eq. Qed.

(** Pushing a block on the free list. *)
Lemma putfree_eq s b d nx fs :
  free s fs → blk (cmem s) b d nx → b ∉ fs →
  ∃ s', putfree b s = Done tt s' ∧ cmem s' = <[b := MkCb (link fs 0) d]> (cmem s) ∧
    clists s' = clists s ∧ free s' (b :: fs).
Proof.
  intros ((ds&Hc)&Hfl&Hcnt) Hb Hbf. unfold putfree.
  pose proof Hb as (_&_&Hlk&_&_).
  erewrite bind_done by apply get_s_eq. erewrite bind_done by (by eapply setb_eq).
  eexists. split; [reflexivity|]. cbn. rewrite Hfl. split_and!; [done..|].
  split_and!; cbn; [|done|rewrite Hcnt; unfold CBSIZE, CBLOCK; lia].
  exists (d :: ds). split; [by eapply blk_insert|by apply chain_ne].
Qed.

Lemma wakefree_eq s fs :
  free s fs → ∃ s', wakefree s = Done tt s' ∧ cmem s' = cmem s ∧ clists s' = clists s ∧ free s' fs.
Proof.
  intros Hf. unfold wakefree, get_s, when. m_unfold. destruct (cwaiting s); by eexists.
Qed.

Lemma putfree_wake s b d nx fs {A} (k : M cstate A) :
  free s fs → blk (cmem s) b d nx → b ∉ fs →
  ∃ s', (putfree b ;; wakefree ;; k) s = k s' ∧ cmem s' = <[b := MkCb (link fs 0) d]> (cmem s) ∧
    clists s' = clists s ∧ free s' (b :: fs).
Proof.
  intros Hf Hb Hbf. destruct (putfree_eq _ _ _ _ _ Hf Hb Hbf) as (s1&Heq1&Hm1&Hl1&Hf1).
  destruct (wakefree_eq _ _ Hf1) as (s2&Heq2&Hm2&Hl2&Hf2).
  exists s2. erewrite bind_done by done. erewrite bind_done by done.
  split_and!; [done|congruence..|done].
Qed.

(** [release] gives the drained first block back. *)
Lemma release_spec s p q bs ds i cs fs :
  clists s !! p = Some q → mid (cmem s) q bs ds i cs → (0 < i)%nat →
  free s fs → NoDup (bs ++ fs) →
  ∃ s', release p s = Done (bool_decide (cs = [])) s' ∧ moves s s' p bs fs cs.
Proof.
  intros Hq Hmid Hi Hf Hnd. pose proof Hmid as [Hc Ho [Hfit1 Hfit2] Hd Hcc Hcf Hcl].
  destruct bs as [|b bs]; [simpl in *; lia|]. destruct ds as [|d ds]; [done|].
  destruct Hc as [Hb Hc]. pose proof Hb as (Hb1&Hb2&Hb3&Hb4&_).
  rewrite <- app_comm_cons in Hnd. apply NoDup_cons in Hnd as [Hbn Hnd].
  rewrite not_elem_of_app in Hbn. destruct Hbn as [Hbn Hbf].
  change (link (b :: bs) 0) with b in Hcf. unfold release. erewrite bind_done by (by apply getq_eq).
  rewrite Hcc, Hcf. destruct cs as [|c cs].
  - cbn [length] in *. destruct bs; [|simpl in *; lia].
    replace (b + 4 + Z.of_nat i - 1) with (b + (3 + Z.of_nat i)) by lia.
    rewrite base_in by (done || lia).
    cbv zeta. change (Z.of_nat 0 <=? 0) with true. cbn iota. erewrite bind_done by (by apply setq_eq).
    destruct (putfree_wake (s <| clists ::= <[p := q <| c_cf := 0 |> <| c_cl := 0 |>]> |>)
      b d (link [] 0) fs (mret true)) as (s'&Heq&Hm&Hl&Hf'); [done..|].
    exists s'. split; [exact Heq|]. eexists _, [], (b :: fs). rewrite Hl. cbn.
    rewrite list_lookup_insert_eq by (by eapply lookup_lt_Some). split_and!; [done| |done..|].
    + left. split_and!; [done..|]. unfold upd. cbn. by rewrite Hcc.
    + split; cbn; rewrite ?Hm, ?Hl.
      * intros a Ha. cbn. rewrite lookup_insert_ne; [done|]. intros ->. apply Ha. by left.
      * intros p' Hp'. cbn. by rewrite list_lookup_insert_ne.
      * cbn. by rewrite length_insert.
  - destruct (Z.leb_spec (Z.of_nat (length (c :: cs))) 0) as [|_]; [simpl in *; lia|].
    destruct (decide (i = 28%nat)) as [->|Hi28].
    + replace (b + 4 + Z.of_nat 28) with (b + 32) by lia. rewrite off_end by done.
      change (0 =? 0) with true. cbn iota. replace (b + 32 - CBLOCK) with b by (unfold CBLOCK; lia). cbv zeta.
      erewrite bind_done by (by apply getb_eq). erewrite bind_done by (by apply setq_eq).
      destruct (putfree_wake (s <| clists ::= <[p := q <| c_cf := c_info_of (c_next (MkCb (link bs 0) d)) |>]> |>)
        b d (link bs 0) fs (mret false)) as (s'&Heq&Hm&Hl&Hf'); [done..|].
      exists s'. split; [exact Heq|]. eexists _, bs, (b :: fs). rewrite Hl. cbn.
      rewrite list_lookup_insert_eq by (by eapply lookup_lt_Some). split_and!; [done| |done|..].
      * right. exists ds, 0%nat. split_and!; [|lia|done]. rewrite Hm.
        assert (bs ≠ []) by (intros ->; simpl in *; lia).
        split; cbn [upd c_cc c_cf c_cl]; try (simpl in *; lia).
        -- by apply chain_ne.
        -- rewrite Hd at 1. cbn [concat]. rewrite drop_app_ge by lia. by rewrite Hb4, Nat.sub_diag.
        -- cbn. unfold c_info_of. lia.
        -- cbn. rewrite last_cons in Hcl. destruct (last bs) eqn:E; [|by apply last_None in E].
           simpl in *. lia.
      * symmetry. apply Permutation_middle.
      * split; cbn; rewrite ?Hm, ?Hl.
        -- intros a Ha. cbn. rewrite lookup_insert_ne; [done|]. intros ->. apply Ha. by left.
        -- intros p' Hp'. cbn. by rewrite list_lookup_insert_ne.
        -- cbn. by rewrite length_insert.
    + rewrite <- Z.add_assoc, off_in by (done || lia).
      destruct (Z.eqb_spec (4 + Z.of_nat i) 0); [lia|].
      exists s. split; [done|]. exists q, (b :: bs), fs. split_and!; try done.
      right. exists (d :: ds), i. split_and!; [|lia|done]. done.
Qed.

Lemma moves_trans s1 s2 s3 p bs fs bs1 fs1 cs :
  bs1 ++ fs1 ≡ₚ bs ++ fs → frame s1 s2 p (bs ++ fs) →
  moves s2 s3 p bs1 fs1 cs → moves s1 s3 p bs fs cs.
Proof.
  intros Hp Hfr (q'&bs'&fs'&?&?&?&Hp'&Hfr'). exists q', bs', fs'. split_and!; try done.
  - by rewrite Hp'.
  - by eapply frame_trans.
Qed.

(** Setting the queue's fields is a local change. *)
Lemma moves_setq s s' p f bs fs cs q :
  clists s !! p = Some q →
  moves (s <| clists ::= <[p := f q]> |>) s' p bs fs cs → moves s s' p bs fs cs.
Proof.
  intros Hq. eapply moves_trans; [done|]. split; cbn; [done| |by rewrite length_insert].
  intros p' Hp'. cbn. by rewrite list_lookup_insert_ne.
Qed.

Lemma getch_blk s b d nx i c :
  blk (cmem s) b d nx → d !! i = Some c → getch (b + 4 + Z.of_nat i) s = Done c s.
Proof.
  intros (_&Hb&Hm&Hl&_) Hc. pose proof (lookup_lt_Some _ _ _ Hc).
  unfold getch. rewrite <- Z.add_assoc, off_in, base_in by (done || lia).
  destruct (Z.ltb_spec (4 + Z.of_nat i) 4); [lia|].
  erewrite bind_done by (by apply getb_eq). cbn [c_info].
  replace (Z.to_nat (4 + Z.of_nat i - 4)) with i by lia. by rewrite Hc.
Qed.

Lemma getchs_blk s b d nx i n :
  blk (cmem s) b d nx → (i + n ≤ 28)%nat →
  getchs (b + 4 + Z.of_nat i) n s = Done (take n (drop i d)) s.
Proof.
  intros Hb. revert i. induction n as [|n IH]; intros i Hi; [done|].
  pose proof Hb as (_&_&_&Hl&_).
  destruct (lookup_lt_is_Some_2 d i ltac:(lia)) as [c Hc]. cbn [getchs].
  erewrite bind_done by (by eapply getch_blk).
  replace (b + 4 + Z.of_nat i + 1) with (b + 4 + Z.of_nat (S i)) by lia.
  erewrite bind_done by (apply IH; lia). by rewrite (drop_S _ _ _ Hc).
Qed.

(** The first block of a queue, and the characters of it that are left. *)
Lemma mid_first m q bs ds i cs n :
  mid m q bs ds i cs → (i + n ≤ 28)%nat → (n ≤ length cs)%nat → (0 < n)%nat →
  ∃ b bs' d ds', bs = b :: bs' ∧ ds = d :: ds' ∧ blk m b d (link bs' 0) ∧
    c_cf q = b + 4 + Z.of_nat i ∧ take n (drop i d) = take n cs.
Proof.
  intros [Hc _ [_ Hfit] Hd _ Hcf _] Hi Hn Hpos.
  destruct bs as [|b bs]; [simpl in *; lia|]. destruct ds as [|d ds]; [done|].
  destruct Hc as [Hb Hc]. exists b, bs, d, ds. split_and!; try done.
  rewrite Hd, take_take, Nat.min_l by lia. cbn [concat].
  destruct Hb as (_&_&_&Hl&_). by rewrite skipn_app, take_app_le by (rewrite length_drop; lia).
Qed.

Lemma mid_advance m q bs ds i cs n :
  mid m q bs ds i cs → (i + n ≤ 28)%nat → (n ≤ length cs)%nat → (0 < length cs)%nat →
  mid m (MkCl (c_cc q - Z.of_nat n) (c_cf q + Z.of_nat n) (c_cl q)) bs ds (i + n) (drop n cs).
Proof.
  intros [Hc Ho [Hf1 Hf2] Hd Hcc Hcf Hcl] Hi Hn Hpos. split; cbn; rewrite ?length_drop; try done; try lia.
  rewrite Hd at 1. rewrite skipn_firstn_comm, drop_drop. done.
Qed.

(** [getc] takes the first character off the queue. *)
Lemma getc_spec s p q bs cs fs :
  clists s !! p = Some q → holds (cmem s) q bs cs → free s fs → NoDup (bs ++ fs) →
  ∃ s', getc p s = Done (default (-1) (head cs)) s' ∧ moves s s' p bs fs (tail cs).
Proof.
  intros Hq Hh Hf Hnd. unfold getc. erewrite bind_done by (by apply getq_eq).
  destruct Hh as [(->&->&->)|(ds&i&Hmid&Hi&Hne)].
  { cbn. erewrite bind_done by (by apply setq_eq). eexists. split; [done|].
    eapply (moves_setq _ _ _ (λ _, MkCl 0 0 0)); [done|].
    eexists _, [], fs. cbn. rewrite list_lookup_insert_eq by (by eapply lookup_lt_Some).
    split_and!; [done|by left|done..]. }
  destruct cs as [|c cs]; [done|]. pose proof (mid_cc _ _ _ _ _ _ Hmid) as Hcc.
  destruct (mid_first _ _ _ _ _ _ 1 Hmid ltac:(lia) ltac:(simpl; lia) ltac:(lia))
    as (b&bs'&d&ds'&->&->&Hb&Hcf&Hcs).
  destruct (Z.leb_spec (c_cc q) 0); [rewrite Hcc in *; simpl in *; lia|].
  assert (d !! i = Some c ∧ byte c) as [Hc Hbyte].
  { destruct Hb as (_&_&_&_&Hall). assert (d !! i = Some c) as Hc; [|split; [done|by eapply Forall_lookup_1]].
    rewrite <- (Nat.add_0_r i), <- lookup_drop. destruct (drop i d); by simplify_eq/=. }
  rewrite Hcf. erewrite bind_done by (by eapply getch_blk).
  erewrite bind_done by (by apply setq_eq).
  erewrite bind_done by (apply setq_eq; cbn; apply list_lookup_insert_eq; by eapply lookup_lt_Some).
  pose proof (mid_advance _ _ _ _ _ _ 1 Hmid ltac:(lia) ltac:(simpl; lia) ltac:(simpl; lia)) as Hmid'.
  set (q1 := MkCl _ _ _) in Hmid'.
  set (s1 := upd clists _ (upd clists _ s)).
  assert (s1 = s <| clists ::= <[p := q1]> |>) as ->.
  { assert (q1 = MkCl (Z.pred (c_cc q)) (1 + c_cf q) (c_cl q)) as -> by (unfold q1; f_equal; lia).
    subst s1. unfold upd. cbn. by rewrite list_insert_insert_eq. }
  destruct (release_spec (s <| clists ::= <[p := q1]> |>) p q1 (b :: bs') (d :: ds') (i + 1) cs fs)
    as (s'&Heq&Hmv); try done; [|lia|].
  { cbn. apply list_lookup_insert_eq. by eapply lookup_lt_Some. }
  erewrite bind_done by done. exists s'. cbn [head default from_option id].
  split; [|by eapply (moves_setq _ _ _ (λ _, q1))].
  unfold mret, M_ret. f_equal. change 0xff with (Z.ones 8). rewrite Z.land_ones by lia.
  by apply Z.mod_small.
Qed.

Lemma moves_refl s p q bs fs cs :
  clists s !! p = Some q → holds (cmem s) q bs cs → free s fs → moves s s p bs fs cs.
Proof. intros. exists q, bs, fs. by split_and!. Qed.

(** Using the outcome of a first operation as the start of the next. *)
Lemma moves_bind s s1 p bs fs cs1 (P : cstate → Prop) cs :
  NoDup (bs ++ fs) → moves s s1 p bs fs cs1 →
  (∀ q bs1 fs1, clists s1 !! p = Some q → holds (cmem s1) q bs1 cs1 → free s1 fs1 →
    NoDup (bs1 ++ fs1) → ∃ s2, P s2 ∧ moves s1 s2 p bs1 fs1 cs) →
  ∃ s2, P s2 ∧ moves s s2 p bs fs cs.
Proof.
  intros Hnd (q1&bs1&fs1&Hq1&Hh1&Hf1&Hp1&Hfr) Hk.
  destruct (Hk q1 bs1 fs1) as (s2&HP&Hm); [done..|by rewrite Hp1|].
  exists s2. split; [done|]. by eapply moves_trans.
Qed.

Lemma q_to_b_loop_spec fuel s p q bs cs fs cc :
  clists s !! p = Some q → holds (cmem s) q bs cs → free s fs → NoDup (bs ++ fs) →
  0 ≤ cc → (Z.to_nat cc ≤ fuel)%nat → (cs = [] → cc = 0) →
  ∃ s', q_to_b_loop fuel p cc s = Done (take (Z.to_nat cc) cs) s' ∧
    moves s s' p bs fs (drop (Z.to_nat cc) cs).
Proof.
  revert s q bs cs fs cc. induction fuel as [|fuel IH]; intros s q bs cs fs cc Hq Hh Hf Hnd Hcc Hfuel Hne;
    cbn [q_to_b_loop]; destruct (Z.eqb_spec cc 0) as [->|Hcc0]; try (by eexists; eauto using moves_refl); [lia|].
  destruct Hh as [(->&->&->)|(ds&i&Hmid&Hi&Hcs)]; [by specialize (Hne eq_refl)|].
  assert (0 < length cs)%nat as Hlen by (destruct cs; [done|simpl; lia]).
  destruct (mid_first _ _ _ _ _ _ 1 Hmid ltac:(lia) ltac:(lia) ltac:(lia))
    as (b&bs'&d&ds'&->&->&Hb&Hcf&_). pose proof Hb as (_&Hal&_&Hdl&_).
  pose proof (mid_cc _ _ _ _ _ _ Hmid) as Hqcc.
  erewrite bind_done by (by apply getq_eq).
  assert (off (c_cf q) = 4 + Z.of_nat i) as ->.
  { rewrite Hcf, <- Z.add_assoc. apply off_in; [done|lia]. }
  set (n := Z.to_nat (Z.min (Z.min (CBLOCK - (4 + Z.of_nat i)) cc) (c_cc q))).
  assert (Z.min (Z.min (CBLOCK - (4 + Z.of_nat i)) cc) (c_cc q) = Z.of_nat n) as Hn
    by (unfold n, CBLOCK; lia).
  assert (0 < n ∧ i + n ≤ 28 ∧ n ≤ length cs ∧ n ≤ Z.to_nat cc)%nat as (Hn0&Hn1&Hn2&Hn3)
    by (unfold n, CBLOCK; lia).
  destruct (mid_first _ _ _ _ _ _ n Hmid Hn1 Hn2 Hn0)
    as (b0&bs0&d0&ds0&Heqb&Heqd&_&_&Htake). symmetry in Heqb, Heqd. simplify_eq.
  fold n. rewrite Hn, Hcf.
  erewrite bind_done by (by apply (getchs_blk _ _ _ _ _ _ Hb)). rewrite Htake.
  erewrite bind_done by (by apply setq_eq).
  pose proof (mid_advance _ _ _ _ _ _ n Hmid Hn1 Hn2 Hlen) as Hmid'.
  set (q1 := MkCl _ _ _) in Hmid'. cbn beta.
  assert (q <| c_cf ::= Z.add (Z.of_nat n) |> <| c_cc ::= λ n0, n0 - Z.of_nat n |> = q1) as ->.
  { unfold q1, upd. cbn. f_equal. lia. }
  set (s1 := s <| clists ::= <[p := q1]> |>).
  assert (clists s1 !! p = Some q1) as Hq1.
  { cbn. apply list_lookup_insert_eq. by eapply lookup_lt_Some. }
  destruct (release_spec s1 p q1 (b :: bs') (d :: ds') (i + n) (drop n cs) fs) as (s2&Heq&Hmv);
    try done; [lia|].
  erewrite bind_done by done.
  assert (take (Z.to_nat cc) cs = take n cs ++ take (Z.to_nat cc - n) (drop n cs)) as ->.
  { rewrite <- (take_drop n cs) at 1. rewrite take_app_ge; rewrite ?length_take; [|lia].
    do 2 f_equal. lia. }
  assert (drop (Z.to_nat cc) cs = drop (Z.to_nat cc - n) (drop n cs)) as ->.
  { rewrite drop_drop. f_equal. lia. }
  case_bool_decide as Hnil; cbn iota.
  - exists s2. rewrite Hnil, take_nil, drop_nil, app_nil_r. split; [done|].
    rewrite Hnil in Hmv. by eapply (moves_setq _ _ _ (λ _, q1)).
  - eapply (moves_bind s s2); [exact Hnd|by eapply (moves_setq _ _ _ (λ _, q1))|].
    intros q2 bs2 fs2 Hq2 Hh2 Hf2 Hnd2.
    destruct (IH s2 q2 bs2 (drop n cs) fs2 (cc - Z.of_nat n)) as (s3&Heq3&Hmv3);
      try done; [lia..|].
    exists s3. erewrite bind_done by done.
    replace (Z.to_nat (cc - Z.of_nat n)) with (Z.to_nat cc - n)%nat in * by lia. done.
Qed.

(** [q_to_b] takes up to [cc] characters off the queue. *)
Lemma q_to_b_spec s p q bs cs fs cc :
  clists s !! p = Some q → holds (cmem s) q bs cs → free s fs → NoDup (bs ++ fs) →
  ∃ s', q_to_b p cc s = Done (take (Z.to_nat cc) cs) s' ∧
    moves s s' p bs fs (drop (Z.to_nat cc) cs).
Proof.
  intros Hq Hh Hf Hnd. unfold q_to_b. destruct (Z.leb_spec cc 0).
  { replace (Z.to_nat cc) with 0%nat by lia. eauto using moves_refl. }
  erewrite bind_done by (by apply getq_eq).
  pose proof Hh as [(->&->&->)|(ds&i&Hmid&Hi&Hcs)].
  - cbn. erewrite bind_done by (by apply setq_eq). rewrite take_nil, drop_nil.
    eexists. split; [done|]. eapply (moves_setq _ _ _ (λ _, MkCl 0 0 0)); [done|].
    eapply moves_refl; [|by left|done]. cbn. apply list_lookup_insert_eq. by eapply lookup_lt_Some.
  - pose proof (mid_cc _ _ _ _ _ _ Hmid). assert (0 < length cs)%nat by (destruct cs; [done|simpl; lia]).
    destruct (Z.leb_spec (c_cc q) 0); [lia|].
    apply (q_to_b_loop_spec _ _ _ q); try done; lia.
Qed.

(** ** Appending *)

(** The chain [bs] holds [cs] from offset [i]; [j] characters of its last
    block are used and [cq] is the address after them. *)
Record ext (m : gmap Z cblock) (bs : list Z) (ds : list (list Z)) (i : nat) (cs : list Z)
    (j : nat) (cq : Z) : Prop := MkExt {
  ext_chain : chain m bs ds 0;
  ext_off : (i < 28 ∧ j ≤ 28 ∧ 0 < length bs)%nat;
  ext_fit : (i + length cs + 28 = 28 * length bs + j)%nat;
  ext_data : cs = take (length cs) (drop i (concat ds));
  ext_cq : cq = default 0 (last bs) + 4 + Z.of_nat j;
}.

Lemma ext_mid m q bs ds i cs j cq :
  ext m bs ds i cs j cq → (0 < j)%nat → c_cc q = Z.of_nat (length cs) →
  c_cf q = link bs 0 + 4 + Z.of_nat i → c_cl q = cq → mid m q bs ds i cs.
Proof. intros [Hc (Hi&Hj&Hne0) Hfit Hd Hcq] Hpos Hcc Hcf Hcl. split; try done; lia. Qed.

Lemma mid_ext m q bs ds i cs :
  mid m q bs ds i cs → (i < 28)%nat → cs ≠ [] →
  ∃ j, ext m bs ds i cs j (c_cl q) ∧ (0 < j)%nat.
Proof.
  intros [Hc Ho [Hf1 Hf2] Hd Hcc Hcf Hcl] Hi Hne.
  assert (0 < length cs)%nat by (destruct cs; [done|simpl; lia]).
  exists (i + length cs + 28 - 28 * length bs)%nat. split; [|lia]. split; try done; lia.
Qed.

Lemma setch_blk s b d nx i c :
  blk (cmem s) b d nx → (i < 28)%nat →
  setch (b + 4 + Z.of_nat i) c s = Done tt (s <| cmem ::= <[b := MkCb nx (<[i := u8 c]> d)]> |>).
Proof.
  intros (_&Hb&Hm&Hl&_) Hi. unfold setch. rewrite <- Z.add_assoc, off_in, base_in by (done || lia).
  destruct (Z.ltb_spec (4 + Z.of_nat i) 4); [lia|]. erewrite setb_eq by done.
  replace (Z.to_nat (4 + Z.of_nat i - 4)) with i by lia. done.
Qed.

Lemma setchs_blk xs s b d nx j :
  blk (cmem s) b d nx → (j + length xs ≤ 28)%nat →
  ∃ m d', setchs (b + 4 + Z.of_nat j) xs s = Done tt (s <| cmem := m |>) ∧
    d' = take j d ++ (u8 <$> xs) ++ drop (j + length xs) d ∧ blk m b d' nx ∧
    ∀ a, a ≠ b → m !! a = cmem s !! a.
Proof.
  revert s d j. induction xs as [|c xs IH]; intros s d j Hb Hj; cbn [setchs].
  { exists (cmem s), d. split_and!; try done; [by destruct s|].
    simpl. by rewrite Nat.add_0_r, take_drop. }
  simpl in Hj. erewrite bind_done by (by eapply setch_blk; [|lia]).
  set (s1 := upd cmem _ s). pose proof Hb as (Hb1&Hb2&Hb3&Hb4&Hb5).
  assert (blk (cmem s1) b (<[j := u8 c]> d) nx) as Hb'.
  { split_and!; try done; [apply lookup_insert_eq|by rewrite length_insert|].
    apply Forall_insert; [done|]. apply u8_range. }
  replace (b + 4 + Z.of_nat j + 1) with (b + 4 + Z.of_nat (S j)) by lia.
  destruct (IH s1 _ (S j) Hb') as (m&d'&Heq&Hd'&Hbm&Hne); [lia|].
  exists m, d'. split_and!; [done| |done|].
  - rewrite Hd'. rewrite fmap_cons. simpl length.
    rewrite (take_S_r _ j (u8 c)) by (apply list_lookup_insert_eq; lia).
    rewrite take_insert_ge, drop_insert_lt by lia. rewrite <- app_assoc.
    by replace (S j + length xs)%nat with (j + S (length xs))%nat by lia.
  - intros a Ha. rewrite Hne by done. cbn. by rewrite lookup_insert_ne.
Qed.

(** The last block of an extensible chain. *)
Lemma ext_last m bs ds i cs j cq :
  ext m bs ds i cs j cq →
  ∃ bs1 b ds1 d, bs = bs1 ++ [b] ∧ ds = ds1 ++ [d] ∧ chain m bs1 ds1 b ∧ blk m b d 0 ∧
    cq = b + 4 + Z.of_nat j ∧ cs = drop i (concat ds1 ++ take j d) ∧
    (i + length cs = length (concat ds1 ++ take j d))%nat ∧
    length (concat ds1) = (28 * length bs1)%nat.
Proof.
  intros [Hc (Hi&Hj&Hne0) Hfit Hd Hcq].
  destruct bs as [|b bs _] using rev_ind; [simpl in *; lia|].
  apply chain_snoc in Hc as (ds1&d&->&Hc&Hb). rewrite last_snoc in Hcq. cbn in Hcq. subst cq.
  pose proof (chain_total _ _ _ _ Hc) as Htot. pose proof Hb as (_&_&_&Hdl&_).
  rewrite length_app in Hfit. simpl in Hfit.
  assert (i + length cs = length (concat ds1 ++ take j d))%nat as Hlen
    by (rewrite length_app, length_take; lia).
  exists bs, b, ds1, d. split_and!; try done.
  rewrite concat_app in Hd. cbn [concat] in Hd. rewrite app_nil_r in Hd. rewrite Hd at 1.
  rewrite <- (take_drop j d) at 1. rewrite app_assoc, skipn_app.
  rewrite take_app_le by (rewrite length_drop; lia).
  apply take_ge. rewrite length_drop. lia.
Qed.

Lemma ext_write s bs ds i cs j cq xs :
  ext (cmem s) bs ds i cs j cq → NoDup bs → (j + length xs ≤ 28)%nat →
  ∃ m ds', setchs cq xs s = Done tt (s <| cmem := m |>) ∧
    ext m bs ds' i (cs ++ (u8 <$> xs)) (j + length xs) (cq + Z.of_nat (length xs)) ∧
    ∀ a, a ∉ bs → m !! a = cmem s !! a.
Proof.
  intros He Hnd Hlen. pose proof He as [_ (Hi&Hj&_) Hfit _ _].
  destruct (ext_last _ _ _ _ _ _ _ He) as (bs1&b&ds1&d&->&->&Hc&Hb&->&Hcs&Hcl&Htot).
  destruct (setchs_blk xs s b d 0 j Hb Hlen) as (m&d'&Heq&Hd'&Hbm&Hne).
  apply NoDup_app in Hnd as (_&Hnb&_).
  assert (chain m bs1 ds1 b) as Hc'.
  { eapply cchain_agree; [|exact Hc]. intros a Ha. apply Hne. intros ->. apply (Hnb _ Ha). by left. }
  exists m, (ds1 ++ [d']). split_and!; [done| |].
  - rewrite length_app in Hfit. simpl in Hfit. split.
    + apply chain_snoc. by exists ds1, d'.
    + rewrite length_app. simpl. lia.
    + rewrite !length_app, length_fmap. simpl. lia.
    + rewrite concat_app. cbn [concat]. rewrite app_nil_r, Hd', (app_assoc (concat ds1)), skipn_app.
      replace (i - length (concat ds1 ++ take j d))%nat with 0%nat by lia.
      rewrite drop_0, <- Hcs, app_assoc. rewrite take_app_le by done. by rewrite take_ge.
    + rewrite last_snoc. cbn. lia.
  - intros a Ha. apply Hne. intros ->. apply Ha. apply elem_of_app. right. by left.
Qed.

Lemma link_nz m bs ds nx : chain m bs ds nx → bs ≠ [] → 0 < link bs nx.
Proof. destruct bs, ds; simpl; try done. by intros [(?&_) _]. Qed.

Lemma takefree_eq s b fs :
  free s (b :: fs) → b ∉ fs →
  ∃ s' d, takefree b s = Done tt s' ∧ blk (cmem s') b d 0 ∧ (∀ a, a ≠ b → cmem s' !! a = cmem s !! a) ∧
    clists s' = clists s ∧ free s' fs.
Proof.
  intros ((ds&Hc)&Hfl&Hcnt) Hn. destruct ds as [|d ds]; [done|]. destruct Hc as [Hb Hc].
  pose proof Hb as (Hb1&Hb2&Hb3&Hb4&Hb5). unfold takefree.
  erewrite bind_done by (by apply getb_eq). cbn [c_next].
  erewrite bind_done by apply modify_eq. erewrite setb_eq by exact Hb3.
  eexists _, d. split; [reflexivity|]. cbn. split_and!; try done.
  - cbn. split_and!; try done. apply lookup_insert_eq.
  - intros a Ha. cbn. by rewrite lookup_insert_ne.
  - split_and!; cbn; [|done|rewrite Hcnt; simpl; unfold CBSIZE, CBLOCK; lia].
    exists ds. by apply chain_ne.
Qed.

(** The end of a full block: link in the first free block. *)
Lemma ext_grow s bs ds i cs cq b fs :
  ext (cmem s) bs ds i cs 28 cq → free s (b :: fs) → NoDup (bs ++ b :: fs) →
  ∃ s1 s' ds', setb (cq - CBLOCK) (λ x, x <| c_next := b |>) s = Done tt s1 ∧
    takefree b s1 = Done tt s' ∧ off cq = 0 ∧
    ext (cmem s') (bs ++ [b]) ds' i cs 0 (b + 4) ∧ free s' fs ∧ clists s' = clists s ∧
    ∀ a, a ∉ bs ++ [b] → cmem s' !! a = cmem s !! a.
Proof.
  intros [Hc (Hi&Hj&Hne0) Hfit Hd Hcq] Hf Hnd.
  destruct bs as [|l bs _] using rev_ind; [simpl in *; lia|].
  apply chain_snoc in Hc as (ds1&d&->&Hc&Hl). rewrite last_snoc in Hcq. cbn in Hcq. subst cq.
  pose proof Hl as (Hl1&Hl2&Hl3&Hl4&Hl5).
  replace (l + 4 + Z.of_nat 28 - CBLOCK) with l by (unfold CBLOCK; lia).
  replace (l + 4 + Z.of_nat 28) with (l + 32) by lia. rewrite off_end by done.
  rewrite <- app_assoc in Hnd. apply NoDup_app in Hnd as (_&Hdis&Hnd).
  simpl in Hnd. apply NoDup_cons in Hnd as [Hlf Hnd]. apply NoDup_cons in Hnd as [Hbf _].
  apply not_elem_of_cons in Hlf as [Hlb Hlf].
  set (s1 := s <| cmem ::= <[l := MkCb b d]> |>).
  assert (free s1 (b :: fs)) as Hf1.
  { destruct Hf as ((dsf&Hcf)&Hfl&Hcnt). split_and!; try done. exists dsf.
    apply chain_ne; [|done]. by apply not_elem_of_cons. }
  destruct (takefree_eq s1 b fs Hf1 Hbf) as (s'&db&Heq&Hb&Hne&Hls&Hf').
  exists s1, s', ((ds1 ++ [d]) ++ [db]). split_and!; try done.
  - etrans; [by eapply setb_eq|done].
  - split.
    + apply chain_snoc. exists (ds1 ++ [d]), db. split_and!; [done| |done].
      apply chain_snoc. exists ds1, d. split_and!; [done| |].
      * eapply cchain_agree; [|exact Hc]. intros a Ha.
        rewrite Hne by (intros ->; apply (Hdis _ Ha); set_solver). cbn.
        rewrite lookup_insert_ne; [done|]. intros ->. apply (Hdis _ Ha). by left.
      * split_and!; try done. rewrite Hne by done. cbn. apply lookup_insert_eq.
    + rewrite length_app. simpl. lia.
    + rewrite !length_app in *. simpl in *. lia.
    + rewrite concat_app, (skipn_app i). rewrite take_app_le; [done|].
      rewrite length_drop. rewrite (chain_total (cmem s) (bs ++ [l]) (ds1 ++ [d]) 0);
        [lia|]. apply chain_snoc. by exists ds1, d.
    + rewrite last_snoc. cbn. lia.
  - intros a Ha. rewrite Hne by set_solver. cbn. rewrite lookup_insert_ne; [done|set_solver].
Qed.

(** From a chain being extended back to a queue. *)
Lemma ext_moves s s' p q bs fs bs' fs' ds i cs j cq :
  clists s !! p = Some q → clists s' = <[p := MkCl (Z.of_nat (length cs)) (link bs' 0 + 4 + Z.of_nat i) cq]> (clists s) →
  ext (cmem s') bs' ds i cs j cq → (0 < j)%nat → cs ≠ [] → free s' fs' →
  bs' ++ fs' ≡ₚ bs ++ fs → (∀ a, a ∉ bs ++ fs → cmem s' !! a = cmem s !! a) →
  moves s s' p bs fs cs.
Proof.
  intros Hq Hls He Hj Hcs Hf Hp Hm. eexists _, bs', fs'. rewrite Hls.
  rewrite list_lookup_insert_eq by (by eapply lookup_lt_Some). split_and!; [done| |done..|].
  - right. exists ds, i. split_and!; [|apply He|done]. by eapply ext_mid.
  - split; [done| |].
    + intros p' Hp'. rewrite Hls. by rewrite list_lookup_insert_ne.
    + rewrite Hls. by rewrite length_insert.
Qed.

(** What the write pointer of a queue says: NULL for an empty queue, else the
    end of the last block's characters. *)
Lemma holds_ext m q bs cs :
  holds m q bs cs →
  (bs = [] ∧ cs = [] ∧ q = MkCl 0 0 0) ∨
  ∃ ds i j, ext m bs ds i cs j (c_cl q) ∧ (0 < j)%nat ∧ cs ≠ [] ∧ 0 < c_cl q ∧
    q = MkCl (Z.of_nat (length cs)) (link bs 0 + 4 + Z.of_nat i) (c_cl q) ∧
    (off (c_cl q) = 0 ↔ j = 28%nat).
Proof.
  intros [?|(ds&i&Hmid&Hi&Hcs)]; [by left|right].
  destruct (mid_ext _ _ _ _ _ _ Hmid Hi Hcs) as (j&He&Hj). exists ds, i, j.
  pose proof He as [Hc (_&Hj'&Hne) Hfit Hd Hcq]. pose proof Hmid as [_ _ _ _ Hcc Hcf _].
  destruct bs as [|b bs _] using rev_ind; [simpl in *; lia|].
  apply chain_snoc in Hc as (ds1&d&->&_&(Hb1&Hb2&_)). rewrite last_snoc in Hcq. cbn in Hcq.
  split_and!; try done; [lia|rewrite <- Hcc, <- Hcf; by destruct q|].
  rewrite Hcq. destruct (decide (j = 28%nat)) as [->|].
  - replace (b + 4 + Z.of_nat 28) with (b + 32) by lia. by rewrite off_end.
  - rewrite <- Z.add_assoc, off_in by (done || lia). lia.
Qed.

(** With no free block, the end of a full block is left as it was. *)
Lemma ext_stuck m s bs ds i cs cq :
  ext m bs ds i cs 28 cq → m = cmem s →
  setb (cq - CBLOCK) (λ x, x <| c_next := 0 |>) s = Done tt s.
Proof.
  intros [Hc (Hi&Hj&Hne0) Hfit Hd Hcq] ->.
  destruct bs as [|l bs _] using rev_ind; [simpl in *; lia|].
  apply chain_snoc in Hc as (ds1&d&->&Hc&Hl). rewrite last_snoc in Hcq. cbn in Hcq. subst cq.
  replace (l + 4 + Z.of_nat 28 - CBLOCK) with l by (unfold CBLOCK; lia).
  destruct Hl as (_&_&Hm&_&_). erewrite setb_eq by done. f_equal.
  destruct s. unfold upd. cbn in *. by rewrite insert_id.
Qed.

Lemma setch_setchs a c s : setch a c s = setchs a [c] s.
Proof. cbn. m_unfold. by destruct (setch a c s) as [[]| | | |]. Qed.

(** The tail of [putc]: store and count. *)
Lemma putc_store s s' p q bs fs bs' fs' ds i cs j cq c cf :
  clists s !! p = Some q →
  clists s' = <[p := MkCl (Z.of_nat (length cs)) cf (c_cl q)]> (clists s) →
  ext (cmem s') bs' ds i cs j cq → (j < 28)%nat → free s' fs' → NoDup (bs' ++ fs') →
  cf = link bs' 0 + 4 + Z.of_nat i →
  bs' ++ fs' ≡ₚ bs ++ fs → (∀ a, a ∉ bs ++ fs → cmem s' !! a = cmem s !! a) →
  ∃ s2, (setch cq c ;; setq p (λ q, q <| c_cc ::= Z.succ |> <| c_cl := cq + 1 |>) ;; mret 0) s' =
    Done 0 s2 ∧ moves s s2 p bs fs (cs ++ [u8 c]).
Proof.
  intros Hq Hls He Hj Hf Hnd -> Hp Hm. apply NoDup_app in Hnd as (Hnb&Hdis&_).
  destruct (ext_write s' bs' ds i cs j cq [c] He Hnb) as (m&ds'&Heq&He'&Hne); [simpl; lia|].
  rewrite <- setch_setchs in Heq. erewrite bind_done by done.
  assert (p < length (clists s))%nat by (by eapply lookup_lt_Some).
  erewrite bind_done by (apply setq_eq; cbn; rewrite Hls; by apply list_lookup_insert_eq).
  eexists. split; [done|]. eapply (ext_moves _ _ _ q _ _ bs' fs').
  - done.
  - cbn. rewrite Hls, list_insert_insert_eq. f_equal. unfold upd. cbn.
    rewrite length_app. simpl. f_equal; lia.
  - exact He'.
  - simpl. lia.
  - by destruct cs.
  - destruct Hf as ((dsf&Hcf)&?&?). split_and!; try done. exists dsf. cbn.
    eapply cchain_agree; [|exact Hcf]. intros a Ha. apply Hne. intros Hb. by apply (Hdis a).
  - done.
  - intros a Ha. cbn. rewrite Hne, Hm; [done|done|]. intros Hb. apply Ha. rewrite <- Hp.
    apply elem_of_app. by left.
Qed.

Lemma free_nz s b fs : free s (b :: fs) → b =? 0 = false.
Proof.
  intros ((ds&Hc)&_). pose proof (link_nz _ _ _ _ Hc ltac:(done)) as Hb. cbn in Hb.
  apply Z.eqb_neq. lia.
Qed.

(** [putc] appends the character, or fails, with no effect, when it needs a
    block and none is free. *)
Lemma putc_spec s p q bs cs fs c :
  clists s !! p = Some q → holds (cmem s) q bs cs → free s fs → NoDup (bs ++ fs) →
  (∃ s', putc c p s = Done 0 s' ∧ moves s s' p bs fs (cs ++ [u8 c])) ∨
  (putc c p s = Done (-1) s ∧ fs = []).
Proof.
  intros Hq Hh Hf Hnd. unfold putc. pose proof Hf as ((dsf&Hcf)&Hfl&_).
  erewrite bind_done by (by apply getq_eq). erewrite bind_done by apply get_s_eq. cbv zeta.
  assert (p < length (clists s))%nat by (by eapply lookup_lt_Some).
  destruct (holds_ext _ _ _ _ Hh) as [(->&->&->)|(ds&i&j&He&Hj&Hcs&Hpos&Hqf&Hoff)].
  - cbn [c_cl c_cc]. change (0 =? 0) with true. cbn [orb]. cbv iota. rewrite Hfl.
    destruct fs as [|b fs]; [by right|left].
    cbn [link head default from_option id].
    rewrite (free_nz _ _ _ Hf).
    pose proof Hnd as [Hbf _]%NoDup_cons.
    destruct (takefree_eq s b fs Hf Hbf) as (s1&d&Heq&Hb&Hne&Hls&Hf').
    erewrite bind_done by done. erewrite bind_done by (apply setq_eq; by rewrite Hls).
    eapply (putc_store s _ p (MkCl 0 0 0) [] (b :: fs) [b] fs [d] 0 []); try done; try lia.
    + unfold upd, c_info_of. cbn. rewrite Hls. f_equal. f_equal. lia.
    + split; cbn; unfold c_info_of; try done; lia.
    + lia.
    + intros a Ha. cbn. apply Hne. set_solver.
  - pose proof (f_equal c_cc Hqf) as Hcc. pose proof (f_equal c_cf Hqf) as Hcf'. cbn in Hcc, Hcf'.
    rewrite Hcc.
    destruct (Z.eqb_spec (c_cl q) 0); [lia|]. destruct (Z.ltb_spec (Z.of_nat (length cs)) 0); [lia|].
    cbn [orb]. cbv iota. pose proof He as [_ (Hi&Hj'&Hbs) _ _ _].
    destruct (Z.eqb_spec (off (c_cl q)) 0) as [Hoz|Hoz].
    + apply Hoff in Hoz as ->. rewrite Hfl. destruct fs as [|b fs].
      * right. split; [|done]. erewrite bind_done by (by eapply ext_stuck). done.
      * left. cbn [link head default from_option id].
        rewrite (free_nz _ _ _ Hf).
        destruct (ext_grow s bs ds i cs (c_cl q) b fs He Hf Hnd)
          as (s1&s2&ds'&Heq1&Heq2&_&He'&Hf'&Hls&Hne).
        erewrite bind_done by done. erewrite bind_done by done.
        eapply (putc_store s s2 p q bs (b :: fs) (bs ++ [b]) fs ds' i cs 0); try done; try lia.
        -- assert (link (bs ++ [b]) 0 = link bs 0) as -> by (by destruct bs; [simpl in *; lia|]).
           rewrite Hls. symmetry. apply list_insert_id. rewrite Hq, <- Hcf', <- Hcc. by destruct q.
        -- by rewrite <- app_assoc.
        -- by rewrite <- app_assoc.
        -- intros a Ha. apply Hne. set_solver.
    + left. eapply (putc_store s s p q bs fs bs fs ds i cs j); try done; try lia.
      symmetry. apply list_insert_id. rewrite Hq, <- Hcc. by destruct q.
Qed.

Lemma ext_cq_off m bs ds i cs j cq :
  ext m bs ds i cs j cq → 0 < cq ∧ ((j < 28)%nat → off cq = 4 + Z.of_nat j) ∧ (j = 28%nat → off cq = 0).
Proof.
  intros [Hc (_&Hj'&Hne) Hfit Hd Hcq].
  destruct bs as [|b bs _] using rev_ind; [simpl in *; lia|].
  apply chain_snoc in Hc as (ds1&d&->&_&(Hb1&Hb2&_)). rewrite last_snoc in Hcq. cbn in Hcq.
  subst cq. split_and!; [lia| |].
  - intros Hj. rewrite <- Z.add_assoc, off_in by (done || lia). lia.
  - intros ->. replace (b + 4 + Z.of_nat 28) with (b + 32) by lia. by apply off_end.
Qed.

(** What the loop of [b_to_q] makes of a chain being extended. *)
Definition extended (s s' : cstate) (bs fs : list Z) (i : nat) (cs : list Z) (j : nat)
    (xs : list Z) (cc : nat) (r : Z * Z) : Prop :=
  ∃ k bs' ds' fs' j' cq', r = (cq', Z.of_nat (cc - k)) ∧
    k = (cc `min` (28 - j + 28 * length fs))%nat ∧
    ext (cmem s') bs' ds' i (cs ++ (u8 <$> take k xs)) j' cq' ∧ free s' fs' ∧
    bs' ++ fs' ≡ₚ bs ++ fs ∧ clists s' = clists s ∧
    (∀ a, a ∉ bs ++ fs → cmem s' !! a = cmem s !! a) ∧
    link bs' 0 = link bs 0 ∧ (0 < j + cc → 0 < j')%nat.

(** One [bcopy] into the last block. *)
Lemma b_to_q_copy fuel s bs ds i cs j cq fs xs (cc : nat) (P : Z * Z → cstate → Prop) :
  ext (cmem s) bs ds i cs j cq → free s fs → NoDup (bs ++ fs) → (j < 28)%nat →
  (0 < cc ≤ length xs)%nat →
  (∀ n m ds', n = (cc `min` (28 - j))%nat →
    ext m bs ds' i (cs ++ (u8 <$> take n xs)) (j + n) (cq + Z.of_nat n) →
    free (s <| cmem := m |>) fs → (∀ a, a ∉ bs → m !! a = cmem s !! a) →
    ∃ r s', b_to_q_loop fuel (drop n xs) (cq + Z.of_nat n) (Z.of_nat (cc - n)) (s <| cmem := m |>)
      = Done r s' ∧ P r s') →
  ∃ r s', (let nc := Z.min (Z.of_nat cc) (CBLOCK - off cq) in
     if Z.of_nat (length xs) <? nc then fault else
     setchs cq (take (Z.to_nat nc) xs) ;;
     b_to_q_loop fuel (drop (Z.to_nat nc) xs) (cq + nc) (Z.of_nat cc - nc)) s = Done r s' ∧ P r s'.
Proof.
  intros He Hf Hnd Hj Hcc Hk. cbv zeta.
  destruct (ext_cq_off _ _ _ _ _ _ _ He) as (_&Ho&_). rewrite Ho by done.
  set (n := (cc `min` (28 - j))%nat).
  assert (Z.min (Z.of_nat cc) (CBLOCK - (4 + Z.of_nat j)) = Z.of_nat n) as ->
    by (unfold n, CBLOCK; lia).
  destruct (Z.ltb_spec (Z.of_nat (length xs)) (Z.of_nat n)); [lia|]. rewrite Nat2Z.id.
  apply NoDup_app in Hnd as (Hnb&Hdis&_).
  destruct (ext_write s bs ds i cs j cq (take n xs) He Hnb) as (m&ds'&Heq&He'&Hne).
  { rewrite length_take. lia. }
  rewrite length_take, Nat.min_l in He' by lia.
  erewrite bind_done by done.
  replace (Z.of_nat cc - Z.of_nat n) with (Z.of_nat (cc - n)) by lia.
  apply (Hk n m ds'); try done.
  destruct Hf as ((dsf&Hcf)&?&?). split_and!; try done. exists dsf. cbn.
  eapply cchain_agree; [|exact Hcf]. intros a Ha. apply Hne. intros Hb. by apply (Hdis a).
Qed.

Lemma b_to_q_loop_spec fuel s bs ds i cs j cq fs xs cc :
  ext (cmem s) bs ds i cs j cq → free s fs → NoDup (bs ++ fs) →
  (cc ≤ length xs)%nat → (cc ≤ fuel)%nat →
  ∃ r s', b_to_q_loop fuel xs cq (Z.of_nat cc) s = Done r s' ∧ extended s s' bs fs i cs j xs cc r.
Proof.
  revert s bs ds cs j cq fs xs cc.
  induction fuel as [|fuel IH]; intros s bs ds cs j cq fs xs cc He Hf Hnd Hlen Hfuel;
    (destruct (decide (cc = 0)%nat) as [->|Hcc];
      [eexists _, s; split; [done|]; exists 0%nat, bs, ds, fs, j, cq;
       cbn; rewrite app_nil_r; split_and!; done || lia|]); [lia|].
  assert (∀ s1 bs1 ds1 j1 cq1 fs1, ext (cmem s1) bs1 ds1 i cs j1 cq1 → free s1 fs1 →
    NoDup (bs1 ++ fs1) → (j1 < 28)%nat →
    (28 - j1 + 28 * length fs1 = 28 - j + 28 * length fs)%nat →
    bs1 ++ fs1 ≡ₚ bs ++ fs → clists s1 = clists s →
    (∀ a, a ∉ bs ++ fs → cmem s1 !! a = cmem s !! a) → link bs1 0 = link bs 0 →
    ∃ r s', (let nc := Z.min (Z.of_nat cc) (CBLOCK - off cq1) in
     if Z.of_nat (length xs) <? nc then fault else
     setchs cq1 (take (Z.to_nat nc) xs) ;;
     b_to_q_loop fuel (drop (Z.to_nat nc) xs) (cq1 + nc) (Z.of_nat cc - nc)) s1 = Done r s' ∧
     extended s s' bs fs i cs j xs cc r) as Hcopy.
  { intros s1 bs1 ds1 j1 cq1 fs1 He1 Hf1 Hnd1 Hj1 Hroom Hp Hls Hm Hlk.
    eapply b_to_q_copy; try done; [lia|]. intros n m ds' Hn He' Hf' Hm'.
    destruct (IH (s1 <| cmem := m |>) bs1 ds' (cs ++ (u8 <$> take n xs)) (j1 + n)%nat
      (cq1 + Z.of_nat n) fs1 (drop n xs) (cc - n)%nat) as (r&s'&Heq&Hx); try done;
      [rewrite length_drop; lia|lia|].
    exists r, s'. split; [done|].
    destruct Hx as (k&bs'&ds2&fs'&j'&cq'&->&Hk&Hex&Hfr&Hp'&Hls'&Hmm&Hlk'&Hpos).
    exists (n + k)%nat, bs', ds2, fs', j', cq'. split_and!; try done.
    - f_equal. lia.
    - lia.
    - rewrite <- app_assoc in Hex.
      assert (take (n + k) xs = take n xs ++ take k (drop n xs)) as Htk.
      { rewrite <- (take_drop n xs) at 1. rewrite take_app_ge; rewrite length_take; [|lia].
        do 2 f_equal. lia. }
      by rewrite Htk, fmap_app.
    - by rewrite Hp'.
    - by rewrite Hls'.
    - intros a Ha. rewrite Hmm by (by rewrite Hp). cbn. rewrite Hm'; [by apply Hm|].
      intros Hb. apply Ha. rewrite <- Hp. apply elem_of_app. by left.
    - by rewrite Hlk'.
    - intros _. apply Hpos. lia. }
  pose proof He as [_ (Hi&Hj'&Hbs) _ _ _].
  destruct (ext_cq_off _ _ _ _ _ _ _ He) as (_&Ho1&Ho2).
  cbn [b_to_q_loop]. destruct (Z.eqb_spec (Z.of_nat cc) 0); [lia|].
  destruct (decide (j = 28)%nat) as [->|Hj].
  - rewrite Ho2 by done. change (0 =? 0) with true. cbv iota.
    erewrite bind_done by apply get_s_eq. pose proof Hf as (_&Hfl&_). rewrite Hfl.
    destruct fs as [|b fs].
    + change (link [] 0) with 0. erewrite bind_done by (by eapply ext_stuck).
      eexists _, s. split; [done|]. exists 0%nat, bs, ds, [], 28%nat, cq.
      cbn. rewrite app_nil_r, Nat.sub_0_r. split_and!; done || lia.
    + change (link (b :: fs) 0) with b.
      destruct (ext_grow s bs ds i cs cq b fs He Hf Hnd)
        as (s1&s2&ds'&Heq1&Heq2&_&He'&Hf'&Hls&Hne).
      erewrite bind_done by done. rewrite (free_nz _ _ _ Hf). erewrite bind_done by done.
      apply (Hcopy s2 (bs ++ [b]) ds' 0%nat (c_info_of b) fs); try done; try lia.
      * by rewrite <- app_assoc.
      * simpl. lia.
      * by rewrite <- app_assoc.
      * intros a Ha. apply Hne. set_solver.
      * by destruct bs; [simpl in *; lia|].
  - destruct (Z.eqb_spec (off cq) 0) as [Hz|_]; [rewrite Ho1 in Hz; lia|]. apply (Hcopy s bs ds j cq fs); done || lia.
Qed.

(** [b_to_q] appends as many of the [cc] characters as there is room for. *)
Lemma b_to_q_spec s p q bs cs fs xs cc :
  clists s !! p = Some q → holds (cmem s) q bs cs → free s fs → NoDup (bs ++ fs) →
  (Z.to_nat cc ≤ length xs)%nat →
  ∃ k s', b_to_q xs cc p s = Done (Z.of_nat (Z.to_nat cc - k)) s' ∧
    moves s s' p bs fs (cs ++ (u8 <$> take k xs)) ∧
    (k ≤ Z.to_nat cc)%nat ∧ (k < Z.to_nat cc → 28 * length fs ≤ k)%nat.
Proof.
  intros Hq Hh Hf Hnd Hlen. unfold b_to_q. destruct (Z.leb_spec cc 0) as [Hz|Hpos].
  { exists 0%nat, s. replace (Z.to_nat cc) with 0%nat by lia. cbn. rewrite app_nil_r.
    split_and!; [done|by eapply moves_refl|lia..]. }
  set (n := Z.to_nat cc) in *. replace cc with (Z.of_nat n) by lia.
  assert (0 < n)%nat as Hn by lia. clearbody n.
  erewrite bind_done by (by apply getq_eq). erewrite bind_done by apply get_s_eq. cbv zeta.
  assert (p < length (clists s))%nat by (by eapply lookup_lt_Some).
  assert (∀ s1 q1 bs1 ds i j cq fs1,
    clists s1 = <[p := q1]> (clists s) → c_cc q1 = Z.of_nat (length cs) →
    c_cf q1 = link bs1 0 + 4 + Z.of_nat i →
    ext (cmem s1) bs1 ds i cs j cq → free s1 fs1 → bs1 ++ fs1 ≡ₚ bs ++ fs →
    (∀ a, a ∉ bs ++ fs → cmem s1 !! a = cmem s !! a) →
    (28 * length fs ≤ 28 - j + 28 * length fs1)%nat →
    ∃ k s', ('(cq, rest) ← b_to_q_loop n xs cq (Z.of_nat n);
      setq p (λ q, q <| c_cl := cq |> <| c_cc ::= Z.add (Z.of_nat n - rest) |>) ;;
      mret rest) s1 = Done (Z.of_nat (n - k)) s' ∧
    moves s s' p bs fs (cs ++ (u8 <$> take k xs)) ∧ (k ≤ n)%nat ∧ (k < n → 28 * length fs ≤ k)%nat)
    as Hrun.
  { intros s1 q1 bs1 ds i j cq fs1 Hls Hcc Hcf He Hf1 Hp Hm Hroom.
    assert (NoDup (bs1 ++ fs1)) as Hnd1 by (by rewrite Hp).
    destruct (b_to_q_loop_spec n s1 bs1 ds i cs j cq fs1 xs n He Hf1 Hnd1 ltac:(lia) ltac:(lia))
      as (r&s2&Heq&k&bs'&ds'&fs'&j'&cq'&->&Hk&He'&Hf'&Hp'&Hls'&Hm'&Hlk&Hj').
    exists k. erewrite bind_done by done. cbn beta iota.
    assert (clists s2 !! p = Some q1) as Hq2 by (rewrite Hls', Hls; by apply list_lookup_insert_eq).
    erewrite bind_done by (by apply setq_eq).
    eexists. split; [done|]. split; [|lia].
    eapply (ext_moves _ _ _ q _ _ bs' fs'); try done; try lia.
    - unfold upd. cbn. rewrite Hls', Hls, list_insert_insert_eq. f_equal.
      rewrite length_app, length_fmap, length_take. f_equal; [lia|by rewrite Hcf, Hlk].
    - destruct xs as [|x xs]; [simpl in *; lia|].
      destruct k; [|by destruct cs]. destruct cs; [|done].
      destruct He as [_ (?&?&?) Hfit _ _]. simpl in Hfit. lia.
    - by rewrite Hp'.
    - intros a Ha. cbn. rewrite Hm' by (by rewrite Hp). by apply Hm. }
  destruct (holds_ext _ _ _ _ Hh) as [(->&->&->)|(ds&i&j&He&Hj&Hcs&Hcl&Hqf&_)].
  - cbn [c_cl c_cc]. change (0 =? 0) with true. cbn [orb]. cbv iota.
    pose proof Hf as (_&Hfl&_). rewrite Hfl. destruct fs as [|b fs].
    + change (link [] 0 =? 0) with true. cbv iota. exists 0%nat, s.
      erewrite bind_done by (by apply setq_eq).
      rewrite Nat.sub_0_r, app_nil_r. split_and!; [|by eapply moves_refl|simpl; lia..].
      unfold mret, M_ret, upd. f_equal. destruct s. cbn in *. by rewrite list_insert_id.
    + change (link (b :: fs) 0) with b. rewrite (free_nz _ _ _ Hf).
      pose proof Hnd as [Hbf _]%NoDup_cons.
      destruct (takefree_eq s b fs Hf Hbf) as (s1&d&Heq&Hb&Hne&Hls&Hf').
      erewrite bind_done by done. erewrite bind_done by (apply setq_eq; by rewrite Hls).
      eapply (Hrun _ _ [b] [d] 0%nat 0%nat); try done; try (simpl; lia).
      * cbn. rewrite Hls. reflexivity.
      * done.
      * cbn. unfold c_info_of. lia.
      * split; cbn; unfold c_info_of; try done; lia.
      * intros a Ha. cbn. apply Hne. set_solver.
  - pose proof (f_equal c_cc Hqf) as Hcc. pose proof (f_equal c_cf Hqf) as Hcf'. cbn in Hcc, Hcf'.
    destruct (Z.eqb_spec (c_cl q) 0); [lia|]. destruct (Z.ltb_spec (c_cc q) 0); [lia|].
    cbn [orb]. cbv iota. eapply (Hrun s q bs); try done; [|lia].
    symmetry. by apply list_insert_id.
Qed.

(** ** Removing the last character *)

Lemma unputc_find_spec fuel s bs ds obp l nx :
  chain (cmem s) (bs ++ [obp; l]) ds nx → NoDup (bs ++ [obp; l]) → (length bs < fuel)%nat →
  unputc_find fuel (link (bs ++ [obp]) 0) l s = Done obp s.
Proof.
  revert bs ds. induction fuel as [|fuel IH]; intros bs ds Hc Hnd Hlen; [lia|].
  destruct bs as [|b bs]; destruct ds as [|d ds]; try done; cbn in Hc; destruct Hc as [Hb Hc];
    pose proof Hb as (_&_&Hm&_&_); cbn [unputc_find app link head default from_option id];
    erewrite bind_done by (by apply getb_eq); cbn [c_next].
  - cbn. by rewrite Z.eqb_refl.
  - simpl in Hnd. apply NoDup_cons in Hnd as [_ Hnd].
    assert (link (bs ++ [obp; l]) nx = link (bs ++ [obp]) 0) as Hlk by (by destruct bs).
    rewrite Hlk. destruct (Z.eqb_spec (link (bs ++ [obp]) 0) l) as [Heq|_].
    + exfalso. change ([obp; l]) with ([obp] ++ [l]) in Hnd. rewrite app_assoc in Hnd.
      apply NoDup_app in Hnd as (_&Hdis&_). apply (Hdis l); [|by left].
      rewrite <- Heq. destruct bs; cbn; by left.
    + eapply IH; [done|done|simpl in Hlen; lia].
Qed.

Lemma chain_size m bs ds nx : chain m bs ds nx → NoDup bs → (length bs ≤ size m)%nat.
Proof.
  intros Hc Hnd. rewrite <- (size_list_to_set (C := gset Z) bs) by done.
  rewrite <- (size_dom (D := gset Z)). apply subseteq_size. intros b Hb.
  apply elem_of_list_to_set in Hb. destruct (chain_blk _ _ _ _ _ Hc Hb) as (d&nx'&_&_&Hm&_).
  by apply elem_of_dom.
Qed.

Lemma chain_link m bs ds nx : chain m bs ds nx → bs ≠ [] → link bs 0 `mod` 32 = 0.
Proof. destruct bs, ds; simpl; try done. by intros [(_&?&_) _]. Qed.

(** What is left of an extensible chain without its last character. *)
Lemma ext_shrink m bs ds i cs c j cq :
  ext m bs ds i (cs ++ [c]) (S j) cq → (0 < j)%nat → ext m bs ds i cs j (cq - 1).
Proof.
  intros [Hc (Hi&Hj'&Hne) Hfit Hd Hcq] Hj. rewrite length_app in Hfit, Hd. simpl in Hfit, Hd.
  split; try done; [lia|lia| |lia].
  apply (f_equal (take (length cs))) in Hd. rewrite take_take, Nat.min_l in Hd by lia.
  rewrite <- Hd. by rewrite take_app_length.
Qed.

Lemma ext_shrink_block m m' bs ds i cs c b d cq obp :
  ext m ((bs ++ [obp]) ++ [b]) (ds ++ [d]) i (cs ++ [c]) 1 cq → cs ≠ [] →
  chain m' (bs ++ [obp]) ds 0 → ext m' (bs ++ [obp]) ds i cs 28 (obp + 32).
Proof.
  intros [_ (Hi&_&_) Hfit Hd _] Hcs Hc. rewrite !length_app in Hfit. rewrite length_app in Hd.
  simpl in Hfit, Hd. pose proof (chain_total _ _ _ _ Hc) as Htot. rewrite length_app in Htot.
  simpl in Htot. split; [done| | | |].
  - rewrite length_app. simpl. lia.
  - rewrite length_app. simpl. lia.
  - apply (f_equal (take (length cs))) in Hd. rewrite take_take, Nat.min_l in Hd by lia.
    rewrite take_app_length in Hd. rewrite Hd at 1. rewrite concat_app, skipn_app, take_app_le; [done|].
    rewrite length_drop. lia.
  - rewrite last_snoc. cbn. lia.
Qed.

(** [unputc] takes the last character off, as a plain [char]. *)
Lemma unputc_spec s p q bs cs c fs :
  clists s !! p = Some q → holds (cmem s) q bs (cs ++ [c]) → free s fs → NoDup (bs ++ fs) →
  ∃ s', unputc p s = Done (cchar c) s' ∧ moves s s' p bs fs cs.
Proof.
  intros Hq Hh Hf Hnd. assert (p < length (clists s))%nat as Hp by (by eapply lookup_lt_Some).
  destruct (holds_ext _ _ _ _ Hh) as [(_&?&_)|(ds&i&j&He&Hj&_&Hcl&Hqf&_)]; [by destruct cs|].
  pose proof (f_equal c_cc Hqf) as Hcc. pose proof (f_equal c_cf Hqf) as Hcf. cbn in Hcc, Hcf.
  destruct (ext_last _ _ _ _ _ _ _ He) as (bs1&b&ds1&d&->&->&Hc&Hb&Hcq&Hcs&Hlen&Htot).
  pose proof He as [_ (Hi&Hj'&_) Hfit _ _]. rewrite !length_app in Hlen, Hfit. simpl in Hlen, Hfit.
  pose proof Hb as (Hb1&Hb2&Hb3&Hb4&Hb5). rewrite length_take in Hlen.
  rewrite length_app in Hcc. simpl in Hcc.
  (* the last character *)
  destruct j as [|j]; [lia|]. destruct (lookup_lt_is_Some_2 d j) as [x Hx]; [lia|].
  rewrite (take_S_r _ _ _ Hx), app_assoc, skipn_app in Hcs.
  replace (i - length (concat ds1 ++ take j d))%nat with 0%nat in Hcs
    by (rewrite length_app, length_take; lia).
  rewrite drop_0 in Hcs. apply app_inj_tail in Hcs as [Hcs <-].
  unfold unputc. erewrite bind_done by (by apply getq_eq).
  destruct (Z.leb_spec (c_cc q) 0); [lia|].
  erewrite bind_done by (by apply setq_eq). cbv beta.
  set (q1 := MkCl (c_cc q) (c_cf q) (b + 4 + Z.of_nat j)).
  assert (q <| c_cl ::= Z.pred |> = q1) as ->.
  { unfold upd, q1. cbn. f_equal. lia. }
  set (s1 := s <| clists ::= <[p := q1]> |>).
  assert (clists s1 !! p = Some q1) as Hq1 by (by apply list_lookup_insert_eq).
  erewrite bind_done by (by apply getq_eq). cbn [c_cl q1].
  erewrite bind_done by (by eapply (getch_blk s1)).
  erewrite bind_done by (by apply setq_eq). cbv beta.
  set (q2 := MkCl (Z.of_nat (length cs)) (c_cf q) (b + 4 + Z.of_nat j)).
  assert (q1 <| c_cc ::= Z.pred |> = q2) as ->.
  { unfold upd, q1, q2. cbn. f_equal. lia. }
  assert (s1 <| clists ::= <[p := q2]> |> = s <| clists ::= <[p := q2]> |>) as ->.
  { unfold s1, upd. cbn. by rewrite list_insert_insert_eq. }
  set (s2 := s <| clists ::= <[p := q2]> |>).
  assert (clists s2 !! p = Some q2) as Hq2 by (by apply list_lookup_insert_eq).
  erewrite bind_done by (by apply getq_eq). cbn [c_cc c_cl q2].
  assert (base (b + 4 + Z.of_nat j) = b) as Hbase
    by (rewrite <- Z.add_assoc; apply base_in; [done|lia]).
  assert (off (b + 4 + Z.of_nat j) = 4 + Z.of_nat j) as Hoff
    by (rewrite <- Z.add_assoc; apply off_in; [done|lia]).
  rewrite Hbase, Hoff. apply NoDup_app in Hnd as (Hnb&Hdis&Hnf).
  destruct (Z.leb_spec (Z.of_nat (length cs)) 0) as [Hz|Hnz].
  - (* the queue becomes empty *)
    destruct cs; [|simpl in *; lia]. destruct bs1; [|simpl in *; lia].
    rewrite bind_assoc. erewrite bind_done by (by apply setq_eq). cbv beta.
    set (s3 := upd clists _ s2).
    destruct (putfree_eq s3 b d 0 fs) as (s'&Heq&Hm&Hl&Hf'); [done..|by intros ?; apply (Hdis b); [left|]|].
    erewrite bind_done by done. exists s'. split; [done|].
    exists (MkCl 0 0 0), [], (b :: fs). split_and!; [|by left|done..|].
    + rewrite Hl. unfold s3, s2, upd. cbn. rewrite list_lookup_insert_eq; [done|].
      by rewrite length_insert.
    + split; rewrite ?Hm, ?Hl; cbn.
      * intros a Ha. cbn. apply lookup_insert_ne. intros ->. apply Ha. by left.
      * intros p' Hp'. cbn. by rewrite !list_lookup_insert_ne.
      * cbn. by rewrite !length_insert.
  - destruct (Z.eqb_spec (4 + Z.of_nat j) 4) as [Hj0|Hj0].
    + (* the last block becomes empty *)
      assert (j = 0%nat) as -> by lia.
      destruct bs1 as [|obp bs1 _] using rev_ind; [simpl in *; lia|].
      pose proof Hc as (ds0&d0&->&Hc0&Hob)%chain_snoc. pose proof Hob as (Hob1&Hob2&Hob3&Hob4).
      assert (link ((bs1 ++ [obp]) ++ [b]) 0 = link (bs1 ++ [obp]) 0) as Hlk by (by destruct bs1).
      pose proof (chain_link _ _ _ _ Hc ltac:(by destruct bs1)) as Hal.
      rewrite bind_assoc. erewrite bind_done by apply get_s_eq. cbn [c_cf q2].
      assert (base (c_cf q) = link (bs1 ++ [obp]) 0) as ->.
      { rewrite Hcf, Hlk, <- Z.add_assoc. apply base_in; [done|lia]. }
      assert (unputc_find (size (cmem s2)) (link (bs1 ++ [obp]) 0) b s2 = Done obp s2) as Hfind.
      { pose proof He as [Hch _ _ _ _]. pose proof (chain_size _ _ _ _ Hch Hnb) as Hsz.
        rewrite <- app_assoc in Hch, Hnb, Hsz.
        eapply unputc_find_spec; [exact Hch|done|]. cbn. rewrite length_app in Hsz. simpl in Hsz. lia. }
      rewrite bind_assoc. erewrite bind_done by exact Hfind.
      rewrite bind_assoc. erewrite bind_done by (by apply setq_eq). cbv beta.
      rewrite bind_assoc. erewrite bind_done by (by apply getb_eq). cbn [c_next].
      set (s3 := upd clists _ s2).
      rewrite bind_assoc.
      apply NoDup_app in Hnb as (Hnb&Hbl&_).
      assert (b ∉ bs1 ++ [obp]) as Hbn by (intros Hin; apply (Hbl b Hin); by left).
      destruct (putfree_eq s3 b d 0 fs) as (s4&Heq&Hm&Hl&Hf'); [done..| |].
      { intros ?. apply (Hdis b); [|done]. apply elem_of_app. right. by left. }
      erewrite bind_done by done.
      assert (cmem s4 !! obp = Some (MkCb b d0)) as Hob5.
      { rewrite Hm. cbn. rewrite lookup_insert_ne; [done|]. intros <-. apply Hbn.
        apply elem_of_app. right. by left. }
      erewrite bind_done by (by apply setb_eq). cbv beta.
      set (s5 := upd cmem _ s4). exists s5. split; [done|].
      assert (∀ a, a ≠ b → a ≠ obp → cmem s5 !! a = cmem s !! a) as Hframe.
      { intros a Ha Ha'. unfold s5. cbn. rewrite lookup_insert_ne, Hm by done. cbn.
        by rewrite lookup_insert_ne. }
      assert (chain (cmem s5) (bs1 ++ [obp]) (ds0 ++ [d0]) 0) as Hc5.
      { apply chain_snoc. exists ds0, d0. apply NoDup_app in Hnb as (_&Hbo&_). split_and!; [done| |].
        - eapply cchain_agree; [|exact Hc0]. intros a Ha. apply Hframe.
          + intros ->. apply Hbn. apply elem_of_app. by left.
          + intros ->. apply (Hbo _ Ha). by left.
        - split_and!; try done; [apply lookup_insert_eq|apply Hob4..]. }
      eapply (ext_moves _ _ _ q _ _ (bs1 ++ [obp]) (b :: fs) (ds0 ++ [d0]) i cs 28 (obp + 32)); try done.
      * cbn. rewrite Hl. unfold s3, s2, upd. cbn. rewrite !list_insert_insert_eq.
        f_equal. unfold q2. cbn. by rewrite Hcf, Hlk.
      * by apply (ext_shrink_block (cmem s) _ _ _ _ _ c b d (c_cl q)); [|destruct cs|].
      * by destruct cs.
      * destruct Hf' as ((dsf&Hcf')&Hfl&Hcnt). split_and!; try done. exists dsf.
        apply (chain_ne (cmem s4)); [|done]. apply not_elem_of_cons. split.
        -- intros ->. apply Hbn. apply elem_of_app. right. by left.
        -- apply Hdis. apply elem_of_app. left. apply elem_of_app. right. by left.
      * by rewrite <- (app_assoc (bs1 ++ [obp])).
      * intros a Ha. apply Hframe; intros ->; apply Ha; rewrite !elem_of_app; set_solver.
    + exists s2. split; [done|].
      eapply (ext_moves _ _ _ q _ _ _ fs (ds1 ++ [d]) i cs j (b + 4 + Z.of_nat j)); try done; try lia.
      * cbn. unfold q2. by rewrite Hcf.
      * replace (b + 4 + Z.of_nat j) with (c_cl q - 1) by lia.
        apply (ext_shrink _ _ _ _ _ c); [done|lia].
      * by destruct cs.
Qed.

(** ** Flushing *)

(** The queue after a round of [ndflush]'s loop: drained, with its pointers
    not yet reset, or holding what is left. *)
Definition flushed (s s' : cstate) (p : nat) (bs fs cs' : list Z) : Prop :=
  ∃ q' bs' fs', clists s' !! p = Some q' ∧ free s' fs' ∧ bs' ++ fs' ≡ₚ bs ++ fs ∧
    frame s s' p (bs ++ fs) ∧
    (cs' = [] ∧ bs' = [] ∧ c_cc q' = 0 ∨ cs' ≠ [] ∧ holds (cmem s') q' bs' cs').

Lemma flushed_trans s1 s2 s3 p bs fs bs1 fs1 cs :
  bs1 ++ fs1 ≡ₚ bs ++ fs → frame s1 s2 p (bs ++ fs) →
  flushed s2 s3 p bs1 fs1 cs → flushed s1 s3 p bs fs cs.
Proof.
  intros Hp Hfr (q'&bs'&fs'&?&?&Hp'&Hfr'&?). exists q', bs', fs'. split_and!; try done.
  - by rewrite Hp'.
  - by eapply frame_trans.
Qed.

Lemma frame_setq s p q q' bl :
  clists s !! p = Some q → frame s (s <| clists ::= <[p := q']> |>) p bl.
Proof.
  intros Hq. split; cbn; [done| |by rewrite length_insert].
  intros p' Hp'. cbn. by rewrite list_lookup_insert_ne.
Qed.

(** The first block's last character: the chain's end, or the block's. *)
Lemma flush_rem m q b bs ds i cs :
  mid m q (b :: bs) ds i cs → (i < 28)%nat → cs ≠ [] → NoDup (b :: bs) →
  base (c_cf q) = b ∧
  (if b =? base (c_cl q - 1) then c_cl q else b + CBLOCK) - c_cf q =
    Z.of_nat (length cs `min` (28 - i)) ∧
  (bs = [] → length cs ≤ 28 - i)%nat ∧ (bs ≠ [] → 28 - i < length cs)%nat.
Proof.
  intros Hmid Hi Hcs Hnd. destruct (mid_ext _ _ _ _ _ _ Hmid Hi Hcs) as (j&He&Hj).
  pose proof Hmid as [_ _ [Hf1 Hf2] _ _ Hcf _]. cbn in Hcf, Hf1, Hf2.
  pose proof He as [Hc (_&Hj'&_) Hfit _ _]. cbn in Hfit.
  pose proof (chain_link _ _ _ _ Hc ltac:(done)) as Hal. cbn in Hal.
  destruct (ext_last _ _ _ _ _ _ _ He) as (bs1&l&ds1&d&Hbs&->&_&(_&Hl&_)&Hcl&_).
  assert (base (c_cl q - 1) = l) as ->.
  { rewrite Hcl. replace (l + 4 + Z.of_nat j - 1) with (l + (3 + Z.of_nat j)) by lia.
    apply base_in; [done|lia]. }
  split; [rewrite Hcf, <- Z.add_assoc; apply base_in; [done|lia]|].
  destruct bs1 as [|b1 bs1]; simplify_eq/=.
  - rewrite Z.eqb_refl. split_and!; [lia|lia|done].
  - apply NoDup_cons in Hnd as [Hn _].
    destruct (Z.eqb_spec b1 l) as [->|_]; [destruct Hn; apply elem_of_app; right; by left|].
    rewrite length_app in *. simpl in *. unfold CBLOCK.
    split_and!; [lia|by destruct bs1|lia].
Qed.

(** The queue without its first block. *)
Lemma mid_next m q b bs d ds i cs n x :
  mid m q (b :: bs) (d :: ds) i cs → n = (28 - i)%nat → (n < length cs)%nat → b ∉ bs →
  mid (<[b := x]> m) (q <| c_cc ::= λ k, k - Z.of_nat n |> <| c_cf := c_info_of (link bs 0) |>)
    bs ds 0 (drop n cs).
Proof.
  intros [[(_&_&_&Hl&_) Hc] Ho [Hf1 Hf2] Hd Hcc Hcf Hcl] -> Hn Hb.
  simpl in Hf1, Hf2. rewrite last_cons in Hcl.
  split; cbn [upd c_cc c_cf c_cl]; rewrite ?length_drop; try lia.
  - by apply chain_ne.
  - rewrite Hd at 1. rewrite skipn_firstn_comm, drop_drop. cbn [concat].
    rewrite drop_app_ge by lia. by replace (i + (28 - i) - length d)%nat with 0%nat by lia.
  - unfold c_info_of. lia.
  - destruct (last bs) eqn:E; [simpl in *; lia|]. apply last_None in E as ->. simpl in *. lia.
Qed.

Lemma ndflush_loop_spec fuel s p q bs cs fs cc :
  clists s !! p = Some q → holds (cmem s) q bs cs → cs ≠ [] → free s fs → NoDup (bs ++ fs) →
  0 ≤ cc → (Z.to_nat cc ≤ fuel)%nat →
  ∃ s', ndflush_loop fuel p cc s = Done tt s' ∧ flushed s s' p bs fs (drop (Z.to_nat cc) cs).
Proof.
  revert s q bs cs fs cc. induction fuel as [|fuel IH]; intros s q bs cs fs cc Hq Hh Hne Hf Hnd Hcc Hfuel.
  { assert (cc = 0) as -> by lia. cbn. erewrite bind_done by (by apply getq_eq). cbn.
    exists s. split; [done|]. exists q, bs, fs. split_and!; try done. by right. }
  cbn [ndflush_loop]. erewrite bind_done by (by apply getq_eq).
  destruct Hh as [(_&?&_)|(ds&i&Hmid&Hi&_)]; [done|].
  assert (0 < length cs)%nat as Hlen by (destruct cs; [done|simpl; lia]).
  pose proof (mid_cc _ _ _ _ _ _ Hmid) as Hqcc.
  destruct (Z.eqb_spec (c_cc q) 0); [lia|].
  destruct (Z.ltb_spec 0 cc); cbn [andb negb].
  2:{ assert (cc = 0) as -> by lia. exists s. split; [done|]. exists q, bs, fs.
      split_and!; try done. right. split; [done|]. right. by exists ds, i. }
  destruct (mid_first _ _ _ _ _ _ 1 Hmid ltac:(lia) ltac:(lia) ltac:(lia))
    as (b&bs'&d&ds'&->&->&Hb&Hcf&_).
  pose proof Hnd as (Hnb&Hdis&_)%NoDup_app.
  destruct (flush_rem _ _ _ _ _ _ _ Hmid Hi Hne Hnb) as (Hbase&Hrem&Hone&Hmore).
  rewrite Hbase, Hrem. set (nr := (length cs `min` (28 - i))%nat) in *.
  assert (∀ a q', a ∉ (b :: bs') ++ fs → <[b := q']> (cmem s) !! a = cmem s !! a) as Hmne.
  { intros a q' Ha. apply lookup_insert_ne. intros ->. apply Ha. by left. }
  assert (p < length (clists s))%nat as Hp by (by eapply lookup_lt_Some).
  destruct (Z.geb_spec cc (Z.of_nat nr)) as [Hge|Hlt].
  - pose proof Hb as (_&_&Hm&_).
    erewrite bind_done by (by apply getb_eq). erewrite bind_done by (by apply setq_eq). cbv beta.
    set (s1 := upd clists _ s).
    destruct (putfree_wake s1 b d (link bs' 0) fs (ndflush_loop fuel p (cc - Z.of_nat nr)))
      as (s2&->&Hm2&Hl2&Hf2); [done..|by intros ?; apply (Hdis b); [left|]|].
    assert (clists s2 !! p = Some (q <| c_cc ::= λ n0, n0 - Z.of_nat nr |> <| c_cf := c_info_of (link bs' 0) |>))
      as Hq2 by (rewrite Hl2; by apply list_lookup_insert_eq).
    assert (frame s s2 p ((b :: bs') ++ fs)) as Hfr2.
    { split; rewrite ?Hm2, ?Hl2; cbn; [intros a Ha; by apply Hmne| |by rewrite length_insert].
      intros p' Hp'. cbn. by rewrite list_lookup_insert_ne. }
    assert (bs' ++ b :: fs ≡ₚ (b :: bs') ++ fs) as Hperm by (symmetry; apply Permutation_middle).
    destruct (decide (bs' = [])) as [->|Hbs'].
    + specialize (Hone eq_refl). exists s2. split.
      * assert (c_cc q - Z.of_nat nr = 0) as Hz by lia.
        destruct fuel; cbn [ndflush_loop]; erewrite bind_done by (by apply getq_eq);
          cbn [upd c_cc]; rewrite Hz; by rewrite andb_false_r.
      * exists (q <| c_cc ::= λ n0, n0 - Z.of_nat nr |> <| c_cf := c_info_of (link [] 0) |>), [], (b :: fs).
        split_and!; try done. left. split_and!; [apply drop_ge; lia|done|cbn; lia].
    + specialize (Hmore Hbs'). assert (nr = 28 - i)%nat as Hnr by lia.
      assert (drop (Z.to_nat cc) cs = drop (Z.to_nat (cc - Z.of_nat nr)) (drop nr cs)) as ->.
      { rewrite drop_drop. f_equal. lia. }
      set (q2 := q <| c_cc ::= _ |> <| c_cf := _ |>) in Hq2.
      destruct (IH s2 q2 bs' (drop nr cs) (b :: fs) (cc - Z.of_nat nr)) as (s3&Heq&Hx);
        [exact Hq2| | |exact Hf2|by rewrite Hperm|lia|lia|].
      * right. exists ds', 0%nat. rewrite Hm2. split_and!; [|lia|].
        -- eapply (mid_next (cmem s)); [exact Hmid|done|lia|]. by apply NoDup_cons in Hnb as [? _].
        -- intros Hnil%(f_equal length). rewrite length_drop in Hnil. simpl in Hnil. lia.
      * intros Hnil%(f_equal length). rewrite length_drop in Hnil. simpl in Hnil. lia.
      * exists s3. split; [done|]. by eapply flushed_trans.
  - erewrite bind_done by (by apply setq_eq). cbv beta. set (s1 := upd clists _ s).
    erewrite bind_done by (apply getq_eq; by apply list_lookup_insert_eq). cbn [upd c_cc].
    destruct (Z.leb_spec (c_cc q - cc) 0); [lia|].
    exists s1. split; [done|]. eexists _, (b :: bs'), fs.
    split_and!; [by apply list_lookup_insert_eq|done|done|by apply (frame_setq s p q)|right].
    split; [intros Hnil%(f_equal length); rewrite length_drop in Hnil; simpl in Hnil; lia|].
    right. exists (d :: ds'), (i + Z.to_nat cc)%nat. split_and!; [|lia|].
    + pose proof (mid_advance _ _ _ _ _ _ (Z.to_nat cc) Hmid ltac:(lia) ltac:(lia) Hlen) as Hadv.
      rewrite Z2Nat.id in Hadv by lia. unfold upd. cbn. by rewrite (Z.add_comm cc).
    + intros Hnil%(f_equal length). rewrite length_drop in Hnil. simpl in Hnil. lia.
Qed.

(** [ndflush] drops the first [cc] characters. *)
Lemma ndflush_spec s p q bs cs fs cc :
  clists s !! p = Some q → holds (cmem s) q bs cs → free s fs → NoDup (bs ++ fs) →
  ∃ s', ndflush p cc s = Done tt s' ∧ moves s s' p bs fs (drop (Z.to_nat cc) cs).
Proof.
  intros Hq Hh Hf Hnd. unfold ndflush. erewrite bind_done by (by apply getq_eq).
  destruct cs as [|c cs].
  { destruct Hh as [(->&_&->)|(ds&i&_&_&?)]; [|done]. cbn. rewrite drop_nil. exists s.
    split; [done|]. eapply moves_refl; [done|by left|done]. }
  assert (c_cc q = Z.of_nat (length (c :: cs))) as Hcc
    by (destruct Hh as [(_&?&_)|(ds&i&Hm&_)]; [done|apply Hm]).
  destruct (Z.leb_spec (c_cc q) 0); [simpl in *; lia|].
  destruct (decide (cc ≤ 0)).
  { replace (Z.to_nat cc) with 0%nat by lia. cbn [ndflush_loop].
    erewrite bind_done by (erewrite bind_done by (by apply getq_eq);
      destruct (Z.ltb_spec 0 cc); [lia|done]).
    erewrite bind_done by (by apply getq_eq). destruct (Z.leb_spec (c_cc q) 0); [lia|].
    exists s. split; [done|]. by eapply moves_refl. }
  destruct (ndflush_loop_spec (Z.to_nat cc) s p q bs (c :: cs) fs cc) as (s1&Heq&Hx); try done; try lia.
  erewrite bind_done by done.
  destruct Hx as (q1&bs1&fs1&Hq1&Hf1&Hp1&Hfr&[(Hnil&->&Hz)|(Hne&Hh1)]);
    erewrite bind_done by (by apply getq_eq).
  - rewrite Hz. change (0 <=? 0) with true. cbv iota. erewrite setq_eq by done.
    eexists. split; [done|]. rewrite Hnil.
    eapply moves_trans; [exact Hp1|exact Hfr|].
    eapply (moves_setq _ _ _ (λ _, MkCl 0 0 0)); [done|].
    eapply moves_refl; [|by left|done]. cbn. apply list_lookup_insert_eq. by eapply lookup_lt_Some.
  - assert (0 < c_cc q1).
    { destruct Hh1 as [(_&?&_)|(ds&i&Hm&_)]; [done|]. rewrite (mid_cc _ _ _ _ _ _ Hm).
      destruct (drop _ _); [done|simpl; lia]. }
    destruct (Z.leb_spec (c_cc q1) 0); [lia|]. exists s1. split; [done|].
    by exists q1, bs1, fs1.
Qed.
End steps.

(** ** All the queues together *)

(** [own] lists the blocks of every queue, [cont] its contents. *)
Record sys (s : cstate) (own cont : list (list Z)) (fs : list Z) : Prop := MkSys {
  sys_own : length own = length (clists s);
  sys_cont : length cont = length (clists s);
  sys_q : ∀ p q, clists s !! p = Some q →
    ∃ bs cs, own !! p = Some bs ∧ cont !! p = Some cs ∧ holds (cmem s) q bs cs;
  sys_free : free s fs;
  sys_nd : NoDup (concat own ++ fs);
}.

(** The queues hold [cont], using no block but [blks]. *)
Definition rep (blks : list Z) (s : cstate) (cont : list (list Z)) : Prop :=
  ∃ own fs, sys s own cont fs ∧ concat own ++ fs ≡ₚ blks.

Lemma concat_insert (own : list (list Z)) p bs bs' :
  own !! p = Some bs → ∃ rest, concat own ≡ₚ bs ++ rest ∧ concat (<[p := bs']> own) ≡ₚ bs' ++ rest ∧
    ∀ p' b', p' ≠ p → own !! p' = Some b' → b' ⊆+ rest.
Proof.
  intros Hp. pose proof (take_drop_middle _ _ _ Hp) as Hs.
  exists (concat (take p own) ++ concat (drop (S p) own)). split_and!.
  - rewrite <- Hs at 1. rewrite concat_app. cbn. by rewrite Permutation_app_swap_app.
  - rewrite insert_take_drop by (by eapply lookup_lt_Some). rewrite concat_app. cbn.
    by rewrite Permutation_app_swap_app.
  - intros p' b' Hne Hb'.
    assert (∀ (l : list (list Z)) n x, l !! n = Some x → x ⊆+ concat l) as Hin.
    { clear. intros l n x Hl. rewrite <- (take_drop_middle _ _ _ Hl), concat_app. cbn.
      apply submseteq_inserts_l, submseteq_inserts_r. done. }
    destruct (Nat.lt_total p' p) as [Hlt|[?|Hgt]]; [|done|].
    + apply submseteq_inserts_r. apply (Hin _ p'). by rewrite lookup_take_lt.
    + apply submseteq_inserts_l. apply (Hin _ (p' - S p)%nat). rewrite lookup_drop.
      by replace (S p + (p' - S p))%nat with p' by lia.
Qed.

Lemma holds_agree m m' q bs cs :
  (∀ a, a ∈ bs → m' !! a = m !! a) → holds m q bs cs → holds m' q bs cs.
Proof.
  intros Ha [?|(ds&i&[Hc ? ? ? ? ? ?]&?&?)]; [by left|right]. exists ds, i. split_and!; [|done..].
  split; try done. by eapply cchain_agree.
Qed.

(** A local operation on one queue keeps the system. *)
Lemma sys_moved s s' own cont fs p bs cs q' bs' fs' cs' :
  sys s own cont fs → own !! p = Some bs → cont !! p = Some cs →
  clists s' !! p = Some q' → holds (cmem s') q' bs' cs' → free s' fs' →
  bs' ++ fs' ≡ₚ bs ++ fs → frame s s' p (bs ++ fs) →
  sys s' (<[p := bs']> own) (<[p := cs']> cont) fs' ∧
  concat (<[p := bs']> own) ++ fs' ≡ₚ concat own ++ fs.
Proof.
  intros [Ho Hc Hq Hf Hnd] Hbs Hcs Hq' Hh' Hf' Hp [Hm Hl Hn].
  destruct (concat_insert own p bs bs' Hbs) as (rest&Hc1&Hc2&Hsub).
  assert (concat (<[p := bs']> own) ++ fs' ≡ₚ concat own ++ fs) as Hperm.
  { rewrite Hc1, Hc2. rewrite (Permutation_app_comm bs'), (Permutation_app_comm bs).
    rewrite <- !app_assoc. by rewrite Hp. }
  split; [|done]. split.
  - by rewrite length_insert, Hn.
  - by rewrite length_insert, Hn.
  - intros p' q1 Hq1. destruct (decide (p' = p)) as [->|Hne].
    + simplify_eq. exists bs', cs'.
      rewrite !list_lookup_insert_eq; [done|by eapply lookup_lt_Some..].
    + rewrite Hl in Hq1 by done. destruct (Hq _ _ Hq1) as (b1&c1&Hb1&Hc1'&Hh1).
      exists b1, c1. rewrite !list_lookup_insert_ne by done. split_and!; [done..|].
      eapply holds_agree; [|done]. intros a Ha. apply Hm. intros Hin.
      assert (NoDup ((bs ++ fs) ++ rest)) as Hnd'.
      { rewrite <- app_assoc, (Permutation_app_comm fs), app_assoc, <- Hc1. done. }
      apply NoDup_app in Hnd' as (_&Hdis&_). apply (Hdis a Hin).
      apply (elem_of_submseteq b1 rest a Ha). by apply (Hsub p').
  - done.
  - by rewrite Hperm.
Qed.


Lemma sys_moves s s' own cont fs p bs cs cs' :
  sys s own cont fs → own !! p = Some bs → cont !! p = Some cs → moves s s' p bs fs cs' →
  ∃ own' fs', sys s' own' (<[p := cs']> cont) fs' ∧ concat own' ++ fs' ≡ₚ concat own ++ fs.
Proof.
  intros Hs Hbs Hcs (q'&bs'&fs'&?&?&?&?&?). exists (<[p := bs']> own), fs'.
  by eapply sys_moved.
Qed.

Lemma holds_bytes m q bs cs : holds m q bs cs → Forall byte cs.
Proof.
  intros [(_&->&_)|(ds&i&[Hc _ _ Hd _ _ _]&_&_)]; [done|]. rewrite Hd.
  apply Forall_take, Forall_drop. by eapply chain_bytes.
Qed.

Lemma bytes_u8 cs : Forall byte cs → u8 <$> cs = cs.
Proof.
  induction 1 as [|c cs Hc _ IH]; [done|]. rewrite fmap_cons, IH. f_equal. by apply u8_small.
Qed.

Section refinement.
Context `{KConfig}.

(** Reading never moves the end of a queue it does not drain. *)
Lemma release_cl s p q r s' :
  clists s !! p = Some q → release p s = Done r s' →
  ∃ q', clists s' !! p = Some q' ∧ (c_cl q' = c_cl q ∨ r = true ∧ c_cl q' = 0).
Proof.
  intros Hq. unfold release. erewrite bind_done by (by apply getq_eq).
  assert (p < length (clists s))%nat by (by eapply lookup_lt_Some).
  assert (∀ bp s1 (r0 : bool), (putfree bp ;; wakefree ;; mret r0) s1 = Done r s' →
    clists s' = clists s1 ∧ r = r0) as Hpf.
  { intros bp s1 r0. unfold putfree, wakefree, setb, getb. m_unfold.
    destruct (cmem s1 !! bp); [|done]. cbn. destruct (cwaiting s1); cbn; by intros [= <- <-]. }
  destruct (_ <=? _).
  - cbv zeta. erewrite bind_done by (by apply setq_eq). intros [Hl ->]%Hpf. rewrite Hl.
    eexists. split; [by apply list_lookup_insert_eq|]. by right.
  - destruct (_ =? _); [|intros [= <- <-]; eauto].
    cbv zeta. intros (b&s1&Hb&Hs)%bind_inv.
    unfold getb in Hb. m_unfold. destruct (cmem s !! _); [|done]. simplify_eq.
    erewrite setq_eq in Hs by done. apply Hpf in Hs as [Hl ->]. rewrite Hl.
    eexists. split; [by apply list_lookup_insert_eq|]. by left.
Qed.

Lemma q_to_b_loop_cl fuel s p q cc cs s' :
  clists s !! p = Some q → q_to_b_loop fuel p cc s = Done cs s' →
  ∃ q', clists s' !! p = Some q' ∧ (c_cl q' = c_cl q ∨ c_cl q' = 0).
Proof.
  revert s q cc cs. induction fuel as [|fuel IH]; intros s q cc cs Hq; cbn [q_to_b_loop];
    (destruct (_ =? _); [intros [= <- <-]; eauto|]); [done|].
  erewrite bind_done by (by apply getq_eq).
  intros (xs&s1&Hx&Hr)%bind_inv.
  assert (∀ n a ys t t', getchs a n t = Done ys t' → t' = t) as Hget.
  { induction n as [|n IHn]; intros a ys t t'; cbn [getchs]; [by intros [= _ <-]|].
    intros (c&t1&Hc&(y2&t2&Hy&Hd)%bind_inv)%bind_inv. apply IHn in Hy as ->.
    unfold getch, getb in Hc. m_unfold. destruct (_ <? _); [done|].
    destruct (cmem t !! _); [|done]. destruct (c_info _ !! _); [|done]. by simplify_eq. }
  apply Hget in Hx as ->.
  erewrite bind_done in Hr by (by apply setq_eq). cbv beta in Hr.
  apply bind_inv in Hr as (dn&s2&Hrel&Hr).
  eapply release_cl in Hrel as (q2&Hq2&Hcl2);
    [|cbn; apply list_lookup_insert_eq; by eapply lookup_lt_Some].
  destruct dn; [injection Hr as <- <-; exists q2; split; [done|]; cbn in Hcl2; naive_solver|].
  destruct Hcl2 as [Hcl2|[? _]]; [|done]. cbn in Hcl2.
  apply bind_inv in Hr as (ys&s3&Hl&Hd). injection Hd as <- <-.
  destruct (IH _ _ _ _ Hq2 Hl) as (q3&?&?). simplify_eq. rewrite <- Hcl2. eauto.
Qed.

Lemma q_to_b_cl s p q cc cs s' :
  clists s !! p = Some q → q_to_b p cc s = Done cs s' →
  ∃ q', clists s' !! p = Some q' ∧ (c_cl q' = c_cl q ∨ c_cl q' = 0).
Proof.
  intros Hq. unfold q_to_b. destruct (_ <=? _); [intros [= <- <-]; eauto|].
  erewrite bind_done by (by apply getq_eq). destruct (_ <=? _).
  - erewrite bind_done by (by apply setq_eq). intros [= <- <-].
    eexists. split; [cbn; apply list_lookup_insert_eq; by eapply lookup_lt_Some|by right].
  - by apply q_to_b_loop_cl.
Qed.

(** Reading four blocks' worth of characters frees room for all of them. *)
Lemma drop_blocks m m' q q' bs bs' cs n :
  n = 112%nat → holds m q bs cs → holds m' q' bs' (drop n cs) →
  c_cl q' = c_cl q ∨ c_cl q' = 0 →
  (n `min` length cs + 28 * length bs' ≤ 28 * length bs)%nat.
Proof.
  intros Hn Hh Hh' Hcl.
  destruct (holds_ext _ _ _ _ Hh) as [(->&->&->)|(ds&i&j&He&Hj&Hcs&Hpos&_)].
  { rewrite drop_nil in Hh'. destruct Hh' as [(->&_)|(?&?&_&_&?)]; [simpl; lia|done]. }
  pose proof He as [_ (Hi&Hj'&_) Hfit _ _].
  destruct (holds_ext _ _ _ _ Hh') as [(->&Hd&->)|(ds'&i'&k&He'&Hk&Hcs'&Hpos'&_)].
  { apply (f_equal length) in Hd. rewrite length_drop in Hd. simpl in *. lia. }
  destruct Hcl as [Hcl|]; [|lia]. rewrite Hcl in He'.
  destruct (ext_cq_off _ _ _ _ _ _ _ He) as (_&Ho1&Ho2), (ext_cq_off _ _ _ _ _ _ _ He') as (_&Ho3&Ho4).
  pose proof He' as [_ (Hi'&Hk'&_) Hfit' _ _].
  assert (j = k) as ->.
  { destruct (decide (j = 28)%nat), (decide (k = 28)%nat); [congruence| | |].
    - specialize (Ho2 ltac:(done)). specialize (Ho3 ltac:(lia)). lia.
    - specialize (Ho4 ltac:(done)). specialize (Ho1 ltac:(lia)). lia.
    - specialize (Ho1 ltac:(lia)). specialize (Ho3 ltac:(lia)). lia. }
  rewrite length_drop in Hfit'.
  assert (112 < length cs)%nat.
  { destruct (decide (112 < length cs)%nat); [done|]. destruct Hcs'. apply drop_ge. lia. }
  lia.
Qed.

Lemma sys_lookup s own cont fs p cs :
  sys s own cont fs → cont !! p = Some cs →
  ∃ q bs, clists s !! p = Some q ∧ own !! p = Some bs ∧ holds (cmem s) q bs cs ∧ NoDup (bs ++ fs).
Proof.
  intros [Ho Hc Hq Hf Hnd] Hcs.
  destruct (lookup_lt_is_Some_2 (clists s) p) as [q Hqp].
  { rewrite <- Hc. by eapply lookup_lt_Some. }
  destruct (Hq _ _ Hqp) as (bs&cs'&Hbs&Hcs'&Hh). simplify_eq.
  exists q, bs. split_and!; [done..|].
  destruct (concat_insert own p bs [] Hbs) as (rest&Hp&_). rewrite Hp in Hnd.
  rewrite <- app_assoc, (Permutation_app_comm rest), app_assoc in Hnd. by apply NoDup_app in Hnd as [? _].
Qed.

(** The copying loop of [catq] loses nothing. *)
Lemma catq_loop_spec fuel s own cont fs from to cf ct :
  sys s own cont fs → from ≠ to → cont !! from = Some cf → cont !! to = Some ct →
  (length cf ≤ fuel)%nat →
  ∃ s' own' fs', catq_loop fuel from to s = Done tt s' ∧
    sys s' own' (<[to := ct ++ cf]> (<[from := []]> cont)) fs' ∧
    concat own' ++ fs' ≡ₚ concat own ++ fs.
Proof.
  revert s own cont fs cf ct. induction fuel as [|fuel IH]; intros s own cont fs cf ct Hs Hne Hcf Hct Hfuel;
    destruct (sys_lookup _ _ _ _ _ _ Hs Hcf) as (q&bs&Hq&Hbs&Hh&Hnd).
  - destruct cf; [|simpl in *; lia].
    assert (c_cc q = 0) as Hz by (destruct Hh as [(_&_&->)|(?&?&_&_&?)]; done).
    cbn [catq_loop]. erewrite bind_done by (by apply getq_eq). rewrite Hz. cbn.
    exists s, own, fs. rewrite app_nil_r. rewrite (list_insert_id cont from), list_insert_id; [done|done|done].
  - cbn [catq_loop]. erewrite bind_done by (by apply getq_eq).
    destruct cf as [|c cf].
    + assert (c_cc q = 0) as -> by (destruct Hh as [(_&_&->)|(?&?&_&_&?)]; done). cbn.
      exists s, own, fs. rewrite app_nil_r. rewrite (list_insert_id cont from), list_insert_id; [done|done|done].
    + assert (0 < c_cc q).
      { destruct Hh as [(_&?&_)|(ds&i&Hm&_)]; [done|]. rewrite (mid_cc _ _ _ _ _ _ Hm). simpl. lia. }
      destruct (Z.leb_spec (c_cc q) 0); [lia|].
      set (xs := c :: cf) in *. change (CBSIZE * 4) with 112.
      destruct (q_to_b_spec s from q bs xs fs 112 Hq Hh (sys_free _ _ _ _ Hs) Hnd) as (s1&Heq1&Hmv1).
      erewrite bind_done by done.
      change (Z.to_nat 112) with 112%nat in *.
      destruct (q_to_b_cl _ _ _ _ _ _ Hq Heq1) as (q1'&Hq1'&Hcl1).
      destruct Hmv1 as (q1&bs1&fs1&Hq1&Hh1&Hf1&Hp1&Hfr1). simplify_eq.
      pose proof (drop_blocks _ _ _ _ _ _ _ _ eq_refl Hh Hh1 Hcl1) as Hroom.
      apply Permutation_length in Hp1 as Hpl. rewrite !length_app in Hpl.
      destruct (sys_moved _ _ _ _ _ _ _ _ _ _ _ _ Hs Hbs Hcf Hq1 Hh1 Hf1 Hp1 Hfr1) as (Hs1&Hperm1).
      set (own1 := <[from := bs1]> own) in *. set (cont1 := <[from := _]> cont) in *.
      assert (cont1 !! to = Some ct) as Hct1 by (unfold cont1; by rewrite list_lookup_insert_ne).
      destruct (sys_lookup _ _ _ _ _ _ Hs1 Hct1) as (qt&bt&Hqt&Hbt&Hht&Hndt).
      assert (Z.to_nat (Z.of_nat (length (take 112 xs))) = 112 `min` length xs)%nat as Hcc
        by (rewrite length_take; lia).
      destruct (b_to_q_spec s1 to qt bt ct fs1 (take 112 xs) (Z.of_nat (length (take 112 xs)))
        Hqt Hht Hf1 Hndt ltac:(lia)) as (k&s2&Heq2&Hmv2&Hk1&Hk2).
      erewrite bind_done by done. rewrite Hcc in *.
      assert (k = 112 `min` length xs)%nat as -> by lia.
      rewrite (take_ge (take 112 xs)) in Hmv2 by (rewrite length_take; lia).
      rewrite bytes_u8 in Hmv2 by (by eapply Forall_take, holds_bytes).
      destruct (sys_moves _ _ _ _ _ _ _ _ _ Hs1 Hbt Hct1 Hmv2) as (own2&fs2&Hs2&Hperm2).
      destruct (IH s2 own2 _ fs2 (drop 112 xs) (ct ++ take 112 xs) Hs2 Hne) as (s3&own3&fs3&Heq3&Hs3&Hperm3).
      * unfold cont1. rewrite list_lookup_insert_ne by done. apply list_lookup_insert_eq.
        by eapply lookup_lt_Some.
      * apply list_lookup_insert_eq. by eapply lookup_lt_Some.
      * rewrite length_drop. subst xs. simpl in *. lia.
      * exists s3, own3, fs3. split; [done|]. split; [|by rewrite Hperm3, Hperm2].
        rewrite <- (app_assoc ct), take_drop in Hs3.
        rewrite (list_insert_insert_ne _ from to), list_insert_insert_eq in Hs3 by done.
        unfold cont1 in Hs3. by rewrite list_insert_insert_eq in Hs3.
Qed.
End refinement.

(** ** The contract: the queues are byte queues *)

Inductive cop :=
  | OGetc (p : nat) | OQtoB (p : nat) (cc : Z) | OFlush (p : nat) (cc : Z)
  | OPutc (c : Z) (p : nat) | OBtoQ (xs : list Z) (p : nat) | OUnputc (p : nat)
  | OCat (from to : nat).
Inductive cres := RInt (z : Z) | RChars (cs : list Z) | RUnit.

Definition exec `{KConfig} (op : cop) : M cstate cres :=
  match op with
  | OGetc p => r ← getc p; mret (RInt r)
  | OQtoB p cc => r ← q_to_b p cc; mret (RChars r)
  | OFlush p cc => ndflush p cc ;; mret RUnit
  | OPutc c p => r ← putc c p; mret (RInt r)
  | OBtoQ xs p => r ← b_to_q xs (Z.of_nat (length xs)) p; mret (RInt r)
  | OUnputc p => r ← unputc p; mret (RInt r)
  | OCat from to => catq from to ;; mret RUnit
  end.

Definition op_ok (n : nat) (op : cop) : Prop :=
  match op with
  | OGetc p | OQtoB p _ | OFlush p _ | OPutc _ p | OBtoQ _ p | OUnputc p => (p < n)%nat
  | OCat from to => from ≠ to ∧ (from < n)%nat ∧ (to < n)%nat
  end.

(** The specification on queues of bytes, with [room] characters' worth of
    free blocks. *)
Definition spec_op `{KConfig} (op : cop) (room : Z) (cont : list (list Z)) (r : cres)
    (cont' : list (list Z)) : Prop :=
  match op with
  | OGetc p => ∃ cs, cont !! p = Some cs ∧ r = RInt (default (-1) (head cs)) ∧
      cont' = <[p := tail cs]> cont
  | OQtoB p cc => ∃ cs, cont !! p = Some cs ∧ r = RChars (take (Z.to_nat cc) cs) ∧
      cont' = <[p := drop (Z.to_nat cc) cs]> cont
  | OFlush p cc => ∃ cs, cont !! p = Some cs ∧ r = RUnit ∧
      cont' = <[p := drop (Z.to_nat cc) cs]> cont
  | OPutc c p => ∃ cs, cont !! p = Some cs ∧
      (r = RInt 0 ∧ cont' = <[p := cs ++ [u8 c]]> cont ∨
       r = RInt (-1) ∧ cont' = cont ∧ room = 0)
  | OBtoQ xs p => ∃ cs k, cont !! p = Some cs ∧ r = RInt (Z.of_nat (length xs - k)) ∧
      cont' = <[p := cs ++ (u8 <$> take k xs)]> cont ∧
      (k ≤ length xs)%nat ∧ ((k < length xs)%nat → room ≤ Z.of_nat k)
  | OUnputc p => ∃ cs, cont !! p = Some cs ∧
      match last cs with
      | None => r = RInt (-1) ∧ cont' = cont
      | Some c => r = RInt (cchar c) ∧ cont' = <[p := take (pred (length cs)) cs]> cont
      end
  | OCat from to => ∃ cf ct, cont !! from = Some cf ∧ cont !! to = Some ct ∧ r = RUnit ∧
      cont' = <[to := ct ++ cf]> (<[from := []]> cont)
  end.

Section contract.
Context `{KConfig}.

Lemma rep_moves blks s s' own cont fs p bs cs cs' :
  sys s own cont fs → concat own ++ fs ≡ₚ blks → own !! p = Some bs → cont !! p = Some cs →
  moves s s' p bs fs cs' → rep blks s' (<[p := cs']> cont).
Proof.
  intros Hs Hp Hbs Hcs Hmv. destruct (sys_moves _ _ _ _ _ _ _ _ _ Hs Hbs Hcs Hmv) as (own'&fs'&?&?).
  exists own', fs'. split; [done|by etrans].
Qed.

Lemma holds_cc m q bs cs : holds m q bs cs → c_cc q = Z.of_nat (length cs).
Proof. intros [(_&->&->)|(ds&i&Hm&_)]; [done|apply Hm]. Qed.

(** Handing a whole chain over to an empty queue. *)
Lemma catq_swap s own cont fs from to qf bf cf :
  sys s own cont fs → from ≠ to → clists s !! from = Some qf → own !! from = Some bf →
  cont !! from = Some cf → cont !! to = Some [] →
  ∃ own', sys (s <| clists ::= λ l, <[from := MkCl 0 0 0]> (<[to := qf]> l) |>) own'
      (<[to := cf]> (<[from := []]> cont)) fs ∧
    concat own' ++ fs ≡ₚ concat own ++ fs.
Proof.
  intros Hs Hne Hqf Hbf Hcf Hct.
  destruct (sys_lookup _ _ _ _ _ _ Hs Hct) as (qt&bt&Hqt&Hbt&Hht&_).
  destruct Hht as [(->&_&->)|(?&?&_&_&?)]; [|done].
  pose proof Hs as [Ho Hc Hq Hf Hnd].
  destruct (Hq _ _ Hqf) as (?&?&?&?&Hhf). simplify_eq.
  exists (<[to := bf]> (<[from := []]> own)).
  assert (concat (<[to := bf]> (<[from := []]> own)) ≡ₚ concat own) as Hperm.
  { destruct (concat_insert own from bf [] Hbf) as (r1&H1&H2&_).
    destruct (concat_insert (<[from := []]> own) to [] bf) as (r2&H3&H4&_).
    { by rewrite list_lookup_insert_ne. }
    rewrite H4, H1. apply Permutation_app_head. rewrite H2 in H3. simpl in H3. by rewrite H3. }
  split; [|by rewrite Hperm]. split; cbn [clists upd].
  - by rewrite !length_insert.
  - by rewrite !length_insert.
  - intros p q Hp. cbn in Hp.
    assert (from < length (clists s) ∧ to < length (clists s))%nat as [Hlf Hlt]
      by (split; by eapply lookup_lt_Some).
    destruct (decide (p = from)) as [->|Hpf].
    { rewrite list_lookup_insert_eq in Hp by (by rewrite length_insert). simplify_eq.
      exists [], []. rewrite !(list_lookup_insert_ne _ to) by done.
      rewrite !list_lookup_insert_eq by congruence. split_and!; [done..|by left]. }
    rewrite list_lookup_insert_ne in Hp by done.
    destruct (decide (p = to)) as [->|Hpt].
    { rewrite list_lookup_insert_eq in Hp by done. simplify_eq. exists bf, cf.
      rewrite !list_lookup_insert_eq by (rewrite length_insert; congruence). done. }
    rewrite list_lookup_insert_ne in Hp by done. rewrite !list_lookup_insert_ne by done. by apply Hq.
  - done.
  - by rewrite Hperm.
Qed.

(** C8: The block chains implement byte queues: every operation on any of the
    queues terminates without fault, returns what the queue specification says
    and changes the contents of the queues it names, and only those, as the
    specification says; no block is lost or shared. [putc] and [b_to_q] fall
    short only when the free blocks are used up, and [catq] never loses a
    character, even with no free block left. *)
Theorem clist_refines blks s cont op :
  rep blks s cont → op_ok (length cont) op →
  ∃ r s' cont', exec op s = Done r s' ∧ rep blks s' cont' ∧
    spec_op op (cfreecount s) cont r cont'.
Proof.
  intros (own&fs&Hs&Hp) Hok.
  assert (∀ p, (p < length cont)%nat → ∃ cs q bs, cont !! p = Some cs ∧ clists s !! p = Some q ∧
    own !! p = Some bs ∧ holds (cmem s) q bs cs ∧ NoDup (bs ++ fs)) as Hlk.
  { intros p Hlt. destruct (lookup_lt_is_Some_2 cont p Hlt) as [cs Hcs].
    destruct (sys_lookup _ _ _ _ _ _ Hs Hcs) as (q&bs&?&?&?&?). by exists cs, q, bs. }
  pose proof (sys_free _ _ _ _ Hs) as Hf. pose proof Hf as (_&_&Hcnt).
  destruct op as [p|p cc|p cc|c p|xs p|p|from to]; cbn [op_ok] in Hok; cbn [exec spec_op];
    try (destruct (Hlk p Hok) as (cs&q&bs&Hcs&Hq&Hbs&Hh&Hnd)).
  - destruct (getc_spec s p q bs cs fs Hq Hh Hf Hnd) as (s'&Heq&Hmv).
    erewrite bind_done by done. eexists _, s', _. split_and!; [done|by eapply rep_moves|eauto].
  - destruct (q_to_b_spec s p q bs cs fs cc Hq Hh Hf Hnd) as (s'&Heq&Hmv).
    erewrite bind_done by done. eexists _, s', _. split_and!; [done|by eapply rep_moves|eauto].
  - destruct (ndflush_spec s p q bs cs fs cc Hq Hh Hf Hnd) as (s'&Heq&Hmv).
    erewrite bind_done by done. eexists _, s', _. split_and!; [done|by eapply rep_moves|eauto].
  - destruct (putc_spec s p q bs cs fs c Hq Hh Hf Hnd) as [(s'&Heq&Hmv)|(Heq&->)];
      erewrite bind_done by done.
    + eexists _, s', _. split_and!; [done|by eapply rep_moves|eauto 6].
    + eexists _, s, cont. split_and!; [done|by exists own, []|]. exists cs. split; [done|].
      right. rewrite Hcnt. done.
  - destruct (b_to_q_spec s p q bs cs fs xs (Z.of_nat (length xs)) Hq Hh Hf Hnd ltac:(lia))
      as (k&s'&Heq&Hmv&Hk1&Hk2). rewrite Nat2Z.id in *.
    erewrite bind_done by done. eexists _, s', _. split_and!; [done|by eapply rep_moves|].
    exists cs, k. split_and!; [done..|]. rewrite Hcnt. lia.
  - destruct (last cs) as [c|] eqn:E.
    + apply last_Some in E as [cs' ->].
      destruct (unputc_spec s p q bs cs' c fs Hq Hh Hf Hnd) as (s'&Heq&Hmv).
      erewrite bind_done by done. eexists _, s', _. split_and!; [done|by eapply rep_moves|].
      exists (cs' ++ [c]). rewrite last_snoc. split_and!; [done..|]. f_equal.
      rewrite length_app. simpl. rewrite Nat.add_1_r. simpl. by rewrite take_app_length.
    + apply last_None in E as ->. exists (RInt (-1)), s, cont.
      split_and!; [|by exists own, fs|by exists []].
      unfold unputc. rewrite bind_assoc. erewrite bind_done by (by apply getq_eq).
      rewrite (holds_cc _ _ _ _ Hh). done.
  - destruct Hok as (Hne&Hf1&Ht1).
    destruct (Hlk from Hf1) as (cf&qf&bf&Hcf&Hqf&Hbf&Hhf&_).
    destruct (Hlk to Ht1) as (ct&qt&bt&Hct&Hqt&Hbt&Hht&_).
    assert (∀ s1 own1 cont1 fs1, sys s1 own1 cont1 fs1 → concat own1 ++ fs1 ≡ₚ concat own ++ fs →
      rep blks s1 cont1) as Hrep by (intros s1 own1 cont1 fs1 ??; exists own1, fs1; split; [done|by etrans]).
    unfold catq. rewrite bind_assoc. erewrite bind_done by (by apply getq_eq).
    rewrite bind_assoc. erewrite bind_done by (by apply getq_eq).
    rewrite (holds_cc _ _ _ _ Hht). destruct (Z.eqb_spec (Z.of_nat (length ct)) 0).
    + destruct ct; [|simpl in *; lia]. rewrite bind_assoc.
      erewrite bind_done by (by apply setq_eq).
      assert (from < length (clists s))%nat by (by eapply lookup_lt_Some).
      erewrite bind_done by (eapply setq_eq; cbn; by rewrite list_lookup_insert_ne).
      destruct (catq_swap _ _ _ _ _ _ _ _ _ Hs Hne Hqf Hbf Hcf Hct) as (own'&Hs'&Hp').
      eexists _, _, _. split_and!; [done|by eapply Hrep|]. by exists cf, [].
    + destruct (catq_loop_spec (Z.to_nat (c_cc qf)) s own cont fs from to cf ct Hs Hne Hcf Hct)
        as (s'&own'&fs'&Heq&Hs'&Hp').
      { rewrite (holds_cc _ _ _ _ Hhf). lia. }
      erewrite bind_done by done. eexists _, _, _. split_and!; [done|by eapply Hrep|].
      by exists cf, ct.
Qed.

(** ** Start-up *)

Definition cblocks_from (cp : Z) (n : nat) : list Z := (λ k, cp + 32 * Z.of_nat k) <$> seq 0 n.

(** The blocks [cinit] finds: all [NCLIST] of [cfree] when it is aligned, one
    fewer when it is not. *)
Definition cblocks (cfree : Z) (NCLIST : nat) : list Z :=
  cblocks_from (base (cfree + CROUND)) (if cfree `mod` 32 =? 0 then NCLIST else pred NCLIST).

Lemma cblocks_from_S cp n : cblocks_from cp (S n) = cp :: cblocks_from (cp + 32) n.
Proof.
  unfold cblocks_from. rewrite <- cons_seq, <- fmap_S_seq, fmap_cons, <- list_fmap_compose.
  f_equal; [lia|]. apply list_fmap_ext. intros k x _. cbn. lia.
Qed.

Lemma cblocks_from_ge cp n b : b ∈ cblocks_from cp n → cp ≤ b.
Proof. intros (k&->&_)%list_elem_of_fmap. lia. Qed.

Lemma cinit_loop_spec fuel s cp n last fs :
  (n ≤ fuel)%nat → cp `mod` 32 = 0 → 0 < cp → last - 32 < cp + 32 * (Z.of_nat n - 1) ≤ last →
  free s fs → (∀ b, b ∈ fs → b < cp) →
  (∀ b, b ∈ cblocks_from cp n → ∃ nx d, cmem s !! b = Some (MkCb nx d) ∧ length d = 28%nat ∧ Forall byte d) →
  ∃ s', cinit_loop fuel cp last s = Done tt s' ∧ clists s' = clists s ∧
    ∃ fs', free s' fs' ∧ fs' ≡ₚ cblocks_from cp n ++ fs.
Proof.
  revert s cp n fs. induction fuel as [|fuel IH]; intros s cp n fs Hn Hal Hcp Hlast Hf Hlow Hb;
    cbn [cinit_loop].
  { assert (n = 0%nat) as -> by lia. destruct (Z.leb_spec cp last); [lia|].
    exists s. split_and!; [done|done|]. by exists fs. }
  destruct n as [|n].
  { destruct (Z.leb_spec cp last); [lia|]. exists s. split_and!; [done|done|]. by exists fs. }
  destruct (Z.leb_spec cp last); [|lia]. cbn [negb].
  rewrite cblocks_from_S in *.
  destruct (Hb cp ltac:(by left)) as (nx&d&Hm&Hd&Hby).
  destruct (putfree_eq s cp d nx fs Hf) as (s1&Heq&Hm1&Hl1&Hf1); [by split_and!|intros ?%Hlow; lia|].
  erewrite bind_done by done.
  destruct (IH s1 (cp + CBLOCK) n (cp :: fs)) as (s'&Heq'&Hl'&fs'&Hf'&Hp').
  - lia.
  - unfold CBLOCK. rewrite <- Z.add_mod_idemp_l, Hal by lia. done.
  - unfold CBLOCK. lia.
  - unfold CBLOCK. lia.
  - done.
  - intros b [->|Hin]%elem_of_cons; unfold CBLOCK; [lia|]. specialize (Hlow _ Hin). lia.
  - intros b Hin. rewrite Hm1. pose proof (cblocks_from_ge _ _ _ Hin). unfold CBLOCK in *.
    rewrite lookup_insert_ne by lia. apply Hb. by right.
  - exists s'. split; [done|]. split; [congruence|]. exists fs'. split; [done|].
    rewrite Hp'. symmetry. apply Permutation_middle.
Qed.

(** [cinit] puts every block it finds on the free list, counts them, and
    establishes the representation with all the queues empty. *)
Theorem cinit_establishes s cfree NCLIST :
  0 < cfree → (0 < NCLIST)%nat → cfreelist s = 0 → cfreecount s = 0 →
  Forall (eq (MkCl 0 0 0)) (clists s) →
  (∀ b, b ∈ cblocks cfree NCLIST → ∃ nx d, cmem s !! b = Some (MkCb nx d) ∧
    length d = 28%nat ∧ Forall byte d) →
  ∃ s', cinit cfree NCLIST s = Done tt s' ∧
    rep (cblocks cfree NCLIST) s' (replicate (length (clists s)) []) ∧
    cfreecount s' = 28 * Z.of_nat (length (cblocks cfree NCLIST)).
Proof.
  intros Hpos Hn Hfl Hcnt Hq Hb. unfold cinit, cblocks in *.
  set (n := if cfree `mod` 32 =? 0 then NCLIST else pred NCLIST) in *.
  assert (base (cfree + CROUND) `mod` 32 = 0 ∧ cfree ≤ base (cfree + CROUND) ∧
    cfree + CBLOCK * (Z.of_nat NCLIST - 1) - 32 <
      base (cfree + CROUND) + 32 * (Z.of_nat n - 1) ≤ cfree + CBLOCK * (Z.of_nat NCLIST - 1))
    as (Hal&Hge&Hlast).
  { rewrite base_spec. unfold CROUND, CBLOCK, n.
    pose proof (Z.mod_pos_bound cfree 32 ltac:(lia)).
    pose proof (Z.mod_pos_bound (cfree + (32 - 1)) 32 ltac:(lia)).
    pose proof (Z.div_mod cfree 32 ltac:(lia)). pose proof (Z.div_mod (cfree + (32 - 1)) 32 ltac:(lia)).
    split_and!.
    - replace (cfree + (32 - 1) - (cfree + (32 - 1)) `mod` 32) with ((cfree + (32 - 1)) / 32 * 32) by lia.
      apply Z.mod_mul. lia.
    - lia.
    - destruct (Z.eqb_spec (cfree `mod` 32) 0); lia.
    - destruct (Z.eqb_spec (cfree `mod` 32) 0); lia. }
  destruct (cinit_loop_spec NCLIST s _ n _ [] ltac:(unfold n; destruct (_ =? _); lia) Hal ltac:(lia) Hlast)
    as (s'&Heq&Hl&fs&Hf&Hp).
  - split_and!; [by exists []|done|by rewrite Hcnt].
  - by intros b Hin%elem_of_nil.
  - done.
  - rewrite app_nil_r in Hp. exists s'. split; [done|]. split.
    + exists (replicate (length (clists s)) []), fs.
      assert (concat (replicate (length (clists s)) (@nil Z)) = []) as Hc
        by (induction (length (clists s)); simpl; done).
      split; [|by rewrite Hc]. split; rewrite ?length_replicate, ?Hl; try done.
      * intros p q Hpq. pose proof (lookup_lt_Some _ _ _ Hpq). exists [], [].
        rewrite !lookup_replicate_2 by done. split_and!; [done..|]. left.
        split_and!; [done..|]. symmetry. by eapply Forall_lookup_1.
      * rewrite Hc. simpl. rewrite Hp. apply NoDup_fmap_2; [intros ???; lia|apply NoDup_seq].
    + destruct Hf as (_&_&->). by rewrite Hp.
Qed.
End contract.

(** on a port with signed [char], [unputc] returns a last character of
    0377 as -1, the value it returns for an empty queue, while [getc] tells
    them apart. *)
Theorem unputc_sign blks s cont p :
  rep (blks) s cont → cont !! p = Some [255] →
  (∃ s', unputc (H := pic32_cfg) p s = Done (-1) s' ∧ rep blks s' (<[p := []]> cont)) ∧
  (∃ s', unputc (H := gba_cfg) p s = Done 255 s' ∧ rep blks s' (<[p := []]> cont)) ∧
  (∃ s', getc p s = Done 255 s' ∧ rep blks s' (<[p := []]> cont)).
Proof.
  intros (own&fs&Hs&Hp) Hc. destruct (sys_lookup _ _ _ _ _ _ Hs Hc) as (q&bs&Hq&Hbs&Hh&Hnd).
  pose proof (sys_free _ _ _ _ Hs) as Hf. split_and!.
  - destruct (unputc_spec (H := pic32_cfg) s p q bs [] 255 fs Hq Hh Hf Hnd) as (s'&Heq&Hmv).
    exists s'. split; [done|by eapply rep_moves].
  - destruct (unputc_spec (H := gba_cfg) s p q bs [] 255 fs Hq Hh Hf Hnd) as (s'&Heq&Hmv).
    exists s'. split; [done|by eapply rep_moves].
  - destruct (getc_spec s p q bs [255] fs Hq Hh Hf Hnd) as (s'&Heq&Hmv).
    exists s'. split; [done|by eapply rep_moves].
Qed.

(** One queue and one block, free and in use. *)
Definition ex_free : cstate :=
  MkCs {[32 := MkCb 0 (replicate 28 0)]} 32 28 false 0 [MkCl 0 0 0].
Definition ex_used : cstate :=
  MkCs {[32 := MkCb 0 (255 :: replicate 27 0)]} 0 0 false 0 [MkCl 1 36 37].

Lemma ex_free_rep : rep [32] ex_free [[]].
Proof.
  exists [[]], [32]. split; [|done]. split; [done|done| | |apply NoDup_singleton].
  - intros [|p] q Hq; simplify_eq/=. exists [], []. split_and!; [done..|by left].
  - split_and!; [|done|done]. exists [replicate 28 0]. split; [|done].
    split_and!; [lia|done|done|done|]. by apply Forall_replicate.
Qed.

Lemma ex_used_rep : rep [32] ex_used [[255]].
Proof.
  exists [[32]], []. split; [|done]. split; [done|done| | |apply NoDup_singleton].
  - intros [|p] q Hq; simplify_eq/=. exists [32], [255]. split_and!; [done..|]. right.
    exists [255 :: replicate 27 0], 0%nat. split_and!; [|lia|done].
    split; try done; try (simpl; lia). split; [|done]. split_and!; [lia|done|done|done|].
    constructor; [done|]. by apply Forall_replicate.
  - split_and!; [by exists []|done|done].
Qed.

Lemma clist_refines_witness :
  (∃ r s' cont', exec (H := gba_cfg) (OPutc 65 0) ex_free = Done r s' ∧ rep [32] s' cont') ∧
  (∃ s', exec (H := gba_cfg) (OPutc 65 0) ex_free = Done (RInt 0) s' ∧ c_cc <$> clists s' = [1]).
Proof.
  split; [|by eexists].
  destruct (clist_refines (H := gba_cfg) [32] ex_free [[]] (OPutc 65 0) ex_free_rep)
    as (r&s'&cont'&?&?&_); [simpl; lia|]. by exists r, s', cont'.
Defined.

Lemma cinit_establishes_witness :
  ∃ s', cinit 32 2 (MkCs {[32 := MkCb 0 (replicate 28 0); 64 := MkCb 0 (replicate 28 0)]} 0 0 false 0
      [MkCl 0 0 0]) = Done tt s' ∧ rep [32; 64] s' [[]] ∧ cfreecount s' = 56.
Proof.
  destruct (cinit_establishes (MkCs {[32 := MkCb 0 (replicate 28 0); 64 := MkCb 0 (replicate 28 0)]} 0 0 false 0
      [MkCl 0 0 0]) 32 2) as (s'&?&?&?); [lia|lia|done|done|by repeat constructor| |by exists s'].
  intros b Hb. exists 0, (replicate 28 0).
  assert (b = 32 ∨ b = 64) as [-> | ->].
  { change (cblocks 32 2) with [32; 64] in Hb. rewrite !elem_of_cons, elem_of_nil in Hb. tauto. }
  all: split_and!; [reflexivity|reflexivity|by apply Forall_replicate].
Defined.

Lemma unputc_sign_witness :
  ∃ s', unputc (H := pic32_cfg) 0 ex_used = Done (-1) s' ∧ rep [32] s' [[]].
Proof.
  destruct (unputc_sign [32] ex_used [[255]] 0 ex_used_rep) as [(s'&?&?) _]; [reflexivity|].
  by exists s'.
Defined.
End Clist.
