(* ===== verification/Links.v ===== *)
(** Singly linked lists through a table of cells: what the kernel's queues
    (callouts, the process queues) have in common. A pointer is [None] or a
    slot number; [nxt] reads a cell's link field. *)
From S2P Require Import Prelude.

Section chain.
Context {V : Type} (nxt : V → option nat).
Implicit Types (m : gmap nat V) (h : option nat) (l : list nat).

(** Following the links from [h] spells [l] and ends at a null link. *)
Fixpoint chain m h l : Prop :=
  match l with
  | [] => h = None
  | n :: l' => h = Some n ∧ ∃ v, m !! n = Some v ∧ chain m (nxt v) l'
  end.

Lemma chain_det m h l1 l2 : chain m h l1 → chain m h l2 → l1 = l2.
Proof.
  revert h l2. induction l1 as [|a l1 IH]; intros h [|b l2]; simpl; intros H1 H2;
    [done|naive_solver|naive_solver|].
  destruct H1 as (-> & v & Hv & H1), H2 as ([= <-] & w & Hw & H2).
  simplify_eq. f_equal. eauto.
Qed.

Lemma chain_elem m h l n : chain m h l → n ∈ l → is_Some (m !! n).
Proof.
  revert h. induction l as [|a l IH]; intros h Hc Hn; [by apply elem_of_nil in Hn|].
  destruct Hc as (-> & v & Hv & Hc). apply elem_of_cons in Hn as [->|Hn]; eauto.
Qed.

(** A cell's own list is a suffix. *)
Lemma chain_drop m h l1 n l2 :
  chain m h (l1 ++ n :: l2) → ∃ v, m !! n = Some v ∧ chain m (nxt v) l2.
Proof.
  revert h. induction l1 as [|a l1 IH]; intros h Hc; simpl in Hc.
  - naive_solver.
  - destruct Hc as (-> & v & _ & Hc). eauto.
Qed.

Lemma chain_NoDup m h l : chain m h l → NoDup l.
Proof.
  revert h. induction l as [|a l IH]; intros h Hc; [constructor|].
  destruct Hc as (-> & v & Hv & Hc). constructor; [|eauto].
  intros Ha. apply list_elem_of_split in Ha as (l1 & l2 & ->).
  pose proof Hc as Hc'.
  apply chain_drop in Hc' as (v' & Hv' & Hc'). simplify_eq.
  pose proof (chain_det _ _ _ _ Hc Hc') as E.
  apply (f_equal length) in E. rewrite length_app in E. simpl in E. lia.
Qed.

Lemma chain_insert_ne m h l n v : n ∉ l → chain (<[n := v]> m) h l ↔ chain m h l.
Proof.
  revert h. induction l as [|a l IH]; intros h Hn; [done|].
  apply not_elem_of_cons in Hn as [Hna Hn]. simpl.
  rewrite lookup_insert_ne by done. split.
  - intros (-> & w & Hw & Hc). split; [done|]. exists w. split; [done|]. by apply IH.
  - intros (-> & w & Hw & Hc). split; [done|]. exists w. split; [done|]. by apply IH.
Qed.

Lemma chain_insert_nxt m h l n v v' :
  m !! n = Some v → nxt v' = nxt v → chain (<[n := v']> m) h l ↔ chain m h l.
Proof.
  intros Hv Hn. revert h. induction l as [|a l IH]; intros h; [done|]. simpl.
  destruct (decide (a = n)) as [->|Ha].
  - rewrite lookup_insert_eq. split.
    + intros (-> & w & [= <-] & Hc). split; [done|]. exists v. split; [done|].
      rewrite <- Hn. by apply IH.
    + intros (-> & w & Hw & Hc). simplify_eq. split; [done|]. exists v'.
      split; [done|]. rewrite Hn. by apply IH.
  - rewrite lookup_insert_ne by done. split.
    + intros (-> & w & Hw & Hc). split; [done|]. exists w. split; [done|]. by apply IH.
    + intros (-> & w & Hw & Hc). split; [done|]. exists w. split; [done|]. by apply IH.
Qed.

(** Redirect the link of one member. *)
Lemma chain_set_nxt m h l1 p v' l2 l2' :
  chain m h (l1 ++ p :: l2) → chain m (nxt v') l2' → p ∉ l2' →
  chain (<[p := v']> m) h (l1 ++ p :: l2').
Proof.
  intros Hc Hc' Hp. pose proof (chain_NoDup _ _ _ Hc) as Hnd.
  revert h Hc Hnd. induction l1 as [|a l1 IH]; intros h; simpl.
  - intros (-> & _) _. split; [done|]. exists v'. rewrite lookup_insert_eq.
    split; [done|]. by apply chain_insert_ne.
  - intros (-> & w & Hw & Hc) [Hna Hnd]%NoDup_cons. split; [done|]. exists w.
    rewrite lookup_insert_ne; [|set_solver]. split; [done|]. by apply IH.
Qed.

Lemma chain_length m h l : chain m h l → (length l ≤ size m)%nat.
Proof.
  intros Hc. rewrite <- size_dom, <- (size_list_to_set (C := gset nat) l) by eauto using chain_NoDup.
  apply subseteq_size. intros n Hn. apply elem_of_list_to_set in Hn.
  apply elem_of_dom. eauto using chain_elem.
Qed.

(** Tables that agree on the links spell the same lists. *)
Lemma chain_agree m m' h l :
  (∀ n, n ∈ l → nxt <$> m' !! n = nxt <$> m !! n) → chain m h l → chain m' h l.
Proof.
  revert h. induction l as [|a l IH]; intros h Hag Hc; [done|].
  destruct Hc as (-> & v & Hv & Hc). split; [done|].
  pose proof (Hag a ltac:(set_solver)) as E. rewrite Hv in E. simpl in E.
  destruct (m' !! a) as [v'|] eqn:Hv'; [|done]. injection E as E.
  exists v'. split; [done|]. rewrite E. apply IH; [|done]. intros n Hn. apply Hag. set_solver.
Qed.
End chain.

(** A concrete chain. *)
Ltac solve_chain :=
  repeat (split; [reflexivity|]; eexists; split; [reflexivity|]); reflexivity.
