(* ===== verification/Kernel.v ===== *)
(** The kernel's data: the user area, the process table and its queues, the
    callout table, clocks, descriptors, inodes and superblocks, and the user
    memory that copyin and copyout move (sys/user.h, proc.h, callout.h,
    kernel.h, file.h, inode.h, fs.h, mount.h, errno.h, param.h). *)
From S2P Require Import Prelude Buf Rmap.

(** * Constants *)

Definition EPERM : Z := 1.
Definition ESRCH : Z := 3.
Definition EINTR : Z := 4.
Definition EIO : Z := 5.
Definition EBADF : Z := 9.
Definition ENOMEM : Z := 12.
Definition EACCES : Z := 13.
Definition EFAULT : Z := 14.
Definition EBUSY : Z := 16.
Definition ENODEV : Z := 19.
Definition EISDIR : Z := 21.
Definition EINVAL : Z := 22.
Definition ENFILE : Z := 23.
Definition EMFILE : Z := 24.
Definition EFBIG : Z := 27.
Definition ENOSPC : Z := 28.
Definition EROFS : Z := 30.
Definition EWOULDBLOCK : Z := 35.
Definition EOPNOTSUPP : Z := 45.
Definition ERESTART : Z := -1.

Definition PSWP : Z := 0.
Definition PINOD : Z := 10.
Definition PRIBIO : Z := 20.
Definition PZERO : Z := 25.
Definition PPAUSE : Z := 40.
Definition PUSER : Z := 50.
Definition NZERO : Z := 0.
Definition PRIMASK : Z := 0xff.
Definition PCATCH : Z := 0x100.
Definition NOFILE : nat := 30.
Definition NGROUPS : nat := 16.
Definition NOGROUP : Z := 65535.
Definition NSIG : Z := 32.

Definition SSLEEP : Z := 1.
Definition SWAIT : Z := 2.
Definition SRUN : Z := 3.
Definition SIDL : Z := 4.
Definition SZOMB : Z := 5.
Definition SSTOP : Z := 6.

Definition SLOAD : Z := 0x0001.
Definition SSYS : Z := 0x0002.
Definition SSWAP : Z := 0x0008.
Definition P_TRACED : Z := 0x0010.
Definition P_WAITED : Z := 0x0020.
Definition P_SINTR : Z := 0x0080.
Definition SVFORK : Z := 0x0100.
Definition P_TIMEOUT : Z := 0x1000.
Definition P_NOCLDSTOP : Z := 0x2000.

(** * Data *)

Record timeval := MkTv { tv_sec : Z; tv_usec : Z }.
#[export] Instance timeval_fields : Fields timeval := λ t, MkTv (tv_sec t) (tv_usec t).
Record timezone := MkTz { tz_minuteswest : Z; tz_dsttime : Z }.
#[export] Instance timezone_fields : Fields timezone :=
  λ t, MkTz (tz_minuteswest t) (tz_dsttime t).
(** [struct k_itimerval]: one number each; [struct itimerval]: a timeval each. *)
Record k_itimerval := MkKit { it_interval : Z; it_value : Z }.
#[export] Instance k_itimerval_fields : Fields k_itimerval :=
  λ t, MkKit (it_interval t) (it_value t).
Record rlimit := MkRlim { rlim_cur : Z; rlim_max : Z }.
#[export] Instance rlimit_fields : Fields rlimit := λ r, MkRlim (rlim_cur r) (rlim_max r).
Record k_rusage := MkKru {
  ru_utime : Z; ru_stime : Z; ru_nswap : Z; ru_inblock : Z; ru_oublock : Z;
  ru_msgsnd : Z; ru_msgrcv : Z; ru_nsignals : Z; ru_nvcsw : Z; ru_nivcsw : Z;
}.
#[export] Instance k_rusage_fields : Fields k_rusage := λ r,
  MkKru (ru_utime r) (ru_stime r) (ru_nswap r) (ru_inblock r) (ru_oublock r)
    (ru_msgsnd r) (ru_msgrcv r) (ru_nsignals r) (ru_nvcsw r) (ru_nivcsw r).
Record uprof := MkUprof { pr_base : Z; pr_size : Z; pr_off : Z; pr_scale : Z }.
#[export] Instance uprof_fields : Fields uprof := λ r,
  MkUprof (pr_base r) (pr_size r) (pr_off r) (pr_scale r).
Record stack_t := MkStk { ss_base : Z; ss_size : Z; ss_flags : Z }.
#[export] Instance stack_fields : Fields stack_t := λ r,
  MkStk (ss_base r) (ss_size r) (ss_flags r).

(** What [p_prev] points at: a queue head or another slot's [p_nxt]. *)
Inductive pslot := AllProc | ZombProc | NxtOf (p : nat).

(** [struct proc] (the live half of its union); pointers into the process
    table are slot numbers. *)
Record proc := MkProc {
  p_nxt : option nat; p_prev : option pslot; p_pptr : option nat;
  p_flag : Z; p_uid : Z; p_pid : Z; p_ppid : Z; p_sig : Z; p_stat : Z;
  p_pri : Z; p_cpu : Z; p_time : Z; p_nice : Z; p_slptime : Z; p_ptracesig : Z;
  p_hash : option nat; p_sigmask : Z; p_sigignore : Z; p_sigcatch : Z;
  p_pgrp : Z; p_link : option nat; p_wchan : option wchan;
  p_realtimer : k_itimerval;
  p_addr : Z; p_daddr : Z; p_saddr : Z; p_dsize : Z; p_ssize : Z;
}.
#[export] Instance proc_fields : Fields proc := λ p,
  MkProc (p_nxt p) (p_prev p) (p_pptr p) (p_flag p) (p_uid p) (p_pid p) (p_ppid p)
    (p_sig p) (p_stat p) (p_pri p) (p_cpu p) (p_time p) (p_nice p) (p_slptime p)
    (p_ptracesig p) (p_hash p) (p_sigmask p) (p_sigignore p) (p_sigcatch p)
    (p_pgrp p) (p_link p) (p_wchan p) (p_realtimer p)
    (p_addr p) (p_daddr p) (p_saddr p) (p_dsize p) (p_ssize p).

(** [struct callout]: the functions the kernel passes to [timeout] are
    [schedcpu], [endtsleep] (argument: the process) and the drivers'. *)
Inductive cofun := Cschedcpu | Cendtsleep | Cdriver (n : Z).
#[export] Instance cofun_eq_dec : EqDecision cofun.
Proof. solve_decision. Defined.
Record callout := MkCo { c_time : Z; c_arg : Z; c_func : cofun; co_next : option nat }.
#[export] Instance callout_fields : Fields callout := λ c,
  MkCo (c_time c) (c_arg c) (c_func c) (co_next c).

(** [struct file]; [f_data] is an inode table slot. *)
Record file := MkFile {
  f_flag : Z; f_type : Z; f_count : Z; f_data : option nat; f_offset : Z;
}.
#[export] Instance file_fields : Fields file := λ f,
  MkFile (f_flag f) (f_type f) (f_count f) (f_data f) (f_offset f).

(** What the links of the inode hash chains ([i_forw], [i_back]) point at: an
    inode or a hash head; what [i_freeb] and [ifreet] point at: the head of the
    free list or an inode's [i_freef]. *)
Inductive iptr := InoP (n : nat) | IHead (h : nat).
#[export] Instance iptr_eq_dec : EqDecision iptr.
Proof. solve_decision. Defined.
Inductive islot := IFreeH | FreefOf (n : nat).
#[export] Instance islot_eq_dec : EqDecision islot.
Proof. solve_decision. Defined.

(** [struct inode]; [i_fs] is a mount table slot. The union [i_un3] overlays
    [i_lastr] (of a used inode) on the free list's links (of an unused one). *)
Record inode := MkInode {
  i_flag : Z; i_count : Z; i_dev : Z; i_number : Z; i_fs : nat;
  i_addr : list Z; i_mode : Z; i_nlink : Z; i_uid : Z; i_gid : Z;
  i_size : Z; i_flags : Z; i_atime : Z; i_mtime : Z; i_ctime : Z;
  i_forw : option iptr; i_back : option iptr; i_id : Z; i_lastr : Z;
  i_freef : option nat; i_freeb : option islot;
  i_shlockc : Z; i_exlockc : Z; i_rsel : option nat; i_wsel : option nat;
}.
#[export] Instance inode_fields : Fields inode := λ i,
  MkInode (i_flag i) (i_count i) (i_dev i) (i_number i) (i_fs i) (i_addr i) (i_mode i)
    (i_nlink i) (i_uid i) (i_gid i) (i_size i) (i_flags i) (i_atime i) (i_mtime i)
    (i_ctime i) (i_forw i) (i_back i) (i_id i) (i_lastr i) (i_freef i) (i_freeb i)
    (i_shlockc i) (i_exlockc i) (i_rsel i) (i_wsel i).

(** [struct fs], the in-core superblock; [fs_fsmnt] is kept as its 7 words. *)
Record fs := MkFs {
  fs_isize : Z; fs_fsize : Z; fs_nfree : Z; fs_free : list Z;
  fs_ninode : Z; fs_inode : list Z; fs_flock : Z; fs_fmod : Z; fs_ilock : Z;
  fs_ronly : Z; fs_time : Z; fs_tfree : Z; fs_tinode : Z;
  fs_lasti : Z; fs_nbehind : Z; fs_flags : Z;
  fs_magic1 : Z; fs_swapsz : Z; fs_fsmnt : list Z; fs_magic2 : Z;
}.
#[export] Instance fs_fields : Fields fs := λ f,
  MkFs (fs_isize f) (fs_fsize f) (fs_nfree f) (fs_free f) (fs_ninode f) (fs_inode f)
    (fs_flock f) (fs_fmod f) (fs_ilock f) (fs_ronly f) (fs_time f) (fs_tfree f)
    (fs_tinode f) (fs_lasti f) (fs_nbehind f) (fs_flags f)
    (fs_magic1 f) (fs_swapsz f) (fs_fsmnt f) (fs_magic2 f).
Record mount := MkMount { m_dev : Z; m_filsys : fs; m_inodp : option nat }.
#[export] Instance mount_fields : Fields mount := λ m,
  MkMount (m_dev m) (m_filsys m) (m_inodp m).

(** The name cache (sys/namei.h): what the links of its hash chains
    ([nc_forw], [nc_back]) point at, an entry or a chain's head, and what
    [nc_prev] and [nchtail] point at, the head of the LRU chain or an entry's
    [nc_nxt]. *)
Inductive ncptr := NcP (n : nat) | NcHead (h : nat).
#[export] Instance ncptr_eq_dec : EqDecision ncptr.
Proof. solve_decision. Defined.
Inductive ncslot := NchHead | NxtOfNc (n : nat).
#[export] Instance ncslot_eq_dec : EqDecision ncslot.
Proof. solve_decision. Defined.
Record namecache := MkNc {
  nc_forw : ncptr; nc_back : ncptr; nc_nxt : option nat; nc_prev : ncslot;
  nc_ip : option nat; nc_ino : Z; nc_dev : Z; nc_idev : Z; nc_id : Z;
  nc_nlen : Z; nc_name : list Z;
}.
#[export] Instance namecache_fields : Fields namecache := λ c,
  MkNc (nc_forw c) (nc_back c) (nc_nxt c) (nc_prev c) (nc_ip c) (nc_ino c) (nc_dev c)
    (nc_idev c) (nc_id c) (nc_nlen c) (nc_name c).
Record nchstat := MkNcs {
  ncs_goodhits : Z; ncs_badhits : Z; ncs_falsehits : Z; ncs_miss : Z; ncs_long : Z;
  ncs_pass2 : Z; ncs_2passes : Z;
}.
#[export] Instance nchstat_fields : Fields nchstat := λ c,
  MkNcs (ncs_goodhits c) (ncs_badhits c) (ncs_falsehits c) (ncs_miss c) (ncs_long c)
    (ncs_pass2 c) (ncs_2passes c).
(** [struct nameicache]: where the last lookup of the process ended. *)
Record nameicache := MkNi { ni_prevoffset : Z; ni_inumber : Z; ni_dev : Z }.
#[export] Instance nameicache_fields : Fields nameicache := λ c,
  MkNi (ni_prevoffset c) (ni_inumber c) (ni_dev c).

(** [struct user], the current process's user area. *)
Record user := MkUser {
  u_procp : nat; u_arg : list Z; u_rval : Z; u_error : Z;
  u_uid : Z; u_svuid : Z; u_ruid : Z; u_svgid : Z; u_rgid : Z; u_groups : list Z;
  u_signal : list Z; u_sigmask : list Z; u_sigonstack : Z; u_sigintr : Z;
  u_oldmask : Z; u_psflags : Z; u_sigstk : stack_t; u_sigtramp : Z;
  u_ofile : list (option nat); u_pofile : list Z; u_lastfile : Z;
  u_ru : k_rusage; u_cru : k_rusage; u_timer : list k_itimerval; u_dupfd : Z;
  u_prof : uprof; u_rlimit : list rlimit;
  u_cmask : Z; u_tsize : Z; u_dsize : Z; u_ssize : Z;
  u_cdir : option nat; u_rdir : option nat; u_ncache : nameicache;
}.
#[export] Instance user_fields : Fields user := λ r,
  MkUser (u_procp r) (u_arg r) (u_rval r) (u_error r) (u_uid r) (u_svuid r) (u_ruid r)
    (u_svgid r) (u_rgid r) (u_groups r) (u_signal r) (u_sigmask r) (u_sigonstack r)
    (u_sigintr r) (u_oldmask r) (u_psflags r) (u_sigstk r) (u_sigtramp r) (u_ofile r)
    (u_pofile r) (u_lastfile r) (u_ru r) (u_cru r) (u_timer r) (u_dupfd r) (u_prof r)
    (u_rlimit r) (u_cmask r) (u_tsize r) (u_dsize r) (u_ssize r) (u_cdir r) (u_rdir r)
    (u_ncache r).

(** The kernel's variables. [pidhash] and [slpque] hold the non-null heads;
    [umem] is user memory by byte address (0 where never written); [bstore] the
    buffer headers and the heads of their lists; [bufdata] the core blocks by
    address, as 32-bit words; [ihead] the heads of the inode hash chains;
    [nchash] the heads of the name cache's chains;
    [tdstart] and [tdsize] are static in dev/swap.c, [md_rootrw] and the
    memory disk's swap area in dev/md.c, [pipe_mp] in kern/sys_pipe.c; [u_rval2]
    is the register of the user's frame that carries a second result. *)
Record kstate := MkK {
  u : user;
  procs : gmap nat proc;
  allproc : option nat; zombproc : option nat; freeproc : option nat;
  qs : option nat;
  pidhash : gmap Z nat;
  slpque : gmap Z nat;
  runrun : Z; curpri : Z; runin : Z; runout : Z; noproc : Z;
  panicstr : bool;
  callouts : gmap nat callout;
  calltodo : option nat;
  callfree : option nat;
  time : timeval; boottime : timeval; tz : timezone;
  adjdelta : Z; lbolt : Z;
  cp_time : list Z;
  files : gmap nat file; lastf : option nat;
  inodes : gmap nat inode;
  mounts : list mount;
  umem : gmap Z Z;
  bstore : bufs;
  bufdata : gmap Z (list Z);
  ihead : gmap nat (iptr * iptr);
  ifreeh : option nat; ifreet : islot;
  nextinodeid : Z; rablock : Z; updlock : Z;
  swapmap : rmap; nswap : Z; tdstart : list Z; tdsize : list Z;
  md_rootrw : Z; md_swap : Z; md_swapend : Z;
  securelevel : Z; nselcoll : Z; pipedev : Z; pipe_mp : option nat; u_rval2 : Z;
  namecaches : gmap nat namecache; nchash : gmap nat (ncptr * ncptr);
  nchhead : option nat; nchtail : ncslot; nchstats : nchstat; dirchk : Z;
  rootdir : option nat;
}.
#[export] Instance kstate_fields : Fields kstate := λ s,
  MkK (u s) (procs s) (allproc s) (zombproc s) (freeproc s) (qs s) (pidhash s)
    (slpque s) (runrun s) (curpri s) (runin s) (runout s) (noproc s) (panicstr s)
    (callouts s) (calltodo s) (callfree s) (time s) (boottime s) (tz s) (adjdelta s)
    (lbolt s) (cp_time s) (files s) (lastf s) (inodes s) (mounts s) (umem s)
    (bstore s) (bufdata s) (ihead s) (ifreeh s) (ifreet s) (nextinodeid s) (rablock s)
    (updlock s) (swapmap s) (nswap s) (tdstart s) (tdsize s) (md_rootrw s) (md_swap s)
    (md_swapend s) (securelevel s) (nselcoll s) (pipedev s) (pipe_mp s) (u_rval2 s)
    (namecaches s) (nchash s) (nchhead s) (nchtail s) (nchstats s) (dirchk s) (rootdir s).

Notation K := (M kstate).

(** What the link editor and the boot code fix: the addresses of sleep
    channels, the bounds of user memory, and the table sizes. *)
Class KLayout := {
  addr_of : wchan → Z;
  user_data_start : Z;
  user_data_end : Z;
  NPROC : nat;
  NCALL : nat;
}.

(** Zero-filled memory: the user area and the variables before boot. *)
Definition stack0 : stack_t := MkStk 0 0 0.
Definition kru0 : k_rusage := MkKru 0 0 0 0 0 0 0 0 0 0.
Definition kit0 : k_itimerval := MkKit 0 0.
Definition proc0 : proc :=
  MkProc None None None 0 0 0 0 0 0 0 0 0 0 0 0 None 0 0 0 0 None None kit0
    0 0 0 0 0.
Definition user0 : user :=
  MkUser 0 (replicate 6 0) 0 0 0 0 0 0 0 (replicate NGROUPS 0) (replicate 32 0)
    (replicate 32 0) 0 0 0 0 stack0 0 (replicate NOFILE None) (replicate NOFILE 0) 0
    kru0 kru0 (replicate 2 kit0) 0 (MkUprof 0 0 0 0) (replicate 6 (MkRlim 0 0))
    0 0 0 0 None None (MkNi 0 0 0).
Definition kstate0 : kstate :=
  MkK user0 ∅ None None None None ∅ ∅ 0 0 0 0 0 false ∅ None None (MkTv 0 0) (MkTv 0 0)
    (MkTz 0 0) 0 0 (replicate 4 0) ∅ None ∅ [] ∅ ∅ ∅ ∅ None IFreeH 0 0 0
    (MkMap [] 0 []) 0 (replicate 3 0) (replicate 3 0) 0 0 0 0 0 0 None 0
    ∅ ∅ None NchHead (MkNcs 0 0 0 0 0 0 0) 0 None.

(** * Access *)

(** [p->...] for a process slot; reading a null or stray pointer faults. *)
Definition getp (p : nat) : K proc := s ← get_s; unless_none (procs s !! p).
Definition setp (p : nat) (f : proc → proc) : K unit :=
  r ← getp p; modify (λ s, s <| procs ::= <[p := f r]> |>).
Definition getco (c : nat) : K callout := s ← get_s; unless_none (callouts s !! c).
Definition setco (c : nat) (f : callout → callout) : K unit :=
  r ← getco c; modify (λ s, s <| callouts ::= <[c := f r]> |>).
Definition getfile (f : nat) : K file := s ← get_s; unless_none (files s !! f).
Definition setfile (f : nat) (g : file → file) : K unit :=
  r ← getfile f; modify (λ s, s <| files ::= <[f := g r]> |>).
Definition geti (i : nat) : K inode := s ← get_s; unless_none (inodes s !! i).
Definition seti (i : nat) (f : inode → inode) : K unit :=
  r ← geti i; modify (λ s, s <| inodes ::= <[i := f r]> |>).
Definition getm (m : nat) : K mount := s ← get_s; unless_none (mounts s !! m).
Definition setm (m : nat) (f : mount → mount) : K unit :=
  r ← getm m; modify (λ s, s <| mounts ::= <[m := f r]> |>).

Definition getnc (c : nat) : K namecache := s ← get_s; unless_none (namecaches s !! c).
Definition setnc (c : nat) (f : namecache → namecache) : K unit :=
  r ← getnc c; modify (λ s, s <| namecaches ::= <[c := f r]> |>).

(** [bp->...]. *)
Definition getbuf (b : bptr) : K buf := s ← get_s; unless_none (bstore s !! b).
Definition setbuf (b : bptr) (f : buf → buf) : K unit :=
  r ← getbuf b; modify (λ s, s <| bstore ::= <[b := f r]> |>).

(** The user area. *)
Definition getu {A} (f : user → A) : K A := gets (f ∘ u).
Definition setu (f : user → user) : K unit := modify (λ s, s <| u ::= f |>).
Definition set_error (e : Z) : K unit := setu (λ r, r <| u_error := e |>).
Definition set_rval (v : Z) : K unit := setu (λ r, r <| u_rval := v |>).
(** [uap->...]: the [n]th word of [u.u_arg]. *)
Definition uap (n : nat) : K Z := a ← getu u_arg; unless_none (a !! n).
Definition set_uap (n : nat) (v : Z) : K unit := setu (λ r, r <| u_arg ::= <[n := v]> |>).
Definition curproc : K proc := p ← getu u_procp; getp p.

(** * User memory *)

Section usermem.
Context `{KLayout}.

(** Is the address outside user memory? *)
Definition baduaddr (addr : Z) : bool :=
  negb ((user_data_start <=? addr) && (addr <? user_data_end)).

(** [bcopy] from and to user memory. *)
Fixpoint ubytes (m : gmap Z Z) (a : Z) (n : nat) : list Z :=
  match n with
  | O => []
  | S n => default 0 (m !! a) :: ubytes m (a + 1) n
  end.
Fixpoint ustore (m : gmap Z Z) (a : Z) (bs : list Z) : gmap Z Z :=
  match bs with
  | [] => m
  | b :: bs => ustore (<[a := b]> m) (a + 1) bs
  end.

(** A 32-bit word in memory, low byte first (every port is little-endian). *)
Definition word_bytes (w : Z) : list Z :=
  [u8 w; u8 (Z.shiftr w 8); u8 (Z.shiftr w 16); u8 (Z.shiftr w 24)].
Fixpoint bytes_words (bs : list Z) : list Z :=
  match bs with
  | b0 :: b1 :: b2 :: b3 :: bs =>
    i32 (b0 + 2 ^ 8 * b1 + 2 ^ 16 * b2 + 2 ^ 24 * b3) :: bytes_words bs
  | _ => []
  end.

Definition badrange (addr nbytes : Z) : bool :=
  baduaddr addr || baduaddr (u32 (addr + nbytes - 1)).

(** [copyout (from, to, nbytes)] and [copyin]: the error, and the bytes. *)
Definition copyout (bs : list Z) (to : Z) : K Z :=
  if badrange to (Z.of_nat (length bs)) then mret EFAULT
  else modify (λ s, s <| umem ::= λ m, ustore m to bs |>) ;; mret 0.
Definition copyin (from : Z) (nbytes : nat) : K (list Z + Z) :=
  if badrange from (Z.of_nat nbytes) then mret (inr EFAULT)
  else s ← get_s; mret (inl (ubytes (umem s) from nbytes)).

(** The same for structures made of [int]s and [long]s. *)
Definition copyout_words (ws : list Z) (to : Z) : K Z :=
  copyout (mbind word_bytes ws) to.
Definition copyin_words (from : Z) (n : nat) : K (list Z + Z) :=
  r ← copyin from (4 * n);
  mret (match r with inl bs => inl (bytes_words bs) | inr e => inr e end).
End usermem.

(** * Lemmas *)

Section access.
Implicit Types s : kstate.

Lemma getp_eq s p r : procs s !! p = Some r → getp p s = Done r s.
Proof. intros E. unfold getp. m_unfold. by rewrite E. Qed.
Lemma setp_eq s p f r :
  procs s !! p = Some r → setp p f s = Done tt (s <| procs ::= <[p := f r]> |>).
Proof. intros E. unfold setp. rewrite (bind_done _ _ _ _ _ (getp_eq _ _ _ E)). done. Qed.
Lemma getco_eq s c r : callouts s !! c = Some r → getco c s = Done r s.
Proof. intros E. unfold getco. m_unfold. by rewrite E. Qed.
Lemma setco_eq s c f r :
  callouts s !! c = Some r → setco c f s = Done tt (s <| callouts ::= <[c := f r]> |>).
Proof. intros E. unfold setco. rewrite (bind_done _ _ _ _ _ (getco_eq _ _ _ E)). done. Qed.
Lemma getfile_eq s f r : files s !! f = Some r → getfile f s = Done r s.
Proof. intros E. unfold getfile. m_unfold. by rewrite E. Qed.
Lemma setfile_eq s f g r :
  files s !! f = Some r → setfile f g s = Done tt (s <| files ::= <[f := g r]> |>).
Proof. intros E. unfold setfile. rewrite (bind_done _ _ _ _ _ (getfile_eq _ _ _ E)). done. Qed.
Lemma geti_eq s i r : inodes s !! i = Some r → geti i s = Done r s.
Proof. intros E. unfold geti. m_unfold. by rewrite E. Qed.
Lemma seti_eq s i f r :
  inodes s !! i = Some r → seti i f s = Done tt (s <| inodes ::= <[i := f r]> |>).
Proof. intros E. unfold seti. rewrite (bind_done _ _ _ _ _ (geti_eq _ _ _ E)). done. Qed.
Lemma getm_eq s m r : mounts s !! m = Some r → getm m s = Done r s.
Proof. intros E. unfold getm. m_unfold. by rewrite E. Qed.
Lemma setm_eq s m f r :
  mounts s !! m = Some r → setm m f s = Done tt (s <| mounts ::= <[m := f r]> |>).
Proof. intros E. unfold setm. rewrite (bind_done _ _ _ _ _ (getm_eq _ _ _ E)). done. Qed.
Lemma getnc_eq s c r : namecaches s !! c = Some r → getnc c s = Done r s.
Proof. intros E. unfold getnc. m_unfold. by rewrite E. Qed.
Lemma setnc_eq s c f r :
  namecaches s !! c = Some r → setnc c f s = Done tt (s <| namecaches ::= <[c := f r]> |>).
Proof. intros E. unfold setnc. rewrite (bind_done _ _ _ _ _ (getnc_eq _ _ _ E)). done. Qed.
Lemma getbuf_eq s b r : bstore s !! b = Some r → getbuf b s = Done r s.
Proof. intros E. unfold getbuf. m_unfold. by rewrite E. Qed.
Lemma setbuf_eq s b f r :
  bstore s !! b = Some r → setbuf b f s = Done tt (s <| bstore ::= <[b := f r]> |>).
Proof. intros E. unfold setbuf. rewrite (bind_done _ _ _ _ _ (getbuf_eq _ _ _ E)). done. Qed.
Lemma uap_eq s n v : u_arg (u s) !! n = Some v → uap n s = Done v s.
Proof. intros E. unfold uap, getu, gets. m_unfold. simpl. by rewrite E. Qed.
Lemma curproc_eq s r : procs s !! u_procp (u s) = Some r → curproc s = Done r s.
Proof. intros E. unfold curproc, getu, gets. m_unfold. unfold getp. m_unfold. simpl. by rewrite E. Qed.
Lemma getu_eq {A} (f : user → A) s : getu f s = Done (f (u s)) s.
Proof. done. Qed.
Lemma setu_eq f s : setu f s = Done tt (s <| u ::= f |>).
Proof. done. Qed.
Lemma set_error_eq e s : set_error e s = Done tt (s <| u ::= λ r, r <| u_error := e |> |>).
Proof. done. Qed.
Lemma set_rval_eq e s : set_rval e s = Done tt (s <| u ::= λ r, r <| u_rval := e |> |>).
Proof. done. Qed.
End access.

(** Run one access, or any step an equation in the context decides. *)
Ltac kstep :=
  first
    [ rewrite (bind_done _ _ _ _ _ (get_s_eq _))
    | rewrite (bind_done _ _ _ _ _ (gets_eq _ _))
    | rewrite (bind_done _ _ _ _ _ (getu_eq _ _))
    | rewrite (bind_done _ _ _ _ _ (setu_eq _ _))
    | rewrite (bind_done _ _ _ _ _ (set_error_eq _ _))
    | rewrite (bind_done _ _ _ _ _ (set_rval_eq _ _))
    | rewrite (bind_done _ _ _ _ _ (modify_eq _ _))
    | rewrite (bind_done _ _ _ _ _ (mret_eq _ _))
    | match goal with E : ?m ?s = Done _ _ |- context [(?m ≫= _) ?s] =>
        rewrite (bind_done _ _ _ _ _ E) end
    | match goal with |- context [(uap ?n ≫= _) ?s] =>
        let H := fresh in
        eassert (H : u_arg (u s) !! n = Some _)
          by (simpl; first [reflexivity | match goal with E : u_arg _ = _ |- _ => rewrite E end; reflexivity]);
        rewrite (bind_done _ _ _ _ _ (uap_eq _ _ _ H)); clear H end
    | match goal with |- context [(getp ?p ≫= _) ?s] =>
        let H := fresh in
        eassert (H : procs s !! p = Some _) by (simpl; first [eassumption | rewrite lookup_insert_eq; reflexivity]);
        rewrite (bind_done _ _ _ _ _ (getp_eq _ _ _ H)); clear H end
    | match goal with |- context [(setp ?p _ ≫= _) ?s] =>
        let H := fresh in
        eassert (H : procs s !! p = Some _) by (simpl; first [eassumption | rewrite lookup_insert_eq; reflexivity]);
        rewrite (bind_done _ _ _ _ _ (setp_eq _ _ _ _ H)); clear H end
    | match goal with |- context [(curproc ≫= _) ?s] =>
        let H := fresh in
        eassert (H : procs s !! u_procp (u s) = Some _) by (simpl; first [eassumption | rewrite lookup_insert_eq; reflexivity]);
        rewrite (bind_done _ _ _ _ _ (curproc_eq _ _ H)); clear H end
    | rewrite bind_assoc ];
  cbv beta iota.
(** Run until a step needs a lemma, deciding tests on constants. *)
Ltac ksteps := repeat (kstep; cbn [Z.eqb negb]).

Section usermem_lemmas.
Context `{KLayout}.

Lemma ustore_ne m a bs b : b < a ∨ a + Z.of_nat (length bs) ≤ b → ustore m a bs !! b = m !! b.
Proof.
  revert m a. induction bs as [|x bs IH]; intros m a Hb; [done|]. simpl in *.
  rewrite IH by lia. by rewrite lookup_insert_ne by lia.
Qed.

(** What [copyout] stores, [copyin] reads back. *)
Lemma ubytes_ustore m a bs : ubytes (ustore m a bs) a (length bs) = bs.
Proof.
  revert m a. induction bs as [|x bs IH]; intros m a; [done|]. simpl. rewrite IH.
  f_equal. rewrite ustore_ne by lia. by rewrite lookup_insert_eq.
Qed.

Lemma length_ubytes m a n : length (ubytes m a n) = n.
Proof. revert a. induction n; intros; simpl; auto. Qed.

Lemma u8_shift_sum w :
  u8 w + 2 ^ 8 * u8 (Z.shiftr w 8) + 2 ^ 16 * u8 (Z.shiftr w 16) +
    2 ^ 24 * u8 (Z.shiftr w 24) = u32 w.
Proof.
  unfold u8, u32. rewrite !Z.shiftr_div_pow2 by lia.
  pose proof (Z.div_mod w (2 ^ 8)). pose proof (Z.div_mod (w / 2 ^ 8) (2 ^ 8)).
  pose proof (Z.div_mod (w / 2 ^ 16) (2 ^ 8)). pose proof (Z.div_mod (w / 2 ^ 24) (2 ^ 8)).
  pose proof (Z.div_mod w (2 ^ 32)).
  rewrite !Zdiv_Zdiv in * by lia. change (2 ^ 8 * 2 ^ 8) with (2 ^ 16) in *.
  change (2 ^ 16 * 2 ^ 8) with (2 ^ 24) in *. change (2 ^ 24 * 2 ^ 8) with (2 ^ 32) in *.
  lia.
Qed.

Lemma i32_u32 w : i32 (u32 w) = i32 w.
Proof. unfold i32, u32. by rewrite Zplus_mod_idemp_l. Qed.

Lemma bytes_words_bytes w bs : bytes_words (word_bytes w ++ bs) = i32 w :: bytes_words bs.
Proof.
  unfold word_bytes. cbn [bytes_words app]. by rewrite u8_shift_sum, i32_u32.
Qed.

Lemma bytes_words_all ws : bytes_words (mbind word_bytes ws) = i32 <$> ws.
Proof.
  induction ws as [|w ws IH]; [done|]. cbn [mbind list_bind fmap list_fmap].
  by rewrite bytes_words_bytes, IH.
Qed.

Lemma length_words ws : length (mbind word_bytes ws) = (4 * length ws)%nat.
Proof. induction ws as [|w ws IH]; [done|]. cbn [mbind list_bind length]. rewrite length_app, IH. simpl. lia. Qed.

Lemma copyout_words_ok ws to s :
  badrange to (4 * Z.of_nat (length ws)) = false →
  copyout_words ws to s =
    Done 0 (s <| umem ::= λ m, ustore m to (mbind word_bytes ws) |>).
Proof.
  intros Hb. unfold copyout_words, copyout. rewrite length_words.
  replace (Z.of_nat (4 * length ws)) with (4 * Z.of_nat (length ws)) by lia.
  by rewrite Hb.
Qed.
Lemma copyout_words_bad ws to s :
  badrange to (4 * Z.of_nat (length ws)) = true → copyout_words ws to s = Done EFAULT s.
Proof.
  intros Hb. unfold copyout_words, copyout. rewrite length_words.
  replace (Z.of_nat (4 * length ws)) with (4 * Z.of_nat (length ws)) by lia.
  by rewrite Hb.
Qed.
Lemma copyin_words_ok from n s :
  badrange from (4 * Z.of_nat n) = false →
  copyin_words from n s = Done (inl (bytes_words (ubytes (umem s) from (4 * n)))) s.
Proof.
  intros Hb. unfold copyin_words, copyin.
  replace (Z.of_nat (4 * n)) with (4 * Z.of_nat n) by lia. rewrite Hb. done.
Qed.
Lemma copyin_words_bad from n s :
  badrange from (4 * Z.of_nat n) = true → copyin_words from n s = Done (inr EFAULT) s.
Proof.
  intros Hb. unfold copyin_words, copyin.
  replace (Z.of_nat (4 * n)) with (4 * Z.of_nat n) by lia. rewrite Hb. done.
Qed.
Lemma length_bytes_words m a n : length (bytes_words (ubytes m a (4 * n))) = n.
Proof.
  revert a. induction n as [|n IH]; intros a; [done|].
  replace (4 * S n)%nat with (S (S (S (S (4 * n))))) by lia.
  cbn [ubytes bytes_words length]. by rewrite IH.
Qed.
Lemma uwords_ustore m a ws :
  bytes_words (ubytes (ustore m a (mbind word_bytes ws)) a (4 * length ws)) = i32 <$> ws.
Proof. by rewrite <- length_words, ubytes_ustore, bytes_words_all. Qed.
End usermem_lemmas.
