(* ===== verification/Callout.v ===== *)
(** The callout table (kern/kern_clock.c, sys/callout.h): functions to call
    some clock ticks from now, in a list whose times are differences. *)
From stdpp Require Import sorting.
From S2P Require Import Prelude Buf Kernel Links.

Module Callout.
Section callout.
Context `{KConfig} `{KLayout}.

(** [p1->c_next], where [p1] is [&calltodo] ([None]) or a callout. *)
Definition get_next (p1 : option nat) : K (option nat) :=
  match p1 with
  | None => gets calltodo
  | Some c => r ← getco c; mret (co_next r)
  end.
Definition set_next (p1 : option nat) (v : option nat) : K unit :=
  match p1 with
  | None => modify (λ s, s <| calltodo := v |>)
  | Some c => setco c (λ r, r <| co_next := v |>)
  end.

(** The table is zeroed, and linked from the first slot to the last. *)
Definition coutinit : K unit :=
  modify (λ s, s <| callfree := Some 0%nat |>) ;;
  foldl (λ m i, m ;; setco (i - 1) (λ r, r <| co_next := Some i |>)) (mret tt)
    (seq 1 (NCALL - 1)).

(** The search of [timeout]: [p1], [p2] and what is left of [t]. *)
Fixpoint timeout_scan (fuel : nat) (p1 : option nat) (t : Z) :
    K (option nat * option nat * Z) :=
  p2 ← get_next p1;
  match p2 with
  | None => mret (p1, None, t)
  | Some c2 =>
    r ← getco c2;
    if c_time r <? t then
      match fuel with
      | O => nofuel
      | S fuel => timeout_scan fuel (Some c2) (if 0 <? c_time r then t - c_time r else t)
      end
    else mret (p1, Some c2, t)
  end.

Definition timeout (fun_ : cofun) (arg : Z) (t : Z) : K unit :=
  let t := if t <=? 0 then 1 else t in
  s ← get_s;
  match callfree s with
  | None => panic "timeout table overflow"
  | Some pnew =>
    r ← getco pnew;
    modify (λ s, s <| callfree := co_next r |>) ;;
    setco pnew (λ r, r <| c_arg := arg |> <| c_func := fun_ |>) ;;
    '(p1, p2, t) ← timeout_scan (size (callouts s)) None t;
    set_next p1 (Some pnew) ;;
    setco pnew (λ r, r <| co_next := p2 |> <| c_time := t |>) ;;
    match p2 with
    | Some c2 => setco c2 (λ r, r <| c_time ::= λ z, z - t |>)
    | None => mret tt
    end
  end.

(** The removal in [untimeout] of [p2], which [p1] leads to... *)
Definition untimeout_remove (p1 : option nat) (c2 : nat) : K unit :=
  r ← getco c2;
  match co_next r with
  | Some c3 => when (0 <? c_time r) (setco c3 (λ q, q <| c_time ::= Z.add (c_time r) |>))
  | None => mret tt
  end ;;
  set_next p1 (co_next r) ;;
  s ← get_s;
  setco c2 (λ r, r <| co_next := callfree s |>) ;;
  modify (λ s, s <| callfree := Some c2 |>).

(** ... and its search. *)
Fixpoint untimeout_scan (fuel : nat) (fun_ : cofun) (arg : Z) (p1 : option nat) : K unit :=
  p2 ← get_next p1;
  match p2 with
  | None => mret tt
  | Some c2 =>
    r ← getco c2;
    if bool_decide (c_func r = fun_) && (c_arg r =? arg) then untimeout_remove p1 c2
    else
      match fuel with
      | O => nofuel
      | S fuel => untimeout_scan fuel fun_ arg (Some c2)
      end
  end.

Definition untimeout (fun_ : cofun) (arg : Z) : K unit :=
  s ← get_s; untimeout_scan (size (callouts s)) fun_ arg None.

(** The loop of [hardclock] over the callouts: tick the list, and return
    [needsoft]. *)
Fixpoint tick_scan (fuel : nat) (p1 : option nat) (needsoft : bool) : K bool :=
  match p1 with
  | None => mret needsoft
  | Some c =>
    setco c (λ r, r <| c_time ::= Z.pred |>) ;;
    r ← getco c;
    if 0 <? c_time r then mret needsoft
    else if c_time r =? 0 then mret true
    else
      match fuel with
      | O => nofuel
      | S fuel => tick_scan fuel (co_next r) true
      end
  end.

Definition hardclock_callouts : K bool :=
  s ← get_s; tick_scan (size (callouts s)) (calltodo s) false.

(** The loop of [softclock]: take the callouts that are due off the list, and
    call them. [call] is [( *func)(arg)]. *)
Fixpoint softclock_loop (call : cofun → Z → K unit) (fuel : nat) : K unit :=
  s ← get_s;
  match calltodo s with
  | None => mret tt
  | Some p1 =>
    r ← getco p1;
    if 0 <? c_time r then mret tt
    else
      match fuel with
      | O => nofuel
      | S fuel =>
        modify (λ s, s <| calltodo := co_next r |>) ;;
        setco p1 (λ r, r <| co_next := callfree s |>) ;;
        modify (λ s, s <| callfree := Some p1 |>) ;;
        call (c_func r) (c_arg r) ;;
        softclock_loop call fuel
      end
  end.

(** * What the list means

    The agenda: each pending call with the number of ticks until it is due. *)

Definition entry : Type := Z * (cofun * Z).
Definition time_of (m : gmap nat callout) (n : nat) : Z := from_option c_time 0 (m !! n).
Definition call_of (m : gmap nat callout) (n : nat) : cofun * Z :=
  from_option (λ r, (c_func r, c_arg r)) (Cschedcpu, 0) (m !! n).

Fixpoint total (m : gmap nat callout) (acc : Z) (l : list nat) : Z :=
  match l with [] => acc | n :: l => total m (acc + Z.max 0 (time_of m n)) l end.
Fixpoint agenda (m : gmap nat callout) (acc : Z) (l : list nat) : list entry :=
  match l with
  | [] => []
  | n :: l =>
    let due := acc + Z.max 0 (time_of m n) in (due, call_of m n) :: agenda m due l
  end.

(** The well-formed tables: the pending list [lt] and the free list [lf] share
    no slot, and overdue callouts come first. *)
Definition overdue_first (ts : list Z) : Prop :=
  StronglySorted (λ t1 t2, 0 < t1 → 0 <= t2) ts.
Record co_inv (s : kstate) (lt lf : list nat) : Prop := {
  co_todo : chain co_next (callouts s) (calltodo s) lt;
  co_free : chain co_next (callouts s) (callfree s) lf;
  co_disj : ∀ n, n ∈ lt → n ∉ lf;
  co_times : overdue_first (time_of (callouts s) <$> lt);
}.
Definition pending (s : kstate) (lt : list nat) : list entry := agenda (callouts s) 0 lt.

(** The specification: a call due in [t] ticks goes before the first that is
    not due sooner; removal takes the first match; a tick counts every call
    down to zero. *)
Fixpoint sched (e : entry) (l : list entry) : list entry :=
  match l with
  | [] => [e]
  | x :: l' => if x.1 <? e.1 then x :: sched e l' else e :: x :: l'
  end.
Fixpoint unsched (c : cofun * Z) (l : list entry) : list entry :=
  match l with
  | [] => []
  | x :: l' => if bool_decide (x.2 = c) then l' else x :: unsched c l'
  end.
Definition tick (e : entry) : entry := (Z.max 0 (e.1 - 1), e.2).

(** * Agendas *)

Lemma time_of_eq m n r : m !! n = Some r → time_of m n = c_time r.
Proof. unfold time_of. by intros ->. Qed.
Lemma time_of_ne m n k r : n ≠ k → time_of (<[k := r]> m) n = time_of m n.
Proof. intros. unfold time_of. by rewrite lookup_insert_ne. Qed.
Lemma time_of_insert m n r : time_of (<[n := r]> m) n = c_time r.
Proof. unfold time_of. by rewrite lookup_insert_eq. Qed.
Lemma call_of_insert m n r : call_of (<[n := r]> m) n = (c_func r, c_arg r).
Proof. unfold call_of. by rewrite lookup_insert_eq. Qed.

Lemma agenda_app m acc l1 l2 :
  agenda m acc (l1 ++ l2) = agenda m acc l1 ++ agenda m (total m acc l1) l2.
Proof. revert acc. induction l1 as [|n l1 IH]; intros acc; simpl; [done|]. by rewrite IH. Qed.

(** The agenda reads only the members' times and calls. *)
Lemma agenda_ext m m' acc l :
  (∀ n, n ∈ l → time_of m' n = time_of m n ∧ call_of m' n = call_of m n) →
  agenda m' acc l = agenda m acc l ∧ total m' acc l = total m acc l.
Proof.
  revert acc. induction l as [|n l IH]; intros acc Hl; [done|]. simpl.
  destruct (Hl n) as [-> ->]; [set_solver|].
  destruct (IH (acc + Z.max 0 (time_of m n))) as [-> ->]; [set_solver|done].
Qed.

Lemma agenda_ge m acc l : Forall (λ e, acc <= e.1) (agenda m acc l).
Proof.
  revert acc. induction l as [|n l IH]; intros acc; simpl; constructor; simpl; [lia|].
  eapply Forall_impl; [apply IH|]. simpl. lia.
Qed.
Lemma total_ge m acc l : acc <= total m acc l.
Proof. revert acc. induction l as [|n l IH]; intros acc; simpl; [lia|]. etrans; [|apply IH]. lia. Qed.

Lemma total_shift m acc l : total m acc l = acc + total m 0 l.
Proof.
  revert acc. induction l as [|x l IH]; intros acc; cbn [total]; [lia|].
  rewrite IH, (IH (0 + _)). lia.
Qed.
Lemma agenda_shift m acc d l :
  agenda m (acc + d) l = (λ e, (e.1 + d, e.2)) <$> agenda m acc l.
Proof.
  revert acc. induction l as [|n l IH]; intros acc; simpl; [done|].
  rewrite <- IH. f_equal; [f_equal; lia|f_equal; lia].
Qed.

Lemma fmap_time_ext m m' (l : list nat) :
  (∀ n, n ∈ l → time_of m' n = time_of m n) → time_of m' <$> l = time_of m <$> l.
Proof. intros Hl. apply list_fmap_ext. intros i n Hn. apply Hl. by eapply list_elem_of_lookup_2. Qed.

Lemma sched_app e l1 l2 :
  Forall (λ x, x.1 < e.1) l1 → (∀ x, head l2 = Some x → e.1 <= x.1) →
  sched e (l1 ++ l2) = l1 ++ e :: l2.
Proof.
  intros H1 H2. induction H1 as [|x l1 Hx _ IH]; simpl.
  - destruct l2 as [|y l2]; [done|]. simpl.
    replace (y.1 <? e.1) with false; [done|].
    symmetry. apply Z.ltb_ge. by apply H2.
  - replace (x.1 <? e.1) with true; [|symmetry; by apply Z.ltb_lt]. by rewrite IH.
Qed.

Lemma unsched_app c l1 x l2 :
  Forall (λ y, y.2 ≠ c) l1 → x.2 = c → unsched c (l1 ++ x :: l2) = l1 ++ l2.
Proof.
  intros H1 Hx. induction H1 as [|y l1 Hy _ IH]; simpl.
  - by rewrite bool_decide_true.
  - rewrite bool_decide_false by done. by rewrite IH.
Qed.
Lemma unsched_none c l : Forall (λ y, y.2 ≠ c) l → unsched c l = l.
Proof.
  induction 1 as [|y l Hy _ IH]; simpl; [done|]. rewrite bool_decide_false by done. by rewrite IH.
Qed.

(** * Walking the list *)

Lemma get_next_eq s l1 l2 :
  chain co_next (callouts s) (calltodo s) (l1 ++ l2) →
  get_next (last l1) s = Done (head l2) s.
Proof.
  intros Hc. destruct l1 as [|n l1 _] using rev_ind; simpl in *.
  - destruct l2; simpl in Hc; unfold gets; [by rewrite Hc|]. by destruct Hc as [-> _].
  - rewrite last_snoc. simpl. rewrite <- app_assoc in Hc.
    apply chain_drop in Hc as (r & Hr & Hc).
    mstep (getco_eq _ _ _ Hr). rewrite mret_eq. f_equal.
    destruct l2; [done|]. by destruct Hc as [-> _].
Qed.

Lemma timeout_scan_spec s fuel l1 l2 t :
  chain co_next (callouts s) (calltodo s) (l1 ++ l2) → 0 < t → (length l2 <= fuel)%nat →
  ∃ l3 l4 t', l2 = l3 ++ l4 ∧ 0 < t' ∧ t = total (callouts s) 0 l3 + t' ∧
    timeout_scan fuel (last l1) t s = Done (last (l1 ++ l3), head l4, t') s ∧
    Forall (λ e, e.1 < t) (agenda (callouts s) 0 l3) ∧
    (∀ n, head l4 = Some n → t' <= time_of (callouts s) n).
Proof.
  revert l1 l2 t. induction fuel as [|fuel IH]; intros l1 l2 t Hc Ht Hf.
  { destruct l2; simpl in Hf; [|lia]. pose proof (get_next_eq s l1 [] Hc) as E0.
    exists [], [], t. rewrite !app_nil_r.
    split_and!; [done|done|simpl; lia| |constructor|by intros ? [=]].
    simpl. mstep E0. done. }
  destruct l2 as [|n l2].
  { pose proof (get_next_eq s l1 [] Hc) as E0.
    exists [], [], t. rewrite !app_nil_r.
    split_and!; [done|done|simpl; lia| |constructor|by intros ? [=]].
    simpl. mstep E0. done. }
  destruct (chain_drop _ _ _ _ _ _ Hc) as (r & Hr & Hc').
  pose proof (time_of_eq _ _ _ Hr) as Htr.
  assert (E : ∀ k, timeout_scan (S fuel) (last l1) t s = k →
    (if c_time r <? t then timeout_scan fuel (Some n) (if 0 <? c_time r then t - c_time r else t)
     else mret (last l1, Some n, t)) s = k).
  { intros k <-. cbn [timeout_scan].
    rewrite (bind_done _ _ _ _ _ (get_next_eq s l1 (n :: l2) Hc)). cbn [head].
    by rewrite (bind_done _ _ _ _ _ (getco_eq _ _ _ Hr)). }
  specialize (E _ eq_refl).
  destruct (Z.ltb_spec (c_time r) t) as [Hlt|Hge].
  - assert (Hc2 : chain co_next (callouts s) (calltodo s) ((l1 ++ [n]) ++ l2)).
    { by rewrite <- app_assoc. }
    assert (Ht2 : 0 < t - Z.max 0 (c_time r)) by lia.
    destruct (IH _ _ _ Hc2 Ht2 ltac:(simpl in Hf; lia)) as (l3 & l4 & t' & -> & Ht' & Hsum & E' & Hl3 & Hl4).
    exists (n :: l3), l4, t'. split_and!; [done|done| | | |done].
    + simpl. rewrite Htr.
      replace (0 + Z.max 0 (c_time r)) with (Z.max 0 (c_time r)) by lia.
      rewrite total_shift. lia.
    + rewrite <- E. rewrite last_snoc in E'. rewrite <- app_assoc in E'. simpl in E'.
      rewrite <- E'. f_equal. destruct (Z.ltb_spec 0 (c_time r)); f_equal; lia.
    + simpl. rewrite Htr. constructor; simpl; [lia|].
      replace (0 + Z.max 0 (c_time r)) with (0 + Z.max 0 (c_time r)) by lia.
      rewrite agenda_shift. apply Forall_fmap. eapply Forall_impl; [exact Hl3|].
      simpl. lia.
  - exists [], (n :: l2), t. rewrite app_nil_r.
    split_and!; [done|done|simpl; lia|by rewrite <- E|constructor|].
    intros n' [= <-]. lia.
Qed.

(** Only the callout table changed. *)
Definition co_frame (s s' : kstate) : Prop :=
  s' = s <| callouts := callouts s' |> <| calltodo := calltodo s' |>
         <| callfree := callfree s' |>.

Lemma co_frame_trans s1 s2 s3 : co_frame s1 s2 → co_frame s2 s3 → co_frame s1 s3.
Proof. unfold co_frame. intros H1 H2. rewrite H2. rewrite H1. by destruct s1. Qed.

(** Write the link that leads past [l1]. *)
Lemma set_next_spec s l1 l2 l2' v :
  chain co_next (callouts s) (calltodo s) (l1 ++ l2) →
  chain co_next (callouts s) v l2' → (∀ k, k ∈ l1 → k ∉ l2') →
  ∃ s', set_next (last l1) v s = Done tt s' ∧ co_frame s s' ∧ callfree s' = callfree s ∧
    chain co_next (callouts s') (calltodo s') (l1 ++ l2') ∧
    (∀ k, time_of (callouts s') k = time_of (callouts s) k ∧
          call_of (callouts s') k = call_of (callouts s) k) ∧
    (∀ k, k ∉ l1 → callouts s' !! k = callouts s !! k).
Proof.
  intros Hc Hv Hd. destruct l1 as [|p l1 _] using rev_ind.
  - eexists. split; [done|]. by split_and!.
  - rewrite last_snoc. rewrite <- app_assoc in Hc. simpl in Hc.
    destruct (chain_drop _ _ _ _ _ _ Hc) as (r & Hr & Hc').
    eexists. split; [by apply setco_eq|]. split; [done|]. split; [done|].
    split; [|split].
    + rewrite <- app_assoc. simpl. eapply chain_set_nxt; [exact Hc|exact Hv|set_solver].
    + intros k. simpl. destruct (decide (k = p)) as [->|Hk].
      * rewrite time_of_insert, call_of_insert. unfold time_of, call_of. by rewrite Hr.
      * unfold time_of, call_of. by rewrite lookup_insert_ne by done.
    + intros k Hk. simpl. apply lookup_insert_ne. set_solver.
Qed.

Lemma time_call_ne m n r k :
  k ≠ n → time_of (<[n := r]> m) k = time_of m k ∧ call_of (<[n := r]> m) k = call_of m k.
Proof. intros. unfold time_of, call_of. by rewrite lookup_insert_ne. Qed.

Lemma chain_suffix s l1 l2 :
  chain co_next (callouts s) (calltodo s) (l1 ++ l2) → chain co_next (callouts s) (head l2) l2.
Proof.
  intros Hc. destruct l1 as [|p l1 _] using rev_ind.
  - destruct l2; simpl in *; [done|]. by destruct Hc as [_ ?].
  - rewrite <- app_assoc in Hc. apply chain_drop in Hc as (r & Hr & Hc).
    destruct l2; simpl in *; [done|]. by destruct Hc as [_ ?].
Qed.

Lemma chain_same m m' h l :
  (∀ n, n ∈ l → m' !! n = m !! n) → chain co_next m h l → chain co_next m' h l.
Proof. intros Hl. apply chain_agree. intros n Hn. by rewrite Hl. Qed.

(** Link a fresh cell in after [l1], and set its time; [rest] is what its
    stale link still leads to. *)
Lemma link_in s l1 l2 rest n t :
  chain co_next (callouts s) (calltodo s) (l1 ++ l2) →
  chain co_next (callouts s) (Some n) (n :: rest) →
  (∀ k, k ∈ l1 ++ l2 → k ∉ n :: rest) →
  ∃ s', (set_next (last l1) (Some n) ;;
         setco n (λ r, r <| co_next := head l2 |> <| c_time := t |>)) s = Done tt s' ∧
    co_frame s s' ∧ callfree s' = callfree s ∧
    chain co_next (callouts s') (calltodo s') (l1 ++ n :: l2) ∧
    (∀ k, time_of (callouts s') k = (if decide (k = n) then t else time_of (callouts s) k) ∧
          call_of (callouts s') k = call_of (callouts s) k) ∧
    (∀ k, k ∉ l1 → k ≠ n → callouts s' !! k = callouts s !! k).
Proof.
  intros Hc Hn Hd.
  destruct (set_next_spec s l1 l2 (n :: rest) (Some n) Hc Hn) as
    (s1 & E1 & F1 & Hfr & Hc1 & Htc & Hlk); [set_solver|].
  destruct (chain_drop _ _ _ _ _ _ Hc1) as (r & Hr & _).
  eexists. split; [rewrite (bind_done _ _ _ _ _ E1); by apply setco_eq|].
  split; [rewrite F1; done|]. split; [done|]. split; [|split].
  - simpl. eapply chain_set_nxt; [exact Hc1| |set_solver]. simpl.
    eapply (chain_same (callouts s)); [|by eapply chain_suffix].
    intros k Hk. apply Hlk.
    pose proof (chain_NoDup _ _ _ _ Hc) as Hnd. apply NoDup_app in Hnd. set_solver.
  - intros k. simpl. case_decide as Hk.
    + subst k. rewrite time_of_insert, call_of_insert. split; [done|].
      destruct (Htc n) as [_ <-]. unfold call_of. by rewrite Hr.
    + destruct (time_call_ne (callouts s1) n
        (r <| co_next := head l2 |> <| c_time := t |>) k Hk) as [-> ->]. apply Htc.
  - intros k Hk Hkn. simpl. rewrite lookup_insert_ne by done. by apply Hlk.
Qed.

Lemma overdue_first_insert ts1 t ts2 :
  overdue_first (ts1 ++ ts2) → 0 < t → (∀ x, head ts2 = Some x → t <= x) →
  overdue_first (ts1 ++ t :: match ts2 with x :: ts2 => x - t :: ts2 | [] => [] end).
Proof.
  unfold overdue_first. rewrite !StronglySorted_app. intros (H12 & H1 & H2) Ht Hx.
  destruct ts2 as [|x ts2].
  - split_and!; [|done|by repeat constructor]. intros x1 x2 ? ->%list_elem_of_singleton. lia.
  - specialize (Hx x eq_refl). apply StronglySorted_cons in H2 as [H2 H2'].
    rewrite Forall_forall in H2. split_and!; [|done|].
    + intros x1 x2 Hx1. rewrite !elem_of_cons. intros [->|[->|Hx2]] Hp; [lia|lia|].
      apply (H12 x1 x2); [done|set_solver|done].
    + rewrite !StronglySorted_cons. split_and!; [| |done].
      * constructor; [lia|]. apply Forall_forall. intros y Hy _. apply H2; [done|lia].
      * apply Forall_forall. intros y Hy _. apply H2; [done|lia].
Qed.

(** * [timeout] *)

(** What the agenda becomes when the head after the new cell gives up [t]. *)
Lemma agenda_link m m' l1 l2 n t c acc :
  (∀ k, k ∈ l1 → time_of m' k = time_of m k) →
  (∀ k, k ∈ l1 ++ l2 → call_of m' k = call_of m k) →
  time_of m' n = t → call_of m' n = c → 0 < t →
  match l2 with
  | [] => True
  | k :: l2 => time_of m' k = time_of m k - t ∧ t <= time_of m k ∧
      ∀ j, j ∈ l2 → time_of m' j = time_of m j
  end →
  agenda m' acc (l1 ++ n :: l2) =
    agenda m acc l1 ++ (total m acc l1 + t, c) :: agenda m (total m acc l1) l2.
Proof.
  intros H1 Hc Hn Hcn Ht Hl2. rewrite agenda_app.
  destruct (agenda_ext m m' acc l1) as [-> ->]; [set_solver|].
  f_equal. cbn [agenda]. rewrite Hn, Hcn. f_equal; [f_equal; lia|].
  destruct l2 as [|k l2]; [done|]. destruct Hl2 as (Hk & Hge & Hj). cbn [agenda].
  rewrite Hk, (Hc k) by set_solver.
  replace (total m acc l1 + Z.max 0 t + Z.max 0 (time_of m k - t))
    with (total m acc l1 + Z.max 0 (time_of m k)) by lia.
  f_equal. apply agenda_ext. set_solver.
Qed.

Lemma chain_todo_insert s lt n r :
  n ∉ lt → chain co_next (callouts s) (calltodo s) lt →
  chain co_next (<[n := r]> (callouts s)) (calltodo s) lt.
Proof. intros. by apply chain_insert_ne. Qed.

(** The last step: the next callout is due that much after the new one. *)
Lemma shorten_spec s c2 t :
  (∀ c, c2 = Some c → is_Some (callouts s !! c)) →
  ∃ s', match c2 with
    | Some c2 => setco c2 (λ r, r <| c_time ::= λ z, z - t |>)
    | None => mret tt
    end s = Done tt s' ∧ co_frame s s' ∧
    callfree s' = callfree s ∧ calltodo s' = calltodo s ∧
    (∀ k, co_next <$> callouts s' !! k = co_next <$> callouts s !! k) ∧
    (∀ k, call_of (callouts s') k = call_of (callouts s) k) ∧
    (∀ k, time_of (callouts s') k = if decide (c2 = Some k)
      then time_of (callouts s) k - t else time_of (callouts s) k).
Proof.
  intros Hc. destruct c2 as [c|].
  - destruct (Hc c eq_refl) as [q Hq].
    eexists. split; [by apply setco_eq|]. split_and!; [done..| | |]; intros k; simpl.
    + destruct (decide (k = c)) as [->|Hk];
        [by rewrite lookup_insert_eq, Hq|by rewrite lookup_insert_ne].
    + destruct (decide (k = c)) as [->|Hk]; [|by apply time_call_ne].
      rewrite call_of_insert. unfold call_of. by rewrite Hq.
    + case_decide as Hk.
      * injection Hk as <-. rewrite time_of_insert. by rewrite (time_of_eq _ _ _ Hq).
      * apply time_of_ne. congruence.
  - exists s. split_and!; [done|by destruct s|done..].
Qed.

Lemma timeout_spec f a t s lt n lf :
  co_inv s lt (n :: lf) →
  ∃ s' l1 l2, lt = l1 ++ l2 ∧ timeout f a t s = Done tt s' ∧ co_frame s s' ∧
    co_inv s' (l1 ++ n :: l2) lf ∧
    pending s' (l1 ++ n :: l2) = sched (Z.max 1 t, (f, a)) (pending s lt).
Proof.
  intros [Ht Hf Hd Ho]. pose proof Hf as (Hfree & r & Hr & Hlf).
  assert (Hnlt : n ∉ lt) by set_solver.
  pose proof (chain_NoDup _ _ _ _ Hf) as [Hnlf _]%NoDup_cons.
  set (r1 := r <| c_arg := a |> <| c_func := f |>).
  set (s1 := s <| callfree := co_next r |> <| callouts ::= <[n := r1]> |>).
  assert (Ht1 : chain co_next (callouts s1) (calltodo s1) ([] ++ lt)).
  { by apply chain_insert_ne. }
  destruct (timeout_scan_spec s1 (size (callouts s1)) [] lt (Z.max 1 t) Ht1) as
    (l1 & l2 & t' & -> & Ht' & Hsum & Escan & Hl1 & Hl2); [lia|by eapply chain_length|].
  assert (Hn1 : chain co_next (callouts s1) (Some n) (n :: lf)).
  { split; [done|]. exists r1. simpl. rewrite lookup_insert_eq. split; [done|].
    by apply chain_insert_ne. }
  destruct (link_in s1 l1 l2 lf n t' Ht1 Hn1) as (s2 & E2 & F2 & Hfr2 & Hc2 & Htc2 & Hlk2).
  { intros k Hk. apply not_elem_of_cons. split; [set_solver|]. set_solver. }
  assert (Hext : ∀ k, k ∈ l1 ++ l2 → time_of (callouts s1) k = time_of (callouts s) k ∧
      call_of (callouts s1) k = call_of (callouts s) k).
  { intros k Hk. apply time_call_ne. set_solver. }
  destruct (agenda_ext (callouts s) (callouts s1) 0 l1) as [Hag1 Htot1]; [set_solver|].
  destruct (agenda_ext (callouts s) (callouts s1) (total (callouts s) 0 l1) l2) as [Hag2 _];
    [set_solver|].
  assert (Hlf2 : chain co_next (callouts s2) (callfree s2) lf).
  { rewrite Hfr2. simpl. eapply chain_same; [|exact Hlf].
    intros k Hk. rewrite Hlk2; [|set_solver|set_solver].
    simpl. apply lookup_insert_ne. set_solver. }
  assert (Hcn : call_of (callouts s2) n = (f, a)).
  { destruct (Htc2 n) as [_ ->]. simpl. by rewrite call_of_insert. }
  assert (Hnd : NoDup (l1 ++ n :: l2)) by (by eapply chain_NoDup).
  destruct (shorten_spec s2 (head l2) t') as (s3 & E3 & F3 & Hfr3 & Htd3 & Hnx3 & Hc3 & Htm3).
  { intros c Hc. eapply chain_elem; [exact Hc2|]. destruct l2; set_solver. }
  assert (Htime : ∀ k, k ∈ l1 ++ l2 → k ≠ n → head l2 ≠ Some k →
    time_of (callouts s3) k = time_of (callouts s) k).
  { intros k Hk Hkn Hh. rewrite Htm3. rewrite decide_False by done.
    destruct (Htc2 k) as [-> _]. rewrite decide_False by done. by apply Hext. }
  assert (Hcall : ∀ k, k ∈ l1 ++ l2 → call_of (callouts s3) k = call_of (callouts s) k).
  { intros k Hk. rewrite Hc3. destruct (Htc2 k) as [_ ->]. by apply Hext. }
  assert (Hn3 : time_of (callouts s3) n = t').
  { rewrite Htm3. destruct (Htc2 n) as [-> _].
    rewrite (decide_False (P := head l2 = Some n)) by (destruct l2; set_solver).
    by rewrite decide_True. }
  assert (Hhd : ∀ k, head l2 = Some k → k ∈ l2) by (intros k; destruct l2; set_solver).
  assert (Hhd3 : ∀ k, head l2 = Some k →
    time_of (callouts s3) k = time_of (callouts s) k - t' ∧ t' <= time_of (callouts s) k).
  { intros k Hk. rewrite Htm3, decide_True by done. destruct (Htc2 k) as [-> _].
    rewrite decide_False by (specialize (Hhd k Hk); set_solver).
    specialize (Hl2 k Hk). destruct (Hext k) as [E _]; [specialize (Hhd k Hk); set_solver|].
    rewrite E in *. lia. }
  apply NoDup_app in Hnd as (Hnd1 & Hnd12 & [Hndn Hnd2]%NoDup_cons).
  exists s3, l1, l2. split; [done|]. split; [|split; [|split]].
  - unfold timeout. rewrite (bind_done _ _ _ _ _ (get_s_eq s)). rewrite Hfree.
    rewrite (bind_done _ _ _ _ _ (getco_eq _ _ _ Hr)).
    rewrite (bind_done _ _ _ _ _ (modify_eq _ _)).
    assert (Es : setco n (λ r, r <| c_arg := a |> <| c_func := f |>)
      (s <| callfree := co_next r |>) = Done tt s1) by (by rewrite (setco_eq _ _ _ r)).
    rewrite (bind_done _ _ _ _ _ Es). clear Es.
    replace (if t <=? 0 then 1 else t) with (Z.max 1 t)
      by (destruct (Z.leb_spec t 0); lia).
    assert (Esz : size (callouts s1) = size (callouts s)).
    { simpl. apply map_size_insert_Some. eauto. }
    rewrite Esz in Escan. cbn [last] in Escan.
    rewrite (bind_done _ _ _ _ _ Escan). cbn [app].
    rewrite <- bind_assoc. by rewrite (bind_done _ _ _ _ _ E2).
  - eapply co_frame_trans; [|exact F3]. eapply co_frame_trans; [|exact F2].
    unfold s1. by destruct s.
  - split.
    + rewrite Htd3. eapply chain_agree; [|exact Hc2]. intros k _. apply Hnx3.
    + rewrite Hfr3. eapply chain_agree; [|exact Hlf2]. intros k _. apply Hnx3.
    + intros k Hk. apply elem_of_app in Hk as [Hk|[->|Hk]%elem_of_cons]; [|done|];
        specialize (Hd k); set_solver.
    + rewrite fmap_app in *. rewrite fmap_cons, Hn3.
      pose proof (overdue_first_insert (time_of (callouts s) <$> l1) t'
        (time_of (callouts s) <$> l2) Ho Ht') as G.
      rewrite (fmap_time_ext (callouts s) (callouts s3) l1).
      2:{ intros k Hk. apply Htime; [set_solver|set_solver|]. intros Hh%Hhd. set_solver. }
      destruct l2 as [|k l2]; csimpl in *; [by apply G|].
      destruct (Hhd3 k eq_refl) as [-> Hge].
      rewrite (fmap_time_ext (callouts s) (callouts s3) l2).
      2:{ intros j Hj. apply NoDup_cons in Hnd2 as [? _].
          apply Htime; [set_solver|set_solver|]. intros [= ->]. done. }
      apply G. by intros x [= <-].
  - unfold pending. rewrite (agenda_app (callouts s)).
    rewrite (agenda_link (callouts s) (callouts s3) l1 l2 n t' (f, a) 0).
    + rewrite Hag1 in Hl1. rewrite sched_app; [|exact Hl1|].
      * by rewrite Hsum, Htot1.
      * intros x Hx. destruct l2 as [|k l2]; [done|]. simpl in Hx. injection Hx as <-. simpl.
        destruct (Hhd3 k eq_refl). rewrite Hsum, Htot1. lia.
    + intros k Hk. apply Htime; [set_solver|set_solver|]. intros Hh%Hhd. set_solver.
    + done.
    + done.
    + rewrite Hc3. done.
    + done.
    + destruct l2 as [|k l2]; [done|]. destruct (Hhd3 k eq_refl). split_and!; [done|done|].
      intros j Hj. apply NoDup_cons in Hnd2 as [? _].
      apply Htime; [set_solver|set_solver|]. intros [= ->]. done.
Qed.

(** * [untimeout] *)

Lemma call_of_eq m n r : m !! n = Some r → call_of m n = (c_func r, c_arg r).
Proof. unfold call_of. by intros ->. Qed.

Lemma call_matches m n r f a : m !! n = Some r →
  bool_decide (c_func r = f) && (c_arg r =? a) = bool_decide (call_of m n = (f, a)).
Proof.
  intros E. rewrite (call_of_eq _ _ _ E). destruct (Z.eqb_spec (c_arg r) a) as [->|].
  - rewrite andb_true_r. apply bool_decide_ext. naive_solver.
  - rewrite andb_false_r, bool_decide_false; [done|]. naive_solver.
Qed.

Lemma untimeout_scan_skip f a s l1 l2 l3 fuel :
  chain co_next (callouts s) (calltodo s) (l1 ++ l2 ++ l3) →
  Forall (λ k, call_of (callouts s) k ≠ (f, a)) l2 →
  untimeout_scan (length l2 + fuel) f a (last l1) s =
    untimeout_scan fuel f a (last (l1 ++ l2)) s.
Proof.
  revert l1. induction l2 as [|n l2 IH]; intros l1 Hc Hl; [by rewrite app_nil_r|].
  apply Forall_cons in Hl as [Hn Hl].
  destruct (chain_drop _ _ _ _ _ _ Hc) as (r & Hr & _).
  simpl length. cbn [untimeout_scan plus].
  rewrite (bind_done _ _ _ _ _ (get_next_eq s l1 _ Hc)). cbn [head app].
  rewrite (bind_done _ _ _ _ _ (getco_eq _ _ _ Hr)).
  rewrite (call_matches _ _ _ _ _ Hr), bool_decide_false by done.
  specialize (IH (l1 ++ [n])). rewrite last_snoc, <- app_assoc in IH. simpl in IH.
  rewrite IH by (done || by rewrite <- app_assoc). by rewrite <- app_assoc.
Qed.

Lemma untimeout_scan_found f a s l1 n l2 fuel :
  chain co_next (callouts s) (calltodo s) (l1 ++ n :: l2) →
  call_of (callouts s) n = (f, a) →
  untimeout_scan fuel f a (last l1) s = untimeout_remove (last l1) n s.
Proof.
  intros Hc Hn. destruct (chain_drop _ _ _ _ _ _ Hc) as (r & Hr & _).
  destruct fuel; cbn [untimeout_scan];
    rewrite (bind_done _ _ _ _ _ (get_next_eq s l1 _ Hc)); cbn [head];
    rewrite (bind_done _ _ _ _ _ (getco_eq _ _ _ Hr));
    by rewrite (call_matches _ _ _ _ _ Hr), bool_decide_true.
Qed.

Lemma overdue_first_remove ts1 t ts2 :
  overdue_first (ts1 ++ t :: ts2) →
  overdue_first (ts1 ++ match ts2 with x :: ts2 => Z.max 0 t + x :: ts2 | [] => [] end).
Proof.
  unfold overdue_first. rewrite !StronglySorted_app, StronglySorted_cons.
  intros (H12 & H1 & Ht & H2). rewrite Forall_forall in Ht.
  destruct ts2 as [|x ts2]; [split_and!; set_solver|].
  apply StronglySorted_cons in H2 as [Hx H2]. rewrite Forall_forall in Hx.
  split_and!; [|done|].
  - intros x1 x2 Hx1. rewrite elem_of_cons. intros [->|Hx2] Hp.
    + specialize (H12 x1 x Hx1 ltac:(set_solver) Hp). lia.
    + apply (H12 x1 x2); [done|set_solver|done].
  - apply StronglySorted_cons. split; [|done]. apply Forall_forall. intros y Hy Hp.
    destruct (decide (0 < t)); [apply Ht; [set_solver|done]|apply Hx; [done|lia]].
Qed.

(** Move [t] to the next callout: what the one before it gives back. *)
Lemma lengthen_spec s c3 t :
  (∀ c, c3 = Some c → is_Some (callouts s !! c)) →
  ∃ s', match c3 with
    | Some c3 => when (0 <? t) (setco c3 (λ q, q <| c_time ::= Z.add t |>))
    | None => mret tt
    end s = Done tt s' ∧ co_frame s s' ∧
    callfree s' = callfree s ∧ calltodo s' = calltodo s ∧
    (∀ k, co_next <$> callouts s' !! k = co_next <$> callouts s !! k) ∧
    (∀ k, call_of (callouts s') k = call_of (callouts s) k) ∧
    (∀ k, time_of (callouts s') k = if decide (c3 = Some k)
      then Z.max 0 t + time_of (callouts s) k else time_of (callouts s) k).
Proof.
  intros Hc. destruct c3 as [c|]; [destruct (Z.ltb_spec 0 t) as [Ht|Ht]|].
  - destruct (Hc c eq_refl) as [q Hq].
    eexists. split; [by apply setco_eq|]. split_and!; [done..| | |]; intros k; simpl.
    + destruct (decide (k = c)) as [->|Hk];
        [by rewrite lookup_insert_eq, Hq|by rewrite lookup_insert_ne].
    + destruct (decide (k = c)) as [->|Hk]; [|by apply time_call_ne].
      rewrite call_of_insert. unfold call_of. by rewrite Hq.
    + case_decide as Hk.
      * injection Hk as <-. rewrite time_of_insert. rewrite (time_of_eq _ _ _ Hq). simpl. lia.
      * apply time_of_ne. congruence.
  - exists s. split_and!; [done|by destruct s|done..|].
    intros k. case_decide; [lia|done].
  - exists s. split_and!; [done|by destruct s|done..].
Qed.

Lemma agenda_unlink m m' l1 l2 t acc :
  (∀ k, k ∈ l1 → time_of m' k = time_of m k) →
  (∀ k, k ∈ l1 ++ l2 → call_of m' k = call_of m k) →
  match l2 with
  | [] => True
  | k :: l2 => time_of m' k = Z.max 0 t + time_of m k ∧
      (0 < t → 0 <= time_of m k) ∧
      ∀ j, j ∈ l2 → time_of m' j = time_of m j
  end →
  agenda m' acc (l1 ++ l2) =
    agenda m acc l1 ++ agenda m (total m acc l1 + Z.max 0 t) l2.
Proof.
  intros H1 Hc Hl2. rewrite agenda_app.
  destruct (agenda_ext m m' acc l1) as [-> ->]; [set_solver|]. f_equal.
  destruct l2 as [|k l2]; [done|]. destruct Hl2 as (Hk & Hp & Hj). cbn [agenda].
  rewrite Hk, (Hc k) by set_solver.
  replace (total m acc l1 + Z.max 0 (Z.max 0 t + time_of m k))
    with (total m acc l1 + Z.max 0 t + Z.max 0 (time_of m k)) by lia.
  f_equal. apply agenda_ext. set_solver.
Qed.

Lemma untimeout_remove_spec s l1 n l2 lf :
  co_inv s (l1 ++ n :: l2) lf →
  ∃ s', untimeout_remove (last l1) n s = Done tt s' ∧ co_frame s s' ∧
    co_inv s' (l1 ++ l2) (n :: lf) ∧
    pending s' (l1 ++ l2) = agenda (callouts s) 0 l1 ++
      agenda (callouts s) (total (callouts s) 0 l1 + Z.max 0 (time_of (callouts s) n)) l2.
Proof.
  intros [Ht Hf Hd Ho]. destruct (chain_drop _ _ _ _ _ _ Ht) as (r & Hr & Hc).
  pose proof (time_of_eq _ _ _ Hr) as Htn.
  assert (Hh : co_next r = head l2) by (destruct l2; [done|by destruct Hc]).
  pose proof (chain_NoDup _ _ _ _ Ht) as (Hnd1 & Hnd12 & [Hndn Hnd2]%NoDup_cons)%NoDup_app.
  destruct (lengthen_spec s (head l2) (c_time r)) as (s1 & E1 & F1 & Hfr1 & Htd1 & Hnx1 & Hc1 & Htm1).
  { intros c Hc'. eapply chain_elem; [exact Ht|]. destruct l2; set_solver. }
  assert (Ht1 : chain co_next (callouts s1) (calltodo s1) (l1 ++ n :: l2)).
  { rewrite Htd1. eapply chain_agree; [|exact Ht]. done. }
  assert (Hc2 : chain co_next (callouts s1) (head l2) l2).
  { rewrite <- Hh. eapply chain_agree; [|exact Hc]. done. }
  destruct (set_next_spec s1 l1 (n :: l2) l2 (head l2) Ht1 Hc2) as
    (s2 & E2 & F2 & Hfr2 & Ht2 & Htc2 & Hlk2); [set_solver|].
  assert (is_Some (callouts s2 !! n)) as [r2 Hr2].
  { rewrite Hlk2; [|set_solver]. eapply chain_elem; [exact Ht1|]. set_solver. }
  set (s3 := s2 <| callouts ::= <[n := r2 <| co_next := callfree s2 |>]> |>
                <| callfree := Some n |>).
  assert (Htc3 : ∀ k, k ∈ l1 ++ l2 → time_of (callouts s3) k = time_of (callouts s1) k ∧
      call_of (callouts s3) k = call_of (callouts s) k).
  { intros k Hk. simpl. rewrite <- Hc1. destruct (Htc2 k) as [<- <-]. apply time_call_ne. set_solver. }
  assert (Htl1 : ∀ k, k ∈ l1 → time_of (callouts s3) k = time_of (callouts s) k).
  { intros k Hk. destruct (Htc3 k) as [-> _]; [set_solver|]. rewrite Htm1, decide_False; [done|].
    destruct l2; set_solver. }
  assert (Hhd : match l2 with [] => True | k :: l2 =>
      time_of (callouts s3) k = Z.max 0 (c_time r) + time_of (callouts s) k ∧
      (0 < c_time r → 0 <= time_of (callouts s) k) ∧
      ∀ j, j ∈ l2 → time_of (callouts s3) j = time_of (callouts s) j end).
  { destruct l2 as [|k l2]; [done|]. split_and!.
    - destruct (Htc3 k) as [-> _]; [set_solver|]. by rewrite Htm1, decide_True.
    - intros Hp. unfold overdue_first in Ho. rewrite fmap_app, !fmap_cons, StronglySorted_app in Ho.
      destruct Ho as (_ & _ & Ho). apply StronglySorted_cons in Ho as [Ho _].
      apply Forall_cons in Ho as [Ho _]. rewrite Htn in Ho. auto.
    - intros j Hj. destruct (Htc3 j) as [-> _]; [set_solver|]. apply NoDup_cons in Hnd2 as [? _].
      rewrite Htm1, decide_False; [done|]. simpl. set_solver. }
  exists s3. split; [|split; [|split; [split|]]].
  - unfold untimeout_remove. rewrite (bind_done _ _ _ _ _ (getco_eq _ _ _ Hr)), Hh.
    rewrite (bind_done _ _ _ _ _ E1), (bind_done _ _ _ _ _ E2), (bind_done _ _ _ _ _ (get_s_eq _)).
    rewrite (bind_done _ _ _ _ _ (setco_eq _ _ _ _ Hr2)). done.
  - eapply co_frame_trans; [exact F1|]. eapply co_frame_trans; [exact F2|]. by destruct s2.
  - simpl. by apply chain_insert_ne; [set_solver|].
  - split; [done|]. exists (r2 <| co_next := callfree s2 |>). simpl. rewrite lookup_insert_eq.
    split; [done|]. apply chain_insert_ne; [set_solver|]. rewrite Hfr2, Hfr1.
    eapply chain_agree; [|exact Hf]. intros k Hk. rewrite Hlk2 by set_solver. done.
  - intros k Hk. apply not_elem_of_cons. set_solver.
  - rewrite fmap_app in *. rewrite (fmap_time_ext (callouts s) _ l1) by done.
    rewrite fmap_cons, Htn in Ho. apply overdue_first_remove in Ho.
    destruct l2 as [|k l2]; csimpl in *; [done|]. destruct Hhd as (-> & _ & Hj).
    by rewrite (fmap_time_ext (callouts s) _ l2).
  - rewrite Htn. apply agenda_unlink; [done|apply Htc3|done].
Qed.

Lemma split_first (P : nat → Prop) `{!∀ n, Decision (P n)} (l : list nat) :
  Forall (λ n, ¬ P n) l ∨
  ∃ l1 n l2, l = l1 ++ n :: l2 ∧ Forall (λ n, ¬ P n) l1 ∧ P n.
Proof.
  induction l as [|a l IH]; [by left|]. destruct (decide (P a)) as [Ha|Ha].
  - right. by exists [], a, l.
  - destruct IH as [IH|(l1 & n & l2 & -> & Hl1 & Hn)]; [left; by constructor|].
    right. exists (a :: l1), n, l2. split_and!; [done|by constructor|done].
Qed.

Lemma agenda_calls m acc l c :
  Forall (λ k, call_of m k ≠ c) l → Forall (λ e, e.2 ≠ c) (agenda m acc l).
Proof. intros Hl. revert acc. induction Hl; intros acc; simpl; constructor; auto. Qed.

Lemma untimeout_spec f a s lt lf :
  co_inv s lt lf →
  ∃ s' lt' lf', untimeout f a s = Done tt s' ∧ co_frame s s' ∧ co_inv s' lt' lf' ∧
    pending s' lt' = unsched (f, a) (pending s lt) ∧ (lt' ++ lf') ≡ₚ (lt ++ lf).
Proof.
  intros Hinv. pose proof (co_todo _ _ _ Hinv) as Hc.
  pose proof (chain_length _ _ _ _ Hc) as Hlen.
  destruct (split_first (λ k, call_of (callouts s) k = (f, a)) lt) as [Hno|(l1 & n & l2 & -> & Hno & Hn)].
  - exists s, lt, lf. split_and!; [|by destruct s|done| |done].
    + unfold untimeout. rewrite (bind_done _ _ _ _ _ (get_s_eq _)).
      replace (size (callouts s)) with (length lt + (size (callouts s) - length lt))%nat by lia.
      pose proof (untimeout_scan_skip f a s [] lt [] (size (callouts s) - length lt)) as E.
      rewrite app_nil_r in E. cbn [last app] in E. rewrite E by done.
      pose proof (get_next_eq s lt []) as E'. rewrite app_nil_r in E'.
      destruct (_ - _)%nat; cbn [untimeout_scan]; by rewrite (bind_done _ _ _ _ _ (E' Hc)).
    + unfold pending. by rewrite unsched_none by (by apply agenda_calls).
  - destruct (untimeout_remove_spec _ _ _ _ _ Hinv) as (s' & E & F & Hinv' & Hp).
    exists s', (l1 ++ l2), (n :: lf). split_and!; [|done|done| |solve_Permutation].
    + unfold untimeout. rewrite (bind_done _ _ _ _ _ (get_s_eq _)).
      rewrite length_app in Hlen. simpl in Hlen.
      replace (size (callouts s)) with (length l1 + (size (callouts s) - length l1))%nat by lia.
      pose proof (untimeout_scan_skip f a s [] l1 (n :: l2) (size (callouts s) - length l1)) as E1.
      cbn [last app] in E1. rewrite E1 by done. by rewrite (untimeout_scan_found _ _ _ _ _ _ _ Hc).
    + rewrite Hp. unfold pending. rewrite agenda_app. cbn [agenda].
      rewrite unsched_app; [done|by apply agenda_calls|done].
Qed.

(** * The clock interrupt *)

Lemma agenda_tick_later m acc l : 1 <= acc → agenda m (acc - 1) l = tick <$> agenda m acc l.
Proof.
  intros Ha. replace (acc - 1) with (acc + -1) by lia. rewrite agenda_shift.
  pose proof (agenda_ge m acc l) as Hge. apply list_fmap_ext. intros i e He.
  rewrite Forall_lookup in Hge. specialize (Hge _ _ He). unfold tick. f_equal. lia.
Qed.

Lemma agenda_not_due m acc l : 0 < acc → existsb (λ e, e.1 =? 0) (agenda m acc l) = false.
Proof.
  intros Ha. pose proof (agenda_ge m acc l) as Hge. induction Hge as [|e l' He _ IH]; simpl; [done|].
  rewrite IH. replace (e.1 =? 0) with false; [done|]. symmetry. apply Z.eqb_neq. lia.
Qed.

Lemma tick_scan_spec fuel s p1 l ns :
  chain co_next (callouts s) p1 l → (length l <= fuel)%nat →
  ∃ m', tick_scan fuel p1 ns s =
      Done (ns || existsb (λ e, e.1 =? 0) (agenda m' 0 l)) (s <| callouts := m' |>) ∧
    (∀ k, co_next <$> m' !! k = co_next <$> callouts s !! k) ∧
    (∀ k, k ∉ l → m' !! k = callouts s !! k) ∧
    agenda m' 0 l = tick <$> agenda (callouts s) 0 l ∧
    (overdue_first (time_of (callouts s) <$> l) → overdue_first (time_of m' <$> l)).
Proof.
  revert s p1 l ns. induction fuel as [|fuel IH]; intros s p1 l ns Hc Hf; destruct l as [|n l];
    simpl in Hf; try lia.
  - exists (callouts s). rewrite Hc. split_and!; [|done..]. simpl. rewrite orb_false_r. by destruct s.
  - exists (callouts s). rewrite Hc. split_and!; [|done..]. simpl. rewrite orb_false_r. by destruct s.
  - pose proof (chain_NoDup _ _ _ _ Hc) as [Hn Hnd]%NoDup_cons.
    destruct Hc as (-> & r & Hr & Hc). set (r' := r <| c_time ::= Z.pred |>).
    set (s1 := s <| callouts ::= <[n := r']> |>).
    assert (Hr1 : callouts s1 !! n = Some r') by apply lookup_insert_eq.
    pose proof (time_of_eq _ _ _ Hr) as Htr.
    assert (Hnx : ∀ k, co_next <$> callouts s1 !! k = co_next <$> callouts s !! k).
    { intros k. simpl. destruct (decide (k = n)) as [->|Hk];
        [by rewrite lookup_insert_eq, Hr|by rewrite lookup_insert_ne]. }
    assert (Hlk : ∀ k, k ∉ n :: l → callouts s1 !! k = callouts s !! k).
    { intros k Hk. apply lookup_insert_ne. set_solver. }
    assert (Ht1 : time_of (callouts s1) n = c_time r - 1) by (by rewrite (time_of_eq _ _ _ Hr1)).
    assert (Hc1 : ∀ k, call_of (callouts s1) k = call_of (callouts s) k).
    { intros k. destruct (decide (k = n)) as [->|Hk]; [|by apply time_call_ne].
      unfold call_of. by rewrite Hr1, Hr. }
    assert (Hl1 : ∀ k, k ∈ l → time_of (callouts s1) k = time_of (callouts s) k).
    { intros k Hk. apply time_of_ne. set_solver. }
    assert (E : tick_scan (S fuel) (Some n) ns s =
      (if 0 <? c_time r' then mret ns else if c_time r' =? 0 then mret true
       else tick_scan fuel (co_next r') true) s1).
    { cbn [tick_scan]. rewrite (bind_done _ _ _ _ _ (setco_eq _ _ _ _ Hr)).
      by rewrite (bind_done _ _ _ _ _ (getco_eq s1 _ _ Hr1)). }
    rewrite E. change (c_time r') with (c_time r - 1).
    assert (Hag : ∀ acc, agenda (callouts s1) acc l = agenda (callouts s) acc l).
    { intros acc. apply agenda_ext. auto. }
    destruct (Z.ltb_spec 0 (c_time r - 1)) as [Hp|Hp];
      [|destruct (Z.eqb_spec (c_time r - 1) 0) as [Hz|Hz]].
    + exists (callouts s1). cbn [agenda]. rewrite !fmap_cons. rewrite Ht1, Htr, Hc1, Hag.
      split_and!; [|done|done| |].
      * cbn [existsb fst]. rewrite agenda_not_due by lia.
        replace (0 + Z.max 0 (c_time r - 1) =? 0) with false by lia.
        rewrite orb_false_r. done.
      * unfold tick at 1. cbn [fst snd]. f_equal; [f_equal; lia|].
        rewrite <- agenda_tick_later by lia. f_equal. lia.
      * rewrite (fmap_time_ext (callouts s) (callouts s1) l Hl1).
        unfold overdue_first. rewrite !StronglySorted_cons, !Forall_forall. naive_solver lia.
    + exists (callouts s1). cbn [agenda]. rewrite !fmap_cons. rewrite Ht1, Htr, Hc1, Hag.
      split_and!; [|done|done| |].
      * cbn [existsb fst]. replace (0 + Z.max 0 (c_time r - 1) =? 0) with true by lia.
        cbn. by rewrite orb_true_r.
      * unfold tick at 1. cbn [fst snd]. f_equal; [f_equal; lia|].
        rewrite <- agenda_tick_later by lia. f_equal. lia.
      * rewrite (fmap_time_ext (callouts s) (callouts s1) l Hl1).
        unfold overdue_first. rewrite !StronglySorted_cons, !Forall_forall. naive_solver lia.
    + destruct (IH s1 (co_next r') l true) as (m' & E' & Hnx' & Hlk' & Hag' & Hov'); [|lia|].
      { eapply chain_agree; [|exact Hc]. auto. }
      assert (Hm'n : m' !! n = Some r') by (rewrite Hlk'; done).
      exists m'. cbn [agenda]. rewrite !fmap_cons.
      rewrite (time_of_eq _ _ _ Hm'n), Htr. change (c_time r') with (c_time r - 1).
      split_and!.
      * rewrite E'. cbn [existsb fst]. f_equal.
        replace (0 + Z.max 0 (c_time r - 1) =? 0) with true by lia. cbn. by rewrite orb_true_r.
      * intros k. by rewrite Hnx'.
      * intros k Hk. rewrite Hlk' by set_solver. by apply Hlk.
      * replace (0 + Z.max 0 (c_time r - 1)) with 0 by lia.
        replace (0 + Z.max 0 (c_time r)) with 0 by lia. rewrite Hag', Hag.
        f_equal. unfold tick. cbn [fst snd]. f_equal. rewrite <- Hc1. unfold call_of.
        by rewrite Hm'n, Hr1.
      * rewrite (fmap_time_ext (callouts s) _ l Hl1) in Hov'.
        unfold overdue_first in *. rewrite !StronglySorted_cons. intros [_ Ho].
        split; [|by apply Hov']. apply Forall_forall. intros; lia.
Qed.

Lemma hardclock_callouts_spec s lt lf :
  co_inv s lt lf →
  ∃ s', hardclock_callouts s = Done (existsb (λ e, e.1 =? 0) (pending s' lt)) s' ∧
    co_frame s s' ∧ co_inv s' lt lf ∧ pending s' lt = tick <$> pending s lt.
Proof.
  intros [Ht Hf Hd Ho].
  destruct (tick_scan_spec (size (callouts s)) s (calltodo s) lt false) as
    (m' & E & Hnx & Hlk & Hag & Hov); [done|by eapply chain_length|].
  exists (s <| callouts := m' |>). split; [exact E|]. split; [by destruct s|]. split; [split|].
  - eapply chain_agree; [|exact Ht]. auto.
  - eapply chain_agree; [|exact Hf]. auto.
  - done.
  - auto.
  - done.
Qed.

(** ** [softclock] *)

(** The calls that are due. *)
Definition due (l : list entry) : list (cofun * Z) := (filter (λ e, e.1 = 0) l).*2.

(** Take the first callout off the list and free it. *)
Definition pop : K unit :=
  s ← get_s;
  match calltodo s with
  | None => mret tt
  | Some p1 => untimeout_remove None p1
  end.

Lemma due_app l1 l2 : due (l1 ++ l2) = due l1 ++ due l2.
Proof. unfold due. by rewrite filter_app, fmap_app. Qed.

Lemma due_cons e l : due (e :: l) = if decide (e.1 = 0) then e.2 :: due l else due l.
Proof.
  unfold due. case_decide; [by rewrite filter_cons_True|by rewrite filter_cons_False].
Qed.

Lemma due_later m acc l : 0 < acc → due (agenda m acc l) = [].
Proof.
  intros Ha. unfold due. pose proof (agenda_ge m acc l) as Hge.
  induction Hge as [|e l' He _ IH]; [done|]. rewrite filter_cons_False; [done|lia].
Qed.

Lemma pop_spec s n lt lf :
  co_inv s (n :: lt) lf → time_of (callouts s) n <= 0 →
  ∃ s', pop s = Done tt s' ∧ co_frame s s' ∧ co_inv s' lt (n :: lf) ∧
    pending s (n :: lt) = (0, call_of (callouts s) n) :: pending s' lt.
Proof.
  intros Hinv Hn. destruct (untimeout_remove_spec s [] n lt lf Hinv) as (s' & E & F & Hinv' & Hp).
  exists s'. split_and!; [|done|done|].
  - unfold pop. rewrite (bind_done _ _ _ _ _ (get_s_eq _)).
    destruct (co_todo _ _ _ Hinv) as [-> _]. exact E.
  - unfold pending in *. cbn [app] in Hp. rewrite Hp. cbn [agenda total app].
    by replace (0 + Z.max 0 (time_of (callouts s) n)) with 0 by lia.
Qed.

(** Where the first callout is due, [softclock] pops it and calls it. *)
Lemma softclock_loop_due call fuel s n lt lf r :
  co_inv s (n :: lt) lf → callouts s !! n = Some r → c_time r <= 0 →
  softclock_loop call (S fuel) s =
    (pop ;; call (c_func r) (c_arg r) ;; softclock_loop call fuel) s.
Proof.
  intros Hinv Hr Hle. pose proof (co_todo _ _ _ Hinv) as (Htd & r0 & Hr0 & Hc).
  assert (r0 = r) as -> by congruence. clear Hr0. cbn [softclock_loop]. rewrite (bind_done _ _ _ _ _ (get_s_eq _)), Htd.
  rewrite (bind_done _ _ _ _ _ (getco_eq _ _ _ Hr)).
  replace (0 <? c_time r) with false by lia. unfold pop at 1.
  rewrite bind_assoc, (bind_done _ _ _ _ _ (get_s_eq _)), Htd. unfold untimeout_remove.
  rewrite bind_assoc, (bind_done _ _ _ _ _ (getco_eq _ _ _ Hr)).
  replace (0 <? c_time r) with false by lia.
  assert (E : ∀ o, (match o with Some c3 => when false
      (setco c3 (λ q, q <| c_time ::= Z.add (c_time r) |>)) | None => mret tt end : K unit) = mret tt).
  { by intros []. }
  rewrite E. rewrite bind_assoc, (bind_done _ _ _ _ _ (mret_eq _ _)). unfold set_next.
  rewrite bind_assoc, !(bind_done _ _ _ _ _ (modify_eq _ _)).
  rewrite bind_assoc, (bind_done _ _ _ _ _ (get_s_eq _)). rewrite bind_assoc.
  assert (Hr2 : callouts (s <| calltodo := co_next r |>) !! n = Some r) by done.
  change (callfree (s <| calltodo := co_next r |>)) with (callfree s).
  rewrite !(bind_done _ _ _ _ _ (setco_eq _ _ _ _ Hr2)). done.
Qed.

Lemma softclock_loop_idle call fuel s lt lf :
  co_inv s lt lf → due (pending s lt) = [] → softclock_loop call fuel s = Done tt s.
Proof.
  intros Hinv Hdue. pose proof (co_todo _ _ _ Hinv) as Hc. destruct lt as [|n lt].
  - simpl in Hc. destruct fuel; cbn [softclock_loop];
      rewrite (bind_done _ _ _ _ _ (get_s_eq _)); by rewrite Hc.
  - destruct Hc as (Htd & r & Hr & Hc). unfold pending, due in Hdue. cbn [agenda] in Hdue.
    rewrite (time_of_eq _ _ _ Hr) in Hdue.
    destruct (Z.ltb_spec 0 (c_time r)) as [Hp|Hp].
    + destruct fuel; cbn [softclock_loop]; rewrite (bind_done _ _ _ _ _ (get_s_eq _)), Htd;
        rewrite (bind_done _ _ _ _ _ (getco_eq _ _ _ Hr));
        by replace (0 <? c_time r) with true by lia.
    + rewrite filter_cons_True in Hdue by (simpl; lia). done.
Qed.

Lemma due_sched e l : e.1 ≠ 0 → due (sched e l) = due l.
Proof.
  intros He. induction l as [|x l IH]; simpl; [by rewrite due_cons, decide_False|].
  destruct (x.1 <? e.1).
  - by rewrite !due_cons, IH.
  - by rewrite due_cons, decide_False.
Qed.

Section calls.
Context (call : cofun → Z → K unit).
(** The functions called return, and leave the callouts that are due in place;
    each may count on the slot just freed. *)
Hypothesis Hcall : ∀ f a s lt lf, co_inv s lt lf → lf ≠ [] →
  ∃ s' lt' lf', call f a s = Done tt s' ∧ co_inv s' lt' lf' ∧
    due (pending s' lt') = due (pending s lt).

Lemma softclock_loop_spec s lt lf fuel :
  co_inv s lt lf → (length (due (pending s lt)) <= fuel)%nat →
  ∃ s' lt' lf', softclock_loop call fuel s = Done tt s' ∧ co_inv s' lt' lf' ∧
    due (pending s' lt') = [] ∧
    foldr (λ c k, pop ;; call c.1 c.2 ;; k) (mret tt) (due (pending s lt)) s = Done tt s'.
Proof.
  revert s lt lf. induction fuel as [|fuel IH]; intros s lt lf Hinv Hf.
  - apply Nat.le_0_r, length_zero_iff_nil in Hf. exists s, lt, lf.
    split_and!; [by eapply softclock_loop_idle|done|done|by rewrite Hf].
  - destruct (due (pending s lt)) as [|c cs] eqn:Hd.
    { exists s, lt, lf. split_and!; [by eapply softclock_loop_idle|done|done|done]. }
    destruct lt as [|n lt]; [done|].
    pose proof (co_todo _ _ _ Hinv) as (Htd & r & Hr & Hc).
    destruct (Z.ltb_spec 0 (c_time r)) as [Hp|Hp].
    { exfalso. unfold pending in Hd. cbn [agenda] in Hd.
      rewrite (time_of_eq _ _ _ Hr), due_cons, decide_False in Hd by (simpl; lia).
      by rewrite due_later in Hd by lia. }
    destruct (pop_spec s n lt lf Hinv) as (s1 & E1 & F1 & Hinv1 & Hpd);
      [by rewrite (time_of_eq _ _ _ Hr)|].
    rewrite Hpd, due_cons, decide_True in Hd by done. injection Hd as Hc1 Hd.
    destruct (Hcall (c_func r) (c_arg r) s1 lt (n :: lf) Hinv1 ltac:(done)) as
      (s2 & lt2 & lf2 & E2 & Hinv2 & Hd2).
    destruct (IH s2 lt2 lf2 Hinv2) as (s' & lt' & lf' & E & Hinv' & Hd' & Hfold).
    { simpl in Hf. rewrite Hd2, Hd. lia. }
    exists s', lt', lf'. split_and!; [|done|done|].
    + rewrite (softclock_loop_due _ _ _ _ _ _ _ Hinv Hr Hp).
      by rewrite (bind_done _ _ _ _ _ E1), (bind_done _ _ _ _ _ E2).
    + cbn [foldr]. rewrite (bind_done _ _ _ _ _ E1). rewrite <- Hc1, (call_of_eq _ _ _ Hr).
      cbn [fst snd]. rewrite (bind_done _ _ _ _ _ E2).
      by rewrite Hd2, Hd in Hfold.
Qed.
End calls.

(** ** [coutinit] *)

Lemma coutinit_links s k :
  (k < NCALL)%nat → (∀ i, (i < NCALL)%nat → ∃ r, callouts s !! i = Some r ∧ co_next r = None) →
  ∃ m', foldl (λ m i, m ;; setco (i - 1) (λ r, r <| co_next := Some i |>)) (mret tt)
      (seq 1 k) s = Done tt (s <| callouts := m' |>) ∧
    ∀ i, (i < NCALL)%nat → ∃ r, m' !! i = Some r ∧
      co_next r = if decide (i < k)%nat then Some (S i) else None.
Proof.
  intros Hk Hz. induction k as [|k IH].
  - exists (callouts s). split; [by destruct s|]. intros i Hi. destruct (Hz i Hi) as (r & Hr & Hn).
    exists r. by rewrite decide_False by lia.
  - destruct IH as (m' & E & Hm'); [lia|]. rewrite seq_S, foldl_app. cbn [foldl].
    destruct (Hm' k ltac:(lia)) as (r & Hr & _).
    exists (<[k := r <| co_next := Some (S k) |>]> m'). split.
    + rewrite (bind_done _ _ _ _ _ E). replace (1 + k - 1)%nat with k by lia.
      assert (Hr' : callouts (s <| callouts := m' |>) !! k = Some r) by exact Hr.
      by rewrite (setco_eq _ _ _ _ Hr').
    + intros i Hi. destruct (decide (i = k)) as [->|Hik].
      * rewrite lookup_insert_eq. eexists. split; [done|]. by rewrite decide_True by lia.
      * rewrite lookup_insert_ne by done. destruct (Hm' i Hi) as (q & Hq & Hn).
        exists q. split; [done|]. rewrite Hn. repeat case_decide; try done; lia.
Qed.

Lemma chain_seq (m : gmap nat callout) i k :
  (∀ j, (i <= j < i + k)%nat → ∃ r, m !! j = Some r ∧
    co_next r = if decide (S j < i + k)%nat then Some (S j) else None) →
  chain co_next m (if decide (0 < k)%nat then Some i else None) (seq i k).
Proof.
  revert i. induction k as [|k IH]; intros i Hm; [done|]. rewrite decide_True by lia.
  simpl. split; [done|]. destruct (Hm i) as (r & Hr & Hn); [lia|]. exists r. split; [done|].
  rewrite Hn. replace (decide (S i < i + S k)%nat) with (decide (S i < i + S k)%nat) by done.
  specialize (IH (S i)). destruct (decide (S i < i + S k)%nat) as [Hs|Hs].
  - rewrite decide_True in IH by lia. apply IH. intros j Hj. destruct (Hm j) as (q & Hq & Hqn); [lia|].
    exists q. split; [done|]. rewrite Hqn. repeat case_decide; try done; lia.
  - assert (k = 0)%nat as -> by lia. done.
Qed.

(** boot links all [NCALL] callouts into the free list and leaves none
    pending. *)
Theorem coutinit_establishes s :
  (0 < NCALL)%nat → calltodo s = None →
  (∀ i, (i < NCALL)%nat → ∃ r, callouts s !! i = Some r ∧ co_next r = None) →
  ∃ s', coutinit s = Done tt s' ∧ co_frame s s' ∧ co_inv s' [] (seq 0 NCALL).
Proof.
  intros Hpos Htd Hz. unfold coutinit. rewrite (bind_done _ _ _ _ _ (modify_eq _ _)).
  destruct (coutinit_links (s <| callfree := Some 0%nat |>) (NCALL - 1)) as (m' & E & Hm');
    [lia|done|].
  eexists. split; [exact E|]. split; [by destruct s|]. split; [done| |set_solver|constructor].
  simpl. pose proof (chain_seq m' 0 NCALL) as Hc. rewrite decide_True in Hc by lia. apply Hc.
  intros j Hj. destruct (Hm' j) as (r & Hr & Hn); [lia|]. exists r. split; [done|].
  rewrite Hn. repeat case_decide; try done; lia.
Qed.

(** C7: with a slot free, [timeout (f, a, t)] puts the call on the agenda,
    [max 1 t] ticks from now, ahead of those not due sooner, and moves no other;
    with none free it panics. *)
Theorem timeout_schedules f a t s lt lf :
  co_inv s lt lf →
  match lf with
  | [] => timeout f a t s = Panicked "timeout table overflow"
  | n :: lf' => ∃ s' l1 l2, lt = l1 ++ l2 ∧ timeout f a t s = Done tt s' ∧ co_frame s s' ∧
      co_inv s' (l1 ++ n :: l2) lf' ∧
      pending s' (l1 ++ n :: l2) = sched (Z.max 1 t, (f, a)) (pending s lt)
  end.
Proof.
  intros Hinv. destruct lf as [|n lf]; [|by apply timeout_spec].
  unfold timeout. rewrite (bind_done _ _ _ _ _ (get_s_eq _)). by rewrite (co_free _ _ _ Hinv).
Qed.

(** C17: [untimeout (f, a)] takes the first pending call of [f] with [a] off the
    agenda, frees its slot, and changes when no other call is due. *)
Theorem untimeout_cancels f a s lt lf :
  co_inv s lt lf →
  ∃ s' lt' lf', untimeout f a s = Done tt s' ∧ co_frame s s' ∧ co_inv s' lt' lf' ∧
    pending s' lt' = unsched (f, a) (pending s lt) ∧ (lt' ++ lf') ≡ₚ (lt ++ lf).
Proof. apply untimeout_spec. Qed.

(** C9: each clock interrupt brings every pending call one tick nearer, and asks
    for [softclock] exactly when some call is due. *)
Theorem hardclock_ticks s lt lf :
  co_inv s lt lf →
  ∃ s', hardclock_callouts s = Done (existsb (λ e, e.1 =? 0) (pending s' lt)) s' ∧
    co_frame s s' ∧ co_inv s' lt lf ∧ pending s' lt = tick <$> pending s lt.
Proof. apply hardclock_callouts_spec. Qed.

End callout.

(** * Witnesses *)

Definition layout0 : KLayout :=
  {| addr_of := λ c, match c with WChan _ i => 32 * i end;
     user_data_start := 0x2000000; user_data_end := 0x2040000; NPROC := 4; NCALL := 4 |}.

Ltac solve_overdue :=
  match goal with |- overdue_first ?l =>
    let v := eval vm_compute in l in change (overdue_first v) end;
  unfold overdue_first;
  repeat match goal with
  | |- StronglySorted _ _ => constructor
  | |- Forall _ _ => constructor
  end; lia.

(** Two calls pending, 3 and 5 ticks away, and two slots free. *)
Definition co_example : kstate :=
  kstate0 <| calltodo := Some 2%nat |> <| callfree := Some 1%nat |>
    <| callouts := {[ 0%nat := MkCo 2 7 (Cdriver 1) None; 1%nat := MkCo 0 0 Cschedcpu (Some 3%nat);
                      2%nat := MkCo 3 0 Cschedcpu (Some 0%nat); 3%nat := MkCo 0 0 Cschedcpu None ]} |>.
Lemma co_example_inv : co_inv co_example [2%nat; 0%nat] [1%nat; 3%nat].
Proof.
  split; [solve_chain|solve_chain|set_solver|].
  solve_overdue.
Defined.

Lemma coutinit_establishes_witness :
  ∃ s', coutinit (H0 := layout0) (kstate0 <| callouts :=
      {[ 0%nat := MkCo 0 0 Cschedcpu None; 1%nat := MkCo 0 0 Cschedcpu None;
         2%nat := MkCo 0 0 Cschedcpu None; 3%nat := MkCo 0 0 Cschedcpu None ]} |>) = Done tt s' ∧
    co_inv s' [] [0; 1; 2; 3]%nat.
Proof.
  destruct (coutinit_establishes (H0 := layout0) (kstate0 <| callouts :=
      {[ 0%nat := MkCo 0 0 Cschedcpu None; 1%nat := MkCo 0 0 Cschedcpu None;
         2%nat := MkCo 0 0 Cschedcpu None; 3%nat := MkCo 0 0 Cschedcpu None ]} |>)) as
    (s' & E & _ & Hinv).
  - simpl. lia.
  - done.
  - intros i Hi. simpl in Hi. do 4 (destruct i as [|i]; [eexists; split; reflexivity|]). lia.
  - exists s'. split; [exact E|exact Hinv].
Defined.

Lemma timeout_schedules_witness :
  ∃ s' lt', timeout Cendtsleep 1 4 co_example = Done tt s' ∧
    pending s' lt' = [(3, (Cschedcpu, 0)); (4, (Cendtsleep, 1)); (5, (Cdriver 1, 7))].
Proof.
  destruct (timeout_schedules Cendtsleep 1 4 co_example _ _ co_example_inv) as
    (s' & l1 & l2 & _ & E & _ & _ & Hp).
  exists s', (l1 ++ 1%nat :: l2). split; [exact E|]. rewrite Hp. vm_compute. reflexivity.
Defined.

Lemma untimeout_cancels_witness :
  ∃ s' lt', untimeout Cschedcpu 0 co_example = Done tt s' ∧
    pending s' lt' = [(5, (Cdriver 1, 7))].
Proof.
  destruct (untimeout_cancels Cschedcpu 0 co_example _ _ co_example_inv) as
    (s' & lt' & lf' & E & _ & _ & Hp & _).
  exists s', lt'. split; [exact E|]. rewrite Hp. vm_compute. reflexivity.
Defined.

Lemma hardclock_ticks_witness :
  ∃ s', hardclock_callouts co_example = Done false s' ∧
    pending s' [2; 0]%nat = [(2, (Cschedcpu, 0)); (4, (Cdriver 1, 7))].
Proof.
  destruct (hardclock_ticks co_example _ _ co_example_inv) as (s' & E & _ & _ & Hp).
  exists s'. rewrite Hp in E. split; [exact E|]. rewrite Hp. vm_compute. reflexivity.
Defined.

End Callout.
