(* ===== verification/Sched.v ===== *)
(** Processes: the process table's lists (kern/kern_proc.c) and the scheduler's
    run and sleep queues (kern/kern_synch.c). *)
From stdpp Require Import functions.
From S2P Require Import Prelude Buf Kernel Links.

Module Sched.
Section sched.
Context `{KConfig} `{KLayout}.

(** * kern_proc.c *)

(** Is [p] the current process or a descendant of it? *)
Fixpoint inferior_loop (fuel : nat) (p : nat) : K bool :=
  cur ← getu u_procp;
  if decide (p = cur) then mret true
  else
    r ← getp p;
    if p_ppid r =? 0 then mret false
    else
      match fuel with
      | O => nofuel
      | S fuel => q ← unless_none (p_pptr r); inferior_loop fuel q
      end.
Definition inferior (p : nat) : K bool :=
  s ← get_s; inferior_loop (size (procs s)) p.

Definition PIDHASH (pid : Z) : Z := Z.land pid 15.

Fixpoint pfind_loop (fuel : nat) (pid : Z) (p : option nat) : K (option nat) :=
  match p with
  | None => mret None
  | Some p =>
    r ← getp p;
    if p_pid r =? pid then mret (Some p)
    else
      match fuel with
      | O => nofuel
      | S fuel => pfind_loop fuel pid (p_hash r)
      end
  end.
Definition pfind (pid : Z) : K (option nat) :=
  s ← get_s; pfind_loop (size (procs s)) pid (pidhash s !! PIDHASH pid).

(** All slots but the first go on [freeproc], in order; [proc[0]] is all of
    [allproc]. *)
Definition pqinit : K unit :=
  modify (λ s, s <| freeproc := None |>) ;;
  foldr (λ p m, m ;;
      s ← get_s; setp p (λ r, r <| p_nxt := freeproc s |>) ;;
      modify (λ s, s <| freeproc := Some p |>))
    (mret tt) (seq 1 (NPROC - 1)) ;;
  modify (λ s, s <| allproc := Some 0%nat |>) ;;
  setp 0 (λ r, r <| p_nxt := None |> <| p_prev := Some AllProc |>) ;;
  modify (λ s, s <| zombproc := None |>).

(** * kern_synch.c *)

Definition HASH (c : wchan) : Z := Z.land (Z.shiftr (i32 (addr_of c)) 5) 15.

Definition setpri (pp : nat) : K Z :=
  r ← getp pp;
  let p := Z.land (p_cpu r) 0xff / 16 in
  let p := p + (PUSER + p_nice r) in
  let p := if 127 <? p then 127 else p in
  s ← get_s;
  when (p <? curpri s) (modify (λ s, s <| runrun ::= Z.succ |>)) ;;
  setp pp (λ r, r <| p_pri := cchar p |>) ;;
  mret p.

(** [SCHMAG] is the text [8/10]: [SCHMAG * a] parses as [(8/10) * a]. *)
Definition SCHMAG_times (a : Z) : Z := Z.quot 8 10 * a.

(** [while (a && --p->p_slptime) a = (SCHMAG * a);] *)
Fixpoint updatepri_loop (fuel : nat) (p : nat) (a : Z) : K Z :=
  if a =? 0 then mret a
  else
    setp p (λ r, r <| p_slptime ::= λ z, cchar (z - 1) |>) ;;
    r ← getp p;
    if p_slptime r =? 0 then mret a
    else
      match fuel with
      | O => nofuel
      | S fuel => updatepri_loop fuel p (SCHMAG_times a)
      end.

Definition updatepri (p : nat) : K unit :=
  r ← getp p;
  let a := Z.land (p_cpu r) 0xff in
  setp p (λ r, r <| p_slptime ::= λ z, cchar (z - 1) |>) ;;
  a ← updatepri_loop 256 p a;
  let a := if a <? 0 then 0 else a in
  let a := if 255 <? a then 255 else a in
  setp p (λ r, r <| p_cpu := cchar a |>) ;;
  _ ← setpri p;
  mret tt.

(** The [DIAGNOSTIC] check of [setrq]. *)
Fixpoint setrq_check (fuel : nat) (p : nat) (q : option nat) : K unit :=
  match q with
  | None => mret tt
  | Some q =>
    if decide (q = p) then panic "setrq"
    else
      r ← getp q;
      match fuel with
      | O => nofuel
      | S fuel => setrq_check fuel p (p_link r)
      end
  end.

Definition setrq (p : nat) : K unit :=
  s ← get_s;
  when DIAGNOSTIC (setrq_check (size (procs s)) p (qs s)) ;;
  setp p (λ r, r <| p_link := qs s |>) ;;
  modify (λ s, s <| qs := Some p |>).

Fixpoint remrq_loop (fuel : nat) (p : nat) (q : option nat) : K unit :=
  match q with
  | None => panic "remrq"
  | Some q =>
    r ← getp q;
    if decide (p_link r = Some p) then
      rp ← getp p; setp q (λ r, r <| p_link := p_link rp |>)
    else
      match fuel with
      | O => nofuel
      | S fuel => remrq_loop fuel p (p_link r)
      end
  end.

Definition remrq (p : nat) : K unit :=
  s ← get_s;
  if decide (qs s = Some p) then
    r ← getp p; modify (λ s, s <| qs := p_link r |>)
  else remrq_loop (size (procs s)) p (qs s).

(** [*q], where [q] is the head of a sleep queue ([None]) or the link of a
    process in it. *)
Definition get_slink (h : Z) (q : option nat) : K (option nat) :=
  match q with
  | None => gets (λ s, slpque s !! h)
  | Some p => r ← getp p; mret (p_link r)
  end.
Definition set_slink (h : Z) (q : option nat) (v : option nat) : K unit :=
  match q with
  | None => modify (λ s, s <| slpque ::= partial_alter (λ _, v) h |>)
  | Some p => setp p (λ r, r <| p_link := v |>)
  end.

(** [while ( *hp != p) hp = &( *hp)->p_link;] *)
Fixpoint unsleep_find (fuel : nat) (h : Z) (p : nat) (hp : option nat) : K (option nat) :=
  q ← get_slink h hp;
  if decide (q = Some p) then mret hp
  else
    match q, fuel with
    | None, _ => fault
    | Some q, S fuel => unsleep_find fuel h p (Some q)
    | Some _, O => nofuel
    end.

Definition unsleep (p : nat) : K unit :=
  r ← getp p;
  match p_wchan r with
  | None => mret tt
  | Some c =>
    s ← get_s;
    hp ← unsleep_find (size (procs s)) (HASH c) p None;
    r ← getp p;
    set_slink (HASH c) hp (p_link r) ;;
    setp p (λ r, r <| p_wchan := None |>)
  end.

Definition c_runout : wchan := WChan "runout" 0.

(** The start of its inline expansion of [setrun]. *)
Definition wakeup_run (p : nat) (r : proc) : K unit :=
  when (1 <? p_slptime r) (updatepri p) ;;
  setp p (λ r, r <| p_slptime := 0 |>) ;;
  setp p (λ r, r <| p_stat := SRUN |>) ;;
  when (has (p_flag r) SLOAD) (setrq p) ;;
  modify (λ s, s <| runrun ::= Z.succ |>).

(** The loop of [wakeup], from the link [q] on; a process made runnable sends
    the search back to the head of the queue. *)
Fixpoint wakeup_loop (fuel : nat) (chan : wchan) (q : option nat) : K unit :=
  match fuel with
  | O => nofuel
  | S fuel =>
    o ← get_slink (HASH chan) q;
    match o with
    | None => mret tt
    | Some p =>
      r ← getp p;
      if negb (p_stat r =? SSLEEP) && negb (p_stat r =? SSTOP) then panic "wakeup"
      else if decide (p_wchan r = Some chan) then
        setp p (λ r, r <| p_wchan := None |>) ;;
        set_slink (HASH chan) q (p_link r) ;;
        if p_stat r =? SSLEEP then
          wakeup_run p r ;;
          s ← get_s;
          when (negb (has (p_flag r) SLOAD) && negb (runout s =? 0))
            (modify (λ s, s <| runout := 0 |>) ;; wakeup_loop fuel c_runout None) ;;
          wakeup_loop fuel chan None
        else
          setp p (λ r, r <| p_slptime := 0 |>) ;;
          wakeup_loop fuel chan q
      else wakeup_loop fuel chan (Some p)
    end
  end.

(** With [n] processes a wakeup takes at most [n * (n + 1) + n + 1] steps, and
    can start one more. *)
Definition wakeup_fuel (n : nat) : nat := 2 * ((n + 1) * (n + 1)).
Definition wakeup (chan : wchan) : K unit :=
  s ← get_s; wakeup_loop (wakeup_fuel (size (procs s))) chan None.

Definition setrun (p : nat) : K unit :=
  r ← getp p;
  (if (p_stat r =? SSTOP) || (p_stat r =? SSLEEP) then unsleep p
   else if p_stat r =? SIDL then mret tt
   else panic "setrun") ;;
  when (1 <? p_slptime r) (updatepri p) ;;
  setp p (λ r, r <| p_stat := SRUN |>) ;;
  when (has (p_flag r) SLOAD) (setrq p) ;;
  r ← getp p;
  s ← get_s;
  when (p_pri r <? curpri s) (modify (λ s, s <| runrun ::= Z.succ |>)) ;;
  when (negb (has (p_flag r) SLOAD) && negb (runout s =? 0))
    (modify (λ s, s <| runout := 0 |>) ;; wakeup c_runout).

(** The search of [swtch] for the best loaded process: it, its predecessor and
    its priority. *)
Fixpoint swtch_search (fuel : nat) (p q pp pq : option nat) (n : Z) :
    K (option nat * option nat * Z) :=
  match p with
  | None => mret (pp, pq, n)
  | Some i =>
    r ← getp i;
    match fuel with
    | O => nofuel
    | S fuel =>
      if has (p_flag r) SLOAD && (p_pri r <? n)
      then swtch_search fuel (p_link r) (Some i) (Some i) q (p_pri r)
      else swtch_search fuel (p_link r) (Some i) pp pq n
    end
  end.

Fixpoint swtch_check (fuel : nat) (p : option nat) : K unit :=
  match p with
  | None => mret tt
  | Some i =>
    r ← getp i;
    if negb (p_stat r =? SRUN) then panic "swtch SRUN"
    else
      match fuel with
      | O => nofuel
      | S fuel => swtch_check fuel (p_link r)
      end
  end.

(** One pass of the loop of [swtch]: the process to resume and whether at its
    [u_ssave], or [None] where the code idles and looks again. *)
Definition swtch_pick : K (option (nat * bool)) :=
  modify (λ s, s <| noproc := 0 |> <| runrun := 0 |>) ;;
  s ← get_s;
  when DIAGNOSTIC (swtch_check (size (procs s)) (qs s)) ;;
  '(pp, pq, n) ← swtch_search (size (procs s)) (qs s) None None None 128;
  match pp with
  | None => mret None
  | Some p =>
    r ← getp p;
    match pq with
    | Some q => setp q (λ q, q <| p_link := p_link r |>)
    | None => modify (λ s, s <| qs := p_link r |>)
    end ;;
    modify (λ s, s <| curpri := cchar n |>) ;;
    r ← getp p;
    setp p (λ r, r <| p_flag ::= λ f, clrf f SSWAP |>) ;;
    mret (Some (p, has (p_flag r) SSWAP))
  end.

(** * The queues' invariant

    [rl] is the run queue and [sq h] the [h]th sleep queue: what is on the run
    queue is runnable and waits for nothing; what is on a sleep queue is asleep
    or stopped, on a channel of that queue; what waits for a channel is on its
    queue. *)
Record sched_inv (s : kstate) (rl : list nat) (sq : Z → list nat) : Prop := {
  si_run : chain p_link (procs s) (qs s) rl;
  si_slp : ∀ h, chain p_link (procs s) (slpque s !! h) (sq h);
  si_runp : ∀ p, p ∈ rl → ∃ r, procs s !! p = Some r ∧ p_wchan r = None ∧ p_stat r = SRUN;
  si_slpp : ∀ h p, p ∈ sq h → ∃ r c, procs s !! p = Some r ∧ p_wchan r = Some c ∧
    HASH c = h ∧ (p_stat r = SSLEEP ∨ p_stat r = SSTOP);
  si_all : ∀ p r c, procs s !! p = Some r → p_wchan r = Some c → p ∈ sq (HASH c);
}.

(** Only the process table, the queues and the scheduling flags changed. *)
Definition sched_frame (s s' : kstate) : Prop :=
  s' = s <| procs := procs s' |> <| qs := qs s' |> <| slpque := slpque s' |>
         <| runrun := runrun s' |> <| runout := runout s' |>.
Lemma sched_frame_refl s : sched_frame s s.
Proof. by destruct s. Qed.
Lemma sched_frame_trans s1 s2 s3 : sched_frame s1 s2 → sched_frame s2 s3 → sched_frame s1 s3.
Proof. unfold sched_frame. intros H1 H2. rewrite H2. rewrite H1. by destruct s1. Qed.

Lemma sched_inv_ext s s' rl sq :
  procs s' = procs s → qs s' = qs s → slpque s' = slpque s →
  sched_inv s rl sq → sched_inv s' rl sq.
Proof. intros E1 E2 E3 []. split; rewrite ?E1, ?E2, ?E3; eauto. Qed.

(** Updating other fields of a process. *)
Lemma sched_inv_setp s rl sq p r r' :
  procs s !! p = Some r → p_link r' = p_link r → p_wchan r' = p_wchan r →
  p_stat r' = p_stat r → sched_inv s rl sq →
  sched_inv (s <| procs ::= <[p := r']> |>) rl sq.
Proof.
  intros Hr Hl Hw Hst [H1 H2 H3 H4 H5]. split; simpl.
  - by eapply chain_insert_nxt.
  - intros h. by eapply chain_insert_nxt.
  - intros k Hk. destruct (H3 k Hk) as (q & Hq & ?). destruct (decide (k = p)) as [->|Hkp].
    + simplify_eq. exists r'. rewrite lookup_insert_eq, Hw, Hst. naive_solver.
    + exists q. by rewrite lookup_insert_ne.
  - intros h k Hk. destruct (H4 h k Hk) as (q & c & Hq & ?). destruct (decide (k = p)) as [->|Hkp].
    + simplify_eq. exists r', c. rewrite lookup_insert_eq, Hw, Hst. naive_solver.
    + exists q, c. by rewrite lookup_insert_ne.
  - intros k q c. destruct (decide (k = p)) as [->|Hkp].
    + rewrite lookup_insert_eq. intros [= <-] Hc. rewrite Hw in Hc. eauto.
    + rewrite lookup_insert_ne by done. eauto.
Qed.

(** The run queue and the sleep queues share no process. *)
Lemma sched_disj s rl sq h p : sched_inv s rl sq → p ∈ sq h → p ∉ rl.
Proof.
  intros Hi Hp Hr. destruct (si_runp _ _ _ Hi p Hr) as (r & E & Hw & _).
  destruct (si_slpp _ _ _ Hi h p Hp) as (r' & c & E' & Hw' & _). congruence.
Qed.
Lemma sched_disj_slp s rl sq h h' p : sched_inv s rl sq → p ∈ sq h → p ∈ sq h' → h = h'.
Proof.
  intros Hi Hp Hp'. destruct (si_slpp _ _ _ Hi h p Hp) as (r & c & E & Hw & <- & _).
  destruct (si_slpp _ _ _ Hi h' p Hp') as (r' & c' & E' & Hw' & <- & _). congruence.
Qed.

(** Take [p] off the [h]th sleep queue, after [l1]. *)
Definition slink_map (l1 : list nat) (v : option nat) (m : gmap nat proc) : gmap nat proc :=
  match last l1 with Some q => alter (λ r, r <| p_link := v |>) q m | None => m end.
Definition slink_head (h : Z) (l1 : list nat) (v : option nat) (m : gmap Z nat) : gmap Z nat :=
  match last l1 with Some q => m | None => partial_alter (λ _, v) h m end.

Lemma slink_map_other l1 v m k : last l1 ≠ Some k → slink_map l1 v m !! k = m !! k.
Proof.
  unfold slink_map. destruct (last l1) as [q|]; intros Hk; [|done].
  apply lookup_alter_ne. congruence.
Qed.
(** Up to the links, nothing moved. *)
Lemma slink_map_lookup l1 v m k :
  ∃ l, slink_map l1 v m !! k = (λ r, r <| p_link := l r |>) <$> m !! k.
Proof.
  destruct (decide (last l1 = Some k)) as [E|E].
  - exists (λ _, v). unfold slink_map. rewrite E. apply lookup_alter_eq.
  - exists p_link. rewrite slink_map_other by done. by destruct (m !! k) as [[]|].
Qed.

Lemma set_slink_eq s h l1 v :
  (∀ q, last l1 = Some q → is_Some (procs s !! q)) →
  set_slink h (last l1) v s = Done tt (s <| procs ::= slink_map l1 v |> <| slpque ::= slink_head h l1 v |>).
Proof.
  intros Hq. unfold slink_map, slink_head. destruct (last l1) as [q|]; [|by destruct s].
  destruct (Hq q eq_refl) as [r Hr]. simpl. rewrite (setp_eq _ _ _ _ Hr).
  unfold upd. simpl. do 2 f_equal.
  apply map_eq. intros k. destruct (decide (k = q)) as [->|Hk].
  - by rewrite lookup_insert_eq, lookup_alter_eq, Hr.
  - by rewrite lookup_insert_ne, lookup_alter_ne.
Qed.

Lemma get_slink_eq s h l1 l2 :
  chain p_link (procs s) (slpque s !! h) (l1 ++ l2) →
  get_slink h (last l1) s = Done (head l2) s.
Proof.
  intros Hc. destruct l1 as [|n l1 _] using rev_ind; simpl in *.
  - destruct l2; simpl in Hc; unfold gets; [by rewrite Hc|]. by destruct Hc as [-> _].
  - rewrite last_snoc. simpl. rewrite <- app_assoc in Hc.
    apply chain_drop in Hc as (r & Hr & Hc).
    mstep (getp_eq _ _ _ Hr). rewrite mret_eq. f_equal.
    destruct l2; [done|]. by destruct Hc as [-> _].
Qed.

Lemma slink_map_comm l1 v p x m :
  p ∉ l1 → slink_map l1 v (<[p := x]> m) = <[p := x]> (slink_map l1 v m).
Proof.
  intros Hp. unfold slink_map. destruct (last l1) as [q|] eqn:E; [|done].
  assert (q ≠ p) by (intros ->; by apply last_Some_elem_of in E).
  by rewrite alter_insert_ne.
Qed.

Definition dequeued (s : kstate) (h : Z) (l1 : list nat) (p : nat) (r : proc) : kstate :=
  s <| procs ::= λ m, <[p := r <| p_wchan := None |>]> (slink_map l1 (p_link r) m) |>
    <| slpque ::= slink_head h l1 (p_link r) |>.

Lemma chain_slink m hd l1 p l2 r :
  chain p_link m hd (l1 ++ p :: l2) → m !! p = Some r →
  chain p_link (slink_map l1 (p_link r) m) (if last l1 is Some _ then hd else p_link r) (l1 ++ l2).
Proof.
  intros Hc Hr. pose proof (chain_NoDup _ _ _ _ Hc) as Hnd.
  destruct (chain_drop _ _ _ _ _ _ Hc) as (r' & Hr' & Hc2). simplify_eq.
  destruct l1 as [|q l1 _] using rev_ind; [done|]. rewrite last_snoc. unfold slink_map.
  rewrite last_snoc. rewrite <- app_assoc in Hc. simpl in Hc.
  destruct (chain_elem _ _ _ _ q Hc) as [rq Hrq]; [set_solver|].
  rewrite <- app_assoc. simpl.
  replace (alter _ q m) with (<[q := rq <| p_link := p_link r |>]> m).
  - eapply chain_set_nxt; [exact Hc|done|]. apply NoDup_app in Hnd. set_solver.
  - apply map_eq. intros k. destruct (decide (k = q)) as [->|Hk].
    + by rewrite lookup_insert_eq, lookup_alter_eq, Hrq.
    + by rewrite lookup_insert_ne, lookup_alter_ne.
Qed.

Lemma dequeued_inv s rl sq h l1 p l2 r :
  sched_inv s rl sq → sq h = l1 ++ p :: l2 → procs s !! p = Some r →
  sched_inv (dequeued s h l1 p r) rl (<[h := l1 ++ l2]> sq).
Proof.
  intros Hi Hsq Hr. pose proof (si_slp _ _ _ Hi h) as Hch. rewrite Hsq in Hch.
  pose proof (chain_NoDup _ _ _ _ Hch) as (Hnd1 & Hnd12 & [Hp2 Hnd2]%NoDup_cons)%NoDup_app.
  assert (Hmem : ∀ k, k ∈ l1 ++ p :: l2 → k ∈ sq h) by (by rewrite Hsq).
  assert (Hag : ∀ (l : list nat) k, k ∈ l → k ≠ p → k ∉ l1 →
    p_link <$> procs (dequeued s h l1 p r) !! k = p_link <$> procs s !! k).
  { intros l k _ Hkp Hk1. simpl. rewrite lookup_insert_ne by done. rewrite slink_map_other; [done|].
    intros E. by apply last_Some_elem_of in E. }
  assert (Hlk : ∀ k q, procs (dequeued s h l1 p r) !! k = Some q → k ≠ p →
    ∃ q0, procs s !! k = Some q0 ∧ p_wchan q = p_wchan q0 ∧ p_stat q = p_stat q0).
  { intros k q. simpl. intros E Hkp. rewrite lookup_insert_ne in E by done.
    destruct (slink_map_lookup l1 (p_link r) (procs s) k) as [f Hf]. rewrite Hf in E.
    destruct (procs s !! k) as [q0|]; [|done]. injection E as <-. by exists q0. }
  assert (Hlk' : ∀ k q0, procs s !! k = Some q0 → k ≠ p →
    ∃ q, procs (dequeued s h l1 p r) !! k = Some q ∧ p_wchan q = p_wchan q0 ∧ p_stat q = p_stat q0).
  { intros k q0 E Hkp. simpl. rewrite lookup_insert_ne by done.
    destruct (slink_map_lookup l1 (p_link r) (procs s) k) as [f ->]. rewrite E. by eexists. }
  split.
  - simpl. apply chain_agree with (m := procs s); [|apply Hi]. intros k Hk.
    assert (Hns : k ∉ sq h) by (intros Hs; by eapply sched_disj). rewrite Hsq in Hns.
    apply (Hag rl); set_solver.
  - intros h'. destruct (decide (h = h')) as [<-|Hh].
    + rewrite fn_lookup_insert. simpl. apply chain_insert_ne; [set_solver|].
      pose proof (chain_slink _ _ _ _ _ _ Hch Hr) as G. unfold slink_head.
      destruct (last l1); [done|]. by rewrite lookup_partial_alter_eq.
    + rewrite fn_lookup_insert_ne by done. simpl.
      replace (slink_head h l1 (p_link r) (slpque s) !! h') with (slpque s !! h').
      2:{ unfold slink_head. destruct (last l1); [done|]. by rewrite lookup_partial_alter_ne. }
      apply chain_agree with (m := procs s); [|apply Hi]. intros k Hk.
      assert (Hns : k ∉ sq h) by (intros Hs; apply Hh; by eapply sched_disj_slp). rewrite Hsq in Hns.
      apply (Hag (sq h')); set_solver.
  - intros k Hk. destruct (si_runp _ _ _ Hi k Hk) as (q & Hq & Hw & Hst).
    destruct (Hlk' k q Hq) as (q' & Hq' & E1 & E2).
    { intros ->. apply (sched_disj s rl sq h p Hi); [|done]. apply Hmem. set_solver. }
    exists q'. by rewrite E1, E2.
  - intros h' k Hk.
    assert (Hk' : k ∈ sq h' ∧ k ≠ p).
    { destruct (decide (h = h')) as [<-|Hh].
      - rewrite fn_lookup_insert in Hk. set_solver.
      - rewrite fn_lookup_insert_ne in Hk by done. split; [done|]. intros ->. apply Hh.
        eapply sched_disj_slp; [done| |done]. apply Hmem. set_solver. }
    destruct Hk' as [Hk1 Hkp]. destruct (si_slpp _ _ _ Hi h' k Hk1) as (q & c & Hq & Hw & Hc & Hst).
    destruct (Hlk' k q Hq Hkp) as (q' & Hq' & E1 & E2). exists q', c. by rewrite E1, E2.
  - intros k q c Hq Hc. destruct (decide (k = p)) as [->|Hkp].
    { simpl in Hq. rewrite lookup_insert_eq in Hq. by injection Hq as <-. }
    destruct (Hlk k q Hq Hkp) as (q0 & Hq0 & E1 & _). rewrite E1 in Hc.
    pose proof (si_all _ _ _ Hi k q0 c Hq0 Hc) as Hin.
    destruct (decide (h = HASH c)) as [->|Hh].
    + rewrite fn_lookup_insert. rewrite Hsq in Hin. set_solver.
    + by rewrite fn_lookup_insert_ne.
Qed.

(** * [unsleep] *)

Lemma unsleep_find_spec s h l1 l2 p l3 fuel :
  chain p_link (procs s) (slpque s !! h) (l1 ++ l2 ++ p :: l3) → (length l2 <= fuel)%nat →
  unsleep_find fuel h p (last l1) s = Done (last (l1 ++ l2)) s.
Proof.
  revert l1 fuel. induction l2 as [|n l2 IH]; intros l1 fuel Hc Hf.
  - rewrite app_nil_r. destruct fuel; cbn [unsleep_find];
      rewrite (bind_done _ _ _ _ _ (get_slink_eq s h l1 _ Hc)); cbn [head app];
      by rewrite decide_True.
  - destruct fuel as [|fuel]; simpl in Hf; [lia|]. cbn [unsleep_find].
    rewrite (bind_done _ _ _ _ _ (get_slink_eq s h l1 _ Hc)). cbn [head app].
    pose proof (chain_NoDup _ _ _ _ Hc) as (_ & _ & [Hn _]%NoDup_cons)%NoDup_app.
    rewrite decide_False by (intros [= ->]; set_solver).
    specialize (IH (l1 ++ [n]) fuel). rewrite last_snoc, <- !app_assoc in IH.
    apply IH; [done|lia].
Qed.

Lemma unsleep_asleep s rl sq p r c :
  sched_inv s rl sq → procs s !! p = Some r → p_wchan r = Some c →
  ∃ l1 l2, sq (HASH c) = l1 ++ p :: l2 ∧
    unsleep p s = Done tt (dequeued s (HASH c) l1 p r).
Proof.
  intros Hi Hr Hc. pose proof (si_all _ _ _ Hi p r c Hr Hc) as Hin.
  apply list_elem_of_split in Hin as (l1 & l2 & E). exists l1, l2. split; [done|].
  pose proof (si_slp _ _ _ Hi (HASH c)) as Hch. rewrite E in Hch.
  pose proof (chain_NoDup _ _ _ _ Hch) as (_ & Hd & _)%NoDup_app.
  pose proof (chain_length _ _ _ _ Hch) as Hlen. rewrite length_app in Hlen. simpl in Hlen.
  unfold unsleep. rewrite (bind_done _ _ _ _ _ (getp_eq _ _ _ Hr)), Hc.
  rewrite (bind_done _ _ _ _ _ (get_s_eq _)).
  pose proof (unsleep_find_spec s (HASH c) [] l1 p l2 (size (procs s))) as Ef. simpl in Ef.
  rewrite (bind_done _ _ _ _ _ (Ef Hch ltac:(lia))).
  rewrite (bind_done _ _ _ _ _ (getp_eq _ _ _ Hr)).
  assert (Hl : ∀ q, last l1 = Some q → is_Some (procs s !! q) ∧ q ≠ p).
  { intros q Hq. apply last_Some_elem_of in Hq. split; [|set_solver].
    eapply chain_elem; [exact Hch|]. set_solver. }
  rewrite (bind_done _ _ _ _ _ (set_slink_eq s (HASH c) l1 (p_link r) ltac:(naive_solver))).
  erewrite setp_eq; [done|]. simpl. rewrite slink_map_other; [exact Hr|].
  intros Hq. by destruct (Hl p Hq).
Qed.

Lemma unsleep_awake s p r :
  procs s !! p = Some r → p_wchan r = None → unsleep p s = Done tt s.
Proof.
  intros Hr Hc. unfold unsleep. by rewrite (bind_done _ _ _ _ _ (getp_eq _ _ _ Hr)), Hc.
Qed.

(** * Priorities and the run queue *)

Definition setpri_val (r : proc) : Z :=
  let p := Z.land (p_cpu r) 0xff / 16 + (PUSER + p_nice r) in
  if 127 <? p then 127 else p.

Lemma setpri_spec s p r :
  procs s !! p = Some r →
  setpri p s = Done (setpri_val r)
    (s <| runrun ::= λ n, if setpri_val r <? curpri s then Z.succ n else n |>
       <| procs ::= <[p := r <| p_pri := cchar (setpri_val r) |>]> |>).
Proof.
  intros Hr. unfold setpri. rewrite (bind_done _ _ _ _ _ (getp_eq _ _ _ Hr)).
  rewrite (bind_done _ _ _ _ _ (get_s_eq _)). fold (setpri_val r).
  destruct (setpri_val r <? curpri s).
  - unfold when. rewrite (bind_done _ _ _ _ _ (modify_eq _ _)).
    by erewrite bind_done by (by apply setp_eq).
  - unfold when. rewrite (bind_done _ _ _ _ _ (mret_eq _ _)).
    erewrite bind_done by (by apply setp_eq). by destruct s.
Qed.

(** The record [updatepri] leaves. *)
Definition updatepri_rec (r : proc) : proc :=
  let a := Z.land (p_cpu r) 0xff in
  let s1 := cchar (p_slptime r - 1) in
  let s2 := cchar (s1 - 1) in
  let r := r <| p_slptime := if a =? 0 then s1 else s2 |>
             <| p_cpu := cchar (if s2 =? 0 then a else 0) |> in
  r <| p_pri := cchar (setpri_val r) |>.

Lemma land255_range z : 0 <= Z.land z 0xff < 256.
Proof. change 0xff with (Z.ones 8). rewrite Z.land_ones by lia. by apply Z.mod_pos_bound. Qed.

Lemma updatepri_spec s p r :
  procs s !! p = Some r →
  ∃ n, updatepri p s = Done tt (s <| runrun := n |> <| procs ::= <[p := updatepri_rec r]> |>).
Proof.
  intros Hr. unfold updatepri. rewrite (bind_done _ _ _ _ _ (getp_eq _ _ _ Hr)).
  rewrite (bind_done _ _ _ _ _ (setp_eq _ _ _ _ Hr)).
  set (a := Z.land (p_cpu r) 0xff). pose proof (land255_range (p_cpu r)) as Ha. fold a in Ha.
  set (s1 := cchar (p_slptime r - 1)). set (s2 := cchar (s1 - 1)).
  set (r1 := r <| p_slptime ::= λ z, cchar (z - 1) |>).
  set (st := s <| procs ::= <[p := r1]> |>).
  assert (Hr1 : procs st !! p = Some r1) by apply lookup_insert_eq.
  set (r2 := r <| p_slptime := if a =? 0 then s1 else s2 |>).
  assert (E : updatepri_loop 256 p a st = Done (if s2 =? 0 then a else 0)
    (s <| procs ::= <[p := r2]> |>)).
  { change 256%nat with (S (S 254)). cbn [updatepri_loop].
    destruct (Z.eqb_spec a 0) as [E0|E0].
    - rewrite E0 in *. rewrite mret_eq. unfold r2. by destruct (s2 =? 0).
    - rewrite (bind_done _ _ _ _ _ (setp_eq _ _ _ _ Hr1)).
      set (r3 := r1 <| p_slptime ::= λ z, cchar (z - 1) |>).
      assert (Es : st <| procs ::= <[p := r3]> |> = s <| procs ::= <[p := r2]> |>).
      { unfold st, upd. simpl. f_equal. apply insert_insert_eq. }
      rewrite Es.
      assert (Hr3 : procs (s <| procs ::= <[p := r2]> |>) !! p = Some r2) by apply lookup_insert_eq.
      rewrite (bind_done _ _ _ _ _ (getp_eq _ _ _ Hr3)).
      change (p_slptime r2) with s2. by destruct (s2 =? 0). }
  rewrite (bind_done _ _ _ _ _ E).
  set (b := if s2 =? 0 then a else 0).
  replace (if 255 <? (if b <? 0 then 0 else b) then 255 else if b <? 0 then 0 else b) with b.
  2:{ unfold b. destruct (s2 =? 0); [|done].
      destruct (Z.ltb_spec a 0); [lia|]. destruct (Z.ltb_spec 255 a); lia. }
  assert (Hr2 : procs (s <| procs ::= <[p := r2]> |>) !! p = Some r2) by apply lookup_insert_eq.
  rewrite (bind_done _ _ _ _ _ (setp_eq _ _ _ _ Hr2)).
  erewrite bind_done by (apply setpri_spec; apply lookup_insert_eq).
  rewrite mret_eq. eexists. f_equal. unfold upd. simpl. f_equal.
  rewrite !insert_insert_eq. done.
Qed.

Lemma setrq_check_spec s p q l fuel :
  chain p_link (procs s) q l → p ∉ l → (length l <= fuel)%nat →
  setrq_check fuel p q s = Done tt s.
Proof.
  revert q fuel. induction l as [|n l IH]; intros q fuel Hc Hp Hf.
  - simpl in Hc. subst q. by destruct fuel.
  - destruct Hc as (-> & r & Hr & Hc). destruct fuel as [|fuel]; simpl in Hf; [lia|].
    cbn [setrq_check]. rewrite decide_False by set_solver.
    rewrite (bind_done _ _ _ _ _ (getp_eq _ _ _ Hr)). apply IH; [done|set_solver|lia].
Qed.

Lemma setrq_spec s p r rl :
  chain p_link (procs s) (qs s) rl → p ∉ rl → procs s !! p = Some r →
  setrq p s = Done tt (s <| procs ::= <[p := r <| p_link := qs s |>]> |> <| qs := Some p |>).
Proof.
  intros Hc Hp Hr. unfold setrq. rewrite (bind_done _ _ _ _ _ (get_s_eq _)).
  assert (E : when DIAGNOSTIC (setrq_check (size (procs s)) p (qs s)) s = Done tt s).
  { unfold when. destruct DIAGNOSTIC; [|done].
    eapply setrq_check_spec; [done|done|by eapply chain_length]. }
  rewrite (bind_done _ _ _ _ _ E). by rewrite (bind_done _ _ _ _ _ (setp_eq _ _ _ _ Hr)).
Qed.

(** A process in no queue that is runnable may join the run queue. *)
Lemma sched_inv_setrq s rl sq p r :
  sched_inv s rl sq → procs s !! p = Some r → p ∉ rl → p_wchan r = None → p_stat r = SRUN →
  sched_inv (s <| procs ::= <[p := r <| p_link := qs s |>]> |> <| qs := Some p |>) (p :: rl) sq.
Proof.
  intros Hi Hr Hp Hw Hst.
  assert (Hns : ∀ h, p ∉ sq h).
  { intros h Hin. destruct (si_slpp _ _ _ Hi h p Hin) as (r' & c & Hr' & Hw' & _). congruence. }
  split; simpl.
  - split; [done|]. eexists. rewrite lookup_insert_eq. split; [done|].
    apply chain_insert_ne; [done|]. apply Hi.
  - intros h. apply chain_insert_ne; [done|]. apply Hi.
  - intros k [->|Hk]%elem_of_cons.
    + eexists. by rewrite lookup_insert_eq.
    + destruct (si_runp _ _ _ Hi k Hk) as (q & ?). exists q. rewrite lookup_insert_ne; [done|set_solver].
  - intros h k Hk. destruct (si_slpp _ _ _ Hi h k Hk) as (q & c & ?). exists q, c.
    rewrite lookup_insert_ne; [done|]. intros ->. by apply (Hns h).
  - intros k q c. destruct (decide (k = p)) as [->|Hk].
    + rewrite lookup_insert_eq. intros [= <-]. simpl. congruence.
    + rewrite lookup_insert_ne by done. apply Hi.
Qed.

(** * [wakeup] *)

(** What waking up makes of a process, its link apart: one that sleeps becomes
    runnable, with its priority recomputed if it slept for long; one that is
    stopped stays stopped, and waits for nothing. *)
Definition wake_rec (r : proc) : proc :=
  let r' := if p_stat r =? SSLEEP
    then (if 1 <? p_slptime r then updatepri_rec r else r) <| p_stat := SRUN |> else r in
  r' <| p_wchan := None |> <| p_slptime := 0 |>.

Definition run_next (rl : list nat) (p : nat) (r : proc) : list nat :=
  if has (p_flag r) SLOAD then p :: rl else rl.

Lemma sched_frame_upd s m q n :
  sched_frame s (s <| procs := m |> <| qs := q |> <| runrun := n |>).
Proof. by destruct s. Qed.

(** Two updates of a process make one. *)
Lemma setp_again s n p r f :
  setp p f (s <| runrun := n |> <| procs ::= <[p := r]> |>) =
    Done tt (s <| runrun := n |> <| procs ::= <[p := f r]> |>).
Proof.
  erewrite setp_eq by apply lookup_insert_eq. f_equal. unfold upd. simpl.
  by rewrite insert_insert_eq.
Qed.

(** Updating a process that is in no queue. *)
Lemma sched_inv_free s rl sq p r r' :
  procs s !! p = Some r → p_wchan r = None → p ∉ rl → p_wchan r' = None →
  sched_inv s rl sq → sched_inv (s <| procs ::= <[p := r']> |>) rl sq.
Proof.
  intros Hr Hw Hp Hw' Hi.
  assert (Hns : ∀ h, p ∉ sq h).
  { intros h Hin. destruct (si_slpp _ _ _ Hi h p Hin) as (q & c & Hq & Hwq & _). congruence. }
  split; simpl.
  - apply chain_insert_ne; [done|]. apply Hi.
  - intros h. apply chain_insert_ne; [done|]. apply Hi.
  - intros k Hk. destruct (si_runp _ _ _ Hi k Hk) as (q & ?). exists q.
    rewrite lookup_insert_ne; [done|set_solver].
  - intros h k Hk. destruct (si_slpp _ _ _ Hi h k Hk) as (q & c & ?). exists q, c.
    rewrite lookup_insert_ne; [done|]. intros ->. by apply (Hns h).
  - intros k q c. destruct (decide (k = p)) as [->|Hk].
    + rewrite lookup_insert_eq. intros [= <-]. congruence.
    + rewrite lookup_insert_ne by done. apply Hi.
Qed.

Lemma wakeup_run_spec s rl sq p r :
  sched_inv s rl sq → procs s !! p = Some (r <| p_wchan := None |>) → p ∉ rl →
  p_stat r = SSLEEP →
  ∃ s', wakeup_run p r s = Done tt s' ∧ sched_frame s s' ∧ runout s' = runout s ∧
    slpque s' = slpque s ∧ sched_inv s' (run_next rl p r) sq ∧
    ∃ l, procs s' = <[p := wake_rec r <| p_link := l |>]> (procs s).
Proof.
  intros Hi Hr Hp Hst. unfold wakeup_run.
  set (r0 := r <| p_wchan := None |>) in *.
  set (r1 := if 1 <? p_slptime r then updatepri_rec r0 else r0).
  assert (∃ n, when (1 <? p_slptime r) (updatepri p) s =
    Done tt (s <| runrun := n |> <| procs ::= <[p := r1]> |>)) as [n E1].
  { unfold when, r1. destruct (1 <? p_slptime r); [by apply updatepri_spec|].
    exists (runrun s). rewrite mret_eq. f_equal. unfold upd; simpl.
    rewrite insert_id by done. by destruct s. }
  rewrite (bind_done _ _ _ _ _ E1).
  rewrite !(bind_done _ _ _ _ _ (setp_again _ _ _ _ _)).
  set (r3 := r1 <| p_slptime := 0 |> <| p_stat := SRUN |>).
  change (r1 <| p_slptime := 0 |> <| p_stat := SRUN |>) with r3.
  set (s3 := s <| runrun := n |> <| procs ::= <[p := r3]> |>).
  assert (Hw3 : p_wchan r3 = None).
  { unfold r3, r1. by destruct (1 <? p_slptime r). }
  assert (Hrec : wake_rec r = r3).
  { unfold wake_rec, r3, r1, r0. rewrite Hst. simpl. by destruct (1 <? p_slptime r). }
  assert (Hr3 : procs s3 !! p = Some r3) by apply lookup_insert_eq.
  assert (Hi3 : sched_inv s3 rl sq).
  { eapply sched_inv_ext; [| | |eapply (sched_inv_free s rl sq p r0 r3)]; try done. }
  unfold run_next. destruct (has (p_flag r) SLOAD).
  - unfold when. rewrite (bind_done _ _ _ _ _ (setrq_spec s3 p r3 rl (si_run _ _ _ Hi3) Hp Hr3)).
    rewrite modify_eq. eexists. split; [done|]. split; [by destruct s|].
    split; [done|]. split; [done|]. split.
    + eapply sched_inv_ext; [| | |by eapply (sched_inv_setrq s3)]; done.
    + exists (qs s3). unfold s3. simpl. rewrite insert_insert_eq, Hrec. done.
  - unfold when. rewrite (bind_done _ _ _ _ _ (mret_eq _ _)), modify_eq. eexists. split; [done|].
    split; [by destruct s|]. split; [done|]. split; [done|]. split.
    + eapply sched_inv_ext; [| | |exact Hi3]; done.
    + exists (p_link r3). unfold s3. simpl. rewrite Hrec. f_equal.
Qed.

(** Exactly the processes in [D] were woken. *)
Definition woke (D : nat → Prop) (s s' : kstate) : Prop :=
  sched_frame s s' ∧ (∀ k, procs s !! k = None → procs s' !! k = None) ∧
  ∀ k r, procs s !! k = Some r → ∃ l,
    (D k ∧ procs s' !! k = Some (wake_rec r <| p_link := l |>)) ∨
    (¬ D k ∧ procs s' !! k = Some (r <| p_link := l |>)).

Definition sleeper (s : kstate) (c : wchan) (k : nat) : Prop :=
  ∃ r, procs s !! k = Some r ∧ p_wchan r = Some c.

Lemma sleeper_dec s c k : sleeper s c k ∨ ¬ sleeper s c k.
Proof.
  unfold sleeper. destruct (procs s !! k) as [r|]; [|right; naive_solver].
  destruct (decide (p_wchan r = Some c)); [left|right]; naive_solver.
Qed.

Lemma wake_rec_link r l l' : wake_rec (r <| p_link := l |>) <| p_link := l' |> = wake_rec r <| p_link := l' |>.
Proof. unfold wake_rec. simpl. destruct (p_stat r =? SSLEEP), (1 <? p_slptime r); done. Qed.
Lemma wake_rec_wchan r : p_wchan (wake_rec r) = None.
Proof. unfold wake_rec. done. Qed.
Lemma wake_rec_flag r : p_flag (wake_rec r) = p_flag r.
Proof. unfold wake_rec. destruct (p_stat r =? SSLEEP), (1 <? p_slptime r); done. Qed.

Lemma woke_refl (D : nat → Prop) s : (∀ k, ¬ D k) → woke D s s.
Proof.
  intros HD. split; [apply sched_frame_refl|]. split; [done|]. intros k r Hr.
  exists (p_link r). right. split; [apply HD|]. rewrite Hr. by destruct r.
Qed.

Lemma woke_trans (D1 D2 D : nat → Prop) s1 s2 s3 :
  woke D1 s1 s2 → woke D2 s2 s3 →
  (∀ k, is_Some (procs s1 !! k) → D1 k → ¬ D2 k) →
  (∀ k, is_Some (procs s1 !! k) → D k ↔ D1 k ∨ D2 k) → woke D s1 s3.
Proof.
  intros (F1 & N1 & H1) (F2 & N2 & H2) Hd HD. split; [by eapply sched_frame_trans|].
  split; [auto|]. intros k r Hr. specialize (Hd k (ex_intro _ _ Hr)).
  specialize (HD k (ex_intro _ _ Hr)).
  destruct (H1 k r Hr) as (l1 & [[HD1 E1]|[HD1 E1]]); destruct (H2 k _ E1) as (l2 & [[HD2 E2]|[HD2 E2]]);
    exists l2; [naive_solver|left|left|right]; (split; [naive_solver|]); rewrite E2; [done| |done].
  by rewrite wake_rec_link.
Qed.

Lemma woke_ext (D D' : nat → Prop) s s' :
  (∀ k, is_Some (procs s !! k) → D k ↔ D' k) → woke D s s' → woke D' s s'.
Proof.
  intros HD (F & N & Hw). split; [done|]. split; [done|]. intros k r Hr.
  destruct (Hw k r Hr) as (l & Hl). exists l. rewrite <- !HD by eauto. done.
Qed.

Lemma woke_size D s s' : woke D s s' → size (procs s') = size (procs s).
Proof.
  intros (_ & N & Hw). rewrite <- !size_dom. f_equal. apply set_eq. intros k.
  rewrite !elem_of_dom. split; intros [r Hr].
  - destruct (procs s !! k) eqn:E; [by eexists|]. rewrite (N k E) in Hr. done.
  - destruct (Hw k r Hr) as (l & [[_ E]|[_ E]]); rewrite E; by eexists.
Qed.

Lemma woke_sleeper D s s' c k : woke D s s' → sleeper s' c k ↔ sleeper s c k ∧ ¬ D k.
Proof.
  intros (_ & N & Hw). unfold sleeper. destruct (procs s !! k) as [r|] eqn:E.
  - destruct (Hw k r E) as (l & [[HD E']|[HD E']]); rewrite E'; split.
    + intros (q & [= <-] & Hq). done.
    + naive_solver.
    + intros (q & [= <-] & Hq). simpl in Hq. naive_solver.
    + intros [(q & [= <-] & Hq) _]. eexists. split; [done|]. done.
  - rewrite (N k E). naive_solver.
Qed.

(** What [wakeup (chan)] wakes: the sleepers on [chan] and, when one of them is
    swapped out and the swapper waits for that, the sleepers on [runout]. *)
Definition swapped (s : kstate) (c : wchan) : Prop :=
  ∃ k r, procs s !! k = Some r ∧ p_wchan r = Some c ∧ p_stat r = SSLEEP ∧
    has (p_flag r) SLOAD = false.
Definition wakes (s : kstate) (c : wchan) (k : nat) : Prop :=
  sleeper s c k ∨ (runout s ≠ 0 ∧ swapped s c ∧ sleeper s c_runout k).
(** Those of them that join the run queue. *)
Definition joins (s : kstate) (D : nat → Prop) (k : nat) : Prop :=
  ∃ r, procs s !! k = Some r ∧ D k ∧ p_stat r = SSLEEP ∧ has (p_flag r) SLOAD = true.

Lemma woke_joins D1 s s' D2 k :
  woke D1 s s' → joins s' D2 k ↔
    ∃ r, procs s !! k = Some r ∧
      (D2 k ∧ ¬ D1 k ∧ p_stat r = SSLEEP ∧ has (p_flag r) SLOAD = true).
Proof.
  intros (_ & N & Hw). unfold joins. destruct (procs s !! k) as [r|] eqn:E.
  - destruct (Hw k r E) as (l & [[HD E']|[HD E']]); rewrite E'.
    + split; [|naive_solver]. intros (q & [= <-] & _ & Hst & _). simpl in Hst. exfalso.
      unfold wake_rec in Hst. destruct (Z.eqb_spec (p_stat r) SSLEEP); done.
    + split; [intros (q & [= <-] & ?); simpl in *; naive_solver|].
      intros (q & [= <-] & ?). eexists. split; [done|]. simpl. naive_solver.
  - rewrite (N k E). naive_solver.
Qed.

Lemma dequeued_woke s h l1 p r :
  procs s !! p = Some r → p ∉ l1 → p_stat r ≠ SSLEEP →
  woke (eq p) s (dequeued s h l1 p r <| procs ::= <[p := r <| p_wchan := None |> <| p_slptime := 0 |>]> |>).
Proof.
  intros Hr Hp Hst. split; [by destruct s|]. split.
  - intros k Hk. simpl. rewrite !lookup_insert_ne by congruence.
    destruct (slink_map_lookup l1 (p_link r) (procs s) k) as [f ->]. by rewrite Hk.
  - intros k q Hq. destruct (decide (p = k)) as [<-|Hk].
    + simplify_eq. exists (p_link r). left. split; [done|]. simpl. rewrite lookup_insert_eq.
      unfold wake_rec. destruct (Z.eqb_spec (p_stat r) SSLEEP); [done|]. f_equal.
    + simpl. rewrite !lookup_insert_ne by done.
      destruct (slink_map_lookup l1 (p_link r) (procs s) k) as [f ->]. rewrite Hq. simpl.
      exists (f q). by right.
Qed.

Lemma run_woke s s' h l1 p r l :
  procs s !! p = Some r → p ∉ l1 → sched_frame (dequeued s h l1 p r) s' →
  procs s' = <[p := wake_rec r <| p_link := l |>]> (procs (dequeued s h l1 p r)) →
  woke (eq p) s s'.
Proof.
  intros Hr Hp F E. split; [eapply sched_frame_trans; [|exact F]; by destruct s|]. split.
  - intros k Hk. rewrite E. simpl. rewrite !lookup_insert_ne by congruence.
    destruct (slink_map_lookup l1 (p_link r) (procs s) k) as [f ->]. by rewrite Hk.
  - intros k q Hq. rewrite E. destruct (decide (p = k)) as [<-|Hk].
    + simplify_eq. exists l. left. split; [done|]. by rewrite lookup_insert_eq.
    + simpl. rewrite !lookup_insert_ne by done.
      destruct (slink_map_lookup l1 (p_link r) (procs s) k) as [f ->]. rewrite Hq. simpl.
      exists (f q). by right.
Qed.

Definition wakeup_post (s : kstate) (rl : list nat) (D : nat → Prop) (s' : kstate) : Prop :=
  woke D s s' ∧ (runout s' = runout s ∨ runout s' = 0) ∧
  ∃ w sq', sched_inv s' (w ++ rl) sq' ∧ ∀ k, k ∈ w ↔ joins s D k.

Lemma wakeup_post_refl s rl sq (D : nat → Prop) :
  sched_inv s rl sq → (∀ k, ¬ D k) → wakeup_post s rl D s.
Proof.
  intros Hi HD. split; [by apply woke_refl|]. split; [by left|]. exists [], sq.
  split; [done|]. intros k. split; [by intros ?%elem_of_nil|]. intros (r & _ & Hk & _).
  by apply HD in Hk.
Qed.

Lemma wakeup_post_trans s1 s2 s3 rl w (D1 D2 D : nat → Prop) :
  woke D1 s1 s2 → (runout s2 = runout s1 ∨ runout s2 = 0) →
  (∀ k, k ∈ w ↔ joins s1 D1 k) → wakeup_post s2 (w ++ rl) D2 s3 →
  (∀ k, is_Some (procs s1 !! k) → D1 k → ¬ D2 k) →
  (∀ k, is_Some (procs s1 !! k) → D k ↔ D1 k ∨ D2 k) → wakeup_post s1 rl D s3.
Proof.
  intros Hw Hr Hj (Hw2 & Hr2 & w2 & sq' & Hi2 & Hj2) Hd HD.
  split; [by eapply woke_trans|]. split; [naive_solver congruence|].
  exists (w2 ++ w), sq'. split; [by rewrite <- app_assoc|]. intros k.
  rewrite elem_of_app, Hj2, Hj, (woke_joins _ _ _ _ _ Hw). unfold joins.
  split.
  - intros [(r & Hk & H1)|(r & Hk & H1)]; exists r; specialize (HD k ltac:(eauto)); naive_solver.
  - intros (r & Hk & HDk & H1). specialize (HD k ltac:(eauto)). specialize (Hd k ltac:(eauto)).
    naive_solver.
Qed.

Lemma wakeup_post_ext s rl (D D' : nat → Prop) s' :
  (∀ k, is_Some (procs s !! k) → D k ↔ D' k) → wakeup_post s rl D s' → wakeup_post s rl D' s'.
Proof.
  intros HD (Hw & Hr & w & sq' & Hi & Hj). split; [by eapply woke_ext|]. split; [done|].
  exists w, sq'. split; [done|]. intros k. rewrite Hj. unfold joins.
  split; intros (r & Hk & ?); exists r; specialize (HD k ltac:(eauto)); naive_solver.
Qed.

Definition nest_bound (n : nat) : nat := (n + 1) * (n + 1).
Definition nest_ok (n : nat) : Prop :=
  ∀ s rl sq fuel, size (procs s) = n → runout s = 0 → sched_inv s rl sq →
  (nest_bound n <= fuel)%nat →
  ∃ s', wakeup_loop fuel c_runout None s = Done tt s' ∧
    wakeup_post s rl (sleeper s c_runout) s'.

(** One process taken off its queue: first the parts the two cases share. *)
Lemma wakeup_loop_take fuel chan s rl sq l1 p l2 r :
  sched_inv s rl sq → sq (HASH chan) = l1 ++ p :: l2 → procs s !! p = Some r →
  p_wchan r = Some chan →
  wakeup_loop (S fuel) chan (last l1) s =
    (if p_stat r =? SSLEEP then
      wakeup_run p r ;;
      s ← get_s;
      when (negb (has (p_flag r) SLOAD) && negb (runout s =? 0))
        (modify (λ s, s <| runout := 0 |>) ;; wakeup_loop fuel c_runout None) ;;
      wakeup_loop fuel chan None
    else setp p (λ r, r <| p_slptime := 0 |>) ;; wakeup_loop fuel chan (last l1))
    (dequeued s (HASH chan) l1 p r).
Proof.
  intros Hi Hsq Hr Hw. pose proof (si_slp _ _ _ Hi (HASH chan)) as Hch. rewrite Hsq in Hch.
  pose proof (chain_NoDup _ _ _ _ Hch) as (_ & Hd & _)%NoDup_app.
  destruct (si_slpp _ _ _ Hi (HASH chan) p) as (r' & c & Hr' & _ & _ & Hst); [rewrite Hsq; set_solver|].
  assert (r' = r) as -> by congruence. cbn [wakeup_loop].
  rewrite (bind_done _ _ _ _ _ (get_slink_eq _ _ _ _ Hch)). cbn [head].
  rewrite (bind_done _ _ _ _ _ (getp_eq _ _ _ Hr)).
  replace (negb (p_stat r =? SSLEEP) && negb (p_stat r =? SSTOP)) with false
    by (destruct Hst as [-> | ->]; done).
  rewrite decide_True by done. rewrite (bind_done _ _ _ _ _ (setp_eq _ _ _ _ Hr)).
  erewrite bind_done.
  2:{ apply set_slink_eq. intros q Hq. apply last_Some_elem_of in Hq. simpl.
      rewrite lookup_insert_ne by set_solver. eapply chain_elem; [exact Hch|]. set_solver. }
  f_equal. unfold dequeued, upd. simpl. f_equal. apply slink_map_comm. set_solver.
Qed.

(** A stopped process, after which the search goes on. *)
Lemma wakeup_stopped s rl sq h l1 p l2 r :
  sched_inv s rl sq → sq h = l1 ++ p :: l2 → procs s !! p = Some r → p_stat r ≠ SSLEEP →
  ∃ s', setp p (λ r, r <| p_slptime := 0 |>) (dequeued s h l1 p r) = Done tt s' ∧
    woke (eq p) s s' ∧ runout s' = runout s ∧ sched_inv s' rl (<[h := l1 ++ l2]> sq).
Proof.
  intros Hi Hsq Hr Hst. eexists. split; [apply setp_eq; apply lookup_insert_eq|].
  pose proof (si_slp _ _ _ Hi h) as Hch. rewrite Hsq in Hch.
  pose proof (chain_NoDup _ _ _ _ Hch) as (_ & Hd & _)%NoDup_app.
  split; [apply dequeued_woke; [done|set_solver|done]|]. split; [done|].
  eapply sched_inv_setp; [apply lookup_insert_eq|done|done|done|by eapply dequeued_inv].
Qed.

(** A sleeping process, which joins the run queue if it is loaded. *)
Lemma wakeup_slept s rl sq h l1 p l2 r :
  sched_inv s rl sq → sq h = l1 ++ p :: l2 → procs s !! p = Some r → p_stat r = SSLEEP →
  ∃ s', wakeup_run p r (dequeued s h l1 p r) = Done tt s' ∧
    woke (eq p) s s' ∧ runout s' = runout s ∧
    sched_inv s' (run_next rl p r) (<[h := l1 ++ l2]> sq).
Proof.
  intros Hi Hsq Hr Hst.
  pose proof (si_slp _ _ _ Hi h) as Hch. rewrite Hsq in Hch.
  pose proof (chain_NoDup _ _ _ _ Hch) as (_ & Hd & _)%NoDup_app.
  assert (Hp : p ∉ rl) by (eapply sched_disj; [done|rewrite Hsq; set_solver]).
  destruct (wakeup_run_spec (dequeued s h l1 p r) rl (<[h := l1 ++ l2]> sq) p r) as
    (s' & E & F & Hro & _ & Hi' & l & Hps); [by eapply dequeued_inv| |done|done|].
  { simpl. by rewrite lookup_insert_eq. }
  exists s'. split; [done|]. split; [|split; [by rewrite Hro|done]].
  eapply (run_woke _ _ h l1); [exact Hr|set_solver|exact F|exact Hps].
Qed.

Lemma wakes_stopped s s' chan p r k :
  procs s !! p = Some r → p_wchan r = Some chan → p_stat r ≠ SSLEEP ∨ has (p_flag r) SLOAD = true ∨ runout s = 0 →
  woke (eq p) s s' → runout s' = runout s → p ≠ k →
  wakes s' chan k ↔ wakes s chan k.
Proof.
  intros Hr Hw Hnst Hwk Hro Hne. unfold wakes. rewrite Hro, !(woke_sleeper _ _ _ _ _ Hwk).
  assert (Hs : runout s ≠ 0 → swapped s' chan ↔ swapped s chan).
  { intros Hz. destruct Hwk as (_ & N & Hwk). unfold swapped. split.
    - intros (j & q & Hj & Hq & Hst & Hld). destruct (procs s !! j) as [q0|] eqn:E.
      + destruct (Hwk j q0 E) as (l & [[-> E']|[_ E']]); rewrite E' in Hj; injection Hj as <-; [done|].
        exists j, q0. done.
      + by rewrite (N j E) in Hj.
    - intros (j & q & Hj & Hq & Hst & Hld). destruct (decide (p = j)) as [->|Hp].
      + simplify_eq. destruct Hnst as [?|[?|?]]; congruence.
      + destruct (Hwk j q Hj) as (l & [[-> E']|[_ E']]); [done|]. eexists j, _. split; [done|]. done. }
  destruct (decide (runout s = 0)) as [Hz|Hz]; [naive_solver|]. rewrite (Hs Hz). naive_solver.
Qed.

Lemma wakes_self s chan p r :
  procs s !! p = Some r → p_wchan r = Some chan → wakes s chan p.
Proof. intros. left. by exists r. Qed.

Definition loop_bound (s : kstate) (q r : nat) : nat :=
  (if decide (runout s = 0) then 0 else nest_bound (size (procs s))) +
  q * (size (procs s) + 1) + r.

Lemma joins_one s p r k :
  procs s !! p = Some r → p_stat r = SSLEEP →
  k ∈ (if has (p_flag r) SLOAD then [p] else []) ↔ joins s (eq p) k.
Proof.
  intros Hr Hst. unfold joins. destruct (has (p_flag r) SLOAD) eqn:E.
  - rewrite list_elem_of_singleton. split; [intros ->|]; naive_solver.
  - split; [by intros ?%elem_of_nil|]. intros (q & Hq & -> & _ & ?). simplify_eq. congruence.
Qed.

Lemma run_next_app rl p r :
  run_next rl p r = (if has (p_flag r) SLOAD then [p] else []) ++ rl.
Proof. unfold run_next. by destruct (has (p_flag r) SLOAD). Qed.

Lemma wakeup_loop_spec fuel chan s rl sq l1 l2 :
  (runout s ≠ 0 → nest_ok (size (procs s))) →
  sched_inv s rl sq → sq (HASH chan) = l1 ++ l2 → (∀ k, k ∈ l1 → ¬ sleeper s chan k) →
  (loop_bound s (length (sq (HASH chan))) (length l2) < fuel)%nat →
  ∃ s', wakeup_loop fuel chan (last l1) s = Done tt s' ∧ wakeup_post s rl (wakes s chan) s'.
Proof.
  revert s rl sq l1 l2. induction fuel as [|fuel IH]; intros s rl sq l1 l2 Hnest Hi Hsq Hl1 Hf; [lia|].
  set (h := HASH chan) in *. pose proof (si_slp _ _ _ Hi h) as Hch. rewrite Hsq in Hch.
  pose proof (chain_length _ _ _ _ Hch) as Hlen.
  destruct l2 as [|p l2].
  { exists s. split; [cbn [wakeup_loop]; by rewrite (bind_done _ _ _ _ _ (get_slink_eq _ _ _ _ Hch))|].
    rewrite app_nil_r in Hsq. assert (Hno : ∀ k, ¬ sleeper s chan k).
    { intros k Hk. apply (Hl1 k); [|done]. destruct Hk as (r & Hr & Hw).
      rewrite <- Hsq. by eapply si_all. }
    eapply wakeup_post_refl; [done|]. intros k [Hk|(_ & (j & q & Hj & Hq & _) & _)]; [by apply Hno in Hk|].
    apply (Hno j). by exists q. }
  destruct (chain_elem _ _ _ _ p Hch) as [r Hr]; [set_solver|].
  destruct (decide (p_wchan r = Some chan)) as [Hw|Hw].
  2:{ (* waits for something else *)
    destruct (IH s rl sq (l1 ++ [p]) l2 Hnest Hi) as (s' & E & Hpost).
    - by rewrite <- app_assoc.
    - intros k [Hk| ->%list_elem_of_singleton]%elem_of_app; [by apply Hl1|]. intros (q & ? & ?). congruence.
    - unfold loop_bound in *. simpl in Hf. lia.
    - exists s'. split; [|done]. rewrite last_snoc in E. rewrite <- E. cbn [wakeup_loop].
      rewrite (bind_done _ _ _ _ _ (get_slink_eq _ _ _ _ Hch)). cbn [head].
      rewrite (bind_done _ _ _ _ _ (getp_eq _ _ _ Hr)).
      destruct (si_slpp _ _ _ Hi h p) as (r' & c & Hr' & _ & _ & Hst); [rewrite Hsq; set_solver|].
      assert (r' = r) as -> by congruence.
      replace (negb (p_stat r =? SSLEEP) && negb (p_stat r =? SSTOP)) with false
        by (destruct Hst as [-> | ->]; done).
      by rewrite decide_False. }
  rewrite (wakeup_loop_take fuel chan s rl sq l1 p l2 r Hi Hsq Hr Hw).
  pose proof (wakes_self s chan p r Hr Hw) as Hself.
  rewrite Hsq in Hf. rewrite length_app in Hf, Hlen. simpl in Hf, Hlen.
  destruct (Z.eqb_spec (p_stat r) SSLEEP) as [Hst|Hst].
  2:{ (* stopped *)
    destruct (wakeup_stopped s rl sq h l1 p l2 r Hi Hsq Hr Hst) as (s1 & E1 & Hwk & Hro & Hi1).
    rewrite (bind_done _ _ _ _ _ E1). pose proof (woke_size _ _ _ Hwk) as Hsz.
    destruct (IH s1 rl (<[h := l1 ++ l2]> sq) l1 l2) as (s' & E & Hpost).
    - rewrite Hro, Hsz. done.
    - done.
    - by rewrite fn_lookup_insert.
    - intros k Hk. rewrite (woke_sleeper _ _ _ _ _ Hwk). intros [? _]. by apply (Hl1 k).
    - rewrite fn_lookup_insert, length_app. unfold loop_bound in *. rewrite Hro, Hsz.
      destruct (decide (runout s = 0)); nia.
    - exists s'. split; [done|].
      eapply (wakeup_post_trans s s1 s' rl [] (eq p)); [done|by left| |exact Hpost| |].
      + intros k. split; [by intros ?%elem_of_nil|]. intros (q & Hq & -> & ? & _). congruence.
      + intros k _ <- [Hs|(_ & _ & Hs)]; rewrite (woke_sleeper _ _ _ _ _ Hwk) in Hs; naive_solver.
      + intros k _. destruct (decide (p = k)) as [->|Hne]; [naive_solver|].
        rewrite (wakes_stopped s s1 chan p r k) by auto. naive_solver. }
  destruct (wakeup_slept s rl sq h l1 p l2 r Hi Hsq Hr Hst) as (s1 & E1 & Hwk & Hro & Hi1).
  rewrite (bind_done _ _ _ _ _ E1), (bind_done _ _ _ _ _ (get_s_eq _)), Hro.
  rewrite run_next_app in Hi1. pose proof (woke_size _ _ _ Hwk) as Hsz.
  destruct (negb (has (p_flag r) SLOAD) && negb (runout s =? 0)) eqn:Enest.
  2:{ (* no swapper to tell *)
    unfold when. rewrite (bind_done _ _ _ _ _ (mret_eq _ _)).
    assert (Hno : has (p_flag r) SLOAD = true ∨ runout s = 0).
    { destruct (has (p_flag r) SLOAD); [by left|]. right.
      destruct (Z.eqb_spec (runout s) 0); [done|]. discriminate. }
    destruct (IH s1 _ (<[h := l1 ++ l2]> sq) [] (l1 ++ l2) ltac:(by rewrite Hro, Hsz) Hi1)
      as (s' & E & Hpost).
    - by rewrite fn_lookup_insert.
    - intros k ?%elem_of_nil. done.
    - rewrite fn_lookup_insert, length_app. unfold loop_bound in *. rewrite Hro, Hsz.
      destruct (decide (runout s = 0)); nia.
    - exists s'. split; [done|].
      eapply (wakeup_post_trans s s1 s' rl _ (eq p)); [done|by left| |exact Hpost| |].
      + intros k. by apply joins_one.
      + intros k _ <- [Hs|(_ & _ & Hs)]; rewrite (woke_sleeper _ _ _ _ _ Hwk) in Hs; naive_solver.
      + intros k _. destruct (decide (p = k)) as [->|Hne]; [naive_solver|].
        rewrite (wakes_stopped s s1 chan p r k) by auto. naive_solver. }
  (* the swapper waits too *)
  apply andb_true_iff in Enest as [Eld%negb_true_iff Ero%negb_true_iff%Z.eqb_neq].
  unfold when. rewrite bind_assoc, (bind_done _ _ _ _ _ (modify_eq _ _)).
  set (s2 := s1 <| runout := 0 |>).
  assert (Hi2 : sched_inv s2 ((if has (p_flag r) SLOAD then [p] else []) ++ rl) (<[h := l1 ++ l2]> sq)).
  { by eapply sched_inv_ext; [| | |exact Hi1]. }
  assert (Hwk2 : woke (eq p) s s2).
  { destruct Hwk as (F & N & Hwk). split; [|done]. eapply sched_frame_trans; [exact F|]. by destruct s1. }
  destruct (Hnest Ero s2 _ _ fuel ltac:(done) ltac:(done) Hi2) as (s3 & E3 & Hpost3).
  { unfold loop_bound in Hf. destruct (decide (runout s = 0)); lia. }
  rewrite (bind_done _ _ _ _ _ E3).
  assert (Hpost13 : wakeup_post s rl (λ k, p = k ∨ sleeper s2 c_runout k) s3).
  { eapply wakeup_post_trans; [exact Hwk2|by right|by intros k; apply joins_one|exact Hpost3| |done].
    intros k _ <- Hs. rewrite (woke_sleeper _ _ _ _ _ Hwk2) in Hs. naive_solver. }
  destruct Hpost13 as (Hwk3 & Hro3 & w3 & sq3 & Hi3 & Hj3).
  pose proof (woke_size _ _ _ Hwk3) as Hsz3.
  assert (Hro3' : runout s3 = 0).
  { destruct Hpost3 as (_ & [Hr3|Hr3] & _); [|done]. by rewrite Hr3. }
  assert (Hlq : (length (sq3 h) <= length (l1 ++ l2))%nat).
  { apply submseteq_length, NoDup_submseteq.
    - eapply chain_NoDup. apply (si_slp _ _ _ Hi3).
    - intros k Hk. destruct (si_slpp _ _ _ Hi3 _ _ Hk) as (q & c & Hq & Hqw & Hqc & _).
      assert (Hs : sleeper s3 c k) by (by exists q).
      rewrite (woke_sleeper _ _ _ _ _ Hwk3) in Hs. destruct Hs as [(q0 & Hq0 & Hqw0) Hne].
      pose proof (si_all _ _ _ Hi k q0 c Hq0 Hqw0) as Hin. rewrite Hqc in Hin.
      fold h in Hin. rewrite Hsq in Hin. assert (p ≠ k) by naive_solver. set_solver. }
  destruct (IH s3 _ sq3 [] (sq3 h) ltac:(by rewrite Hro3') Hi3) as (s' & E & Hpost).
  - done.
  - intros k ?%elem_of_nil. done.
  - rewrite length_app in Hlq. unfold loop_bound in *. rewrite Hro3', Hsz3, decide_True by done. fold h.
    pose proof (Nat.mul_le_mono_r _ _ (size (procs s) + 1) Hlq) as Hm.
    rewrite !Nat.mul_add_distr_r in *. destruct (decide (runout s = 0)); lia.
  - exists s'. split; [done|].
    eapply (wakeup_post_trans s s3 s' rl w3); [exact Hwk3|by right|exact Hj3|exact Hpost| |].
    + intros k _ HD [Hs|(? & _)]; [|done]. rewrite (woke_sleeper _ _ _ _ _ Hwk3) in Hs. naive_solver.
    + intros k _. unfold wakes. rewrite Hro3', (woke_sleeper _ _ _ _ _ Hwk3),
        (woke_sleeper _ _ _ _ _ Hwk2).
      assert (swapped s chan) by (by exists p, r). assert (sleeper s chan p) by (by exists r).
      destruct (sleeper_dec s c_runout k), (sleeper_dec s chan k), (decide (p = k)); naive_solver.
Qed.

Lemma wakes_quiet s chan k : runout s = 0 → wakes s chan k ↔ sleeper s chan k.
Proof. intros E. unfold wakes. rewrite E. naive_solver. Qed.

Lemma loop_bound_quiet s q : runout s = 0 → (q <= size (procs s))%nat →
  (loop_bound s q q < nest_bound (size (procs s)))%nat.
Proof. intros E Hq. unfold loop_bound, nest_bound. rewrite decide_True by done. nia. Qed.

Lemma nest_ok_all n : nest_ok n.
Proof.
  intros s rl sq fuel Hn Hro Hi Hf.
  pose proof (chain_length _ _ _ _ (si_slp _ _ _ Hi (HASH c_runout))) as Hlen.
  destruct (wakeup_loop_spec fuel c_runout s rl sq [] (sq (HASH c_runout))) as (s' & E & Hp);
    [done|done|done|by intros k ?%elem_of_nil| |].
  - subst n. eapply Nat.lt_le_trans; [by apply loop_bound_quiet|done].
  - exists s'. split; [done|]. eapply wakeup_post_ext; [|exact Hp]. intros k _. by apply wakes_quiet.
Qed.

Lemma wakeup_spec chan s rl sq :
  sched_inv s rl sq →
  ∃ s', wakeup chan s = Done tt s' ∧ wakeup_post s rl (wakes s chan) s'.
Proof.
  intros Hi. pose proof (chain_length _ _ _ _ (si_slp _ _ _ Hi (HASH chan))) as Hlen.
  destruct (wakeup_loop_spec (wakeup_fuel (size (procs s))) chan s rl sq [] (sq (HASH chan))) as
    (s' & E & Hp); [intros _; apply nest_ok_all|done|done|by intros k ?%elem_of_nil| |].
  - unfold loop_bound, wakeup_fuel, nest_bound. destruct (decide (runout s = 0)); nia.
  - exists s'. split; [|done]. unfold wakeup. by rewrite (bind_done _ _ _ _ _ (get_s_eq _)).
Qed.

(** C18: [wakeup (chan)] returns, with the queues well formed, having woken
    exactly the sleepers on [chan] (and those on [runout] when one of them was
    swapped out and the swapper waits for that); of these, exactly the loaded
    ones that slept are put on the run queue. *)
Theorem wakeup_wakes chan s rl sq :
  sched_inv s rl sq →
  ∃ s' w sq', wakeup chan s = Done tt s' ∧ sched_inv s' (w ++ rl) sq' ∧
    woke (wakes s chan) s s' ∧ (∀ k, k ∈ w ↔ joins s (wakes s chan) k).
Proof.
  intros Hi. destruct (wakeup_spec chan s rl sq Hi) as (s' & E & Hw & _ & w & sq' & Hi' & Hj).
  by exists s', w, sq'.
Qed.

(** * [setrun] *)

Definition setrun_rec (r : proc) : proc :=
  (if 1 <? p_slptime r then updatepri_rec r else r) <| p_stat := SRUN |> <| p_wchan := None |>.

(** [setrun] after the process is off the sleep queues. *)
Lemma setrun_tail s rl sq p r :
  sched_inv s rl sq → procs s !! p = Some r → p_wchan r = None → p ∉ rl →
  ∃ s', (when (1 <? p_slptime r) (updatepri p) ;;
      setp p (λ r, r <| p_stat := SRUN |>) ;;
      when (has (p_flag r) SLOAD) (setrq p)) s = Done tt s' ∧
    sched_frame s s' ∧ runout s' = runout s ∧ slpque s' = slpque s ∧
    sched_inv s' (run_next rl p r) sq ∧
    ∃ l, procs s' = <[p := setrun_rec r <| p_link := l |>]> (procs s).
Proof.
  intros Hi Hr Hw Hp.
  set (r1 := if 1 <? p_slptime r then updatepri_rec r else r).
  assert (∃ n, when (1 <? p_slptime r) (updatepri p) s =
    Done tt (s <| runrun := n |> <| procs ::= <[p := r1]> |>)) as [n E1].
  { unfold when, r1. destruct (1 <? p_slptime r); [by apply updatepri_spec|].
    exists (runrun s). rewrite mret_eq. f_equal. unfold upd; simpl.
    rewrite insert_id by done. by destruct s. }
  rewrite (bind_done _ _ _ _ _ E1), (bind_done _ _ _ _ _ (setp_again _ _ _ _ _)).
  set (r3 := r1 <| p_stat := SRUN |>). change (r1 <| p_stat := SRUN |>) with r3.
  set (s3 := s <| runrun := n |> <| procs ::= <[p := r3]> |>).
  assert (Hw3 : p_wchan r3 = None) by (unfold r3, r1; by destruct (1 <? p_slptime r)).
  assert (Hrec : ∀ l, setrun_rec r <| p_link := l |> = r3 <| p_link := l |>).
  { intros l. unfold setrun_rec. fold r1. rewrite <- Hw3. by destruct r1. }
  assert (Hr3 : procs s3 !! p = Some r3) by apply lookup_insert_eq.
  assert (Hi3 : sched_inv s3 rl sq).
  { eapply sched_inv_ext; [| | |eapply (sched_inv_free s rl sq p r r3)]; try done. }
  unfold run_next, when. destruct (has (p_flag r) SLOAD).
  - rewrite (setrq_spec s3 p r3 rl (si_run _ _ _ Hi3) Hp Hr3).
    eexists. split; [done|]. split; [by destruct s|]. split; [done|]. split; [done|]. split.
    + by apply sched_inv_setrq.
    + exists (qs s3). rewrite Hrec. unfold s3. simpl. by rewrite insert_insert_eq.
  - rewrite mret_eq. exists s3. split; [done|]. split; [by destruct s|]. split; [done|].
    split; [done|]. split; [done|]. exists (p_link r3). rewrite Hrec. by destruct r3.
Qed.

(** The first step of [setrun]: off the sleep queue. *)
Lemma setrun_unsleep s rl sq p r :
  sched_inv s rl sq → procs s !! p = Some r →
  ∃ s' sq', unsleep p s = Done tt s' ∧ sched_frame s s' ∧ runout s' = runout s ∧
    sched_inv s' rl sq' ∧ (∃ l, procs s' !! p = Some (r <| p_wchan := None |> <| p_link := l |>)) ∧
    ∀ k, k ≠ p → ∃ f, procs s' !! k = (λ q, q <| p_link := f q |>) <$> procs s !! k.
Proof.
  intros Hi Hr. destruct (p_wchan r) as [c|] eqn:Hw.
  - destruct (unsleep_asleep s rl sq p r c Hi Hr Hw) as (l1 & l2 & Hsq & E).
    exists (dequeued s (HASH c) l1 p r), (<[HASH c := l1 ++ l2]> sq).
    split; [done|]. split; [by destruct s|]. split; [done|].
    split; [by eapply dequeued_inv|]. split.
    + exists (p_link r). simpl. rewrite lookup_insert_eq. by destruct r.
    + intros k Hk. simpl. rewrite lookup_insert_ne by done. apply slink_map_lookup.
  - exists s, sq. split; [by eapply unsleep_awake|]. split; [apply sched_frame_refl|].
    split; [done|]. split; [done|]. split.
    + exists (p_link r). rewrite Hr. f_equal. rewrite <- Hw. by destruct r.
    + intros k Hk. exists p_link. by destruct (procs s !! k) as [[]|].
Qed.

Lemma sched_awake s rl sq p r :
  sched_inv s rl sq → procs s !! p = Some r → p_stat r ≠ SSLEEP → p_stat r ≠ SSTOP → p_wchan r = None.
Proof.
  intros Hi Hr H1 H2. destruct (p_wchan r) as [c|] eqn:Hw; [|done].
  pose proof (si_all _ _ _ Hi p r c Hr Hw) as Hin.
  destruct (si_slpp _ _ _ Hi _ _ Hin) as (q & c' & Hq & _ & _ & Hst). naive_solver congruence.
Qed.

(** Every process other than [p] is as before, or woken if in [D]. *)
Definition others (p : nat) (D : nat → Prop) (s s' : kstate) : Prop :=
  (∀ k, procs s !! k = None → procs s' !! k = None) ∧
  ∀ k q, k ≠ p → procs s !! k = Some q → ∃ l,
    (D k ∧ procs s' !! k = Some (wake_rec q <| p_link := l |>)) ∨
    (¬ D k ∧ procs s' !! k = Some (q <| p_link := l |>)).

(** Those [setrun] may wake as well: the swapper, if [p] is not loaded. *)
Definition setrun_also (s : kstate) (r : proc) (k : nat) : Prop :=
  has (p_flag r) SLOAD = false ∧ runout s ≠ 0 ∧ sleeper s c_runout k.

(** The end of [setrun]: the scheduling flags. *)
Lemma setrun_flags s rl sq p r :
  sched_inv s rl sq → procs s !! p = Some r → p_wchan r = None →
  ∃ s' w sq', (r ← getp p; s ← get_s;
      when (p_pri r <? curpri s) (modify (λ s, s <| runrun ::= Z.succ |>)) ;;
      when (negb (has (p_flag r) SLOAD) && negb (runout s =? 0))
        (modify (λ s, s <| runout := 0 |>) ;; wakeup c_runout)) s = Done tt s' ∧
    sched_frame s s' ∧ sched_inv s' (w ++ rl) sq' ∧
    (∃ l, procs s' !! p = Some (r <| p_link := l |>)) ∧ others p (setrun_also s r) s s'.
Proof.
  intros Hi Hr Hw. rewrite (bind_done _ _ _ _ _ (getp_eq _ _ _ Hr)).
  rewrite (bind_done _ _ _ _ _ (get_s_eq _)).
  set (n := if p_pri r <? curpri s then Z.succ (runrun s) else runrun s).
  assert (E1 : when (p_pri r <? curpri s) (modify (λ s, s <| runrun ::= Z.succ |>)) s =
    Done tt (s <| runrun := n |>)).
  { unfold n, when. destruct (p_pri r <? curpri s); [done|]. by destruct s. }
  rewrite (bind_done _ _ _ _ _ E1).
  destruct (negb (has (p_flag r) SLOAD) && negb (runout s =? 0)) eqn:En.
  - apply andb_true_iff in En as [Eld%negb_true_iff Ero%negb_true_iff%Z.eqb_neq].
    unfold when. rewrite (bind_done _ _ _ _ _ (modify_eq _ _)).
    set (s2 := s <| runrun := n |> <| runout := 0 |>).
    assert (Hi2 : sched_inv s2 rl sq) by (by eapply sched_inv_ext; [| | |exact Hi]).
    destruct (wakeup_spec c_runout s2 rl sq Hi2) as (s' & E & (F & N & Hwk) & _ & w & sq' & Hi' & _).
    exists s', w, sq'. split; [done|]. split; [eapply sched_frame_trans; [|exact F]; by destruct s|].
    split; [done|]. split.
    + destruct (Hwk p r Hr) as (l & [[HD Hp]|[_ Hp]]); [|by exists l].
      rewrite wakes_quiet in HD by done. destruct HD as (q & Hq & Hqw). simpl in Hq. congruence.
    + split; [exact N|]. intros k q Hk Hq. destruct (Hwk k q Hq) as (l & [[HD Hp]|[HD Hp]]);
        exists l; rewrite wakes_quiet in HD by done; [left|right]; (split; [|done]);
        unfold setrun_also; [done|]. intros (_ & _ & ?). by apply HD.
  - unfold when. rewrite mret_eq. exists (s <| runrun := n |>), [], sq. split; [done|].
    split; [by destruct s|]. split; [by eapply sched_inv_ext; [| | |exact Hi]|]. split.
    + exists (p_link r). simpl. rewrite Hr. by destruct r.
    + split; [done|]. intros k q _ Hq. exists (p_link q). right. split.
      * intros (Hld & Hro & _). rewrite Hld in En. simpl in En.
        by apply negb_false_iff, Z.eqb_eq in En.
      * simpl. rewrite Hq. by destruct q.
Qed.

Lemma bind_congr {A B} (m : K A) (k k' : A → K B) s :
  (∀ a s, k a s = k' a s) → (m ≫= k) s = (m ≫= k') s.
Proof. intros E. unfold mbind, M_bind. by destruct (m s). Qed.

Lemma setrun_spec s rl sq p r :
  sched_inv s rl sq → procs s !! p = Some r →
  (p_stat r = SSLEEP ∨ p_stat r = SSTOP ∨ p_stat r = SIDL) →
  ∃ s' w sq', setrun p s = Done tt s' ∧ sched_frame s s' ∧ sched_inv s' (w ++ rl) sq' ∧
    (has (p_flag r) SLOAD = true → p ∈ w) ∧
    (∃ l, procs s' !! p = Some (setrun_rec r <| p_link := l |>)) ∧
    others p (setrun_also s r) s s'.
Proof.
  intros Hi Hr Hst.
  assert (Hp : p ∉ rl).
  { intros Hp. destruct (si_runp _ _ _ Hi p Hp) as (q & Hq & _ & Hrun).
    assert (q = r) as -> by congruence. rewrite Hrun in Hst. by destruct Hst as [|[|]]. }
  destruct (setrun_unsleep s rl sq p r Hi Hr) as (s1 & sq1 & E1 & F1 & Ro1 & Hi1 & (l1 & Hr1) & Ho1).
  set (r1 := r <| p_wchan := None |> <| p_link := l1 |>) in *.
  destruct (setrun_tail s1 rl sq1 p r1 Hi1 Hr1 ltac:(done) Hp) as
    (s2 & E2 & F2 & Ro2 & _ & Hi2 & (l2 & Hps2)).
  assert (Hr2 : procs s2 !! p = Some (setrun_rec r1 <| p_link := l2 |>)).
  { by rewrite Hps2, lookup_insert_eq. }
  destruct (setrun_flags s2 _ sq1 p _ Hi2 Hr2) as (s3 & w & sq3 & E3 & F3 & Hi3 & (l3 & Hr3) & N3 & Ho3).
  { done. }
  exists s3, (w ++ (if has (p_flag r) SLOAD then [p] else [])), sq3. split; [|split; [|split; [|split; [|split]]]].
  - unfold setrun. rewrite (bind_done _ _ _ _ _ (getp_eq _ _ _ Hr)).
    assert (E0 : (if (p_stat r =? SSTOP) || (p_stat r =? SSLEEP) then unsleep p
      else if p_stat r =? SIDL then mret tt else panic "setrun") s = Done tt s1).
    { destruct Hst as [Hst|[Hst|Hst]]; rewrite Hst; simpl; [done|done|].
      rewrite (unsleep_awake s p r Hr) in E1; [by rewrite mret_eq|].
      eapply (sched_awake s rl sq p r Hi Hr); by rewrite Hst. }
    rewrite (bind_done _ _ _ _ _ E0).
    assert (Er : ∀ s, (when (1 <? p_slptime r) (updatepri p) ;;
      (setp p (λ r, r <| p_stat := SRUN |>) ;;
      (when (has (p_flag r) SLOAD) (setrq p) ;;
       (r ← getp p; s ← get_s;
        when (p_pri r <? curpri s) (modify (λ s, s <| runrun ::= Z.succ |>)) ;;
        when (negb (has (p_flag r) SLOAD) && negb (runout s =? 0))
          (modify (λ s, s <| runout := 0 |>) ;; wakeup c_runout))))) s =
      ((when (1 <? p_slptime r) (updatepri p) ;;
        setp p (λ r, r <| p_stat := SRUN |>) ;;
        when (has (p_flag r) SLOAD) (setrq p)) ;;
       (r ← getp p; s ← get_s;
        when (p_pri r <? curpri s) (modify (λ s, s <| runrun ::= Z.succ |>)) ;;
        when (negb (has (p_flag r) SLOAD) && negb (runout s =? 0))
          (modify (λ s, s <| runout := 0 |>) ;; wakeup c_runout))) s).
    { intros st. rewrite bind_assoc. apply bind_congr. intros [] s'. by rewrite bind_assoc. }
    rewrite Er. rewrite (bind_done _ _ _ _ _ E2). exact E3.
  - eapply sched_frame_trans; [exact F1|]. by eapply sched_frame_trans.
  - rewrite run_next_app in Hi3. by rewrite <- app_assoc.
  - intros ->. set_solver.
  - exists l3. rewrite Hr3. f_equal. unfold r1, setrun_rec. simpl. by destruct (1 <? p_slptime r).
  - assert (Hfl : p_flag (setrun_rec r1 <| p_link := l2 |>) = p_flag r).
    { unfold setrun_rec, r1. simpl. by destruct (1 <? p_slptime r). }
    assert (Hps : ∀ k, k ≠ p → procs s2 !! k = procs s1 !! k).
    { intros k Hk. by rewrite Hps2, lookup_insert_ne. }
    split.
    + intros k Hk. assert (k ≠ p) by congruence. apply N3. rewrite Hps by done.
      destruct (Ho1 k) as [f ->]; [done|]. by rewrite Hk.
    + intros k q Hk Hq. destruct (Ho1 k Hk) as [f Hf]. rewrite Hq in Hf. simpl in Hf.
      assert (Hq2 : procs s2 !! k = Some (q <| p_link := f q |>)) by (by rewrite Hps).
      assert (HD : setrun_also s2 (setrun_rec r1 <| p_link := l2 |>) k ↔ setrun_also s r k).
      { unfold setrun_also. rewrite Hfl, Ro2, Ro1. unfold sleeper. rewrite Hq2, Hq.
        split; intros (H1 & H2 & x & Hx & ?); (split; [done|]; split; [done|]); simplify_eq/=; by eexists. }
      destruct (Ho3 k _ Hk Hq2) as (l & [[HD' E]|[HD' E]]); exists l; rewrite HD in HD'; [left|right];
        (split; [done|]); rewrite E; [by rewrite wake_rec_link|done].
Qed.

(** * [swtch] *)

Fixpoint pick (m : gmap nat proc) (q : option nat) (l : list nat)
    (acc : option nat * option nat * Z) : option nat * option nat * Z :=
  match l with
  | [] => acc
  | i :: l =>
    match m !! i with
    | Some r => pick m (Some i) l
        (if has (p_flag r) SLOAD && (p_pri r <? acc.2) then (Some i, q, p_pri r) else acc)
    | None => acc
    end
  end.

Lemma swtch_search_pick s fuel h q l pp pq n :
  chain p_link (procs s) h l → (length l <= fuel)%nat →
  swtch_search fuel h q pp pq n s = Done (pick (procs s) q l (pp, pq, n)) s.
Proof.
  revert fuel h q pp pq n. induction l as [|i l IH]; intros fuel h q pp pq n Hc Hf.
  - simpl in Hc. subst h. by destruct fuel.
  - destruct Hc as (-> & r & Hr & Hc). destruct fuel as [|fuel]; simpl in Hf; [lia|].
    cbn [swtch_search pick]. rewrite (bind_done _ _ _ _ _ (getp_eq _ _ _ Hr)), Hr. cbn [snd].
    destruct (has (p_flag r) SLOAD && (p_pri r <? n)); by rewrite IH by (done || lia).
Qed.

(** The loaded members of [l] run at no better a priority than [n]. *)
Definition all_above (m : gmap nat proc) (P : Z → Prop) (l : list nat) : Prop :=
  ∀ k r, k ∈ l → m !! k = Some r → has (p_flag r) SLOAD = true → P (p_pri r).
Definition picked (m : gmap nat proc) (l : list nat) (res : option nat * option nat * Z) : Prop :=
  match res with
  | (None, pq, n) => pq = None ∧ n = 128 ∧ all_above m (λ x, 128 <= x) l
  | (Some p, pq, n) => ∃ a b r, l = a ++ p :: b ∧ pq = last a ∧ m !! p = Some r ∧
      has (p_flag r) SLOAD = true ∧ n = p_pri r ∧ n < 128 ∧
      all_above m (λ x, n < x) a ∧ all_above m (λ x, n <= x) b
  end.

Lemma all_above_snoc m (P : Z → Prop) l k r :
  m !! k = Some r → (has (p_flag r) SLOAD = true → P (p_pri r)) → all_above m P l →
  all_above m P (l ++ [k]).
Proof.
  intros Hk HP Hl j q [Hj| ->%list_elem_of_singleton]%elem_of_app Hq; [by eapply Hl|]. simplify_eq. done.
Qed.

Lemma pick_picked m l1 l2 acc :
  Forall (λ k, is_Some (m !! k)) l2 → picked m l1 acc →
  picked m (l1 ++ l2) (pick m (last l1) l2 acc).
Proof.
  revert l1 acc. induction l2 as [|k l2 IH]; intros l1 acc Hd Hp; [by rewrite app_nil_r|].
  apply Forall_cons in Hd as [[r Hr] Hd]. cbn [pick]. rewrite Hr.
  rewrite snoc_app. specialize (IH (l1 ++ [k])). rewrite last_snoc in IH. apply IH; [done|].
  destruct acc as [[pp pq] n]. cbn [snd].
  destruct (has (p_flag r) SLOAD) eqn:Hld; simpl.
  - destruct (Z.ltb_spec (p_pri r) n) as [Hlt|Hge].
    + exists l1, [], r. split_and!; try done.
      * destruct pp; [|naive_solver lia]. destruct Hp as (?&?&?&_&_&_&_&_&?&_). lia.
      * destruct pp as [p|].
        -- destruct Hp as (a & b & rp & -> & _ & Hp & _ & -> & _ & Ha & Hb).
           intros j q [Hj|[->|Hj]%elem_of_cons]%elem_of_app Hq Hl.
           ++ specialize (Ha j q Hj Hq Hl). simpl in Ha. lia.
           ++ simplify_eq. lia.
           ++ specialize (Hb j q Hj Hq Hl). simpl in Hb. lia.
        -- destruct Hp as (_ & -> & Ha). intros j q Hj Hq Hl. specialize (Ha j q Hj Hq Hl). simpl in Ha. lia.
      * intros j q ?%elem_of_nil. done.
    + destruct pp as [p|].
      * destruct Hp as (a & b & rp & -> & ? & ? & ? & ? & ? & ? & Hb).
        exists a, (b ++ [k]), rp. split_and!; try done; [by rewrite <- app_assoc|].
        by eapply all_above_snoc.
      * destruct Hp as (? & ? & ?). split_and!; try done. eapply all_above_snoc; [done|lia|done].
  - destruct pp as [p|].
    + destruct Hp as (a & b & rp & -> & ? & ? & ? & ? & ? & ? & Hb).
      exists a, (b ++ [k]), rp. split_and!; try done; [by rewrite <- app_assoc|].
      eapply all_above_snoc; [done|congruence|done].
    + destruct Hp as (? & ? & ?). split_and!; try done. eapply all_above_snoc; [done|congruence|done].
Qed.

Lemma swtch_check_spec s fuel h l :
  chain p_link (procs s) h l → (length l <= fuel)%nat →
  (∀ p, p ∈ l → ∃ r, procs s !! p = Some r ∧ p_wchan r = None ∧ p_stat r = SRUN) →
  swtch_check fuel h s = Done tt s.
Proof.
  revert fuel h. induction l as [|i l IH]; intros fuel h Hc Hf Hrun.
  - simpl in Hc. subst h. by destruct fuel.
  - destruct Hc as (-> & r & Hr & Hc). destruct fuel as [|fuel]; simpl in Hf; [lia|].
    destruct (Hrun i) as (q & Hq & _ & Hst); [set_solver|]. simplify_eq.
    cbn [swtch_check]. rewrite (bind_done _ _ _ _ _ (getp_eq _ _ _ Hr)), Hst. simpl.
    apply IH; [done|lia|]. intros p Hp. apply Hrun. set_solver.
Qed.

(** Take [p] off the run queue, after [a]. *)
Definition unqueued (s : kstate) (a : list nat) (r : proc) : kstate :=
  s <| procs ::= slink_map a (p_link r) |>
    <| qs ::= λ q, if last a is Some _ then q else p_link r |>.

Lemma unqueued_inv s rl sq a p b r :
  sched_inv s rl sq → rl = a ++ p :: b → procs s !! p = Some r →
  sched_inv (unqueued s a r) (a ++ b) sq.
Proof.
  intros Hi -> Hr. pose proof (si_run _ _ _ Hi) as Hch.
  pose proof (chain_NoDup _ _ _ _ Hch) as (Hnd1 & Hnd12 & [Hp2 Hnd2]%NoDup_cons)%NoDup_app.
  assert (Hlk : ∀ k q, procs (unqueued s a r) !! k = Some q →
    ∃ q0, procs s !! k = Some q0 ∧ p_wchan q = p_wchan q0 ∧ p_stat q = p_stat q0).
  { intros k q. simpl. destruct (slink_map_lookup a (p_link r) (procs s) k) as [f ->].
    destruct (procs s !! k) as [q0|]; [|done]. intros [= <-]. by exists q0. }
  assert (Hlk' : ∀ k q0, procs s !! k = Some q0 →
    ∃ q, procs (unqueued s a r) !! k = Some q ∧ p_wchan q = p_wchan q0 ∧ p_stat q = p_stat q0).
  { intros k q0 E. simpl. destruct (slink_map_lookup a (p_link r) (procs s) k) as [f ->].
    rewrite E. by eexists. }
  split.
  - simpl. by eapply chain_slink.
  - intros h. simpl. apply chain_agree with (m := procs s); [|apply Hi]. intros k Hk.
    rewrite slink_map_other; [done|]. intros E. apply last_Some_elem_of in E.
    eapply (sched_disj _ _ _ h k Hi Hk). set_solver.
  - intros k Hk. destruct (si_runp _ _ _ Hi k) as (q & Hq & ?); [set_solver|].
    destruct (Hlk' k q Hq) as (q' & Hq' & E1 & E2). exists q'. by rewrite E1, E2.
  - intros h k Hk. destruct (si_slpp _ _ _ Hi h k Hk) as (q & c & Hq & ?).
    destruct (Hlk' k q Hq) as (q' & Hq' & E1 & E2). exists q', c. by rewrite E1, E2.
  - intros k q c Hq Hc. destruct (Hlk k q Hq) as (q0 & Hq0 & E1 & _). rewrite E1 in Hc.
    by eapply si_all.
Qed.

(** The removal, as [swtch] does it. *)
Lemma unqueue_eq s rl sq a p b r :
  sched_inv s rl sq → rl = a ++ p :: b → procs s !! p = Some r →
  match last a with
  | Some q => setp q (λ q, q <| p_link := p_link r |>)
  | None => modify (λ s, s <| qs := p_link r |>)
  end s = Done tt (unqueued s a r).
Proof.
  intros Hi -> Hr. unfold unqueued, slink_map. destruct (last a) as [q|] eqn:E; [|by destruct s].
  apply last_Some_elem_of in E.
  destruct (chain_elem _ _ _ _ q (si_run _ _ _ Hi)) as [rq Hq]; [set_solver|].
  rewrite (setp_eq _ _ _ _ Hq). f_equal. unfold upd. simpl. f_equal.
  apply map_eq. intros k. destruct (decide (k = q)) as [->|Hk].
  - by rewrite lookup_insert_eq, lookup_alter_eq, Hq.
  - by rewrite lookup_insert_ne, lookup_alter_ne.
Qed.

(** C19: [swtch] picks the loaded process of the best priority on the run queue
    (the first of several), takes it off the queue and makes its priority the
    current one; it idles exactly when none is loaded. *)
Theorem swtch_picks_best s rl sq :
  sched_inv s rl sq → all_above (procs s) (λ x, x < 128) rl →
  ∃ o s', swtch_pick s = Done o s' ∧ runrun s' = 0 ∧ noproc s' = 0 ∧
  match o with
  | None => all_above (procs s) (λ _, False) rl ∧ procs s' = procs s ∧ sched_inv s' rl sq
  | Some (p, ssave) => ∃ a b r, rl = a ++ p :: b ∧ procs s !! p = Some r ∧
      has (p_flag r) SLOAD = true ∧ all_above (procs s) (λ x, p_pri r < x) a ∧
      all_above (procs s) (λ x, p_pri r <= x) b ∧
      sched_inv s' (a ++ b) sq ∧ curpri s' = cchar (p_pri r) ∧
      ssave = has (p_flag r) SSWAP ∧
      ∀ k, ∃ l, procs s' !! k = (λ q, (if decide (k = p) then q <| p_flag ::= λ f, clrf f SSWAP |> else q)
        <| p_link := l q |>) <$> procs s !! k
  end.
Proof.
  intros Hi Hpri. unfold swtch_pick. rewrite (bind_done _ _ _ _ _ (modify_eq _ _)).
  set (s1 := s <| noproc := 0 |> <| runrun := 0 |>).
  assert (Hi1 : sched_inv s1 rl sq) by (by eapply sched_inv_ext; [| | |exact Hi]).
  pose proof (si_run _ _ _ Hi1) as Hch. pose proof (chain_length _ _ _ _ Hch) as Hlen.
  rewrite (bind_done _ _ _ _ _ (get_s_eq _)).
  assert (E1 : when DIAGNOSTIC (swtch_check (size (procs s1)) (qs s1)) s1 = Done tt s1).
  { unfold when. destruct DIAGNOSTIC; [|done]. by eapply swtch_check_spec; [| |apply Hi1]. }
  rewrite (bind_done _ _ _ _ _ E1).
  rewrite (bind_done _ _ _ _ _ (swtch_search_pick s1 _ _ None rl None None 128 Hch Hlen)).
  pose proof (pick_picked (procs s1) [] rl (None, None, 128)) as Hp. cbn [last app] in Hp.
  destruct (pick (procs s1) None rl (None, None, 128)) as [[pp pq] n]. destruct pp as [p|].
  - destruct Hp as (a & b & r & -> & -> & Hr & Hld & -> & Hn & Ha & Hb).
    { apply Forall_forall. intros k Hk. by eapply chain_elem. }
    { split_and!; [done|done|]. intros k q ?%elem_of_nil. done. }
    rewrite (bind_done _ _ _ _ _ (getp_eq _ _ _ Hr)).
    rewrite (bind_done _ _ _ _ _ (unqueue_eq s1 _ sq a p b r Hi1 eq_refl Hr)).
    rewrite (bind_done _ _ _ _ _ (modify_eq _ _)).
    pose proof (unqueued_inv s1 _ sq a p b r Hi1 eq_refl Hr) as Hi2.
    set (s2 := unqueued s1 a r) in *.
    destruct (slink_map_lookup a (p_link r) (procs s) p) as [f Hf].
    assert (Hr2 : procs (s2 <| curpri := cchar (p_pri r) |>) !! p = Some (r <| p_link := f r |>)).
    { simpl. rewrite Hf. simpl in Hr. by rewrite Hr. }
    rewrite (bind_done _ _ _ _ _ (getp_eq _ _ _ Hr2)), (bind_done _ _ _ _ _ (setp_eq _ _ _ _ Hr2)).
    rewrite mret_eq. eexists _, _. split; [done|]. split; [done|]. split; [done|].
    exists a, b, r. split_and!; try done.
    + eapply sched_inv_setp; [exact Hr2|done|done|done|]. by eapply sched_inv_ext; [| | |exact Hi2].
    + intros k. simpl. destruct (decide (k = p)) as [->|Hk].
      * exists f. rewrite lookup_insert_eq. simpl in Hr. by rewrite Hr.
      * rewrite lookup_insert_ne by done. apply (slink_map_lookup a (p_link r) (procs s) k).
  - destruct Hp as (-> & -> & Ha).
    { apply Forall_forall. intros k Hk. by eapply chain_elem. }
    { split_and!; [done|done|]. intros k q ?%elem_of_nil. done. }
    rewrite mret_eq. eexists _, _. split; [done|]. split; [done|]. split; [done|].
    split; [|done]. intros k r Hk Hr Hld. specialize (Ha k r Hk Hr Hld). specialize (Hpri k r Hk Hr Hld).
    simpl in *. lia.
Qed.

(** * [remrq] *)

Lemma remrq_loop_found s fuel h a q p b r :
  chain p_link (procs s) h (a ++ q :: p :: b) → (length a <= fuel)%nat → procs s !! p = Some r →
  remrq_loop fuel p h s = setp q (λ x, x <| p_link := p_link r |>) s.
Proof.
  intros Hc Hf Hr. revert h fuel Hc Hf. induction a as [|i a IH]; intros h fuel Hc Hf.
  - destruct Hc as (-> & rq & Hq & Hn). pose proof Hn as (Hn' & _).
    destruct fuel; cbn [remrq_loop]; rewrite (bind_done _ _ _ _ _ (getp_eq _ _ _ Hq)),
      decide_True by done; by rewrite (bind_done _ _ _ _ _ (getp_eq _ _ _ Hr)).
  - pose proof (chain_NoDup _ _ _ _ Hc) as Hnd. destruct Hc as (-> & ri & Hri & Hc).
    destruct fuel as [|fuel]; simpl in Hf; [lia|]. cbn [remrq_loop].
    rewrite (bind_done _ _ _ _ _ (getp_eq _ _ _ Hri)). rewrite decide_False.
    + apply IH; [done|lia].
    + intros E. rewrite E in Hc. simpl in Hnd. apply NoDup_cons in Hnd as [_ Hnd].
      destruct a as [|j a]; simpl in Hc; destruct Hc as ([= ->] & _).
      * apply NoDup_cons in Hnd as [Hnd _]. set_solver.
      * simpl in Hnd. apply NoDup_cons in Hnd as [Hnd _]. set_solver.
Qed.

Lemma remrq_loop_absent s fuel h l p :
  chain p_link (procs s) h l → (length l <= fuel)%nat → p ∉ tail l →
  remrq_loop fuel p h s = Panicked "remrq".
Proof.
  revert h fuel. induction l as [|i l IH]; intros h fuel Hc Hf Hp.
  - simpl in Hc. subst h. by destruct fuel.
  - destruct Hc as (-> & ri & Hri & Hc). destruct fuel as [|fuel]; simpl in Hf; [lia|].
    cbn [remrq_loop]. rewrite (bind_done _ _ _ _ _ (getp_eq _ _ _ Hri)). rewrite decide_False.
    + apply IH; [done|lia|]. simpl in Hp. destruct l; set_solver.
    + intros E. rewrite E in Hc. destruct l as [|j l]; [done|].
      destruct Hc as ([= ->] & _). set_solver.
Qed.

(** [remrq (p)] takes a process that is on the run queue off it, and panics
    on one that is not. *)
Theorem remrq_removes s rl sq p r :
  sched_inv s rl sq → procs s !! p = Some r →
  if decide (p ∈ rl) then ∃ a b, rl = a ++ p :: b ∧ remrq p s = Done tt (unqueued s a r) ∧
    sched_inv (unqueued s a r) (a ++ b) sq
  else remrq p s = Panicked "remrq".
Proof.
  intros Hi Hr. pose proof (si_run _ _ _ Hi) as Hch.
  pose proof (chain_length _ _ _ _ Hch) as Hlen. unfold remrq.
  rewrite (bind_done _ _ _ _ _ (get_s_eq _)). case_decide as Hp.
  - apply list_elem_of_split in Hp as (a & b & ->). exists a, b. split; [done|].
    split; [|by eapply unqueued_inv]. destruct a as [|q a _] using rev_ind.
    + destruct Hch as [Hq _]. rewrite decide_True by done.
      rewrite (bind_done _ _ _ _ _ (getp_eq _ _ _ Hr)). by destruct s.
    + rewrite <- app_assoc in *. simpl in *. rewrite decide_False.
      2:{ intros E. rewrite E in Hch. pose proof (chain_NoDup _ _ _ _ Hch) as Hnd.
          destruct a; simpl in *; destruct Hch as [[= ->] _].
          - apply NoDup_cons in Hnd. set_solver.
          - apply NoDup_cons in Hnd. set_solver. }
      rewrite length_app in Hlen. simpl in Hlen.
      rewrite (remrq_loop_found s (size (procs s)) _ a q p b r Hch ltac:(lia) Hr).
      pose proof (unqueue_eq s _ sq (a ++ [q]) p b r Hi) as E. rewrite last_snoc in E. apply E; [|done].
      by rewrite <- app_assoc.
  - rewrite decide_False.
    + eapply remrq_loop_absent; [done|done|]. destruct rl; set_solver.
    + intros E. rewrite E in Hch. destruct rl; [done|]. destruct Hch as [[= ->] _]. set_solver.
Qed.

(** C20: [setrun (p)] makes a process that is asleep, stopped or being created
    runnable, off its sleep queue and, if loaded, on the run queue; it touches
    no other process, except that the swapper is woken if [p] is not loaded and
    it waits for that. In any other state it panics. *)
Theorem setrun_runs s rl sq p r :
  sched_inv s rl sq → procs s !! p = Some r →
  if decide (p_stat r = SSLEEP ∨ p_stat r = SSTOP ∨ p_stat r = SIDL) then
    ∃ s' w sq', setrun p s = Done tt s' ∧ sched_frame s s' ∧ sched_inv s' (w ++ rl) sq' ∧
      (has (p_flag r) SLOAD = true → p ∈ w) ∧
      (∃ l, procs s' !! p = Some (setrun_rec r <| p_link := l |>)) ∧
      others p (setrun_also s r) s s'
  else setrun p s = Panicked "setrun".
Proof.
  intros Hi Hr. case_decide as Hst; [by eapply setrun_spec|].
  unfold setrun. rewrite (bind_done _ _ _ _ _ (getp_eq _ _ _ Hr)).
  destruct (Z.eqb_spec (p_stat r) SSTOP); [naive_solver|].
  destruct (Z.eqb_spec (p_stat r) SSLEEP); [naive_solver|].
  destruct (Z.eqb_spec (p_stat r) SIDL); [naive_solver|done].
Qed.

(** * Finding processes *)

(** The hash chains hold exactly the processes in [live], each on the chain of
    its pid, and no two with the same pid. *)
Record hash_inv (s : kstate) (hq : Z → list nat) : Prop := {
  hi_chain : ∀ h, chain p_hash (procs s) (pidhash s !! h) (hq h);
  hi_pid : ∀ h p r, p ∈ hq h → procs s !! p = Some r → PIDHASH (p_pid r) = h;
  hi_uniq : ∀ h p q rp rq, p ∈ hq h → q ∈ hq h → procs s !! p = Some rp →
    procs s !! q = Some rq → p_pid rp = p_pid rq → p = q;
}.

Lemma pfind_loop_spec s fuel h l pid :
  chain p_hash (procs s) h l → (length l <= fuel)%nat →
  ∃ o, pfind_loop fuel pid h s = Done o s ∧
    match o with
    | Some p => p ∈ l ∧ ∃ r, procs s !! p = Some r ∧ p_pid r = pid
    | None => ∀ p r, p ∈ l → procs s !! p = Some r → p_pid r ≠ pid
    end.
Proof.
  revert h fuel. induction l as [|i l IH]; intros h fuel Hc Hf.
  - simpl in Hc. subst h. exists None. split; [by destruct fuel|]. by intros p r ?%elem_of_nil.
  - destruct Hc as (-> & ri & Hri & Hc). destruct fuel as [|fuel]; simpl in Hf; [lia|].
    cbn [pfind_loop]. rewrite (bind_done _ _ _ _ _ (getp_eq _ _ _ Hri)).
    destruct (Z.eqb_spec (p_pid ri) pid) as [He|He].
    + exists (Some i). split; [done|]. split; [set_solver|]. by exists ri.
    + destruct (IH _ fuel Hc) as (o & E & Ho); [lia|]. exists o. split; [done|].
      destruct o as [p|]; [set_solver|]. intros p r [->|Hp]%elem_of_cons Hr; [congruence|eauto].
Qed.

(** [pfind (pid)] finds the process with that pid, if there is one on the
    hash chains, and otherwise returns null. *)
Theorem pfind_finds s hq pid :
  hash_inv s hq →
  ∃ o, pfind pid s = Done o s ∧ ∀ p, o = Some p ↔
    ∃ r, p ∈ hq (PIDHASH pid) ∧ procs s !! p = Some r ∧ p_pid r = pid.
Proof.
  intros Hi. pose proof (hi_chain _ _ Hi (PIDHASH pid)) as Hc.
  destruct (pfind_loop_spec s (size (procs s)) _ _ pid Hc) as (o & E & Ho); [by eapply chain_length|].
  exists o. split; [unfold pfind; by rewrite (bind_done _ _ _ _ _ (get_s_eq _))|].
  intros p. destruct o as [q|].
  - destruct Ho as (Hq & rq & Hrq & Hpid). split; [intros [= <-]; by exists rq|].
    intros (r & Hp & Hr & Hpr). f_equal. eapply (hi_uniq _ _ Hi); [exact Hq|exact Hp|done|done|congruence].
  - split; [done|]. intros (r & Hp & Hr & Hpr). by destruct (Ho p r Hp Hr).
Qed.

(** * Priorities *)

(** after three or more seconds asleep [updatepri] does not decay a
    process's recent cpu usage by 8/10 a second, as [schedcpu] does: it forgets
    it, whatever it was ([SCHMAG * a] is [8/10 * a], that is 0). *)
Theorem updatepri_forgets s p r :
  procs s !! p = Some r → 2 < p_slptime r <= 127 →
  ∃ s' r', updatepri p s = Done tt s' ∧ procs s' !! p = Some r' ∧
    p_cpu r' = 0 ∧ p_pri r' = cchar (Z.min 127 (PUSER + p_nice r)).
Proof.
  intros Hr Hs. destruct (updatepri_spec s p r Hr) as (n & E). eexists _, _. split; [done|].
  split; [apply lookup_insert_eq|].
  assert (Hc : ∀ z, 0 <= z < 127 → cchar z = z).
  { intros z Hz. unfold cchar. destruct char_signed; [apply i8_small|apply u8_small]; lia. }
  assert (Hcpu : ∀ a, (if cchar (cchar (p_slptime r - 1) - 1) =? 0 then a else 0) = 0).
  { intros a. rewrite (Hc (p_slptime r - 1)), Hc by lia.
    destruct (Z.eqb_spec (p_slptime r - 1 - 1) 0); [lia|done]. }
  unfold updatepri_rec. rewrite Hcpu, (Hc 0) by lia. split; [done|].
  match goal with |- p_pri (upd _ _ ?q) = _ => set (r1 := q) end.
  change (cchar (setpri_val r1) = cchar (Z.min 127 (PUSER + p_nice r))). f_equal.
  unfold setpri_val. change (p_cpu r1) with 0. change (p_nice r1) with (p_nice r).
  change (Z.land 0 255 / 16) with 0. destruct (Z.ltb_spec 127 (0 + (PUSER + p_nice r))); lia.
Qed.

(** * [pqinit] *)

Lemma pqinit_links s k n :
  (0 < k)%nat → (∀ i, (i < k + n)%nat → is_Some (procs s !! i)) → freeproc s = None →
  ∃ m, foldr (λ p m, m ;; s ← get_s; setp p (λ r, r <| p_nxt := freeproc s |>) ;;
      modify (λ s, s <| freeproc := Some p |>)) (mret tt) (seq k n) s =
      Done tt (s <| procs := m |> <| freeproc := if decide (n = 0%nat) then None else Some k |>) ∧
    chain p_nxt m (if decide (n = 0%nat) then None else Some k) (seq k n) ∧
    ∀ i, (i < k + n)%nat → is_Some (m !! i).
Proof.
  intros Hk Hs Hf. revert k Hk Hs. induction n as [|n IH]; intros k Hk Hs.
  - exists (procs s). split; [simpl; rewrite mret_eq; f_equal; destruct s; simpl in Hf; by subst|].
    split; [done|]. intros i Hi. apply Hs. lia.
  - destruct (IH (S k)) as (m & E & Hc & Hm); [lia|intros i Hi; apply Hs; lia|].
    destruct (Hm k) as [r Hr]; [lia|].
    exists (<[k := r <| p_nxt := if decide (n = 0%nat) then None else Some (S k) |>]> m).
    cbn [seq foldr]. rewrite (bind_done _ _ _ _ _ E), (bind_done _ _ _ _ _ (get_s_eq _)).
    split; [|split].
    + assert (Hr' : procs (s <| procs := m |>
        <| freeproc := if decide (n = 0%nat) then None else Some (S k) |>) !! k = Some r) by done.
      by rewrite (bind_done _ _ _ _ _ (setp_eq _ _ _ _ Hr')).
    + simpl. split; [done|]. eexists. rewrite lookup_insert_eq. split; [done|]. simpl.
      apply chain_insert_ne; [rewrite elem_of_seq; lia|]. exact Hc.
    + intros i Hi. rewrite lookup_insert_is_Some. destruct (decide (k = i)); [by left|right].
      split; [done|]. apply Hm. lia.
Qed.

(** boot puts every process slot but the first on the free list, in table
    order, slot 0 alone on the list of all processes, and no zombie. *)
Theorem pqinit_lists s :
  (0 < NPROC)%nat → (∀ i, (i < NPROC)%nat → is_Some (procs s !! i)) →
  ∃ s', pqinit s = Done tt s' ∧ chain p_nxt (procs s') (freeproc s') (seq 1 (NPROC - 1)) ∧
    chain p_nxt (procs s') (allproc s') [0%nat] ∧ zombproc s' = None.
Proof.
  intros Hn Hs. unfold pqinit. rewrite (bind_done _ _ _ _ _ (modify_eq _ _)).
  destruct (pqinit_links (s <| freeproc := None |>) 1 (NPROC - 1)) as (m & E & Hc & Hm);
    [lia|intros i Hi; apply Hs; lia|done|].
  rewrite (bind_done _ _ _ _ _ E), (bind_done _ _ _ _ _ (modify_eq _ _)).
  destruct (Hm 0%nat) as [r Hr]; [lia|].
  erewrite bind_done by (apply setp_eq; exact Hr).
  rewrite modify_eq. eexists. split; [done|]. split; [|split; [|done]].
  - simpl. apply chain_insert_ne; [rewrite elem_of_seq; lia|]. exact Hc.
  - simpl. split; [done|]. eexists. by rewrite lookup_insert_eq.
Qed.
End sched.

(** * Witnesses *)

(** Processes 1 and 2 sleep on a terminal, 2 swapped out; the swapper, 0, waits
    for such a process; 3 is on the run queue. *)
Definition layout1 : KLayout :=
  {| addr_of := λ c, match c with WChan _ i => 32 * i end;
     user_data_start := 0x2000000; user_data_end := 0x2040000; NPROC := 4; NCALL := 4 |}.
Definition c_tty : wchan := WChan "tty" 1.
Definition sched_example : kstate :=
  kstate0 <| qs := Some 3%nat |> <| runout := 1 |> <| curpri := 60 |>
    <| slpque := {[ 0 := 0%nat; 1 := 1%nat ]} |>
    <| pidhash := {[ 1 := 1%nat; 5 := 2%nat ]} |>
    <| procs := {[
      0%nat := proc0 <| p_stat := SSLEEP |> <| p_flag := SLOAD |> <| p_wchan := Some c_runout |>;
      1%nat := proc0 <| p_stat := SSLEEP |> <| p_flag := SLOAD |> <| p_pid := 1 |>
        <| p_wchan := Some c_tty |> <| p_link := Some 2%nat |> <| p_slptime := 5 |> <| p_cpu := 200 |>;
      2%nat := proc0 <| p_stat := SSLEEP |> <| p_pid := 5 |> <| p_wchan := Some c_tty |>;
      3%nat := proc0 <| p_stat := SRUN |> <| p_flag := SLOAD |> <| p_pri := 60 |> ]} |>.
Definition sched_example_sq (h : Z) : list nat :=
  if h =? 0 then [0%nat] else if h =? 1 then [1%nat; 2%nat] else [].

Lemma sched_example_inv : sched_inv (H0 := layout1) sched_example [3%nat] sched_example_sq.
Proof.
  split.
  - solve_chain.
  - intros h. unfold sched_example_sq. destruct (Z.eqb_spec h 0) as [->|]; [solve_chain|].
    destruct (Z.eqb_spec h 1) as [->|]; [solve_chain|].
    change (({[ 0 := 0%nat; 1 := 1%nat ]} : gmap Z nat) !! h = None). by simplify_map_eq.
  - intros p ->%list_elem_of_singleton. by eexists.
  - intros h p. unfold sched_example_sq. destruct (Z.eqb_spec h 0) as [->|].
    { intros ->%list_elem_of_singleton. eexists _, _. split; [done|]. split; [done|]. split; [done|by left]. }
    destruct (Z.eqb_spec h 1) as [->|]; [|by intros ?%elem_of_nil].
    intros [->|[->|[]%elem_of_nil]%elem_of_cons]%elem_of_cons;
      (eexists _, _; split; [done|]; split; [done|]; split; [done|by left]).
  - intros p r c Hp Hc. pose proof (elem_of_dom_2 _ _ _ Hp) as Hd.
    replace (dom (procs sched_example)) with ({[ 0; 1; 2; 3 ]}%nat : gset nat) in Hd by reflexivity.
    do 4 (destruct p as [|p]; [vm_compute in Hp; injection Hp as <-; simpl in Hc;
      first [discriminate Hc|injection Hc as <-; vm_compute; repeat constructor]|]).
    set_solver.
Defined.

Lemma wakeup_wakes_witness :
  ∃ s', wakeup (H := gba_cfg) (H0 := layout1) c_tty sched_example = Done tt s' ∧
    woke (H := gba_cfg) (wakes sched_example c_tty) sched_example s'.
Proof.
  destruct (wakeup_wakes (H := gba_cfg) (H0 := layout1) c_tty _ _ _ sched_example_inv) as
    (s' & w & sq' & E & _ & Hw & _).
  exists s'. split; [exact E|exact Hw].
Defined.

Lemma setrun_runs_witness :
  ∃ s', setrun (H := gba_cfg) (H0 := layout1) 2 sched_example = Done tt s'.
Proof.
  pose proof (setrun_runs (H := gba_cfg) (H0 := layout1) sched_example [3%nat] sched_example_sq 2
    (proc0 <| p_stat := SSLEEP |> <| p_pid := 5 |> <| p_wchan := Some c_tty |>)
    sched_example_inv eq_refl) as W.
  destruct (decide _) as [Hd|Hd] in W.
  - destruct W as (s' & w & sq' & E & _). exists s'. exact E.
  - exfalso. apply Hd. left. reflexivity.
Defined.

Lemma swtch_picks_best_witness :
  ∃ s', swtch_pick (H := gba_cfg) sched_example = Done (Some (3%nat, false)) s' ∧ curpri s' = 60.
Proof.
  destruct (swtch_picks_best (H := gba_cfg) (H0 := layout1) sched_example [3%nat] sched_example_sq
    sched_example_inv) as (o & s' & E & _).
  - intros k r ->%list_elem_of_singleton Hr _. vm_compute in Hr. injection Hr as <-. reflexivity.
  - exists s'. vm_compute in E. injection E as <- <-. split; reflexivity.
Defined.

Lemma remrq_removes_witness :
  ∃ s', remrq 3 sched_example = Done tt s' ∧ qs s' = None.
Proof.
  pose proof (remrq_removes (H0 := layout1) sched_example [3%nat] sched_example_sq 3
    (proc0 <| p_stat := SRUN |> <| p_flag := SLOAD |> <| p_pri := 60 |>)
    sched_example_inv eq_refl) as W.
  destruct (decide _) as [Hd|Hd] in W; [|exfalso; apply Hd; constructor].
  destruct W as (a & b & Ea & E & _). eexists. split; [exact E|].
  destruct a as [|? a]; [reflexivity|]. destruct a; discriminate.
Defined.

Lemma pfind_finds_witness :
  pfind 5 sched_example = Done (Some 2%nat) sched_example.
Proof.
  destruct (pfind_finds sched_example (λ h, if h =? 1 then [1%nat] else if h =? 5 then [2%nat] else []) 5)
    as (o & E & Ho).
  - split.
    + intros h. destruct (Z.eqb_spec h 1) as [->|]; [solve_chain|].
      destruct (Z.eqb_spec h 5) as [->|]; [solve_chain|].
      change (({[ 1 := 1%nat; 5 := 2%nat ]} : gmap Z nat) !! h = None). by simplify_map_eq.
    + intros h p r. destruct (Z.eqb_spec h 1) as [->|].
      { intros ->%list_elem_of_singleton Hr. vm_compute in Hr. by injection Hr as <-. }
      destruct (Z.eqb_spec h 5) as [->|]; [|by intros ?%elem_of_nil].
      intros ->%list_elem_of_singleton Hr. vm_compute in Hr. by injection Hr as <-.
    + intros h p q rp rq. destruct (h =? 1); [set_solver|]. destruct (h =? 5); set_solver.
  - rewrite E. f_equal. apply Ho. eexists. split; [|split; reflexivity]. vm_compute. constructor.
Defined.

Lemma updatepri_forgets_witness :
  ∃ s' r', updatepri (H := gba_cfg) 1 sched_example = Done tt s' ∧ procs s' !! 1%nat = Some r' ∧ p_cpu r' = 0.
Proof.
  destruct (updatepri_forgets (H := gba_cfg) sched_example 1
    (proc0 <| p_stat := SSLEEP |> <| p_flag := SLOAD |> <| p_pid := 1 |>
        <| p_wchan := Some c_tty |> <| p_link := Some 2%nat |> <| p_slptime := 5 |> <| p_cpu := 200 |>))
    as (s' & r' & E & Hr & Hc & _).
  - reflexivity.
  - simpl. lia.
  - exists s', r'. split; [exact E|]. split; [exact Hr|exact Hc].
Defined.

Lemma pqinit_lists_witness :
  ∃ s', pqinit (H0 := layout1) sched_example = Done tt s' ∧ chain p_nxt (procs s') (freeproc s') [1; 2; 3]%nat.
Proof.
  destruct (pqinit_lists (H0 := layout1) sched_example) as (s' & E & Hc & _).
  - simpl. lia.
  - intros i Hi. simpl in Hi. do 4 (destruct i as [|i]; [by eexists|]). lia.
  - exists s'. split; [exact E|exact Hc].
Defined.
End Sched.
