(* ===== verification/Prot.v ===== *)
(** Users, groups and permissions (kern/kern_prot.c, kern_prot2.c, and suser,
    access, chmod1 and chown1 of ufs_fio.c and ufs_syscalls.c). *)
From S2P Require Import Prelude Buf Kernel Links Sched.

Definition EFTYPE : Z := 79.
Definition IFMT : Z := 0xf000.
Definition IFCHR : Z := 0x2000.
Definition IFDIR : Z := 0x4000.
Definition IFBLK : Z := 0x6000.
Definition ISUID : Z := 0x800.
Definition ISGID : Z := 0x400.
Definition ISVTX : Z := 0x200.
Definition IWRITE : Z := 0x80.
Definition IREAD : Z := 0x100.
Definition IEXEC : Z := 0x40.
Definition UF_IMMUTABLE : Z := 0x0002.
Definition SF_IMMUTABLE : Z := 0x0200.
Definition IMMUTABLE : Z := Z.lor UF_IMMUTABLE SF_IMMUTABLE.
Definition ICHG : Z := 0x40.

Module Prot.
Section prot.
Context `{KConfig} `{KLayout}.

(** Test if the current user is the super user. *)
Definition suser : K bool :=
  uid ← getu u_uid;
  if uid =? 0 then mret true else set_error EPERM ;; mret false.

Definition getpid : K unit := r ← curproc; set_rval (p_pid r).
Definition getppid : K unit := r ← curproc; set_rval (p_ppid r).
Definition getuid : K unit := v ← getu u_ruid; set_rval v.
Definition geteuid : K unit := v ← getu u_uid; set_rval v.
Definition getgid : K unit := v ← getu u_rgid; set_rval v.
Definition getegid : K unit := g ← getu u_groups; v ← unless_none (g !! 0%nat); set_rval v.

Definition getpgrp : K unit :=
  pid ← uap 0;
  (if pid =? 0 then r ← curproc; set_uap 0 (p_pid r) else mret tt) ;;
  pid ← uap 0;
  p ← Sched.pfind pid;
  match p with
  | None => set_error ESRCH
  | Some p => r ← getp p; set_rval (p_pgrp r)
  end.

Definition setpgrp : K unit :=
  pid ← uap 0;
  (if pid =? 0 then r ← curproc; set_uap 0 (p_pid r) else mret tt) ;;
  pid ← uap 0;
  p ← Sched.pfind pid;
  match p with
  | None => set_error ESRCH
  | Some p =>
    r ← getp p; uid ← getu u_uid;
    deny ← (if negb (p_uid r =? uid) && negb (uid =? 0)
            then b ← Sched.inferior p; mret (negb b) else mret false);
    if (deny : bool) then set_error EPERM
    else pgrp ← uap 1; setp p (λ r, r <| p_pgrp := i16 pgrp |>)
  end.

(** The group set: entries up to the first [NOGROUP]. [gcount] is where the scan
    from the top of [u_groups] for the last used entry stops. *)
Fixpoint gcount (gs : list Z) (n : nat) : nat :=
  match n with
  | O => O
  | S m => if default NOGROUP (gs !! m) =? NOGROUP then gcount gs m else n
  end.

Definition getgroups : K unit :=
  gs ← getu u_groups;
  let n := gcount gs NGROUPS in
  size ← uap 0;
  if u32 size <? Z.of_nat n then set_error EINVAL
  else
    set_uap 0 (Z.of_nat n) ;;
    gidset ← uap 1;
    e ← copyout_words (take n gs) gidset;
    set_error e ;;
    if negb (e =? 0) then mret tt else set_rval (Z.of_nat n).

Definition setgroups : K unit :=
  ok ← suser;
  if negb ok then mret tt else
  size ← uap 0;
  let size := u32 size in
  if Z.of_nat NGROUPS <? size then set_error EINVAL
  else
    gidset ← uap 1;
    r ← copyin_words gidset (Z.to_nat size);
    match r with
    | inr e => set_error e
    | inl ws =>
      setu (λ r, r <| u_groups ::= λ gs, (u32 <$> ws) ++ drop (length ws) gs |>) ;;
      set_error 0 ;;
      setu (λ r, r <| u_groups ::= λ gs,
        take (Z.to_nat size) gs ++ replicate (NGROUPS - Z.to_nat size) NOGROUP |>)
    end.

Fixpoint groupmember_loop (gs : list Z) (gid : Z) : bool :=
  match gs with
  | [] => false
  | g :: gs => if g =? NOGROUP then false else if g =? gid then true else groupmember_loop gs gid
  end.
Definition groupmember (gid : Z) : K bool :=
  gs ← getu u_groups; mret (groupmember_loop gs gid).

(** * kern_prot2.c *)

Definition setuid : K unit :=
  uid ← uap 0;
  let uid := u32 uid in
  ruid ← getu u_ruid;
  ok ← (if uid =? ruid then mret true else suser);
  if negb ok then mret tt else
  p ← getu u_procp;
  setp p (λ r, r <| p_uid := i16 uid |>) ;;
  setu (λ r, r <| u_uid := uid |> <| u_ruid := uid |> <| u_svuid := uid |> <| u_error := 0 |>).

Definition seteuid : K unit :=
  euid ← uap 0;
  let euid := u32 euid in
  ruid ← getu u_ruid; svuid ← getu u_svuid;
  ok ← (if (euid =? ruid) || (euid =? svuid) then mret true else suser);
  if negb ok then mret tt else
  setu (λ r, r <| u_uid := euid |> <| u_error := 0 |>).

Definition setgid : K unit :=
  gid ← uap 0;
  let gid := u32 gid in
  rgid ← getu u_rgid;
  ok ← (if gid =? rgid then mret true else suser);
  if negb ok then mret tt else
  setu (λ r, r <| u_groups ::= <[0%nat := gid]> |> <| u_rgid := gid |> <| u_svgid := gid |>
               <| u_error := 0 |>).

Definition setegid : K unit :=
  egid ← uap 0;
  let egid := u32 egid in
  rgid ← getu u_rgid; svgid ← getu u_svgid;
  ok ← (if (egid =? rgid) || (egid =? svgid) then mret true else suser);
  if negb ok then mret tt else
  setu (λ r, r <| u_groups ::= <[0%nat := egid]> |> <| u_error := 0 |>).

(** * Files *)

(** 0 if the current user may access inode [ip] in [mode], else 1 with
    [u_error] set. *)
Definition access (ip : nat) (mode : Z) : K Z :=
  r ← geti ip;
  e ← (if mode =? IWRITE then
         if has (i_flags r) IMMUTABLE then mret EPERM
         else
           m ← getm (i_fs r);
           if negb (fs_ronly (m_filsys m) =? 0) &&
              (negb (Z.land (i_mode r) IFMT =? IFCHR) && negb (Z.land (i_mode r) IFMT =? IFBLK))
           then mret EROFS else mret 0
       else mret 0);
  if negb (e =? 0) then set_error e ;; mret 1
  else
    uid ← getu u_uid;
    if uid =? 0 then mret 0
    else
      gs ← getu u_groups;
      let m := if uid =? i_uid r then mode
        else if groupmember_loop gs (i_gid r) then Z.shiftr mode 3
        else Z.shiftr (Z.shiftr mode 3) 3 in
      if has (i_mode r) m then mret 0 else set_error EACCES ;; mret 1.

Definition chmod1 (ip : nat) (mode : Z) : K Z :=
  r ← geti ip;
  uid ← getu u_uid;
  ok ← (if uid =? i_uid r then mret true else suser);
  if negb ok then getu u_error else
  member ← groupmember (i_gid r);
  if negb (uid =? 0) && (negb (Z.land (i_mode r) IFMT =? IFDIR) && has mode ISVTX)
  then mret EFTYPE
  else if negb (uid =? 0) && (negb member && has mode ISGID) then mret EPERM
  else
    seti ip (λ r, r <| i_mode ::= λ m, clrf m 0xfff |>) ;;
    seti ip (λ r, r <| i_mode ::= λ m, setf m (Z.land mode 0xfff) |>) ;;
    seti ip (λ r, r <| i_flag ::= λ f, setf f ICHG |>) ;;
    mret 0.

Definition chown1 (ip : nat) (uid gid : Z) : K Z :=
  r ← geti ip;
  let uid := if uid =? -1 then i_uid r else u32 uid in
  let gid := if gid =? -1 then i_gid r else u32 gid in
  cur ← getu u_uid;
  member ← groupmember gid;
  ok ← (if negb (cur =? i_uid r) || negb (uid =? i_uid r) || negb member
        then suser else mret true);
  if negb ok then getu u_error else
  let ouid := i_uid r in
  let ogid := i_gid r in
  seti ip (λ r, r <| i_uid := uid |>) ;;
  seti ip (λ r, r <| i_gid := gid |>) ;;
  when (negb (ouid =? uid) || negb (ogid =? gid))
    (seti ip (λ r, r <| i_flag ::= λ f, setf f ICHG |>)) ;;
  when (negb (ouid =? uid) && negb (cur =? 0))
    (seti ip (λ r, r <| i_mode ::= λ m, clrf m ISUID |>)) ;;
  when (negb (ogid =? gid) && negb (cur =? 0))
    (seti ip (λ r, r <| i_mode ::= λ m, clrf m ISGID |>)) ;;
  mret 0.

(** * User and group ids *)

(** The four calls that set ids, and what each is allowed to become. *)
Inductive idcall := Setuid | Seteuid | Setgid | Setegid.
Definition run_idcall (c : idcall) : K unit :=
  match c with Setuid => setuid | Seteuid => seteuid | Setgid => setgid | Setegid => setegid end.
Definition allowed_id (c : idcall) (r : user) (id : Z) : bool :=
  match c with
  | Setuid => id =? u_ruid r
  | Seteuid => (id =? u_ruid r) || (id =? u_svuid r)
  | Setgid => id =? u_rgid r
  | Setegid => (id =? u_rgid r) || (id =? u_svgid r)
  end || (u_uid r =? 0).
Definition new_ids (c : idcall) (id : Z) (r : user) : user :=
  match c with
  | Setuid => r <| u_uid := id |> <| u_ruid := id |> <| u_svuid := id |>
  | Seteuid => r <| u_uid := id |>
  | Setgid => r <| u_groups ::= <[0%nat := id]> |> <| u_rgid := id |> <| u_svgid := id |>
  | Setegid => r <| u_groups ::= <[0%nat := id]> |>
  end <| u_error := 0 |>.

Lemma suser_eq s :
  suser s = if u_uid (u s) =? 0 then Done true s
            else Done false (s <| u ::= λ r, r <| u_error := EPERM |> |>).
Proof. unfold suser, getu, gets. m_unfold. simpl. by destruct (u_uid (u s) =? 0). Qed.

(** C35: setuid, seteuid, setgid and setegid change exactly the ids they name, to
    the id asked for, when that is the real one (or, for the effective ones, the
    saved one) or the caller is the super user; otherwise they change nothing
    and fail with EPERM. *)
Theorem set_ids_guarded c s a rp :
  u_arg (u s) !! 0%nat = Some a → procs s !! u_procp (u s) = Some rp →
  run_idcall c s = Done tt
    (if allowed_id c (u s) (u32 a) then
       let s' := s <| u ::= new_ids c (u32 a) |> in
       match c with
       | Setuid => s' <| procs ::= <[u_procp (u s) := rp <| p_uid := i16 (u32 a) |>]> |>
       | _ => s'
       end
     else s <| u ::= λ r, r <| u_error := EPERM |> |>).
Proof.
  intros Ha Hp. unfold allowed_id.
  destruct c; unfold run_idcall, setuid, seteuid, setgid, setegid;
    rewrite (bind_done _ _ _ _ _ (uap_eq _ _ _ Ha)); unfold getu;
    rewrite ?(bind_done _ _ _ _ _ (gets_eq _ _)); simpl;
    match goal with |- context [if ?b then mret true else suser] => destruct b end; simpl;
    rewrite ?(bind_done _ _ _ _ _ (mret_eq _ _)); simpl;
    try (unfold mbind at 1, M_bind at 1; rewrite suser_eq;
         destruct (u_uid (u s) =? 0); simpl); try done;
    rewrite ?(bind_done _ _ _ _ _ (gets_eq _ _)); simpl;
    by rewrite (bind_done _ _ _ _ _ (setp_eq _ _ _ _ Hp)).
Qed.

(** * Groups *)

Lemma gcount_full l n : Forall (λ g, g ≠ NOGROUP) l → gcount (l ++ replicate n NOGROUP) (length l + n) = length l.
Proof.
  intros Hl. induction n as [|n IH].
  - rewrite app_nil_r, Nat.add_0_r. destruct l as [|g l _] using rev_ind; [done|].
    apply Forall_app in Hl as [_ Hg]. inv Hg. rewrite length_app. simpl.
    replace (length l + 1)%nat with (S (length l)) by lia. cbn [gcount].
    rewrite lookup_app_r, Nat.sub_diag by lia. simpl.
    destruct (Z.eqb_spec g NOGROUP); [done|lia].
  - replace (length l + S n)%nat with (S (length l + n)) by lia. cbn [gcount].
    rewrite lookup_app_r by lia. rewrite lookup_replicate_2 by lia. simpl.
    rewrite <- IH at 2. clear. 
    assert (G : ∀ m l1 l2, (m <= length l1)%nat → gcount (l1 ++ l2) m = gcount l1 m).
    { induction m as [|m IHm]; intros l1 l2 Hm; [done|]. cbn [gcount].
      rewrite lookup_app_l by lia. case_match; [apply IHm; lia|done]. }
    replace (NOGROUP :: replicate n NOGROUP) with (replicate n NOGROUP ++ [NOGROUP]).
    2:{ by rewrite <- replicate_cons_app. }
    rewrite app_assoc. apply G. rewrite length_app, length_replicate. lia.
Qed.

Lemma u32_i32 g : 0 <= g < 2 ^ 32 → u32 (i32 g) = g.
Proof.
  intros Hg. unfold u32, i32. rewrite <- (Z.mod_small g (2 ^ 32)) at 2 by done.
  rewrite Zminus_mod, Zmod_mod, <- Zminus_mod. f_equal. lia.
Qed.

Lemma take_gcount gs n :
  Forall (λ g, g ≠ NOGROUP) gs → (length gs + n = NGROUPS)%nat →
  gcount (gs ++ replicate n NOGROUP) NGROUPS = length gs ∧
  take (length gs) (gs ++ replicate n NOGROUP) = gs.
Proof.
  intros Hg Hn. rewrite <- Hn. split; [by apply gcount_full|]. by rewrite take_app_length.
Qed.

(** The state [getgroups] is called in next: other arguments, same kernel. *)
Definition with_args (l : list Z) (s : kstate) : kstate := s <| u ::= λ r, r <| u_arg := l |> |>.

Lemma setgroups_ok s gs a rest :
  u_uid (u s) = 0 → u_arg (u s) = Z.of_nat (length gs) :: a :: rest →
  (length gs <= NGROUPS)%nat → Forall (λ g, 0 <= g < 2 ^ 32) gs →
  badrange a (4 * Z.of_nat (length gs)) = false →
  bytes_words (ubytes (umem s) a (4 * length gs)) = i32 <$> gs →
  ∃ s1, setgroups s = Done tt s1 ∧
    u_groups (u s1) = gs ++ replicate (NGROUPS - length gs) NOGROUP.
Proof.
  intros Hroot Harg Hlen Hgs Hb Hmem. unfold setgroups.
  assert (Es : suser s = Done true s) by (by rewrite suser_eq, Hroot).
  rewrite (bind_done _ _ _ _ _ Es). cbn [negb].
  rewrite (bind_done _ _ _ _ _ (uap_eq s 0 (Z.of_nat (length gs)) ltac:(by rewrite Harg))).
  rewrite u32_small by (unfold NGROUPS in Hlen; lia).
  replace (Z.of_nat NGROUPS <? Z.of_nat (length gs)) with false by lia.
  rewrite (bind_done _ _ _ _ _ (uap_eq s 1 a ltac:(by rewrite Harg))). rewrite Nat2Z.id.
  rewrite (bind_done _ _ _ _ _ (copyin_words_ok _ _ _ Hb)), Hmem. unfold set_error, setu.
  rewrite !(bind_done _ _ _ _ _ (modify_eq _ _)), modify_eq.
  eexists. split; [done|]. simpl.
  assert (Hu : u32 <$> (i32 <$> gs) = gs).
  { rewrite <- list_fmap_compose. rewrite <- (list_fmap_id gs) at 2.
    apply list_fmap_ext. intros i g Hi. simpl. apply u32_i32.
    rewrite Forall_lookup in Hgs. by eapply Hgs. }
  by rewrite Hu, take_app_length.
Qed.

Lemma getgroups_ok s gs size b rest :
  u_groups (u s) = gs ++ replicate (NGROUPS - length gs) NOGROUP →
  Forall (λ g, g ≠ NOGROUP) gs → (length gs <= NGROUPS)%nat →
  u_arg (u s) = size :: b :: rest → Z.of_nat (length gs) <= u32 size →
  badrange b (4 * Z.of_nat (length gs)) = false →
  ∃ s2, getgroups s = Done tt s2 ∧ u_rval (u s2) = Z.of_nat (length gs) ∧ u_error (u s2) = 0 ∧
    bytes_words (ubytes (umem s2) b (4 * length gs)) = i32 <$> gs.
Proof.
  intros Hg Hno Hlen Harg Hsz Hb. destruct (take_gcount gs (NGROUPS - length gs) Hno) as [Hc Ht]; [lia|].
  unfold getgroups, getu. rewrite (bind_done _ _ _ _ _ (gets_eq _ _)). cbn [compose].
  rewrite Hg, Hc, Ht.
  rewrite (bind_done _ _ _ _ _ (uap_eq s 0 size ltac:(by rewrite Harg))).
  replace (u32 size <? Z.of_nat (length gs)) with false by lia.
  unfold set_uap, setu at 1. rewrite (bind_done _ _ _ _ _ (modify_eq _ _)).
  erewrite bind_done by (apply uap_eq; simpl; rewrite Harg; reflexivity).
  rewrite (bind_done _ _ _ _ _ (copyout_words_ok _ _ _ Hb)). unfold set_error, set_rval, setu.
  rewrite (bind_done _ _ _ _ _ (modify_eq _ _)). cbn [negb Z.eqb]. rewrite modify_eq.
  eexists. split; [done|]. split; [done|]. split; [done|]. simpl. apply uwords_ustore.
Qed.

(** the group set [setgroups] installs is the one [getgroups] gives back, up
    to 16 groups, none of them 65535, whatever the caller's limit is as long as
    it is large enough. *)
Theorem setgroups_getgroups s gs a b size rest rest' :
  u_uid (u s) = 0 → u_arg (u s) = Z.of_nat (length gs) :: a :: rest →
  (length gs <= NGROUPS)%nat → Forall (λ g, 0 <= g < 2 ^ 32 ∧ g ≠ NOGROUP) gs →
  badrange a (4 * Z.of_nat (length gs)) = false →
  badrange b (4 * Z.of_nat (length gs)) = false →
  bytes_words (ubytes (umem s) a (4 * length gs)) = i32 <$> gs →
  Z.of_nat (length gs) <= u32 size →
  ∃ s1 s2, setgroups s = Done tt s1 ∧ getgroups (with_args (size :: b :: rest') s1) = Done tt s2 ∧
    u_rval (u s2) = Z.of_nat (length gs) ∧ u_error (u s2) = 0 ∧
    bytes_words (ubytes (umem s2) b (4 * length gs)) = i32 <$> gs.
Proof.
  intros Hroot Harg Hlen Hgs Ha Hb Hmem Hsz.
  destruct (setgroups_ok s gs a rest) as (s1 & E1 & Hg1); try done.
  { eapply Forall_impl; [exact Hgs|]. naive_solver. }
  destruct (getgroups_ok (with_args (size :: b :: rest') s1) gs size b rest') as (s2 & E2 & Hres);
    try done; [eapply Forall_impl; [exact Hgs|]; naive_solver|].
  by exists s1, s2.
Qed.

(** * Access to files *)

Lemma has_testbit f n : 0 <= n → has f (2 ^ n) = Z.testbit f n.
Proof.
  intros Hn. unfold has. destruct (Z.testbit f n) eqn:E.
  - apply negb_true_iff, Z.eqb_neq. intros H'. apply (f_equal (λ z, Z.testbit z n)) in H'.
    rewrite Z.land_spec, E, Z.pow2_bits_true, Z.bits_0 in H' by done. done.
  - apply negb_false_iff, Z.eqb_eq. apply Z.bits_inj'. intros k Hk.
    rewrite Z.land_spec, Z.bits_0, Z.pow2_bits_eqb by done.
    destruct (Z.eqb_spec n k) as [->|]; [by rewrite E|by rewrite andb_false_r].
Qed.

(** Whose permission bits count for the current user. *)
Inductive who := Owner | Group | Other.
Definition class_of (r : user) (i : inode) : who :=
  if u_uid r =? i_uid i then Owner
  else if groupmember_loop (u_groups r) (i_gid i) then Group else Other.
Definition shift_of (c : who) : Z := match c with Owner => 0 | Group => 3 | Other => 6 end.

(** May not be written, whoever asks: an immutable file, or anything but a
    device on a read-only file system. *)
Definition unwritable (i : inode) (m : mount) : option Z :=
  if has (i_flags i) IMMUTABLE then Some EPERM
  else if negb (fs_ronly (m_filsys m) =? 0) && negb (Z.land (i_mode i) IFMT =? IFCHR) &&
      negb (Z.land (i_mode i) IFMT =? IFBLK) then Some EROFS
  else None.


(** Updates of one inode add up. *)
Definition with_inode (s : kstate) (ip : nat) (i : inode) : kstate :=
  s <| inodes := <[ip := i]> (inodes s) |>.
Lemma with_inode_id s ip i : inodes s !! ip = Some i → with_inode s ip i = s.
Proof. intros Hi. unfold with_inode. rewrite insert_id by done. by destruct s. Qed.
Lemma seti_with s ip i f : seti ip f (with_inode s ip i) = Done tt (with_inode s ip (f i)).
Proof.
  erewrite seti_eq by apply lookup_insert_eq. unfold with_inode, upd. simpl.
  by rewrite insert_insert_eq.
Qed.
Lemma when_seti b s ip i f :
  when b (seti ip f) (with_inode s ip i) = Done tt (with_inode s ip (if b then f i else i)).
Proof. destruct b; [apply seti_with|done]. Qed.

Lemma suser_denied s : u_uid (u s) ≠ 0 →
  suser s = Done false (s <| u ::= λ r, r <| u_error := EPERM |> |>).
Proof. intros Hu. rewrite suser_eq. by rewrite (proj2 (Z.eqb_neq _ _) Hu). Qed.

Lemma chown1_unprivileged ip i s uid gid s' :
  inodes s !! ip = Some i → u_uid (u s) ≠ 0 → 0 <= i_uid i < 2 ^ 32 →
  chown1 ip uid gid s = Done 0 s' → ∃ i',
    s' = with_inode s ip i' ∧ u_uid (u s) = i_uid i ∧ i_uid i' = i_uid i ∧
    groupmember_loop (u_groups (u s)) (i_gid i') = true ∧
    (i_gid i' ≠ i_gid i → has (i_mode i') ISGID = false).
Proof.
  intros Hi Hu Hr. unfold chown1. rewrite (bind_done _ _ _ _ _ (geti_eq _ _ _ Hi)).
  set (uid' := if uid =? -1 then i_uid i else u32 uid).
  set (gid' := if gid =? -1 then i_gid i else u32 gid).
  unfold groupmember, getu. rewrite !(bind_done _ _ _ _ _ (gets_eq _ _)).
  rewrite bind_assoc, !(bind_done _ _ _ _ _ (gets_eq _ _)), (bind_done _ _ _ _ _ (mret_eq _ _)).
  cbn [compose]. destruct (Z.eqb_spec (u_uid (u s)) (i_uid i)) as [E1|E1]; cbn [negb orb].
  2:{ rewrite (bind_done _ _ _ _ _ (suser_denied s Hu)). cbn. discriminate. }
  destruct (Z.eqb_spec uid' (i_uid i)) as [E2|E2]; cbn [negb orb].
  2:{ rewrite (bind_done _ _ _ _ _ (suser_denied s Hu)). cbn. discriminate. }
  destruct (groupmember_loop (u_groups (u s)) gid') eqn:Eg; cbn [negb].
  2:{ rewrite (bind_done _ _ _ _ _ (suser_denied s Hu)). cbn. discriminate. }
  rewrite (bind_done _ _ _ _ _ (mret_eq _ _)). cbn [negb].
  rewrite <- (with_inode_id s ip i Hi) at 1. rewrite !(bind_done _ _ _ _ _ (seti_with _ _ _ _)).
  rewrite !(bind_done _ _ _ _ _ (when_seti _ _ _ _ _)), mret_eq. intros [= <-].
  eexists. split; [done|]. split; [done|]. rewrite E2, Z.eqb_refl. cbn [negb andb orb].
  rewrite (proj2 (Z.eqb_neq _ _) Hu). cbn [negb].
  destruct (Z.eqb_spec (i_gid i) gid') as [E3|E3]; cbn [negb andb]; split_and!; try done.
  intros _. simpl. apply negb_false_iff, Z.eqb_eq.
  apply Z.bits_inj'. intros k Hk. unfold clrf. rewrite Z.land_spec, Z.ldiff_spec, Z.bits_0.
  destruct (Z.testbit ISGID k); [by rewrite andb_false_r|by rewrite andb_false_r].
Qed.

Lemma chmod1_unprivileged ip i s mode s' :
  inodes s !! ip = Some i → u_uid (u s) ≠ 0 → chmod1 ip mode s = Done 0 s' → ∃ i',
    s' = with_inode s ip i' ∧ u_uid (u s) = i_uid i ∧
    Z.land (i_mode i') 0xfff = Z.land mode 0xfff ∧
    Z.ldiff (i_mode i') 0xfff = Z.ldiff (i_mode i) 0xfff ∧
    (has mode ISGID = true → groupmember_loop (u_groups (u s)) (i_gid i) = true) ∧
    (has mode ISVTX = true → Z.land (i_mode i) IFMT = IFDIR).
Proof.
  intros Hi Hu. unfold chmod1. rewrite (bind_done _ _ _ _ _ (geti_eq _ _ _ Hi)).
  unfold groupmember, getu. rewrite !(bind_done _ _ _ _ _ (gets_eq _ _)). cbn [compose].
  destruct (Z.eqb_spec (u_uid (u s)) (i_uid i)) as [E1|E1].
  2:{ rewrite (bind_done _ _ _ _ _ (suser_denied s Hu)). cbn. discriminate. }
  rewrite (bind_done _ _ _ _ _ (mret_eq _ _)). cbn [negb].
  rewrite bind_assoc, !(bind_done _ _ _ _ _ (gets_eq _ _)), (bind_done _ _ _ _ _ (mret_eq _ _)).
  cbn [compose]. rewrite (proj2 (Z.eqb_neq _ _) Hu). cbn [negb andb].
  destruct (negb (Z.land (i_mode i) IFMT =? IFDIR) && has mode ISVTX) eqn:Ev; [discriminate|].
  destruct (negb (groupmember_loop (u_groups (u s)) (i_gid i)) && has mode ISGID) eqn:Eg; [discriminate|].
  rewrite <- (with_inode_id s ip i Hi) at 1. rewrite !(bind_done _ _ _ _ _ (seti_with _ _ _ _)), mret_eq.
  intros [= <-]. eexists. split; [done|]. split; [done|]. simpl. unfold setf, clrf. split_and!.
  - apply Z.bits_inj'. intros k Hk. rewrite !Z.land_spec, Z.lor_spec, Z.ldiff_spec, Z.land_spec.
    destruct (Z.testbit 0xfff k), (Z.testbit (i_mode i) k), (Z.testbit mode k); done.
  - apply Z.bits_inj'. intros k Hk. rewrite !Z.ldiff_spec, Z.lor_spec, Z.ldiff_spec, Z.land_spec.
    destruct (Z.testbit 0xfff k), (Z.testbit (i_mode i) k), (Z.testbit mode k); done.
  - intros Hs. rewrite Hs, andb_true_r in Eg. by apply negb_false_iff in Eg.
  - intros Hs. rewrite Hs, andb_true_r in Ev. by apply negb_false_iff, Z.eqb_eq in Ev.
Qed.

(** C36: without privilege, [chown1] succeeds only for the owner, keeping the
    owner, into one of the caller's groups, and drops set-group-id when the group
    changes; [chmod1] succeeds only for the owner, sets exactly the bits asked
    for, and never set-group-id for a group the caller is not in, nor the sticky
    bit except on a directory. *)
Theorem chown_chmod_guarded ip i s :
  inodes s !! ip = Some i → u_uid (u s) ≠ 0 → 0 <= i_uid i < 2 ^ 32 →
  (∀ uid gid s', chown1 ip uid gid s = Done 0 s' → ∃ i',
    s' = with_inode s ip i' ∧ u_uid (u s) = i_uid i ∧ i_uid i' = i_uid i ∧
    groupmember_loop (u_groups (u s)) (i_gid i') = true ∧
    (i_gid i' ≠ i_gid i → has (i_mode i') ISGID = false)) ∧
  (∀ mode s', chmod1 ip mode s = Done 0 s' → ∃ i',
    s' = with_inode s ip i' ∧ u_uid (u s) = i_uid i ∧
    Z.land (i_mode i') 0xfff = Z.land mode 0xfff ∧
    Z.ldiff (i_mode i') 0xfff = Z.ldiff (i_mode i) 0xfff ∧
    (has mode ISGID = true → groupmember_loop (u_groups (u s)) (i_gid i) = true) ∧
    (has mode ISVTX = true → Z.land (i_mode i) IFMT = IFDIR)).
Proof.
  intros Hi Hu Hr. split; intros; [by eapply chown1_unprivileged|by eapply chmod1_unprivileged].
Qed.
End prot.

(** * Witnesses *)

Definition prot_layout : KLayout :=
  {| addr_of := λ c, match c with WChan _ i => 32 * i end;
     user_data_start := 0x2000000; user_data_end := 0x2040000; NPROC := 4; NCALL := 4 |}.
(** User 7 in group 20, and a file of hers. *)
Definition prot_example : kstate :=
  kstate0 <| u := user0 <| u_uid := 7 |> <| u_ruid := 7 |> <| u_arg := [7; 0; 0; 0; 0; 0] |>
                        <| u_groups := 20 :: replicate 15 NOGROUP |> |>
    <| procs := {[ 0%nat := proc0 ]} |>
    <| inodes := {[ 2%nat := MkInode 0 1 0 2 0 (replicate 7 0) 0x81a4 1 7 20 0 0 0 0 0 None None 0 0 None None 0 0 None None ]} |>
    <| mounts := [MkMount 0 (MkFs 3 100 0 [] 0 [] 0 0 0 0 0 0 0 0 0 0 0 0 [] 0) None] |>.

Lemma set_ids_guarded_witness :
  ∃ s', setuid prot_example = Done tt s' ∧ u_uid (u s') = 7.
Proof.
  eexists. split; [apply (set_ids_guarded Setuid prot_example 7 proc0); reflexivity|]. reflexivity.
Defined.


Lemma chown_chmod_guarded_witness :
  ∃ s', chmod1 2 0x1ed prot_example = Done 0 s' ∧ u_uid (u prot_example) = 7.
Proof.
  assert (∃ s', chmod1 2 0x1ed prot_example = Done 0 s') as [s' E] by (eexists; reflexivity).
  exists s'. split; [exact E|].
  destruct (chown_chmod_guarded 2 (MkInode 0 1 0 2 0 (replicate 7 0) 0x81a4 1 7 20 0 0 0 0 0 None None 0 0 None None 0 0 None None)
    prot_example) as [_ W]; [reflexivity|simpl; lia|simpl; lia|].
  destruct (W _ _ E) as (i' & _ & Hu & _). exact Hu.
Defined.

Lemma setgroups_getgroups_witness :
  ∃ s1 s2, setgroups (H0 := prot_layout) (with_args [2; 0x2000000; 0; 0; 0; 0] (prot_example
      <| u ::= λ r, r <| u_uid := 0 |> |>
      <| umem := ustore ∅ 0x2000000 (mbind word_bytes [5; 9]) |>)) = Done tt s1 ∧
    getgroups (H0 := prot_layout) (with_args [16; 0x2000100; 0; 0; 0; 0] s1) = Done tt s2 ∧
    u_rval (u s2) = 2.
Proof.
  destruct (setgroups_getgroups (H0 := prot_layout) (with_args [2; 0x2000000; 0; 0; 0; 0]
      (prot_example <| u ::= λ r, r <| u_uid := 0 |> |>
        <| umem := ustore ∅ 0x2000000 (mbind word_bytes [5; 9]) |>))
    [5; 9] 0x2000000 0x2000100 16 [0; 0; 0; 0] [0; 0; 0; 0]) as (s1 & s2 & E1 & E2 & Hr & _).
  - reflexivity.
  - reflexivity.
  - simpl. unfold NGROUPS. lia.
  - repeat constructor; unfold NOGROUP; lia.
  - reflexivity.
  - reflexivity.
  - apply uwords_ustore.
  - vm_compute. discriminate.
  - exists s1, s2. split; [exact E1|]. split; [exact E2|exact Hr].
Defined.
End Prot.
