(* ===== verification/Time.v ===== *)
(** The time of day and the interval timers (kern/kern_time.c, and hzto and
    profil of kern_clock.c). *)
From S2P Require Import Prelude Buf Kernel Links Sched Prot.

Definition ITIMER_REAL : Z := 0.
Definition ITIMER_VIRTUAL : Z := 1.
Definition ITIMER_PROF : Z := 2.
(** [struct itimerval]. *)
Record itimerval := MkItv { itv_interval : timeval; itv_value : timeval }.
#[export] Instance itimerval_fields : Fields itimerval := λ t,
  MkItv (itv_interval t) (itv_value t).

Module Time.
Section time.
Context `{KConfig} `{KLayout}.

(** Microseconds per tick, rounded up. *)
Definition usechz : Z := Z.quot (1000000 + hz - 1) hz.

(** Copying the structures in and out. *)
Definition tv_words (t : timeval) : list Z := [tv_sec t; tv_usec t].
Definition tz_words (t : timezone) : list Z := [tz_minuteswest t; tz_dsttime t].
Definition itv_words (t : itimerval) : list Z :=
  tv_words (itv_interval t) ++ tv_words (itv_value t).
Definition copyin_tv (from : Z) : K (timeval + Z) :=
  r ← copyin_words from 2;
  match r with
  | inl [a; b] => mret (inl (MkTv a b))
  | inl _ => fault
  | inr e => mret (inr e)
  end.
Definition copyin_itv (from : Z) : K (itimerval + Z) :=
  r ← copyin_words from 4;
  match r with
  | inl [a; b; c; d] => mret (inl (MkItv (MkTv a b) (MkTv c d)))
  | inl _ => fault
  | inr e => mret (inr e)
  end.

(** Push the time to the clock chip: nothing, or nothing in the kernel's memory. *)
Definition resettodr : K unit := mret tt.

Definition setthetime (tv : timeval) : K unit :=
  ok ← Prot.suser;
  if negb ok then mret tt else
  modify (λ s, s <| boottime ::= λ b,
    b <| tv_sec ::= λ z, i32 (z + (tv_sec tv - tv_sec (time s))) |> |>) ;;
  modify (λ s, s <| time := tv |>) ;;
  modify (λ s, s <| lbolt := Z.quot (tv_usec tv) usechz |>) ;;
  resettodr.

Definition gettimeofday : K unit :=
  tp ← uap 0;
  stop ← (if tp =? 0 then mret false else
    s ← get_s;
    let atv := time s <| tv_usec := i32 (u32 (lbolt s) * usechz) |> in
    e ← copyout_words (tv_words atv) tp;
    set_error e ;; mret (negb (e =? 0)));
  if (stop : bool) then mret tt else
  tzp ← uap 1;
  if tzp =? 0 then mret tt
  else s ← get_s; e ← copyout_words (tz_words (tz s)) tzp; set_error e.

Definition settimeofday : K unit :=
  tv ← uap 0;
  stop ← (if tv =? 0 then mret false else
    r ← copyin_tv tv;
    match r with
    | inr e => set_error e ;; mret true
    | inl atv => set_error 0 ;; setthetime atv ;; e ← getu u_error; mret (negb (e =? 0))
    end);
  if (stop : bool) then mret tt else
  tzp ← uap 1;
  if tzp =? 0 then mret tt else
  ok ← Prot.suser;
  if negb ok then mret tt else
  r ← copyin_words tzp 2;
  match r with
  | inl [a; b] => set_error 0 ;; modify (λ s, s <| tz := MkTz a b |>)
  | inl _ => fault
  | inr e => set_error e
  end.

(** [while (lbolt >= hz) { lbolt -= hz; ++time.tv_sec; }] *)
Fixpoint carry_lbolt (fuel : nat) : K unit :=
  s ← get_s;
  if lbolt s >=? hz then
    match fuel with
    | O => nofuel
    | S fuel =>
      modify (λ s, s <| lbolt ::= λ z, z - hz |>
                     <| time ::= λ t, t <| tv_sec ::= λ z, i32 (z + 1) |> |>) ;;
      carry_lbolt fuel
    end
  else mret tt.

Definition adjtime : K unit :=
  ok ← Prot.suser;
  if negb ok then mret tt else
  delta ← uap 0;
  r ← copyin_tv delta;
  match r with
  | inr e => set_error e
  | inl atv =>
    set_error 0 ;;
    let adjust := i32 (i32 (tv_sec atv * hz) + Z.quot (tv_usec atv) usechz) in
    olddelta ← uap 1;
    if (0x7fff <? adjust) || (adjust <? 0x8000) then
      modify (λ s, s <| time ::= λ t, t <| tv_sec ::= λ z, i32 (z + tv_sec atv) |> |>) ;;
      modify (λ s, s <| lbolt ::= λ z, i32 (z + Z.quot (tv_usec atv) usechz) |>) ;;
      s ← get_s;
      carry_lbolt (Z.to_nat (lbolt s)) ;;
      if olddelta =? 0 then mret tt
      else e ← copyout_words (tv_words (MkTv 0 0)) olddelta; set_error e
    else if olddelta =? 0 then modify (λ s, s <| adjdelta := adjust |>)
    else
      s ← get_s;
      let old := MkTv (Z.quot (adjdelta s) hz) (i32 (Z.rem (adjdelta s) hz * usechz)) in
      modify (λ s, s <| adjdelta := adjust |>) ;;
      e ← copyout_words (tv_words old) olddelta; set_error e
  end.

(** The two places a timer lives: [p->p_realtimer] and [u.u_timer]. *)
Definition get_timer (which : Z) : K k_itimerval :=
  if which =? ITIMER_REAL then r ← curproc; mret (p_realtimer r)
  else ts ← getu u_timer; unless_none (ts !! Z.to_nat (which - 1)).
Definition set_timer (which : Z) (t : k_itimerval) : K unit :=
  if which =? ITIMER_REAL then p ← getu u_procp; setp p (λ r, r <| p_realtimer := t |>)
  else setu (λ r, r <| u_timer ::= <[Z.to_nat (which - 1) := t]> |>).

(** The real timer counts seconds, the others ticks. *)
Definition getitimer : K unit :=
  which ← uap 0;
  let which := u32 which in
  if ITIMER_PROF <? which then set_error EINVAL
  else
    t ← get_timer which;
    let secs z := if which =? ITIMER_REAL then z else Z.quot z hz in
    itv ← uap 1;
    e ← copyout_words (itv_words (MkItv (MkTv (secs (it_interval t)) 0)
                                       (MkTv (secs (it_value t)) 0))) itv;
    set_error e.

Definition setitimer : K unit :=
  which ← uap 0;
  let which := u32 which in
  if ITIMER_PROF <? which then set_error EINVAL
  else
    aitvp ← uap 1;
    oitv ← uap 2;
    (if oitv =? 0 then mret tt else set_uap 1 oitv ;; getitimer) ;;
    if aitvp =? 0 then mret tt else
    r ← copyin_itv aitvp;
    match r with
    | inr e => set_error e
    | inl aitv =>
      set_error 0 ;;
      let conv (tv : timeval) :=
        if which =? ITIMER_REAL then i32 (tv_sec tv + b2z (negb (tv_usec tv =? 0)))
        else i32 (i32 (tv_sec tv * hz) + (if tv_usec tv =? 0 then 0 else hz)) in
      set_timer which (MkKit (conv (itv_interval aitv)) (conv (itv_value aitv)))
    end.

Definition itimerfix (tv : timeval) : Z * timeval :=
  if (tv_sec tv <? 0) || (100000000 <? tv_sec tv) || (tv_usec tv <? 0) ||
     (1000000 <=? tv_usec tv) then (EINVAL, tv)
  else if (tv_sec tv =? 0) && negb (tv_usec tv =? 0) && (tv_usec tv <? Z.quot 1000 hz)
  then (0, tv <| tv_usec := Z.quot 1000 hz |>)
  else (0, tv).

Definition tvfix (t1 : timeval) : timeval :=
  let t1 := if tv_usec t1 <? 0
    then MkTv (i32 (tv_sec t1 - 1)) (tv_usec t1 + 1000000) else t1 in
  if 1000000 <=? tv_usec t1
  then MkTv (i32 (tv_sec t1 + 1)) (tv_usec t1 - 1000000) else t1.

Definition timevaladd (t1 t2 : timeval) : timeval :=
  tvfix (MkTv (i32 (tv_sec t1 + tv_sec t2)) (i32 (tv_usec t1 + tv_usec t2))).

(** kern_clock.c *)
Definition profil : K unit :=
  base ← uap 0; size ← uap 1; off ← uap 2; scale ← uap 3;
  setu (λ r, r <| u_prof := MkUprof base (u32 size) (u32 off) (u32 scale) |>).

Definition hzto (tv : timeval) : K Z :=
  s ← get_s;
  let sec := i32 (tv_sec tv - tv_sec (time s)) in
  mret (if sec <=? Z.quot 0x7fffffff 1000 - 1000 then
    Z.quot (i32 (i32 (sec * 1000) + Z.quot (tv_usec tv - tv_usec (time s)) 1000)) (Z.quot 1000 hz)
  else if sec <=? Z.quot 0x7fffffff hz then i32 (sec * hz)
  else 0x7fffffff).

(** * The interval timers *)

Lemma copyin_tv_ok s a tv :
  badrange a 8 = false → bytes_words (ubytes (umem s) a 8) = tv_words tv →
  copyin_tv a s = Done (inl tv) s.
Proof.
  intros Hb Hm. unfold copyin_tv. rewrite (bind_done _ _ _ _ _ (copyin_words_ok a 2 s Hb)).
  change (4 * 2)%nat with 8%nat. rewrite Hm. by destruct tv.
Qed.
Lemma copyin_itv_ok s a itv :
  badrange a 16 = false → bytes_words (ubytes (umem s) a 16) = itv_words itv →
  copyin_itv a s = Done (inl itv) s.
Proof.
  intros Hb Hm. unfold copyin_itv. rewrite (bind_done _ _ _ _ _ (copyin_words_ok a 4 s Hb)).
  change (4 * 4)%nat with 16%nat. rewrite Hm. by destruct itv as [[] []].
Qed.

(** Whole seconds, rounded up. *)
Definition round_up (tv : timeval) : Z := tv_sec tv + b2z (negb (tv_usec tv =? 0)).

Lemma get_set_timer which s t rp :
  0 <= which <= 2 → length (u_timer (u s)) = 2%nat → procs s !! u_procp (u s) = Some rp →
  ∃ s', set_timer which t s = Done tt s' ∧ get_timer which s' = Done t s' ∧
    u_arg (u s') = u_arg (u s) ∧ umem s' = umem s ∧
    ∀ l, get_timer which (Prot.with_args l s') = Done t (Prot.with_args l s').
Proof.
  intros Hw Hl Hp. unfold set_timer, get_timer. destruct (Z.eqb_spec which ITIMER_REAL) as [E|E].
  - unfold getu at 1. rewrite (bind_done _ _ _ _ _ (gets_eq _ _)). cbn [compose].
    rewrite (setp_eq _ _ _ _ Hp). eexists. split; [done|].
    assert (G : ∀ s', u_procp (u s') = u_procp (u s) →
      procs s' = <[u_procp (u s) := rp <| p_realtimer := t |>]> (procs s) →
      (r ← curproc; mret (p_realtimer r)) s' = Done t s').
    { intros s' E1 E2. assert (Hc : procs s' !! u_procp (u s') = Some (rp <| p_realtimer := t |>)).
      { by rewrite E1, E2, lookup_insert_eq. }
      by rewrite (bind_done _ _ _ _ _ (curproc_eq _ _ Hc)). }
    split; [by apply G|]. split; [done|]. split; [done|]. intros l. by apply G.
  - unfold ITIMER_REAL in E. eexists. split; [done|].
    assert (Hlt : (Z.to_nat (which - 1) < length (u_timer (u s)))%nat) by lia.
    assert (G : ∀ s', u_timer (u s') = <[Z.to_nat (which - 1) := t]> (u_timer (u s)) →
      (ts ← getu u_timer; unless_none (ts !! Z.to_nat (which - 1))) s' = Done t s').
    { intros s' E1. unfold getu. rewrite (bind_done _ _ _ _ _ (gets_eq _ _)). cbn [compose].
      rewrite E1, list_lookup_insert_eq by done. done. }
    split; [by apply G|]. split; [done|]. split; [done|]. intros l. by apply G.
Qed.

(** C37: a timer set by [setitimer] is read back by [getitimer] rounded up to
    whole seconds, for each of the three timers, as long as its ticks fit in a
    [long]. *)
Theorem setitimer_getitimer which itv a b rest rest' s rp :
  0 <= which <= 2 → 0 < hz → length (u_timer (u s)) = 2%nat →
  procs s !! u_procp (u s) = Some rp → a ≠ 0 →
  u_arg (u s) = which :: a :: 0 :: rest →
  badrange a 16 = false → bytes_words (ubytes (umem s) a 16) = itv_words itv →
  badrange b 16 = false →
  (∀ tv, tv = itv_interval itv ∨ tv = itv_value itv →
    0 <= tv_sec tv ∧ (round_up tv) * hz < 2 ^ 31) →
  ∃ s1 s2, setitimer s = Done tt s1 ∧
    getitimer (Prot.with_args (which :: b :: rest') s1) = Done tt s2 ∧ u_error (u s2) = 0 ∧
    bytes_words (ubytes (umem s2) b 16) =
      itv_words (MkItv (MkTv (round_up (itv_interval itv)) 0) (MkTv (round_up (itv_value itv)) 0)).
Proof.
  intros Hw Hhz Hl Hp Ha0 Harg Ha Hmem Hb Hrange.
  set (conv tv := if which =? ITIMER_REAL then round_up tv else round_up tv * hz).
  set (t := MkKit (conv (itv_interval itv)) (conv (itv_value itv))).
  set (s0 := s <| u ::= λ r, r <| u_error := 0 |> |>).
  destruct (get_set_timer which s0 t rp Hw Hl Hp) as (s1 & E1 & _ & _ & _ & Hget).
  assert (Hconv : ∀ tv, tv = itv_interval itv ∨ tv = itv_value itv →
    (if which =? ITIMER_REAL then i32 (tv_sec tv + b2z (negb (tv_usec tv =? 0)))
     else i32 (i32 (tv_sec tv * hz) + (if tv_usec tv =? 0 then 0 else hz))) = conv tv).
  { intros tv Htv. destruct (Hrange tv Htv) as [H1 H2]. unfold conv, round_up in *.
    destruct (which =? ITIMER_REAL), (tv_usec tv =? 0); simpl in *;
      rewrite ?(i32_small (tv_sec tv * hz)) by nia; rewrite i32_small by nia; nia. }
  assert (E : setitimer s = Done tt s1).
  { unfold setitimer. rewrite (bind_done _ _ _ _ _ (uap_eq s 0 which ltac:(by rewrite Harg))).
    rewrite u32_small by lia. replace (ITIMER_PROF <? which) with false by (unfold ITIMER_PROF; lia).
    rewrite (bind_done _ _ _ _ _ (uap_eq s 1 a ltac:(by rewrite Harg))).
    rewrite (bind_done _ _ _ _ _ (uap_eq s 2 0 ltac:(by rewrite Harg))).
    cbn [Z.eqb]. rewrite (bind_done _ _ _ _ _ (mret_eq _ _)).
    rewrite (proj2 (Z.eqb_neq _ _) Ha0). rewrite (bind_done _ _ _ _ _ (copyin_itv_ok _ _ _ Ha Hmem)).
    unfold set_error, setu. rewrite (bind_done _ _ _ _ _ (modify_eq _ _)).
    rewrite !Hconv by auto. exact E1. }
  set (s1' := Prot.with_args (which :: b :: rest') s1).
  assert (Hdiv : ∀ tv, tv = itv_interval itv ∨ tv = itv_value itv →
    (if which =? ITIMER_REAL then conv tv else Z.quot (conv tv) hz) = round_up tv).
  { intros tv Htv. unfold conv. destruct (which =? ITIMER_REAL); [done|]. by apply Z.quot_mul; lia. }
  exists s1. eexists. split; [done|]. split; [|split].
  - unfold getitimer. fold s1'. rewrite (bind_done _ _ _ _ _ (uap_eq s1' 0 which ltac:(done))).
    rewrite u32_small by lia. replace (ITIMER_PROF <? which) with false by (unfold ITIMER_PROF; lia).
    pose proof (Hget (which :: b :: rest')) as Hg. fold s1' in Hg.
    rewrite (bind_done _ _ _ _ _ Hg). cbv zeta beta.
    change (it_interval t) with (conv (itv_interval itv)).
    change (it_value t) with (conv (itv_value itv)). rewrite !Hdiv by auto.
    rewrite (bind_done _ _ _ _ _ (uap_eq s1' 1 b ltac:(done))).
    rewrite (bind_done _ _ _ _ _ (copyout_words_ok (itv_words _) b s1' Hb)). reflexivity.
  - done.
  - etrans; [exact (uwords_ustore (umem s1') b (itv_words (MkItv
      (MkTv (round_up (itv_interval itv)) 0) (MkTv (round_up (itv_value itv)) 0))))|]. simpl.
    assert (Hr : ∀ tv, tv = itv_interval itv ∨ tv = itv_value itv → i32 (round_up tv) = round_up tv).
    { intros tv Htv. destruct (Hrange tv Htv) as [H1 H2]. apply i32_small. unfold round_up, b2z in *.
      destruct (negb _); nia. }
    rewrite !Hr by auto. rewrite (i32_small 0) by lia. done.
Qed.

(** * Stepping the clock *)

Lemma clock_eta s :
  s <| lbolt := lbolt s |> <| time ::= λ t, t <| tv_sec := tv_sec (time s) |> |> = s.
Proof.
  destruct s. unfold upd. simpl.
  match goal with |- context [MkTv _ (tv_usec ?t)] => by destruct t end.
Qed.

Lemma carry_lbolt_spec fuel s :
  0 < hz → 0 <= lbolt s <= Z.of_nat fuel →
  tv_sec (time s) + lbolt s / hz < 2 ^ 31 → - 2 ^ 31 <= tv_sec (time s) →
  carry_lbolt fuel s = Done tt (s <| lbolt := lbolt s mod hz |>
    <| time ::= λ t, t <| tv_sec := tv_sec (time s) + lbolt s / hz |> |>).
Proof.
  intros Hhz. revert s. induction fuel as [|fuel IH]; intros s Hl Hhi Hlo.
  - cbn [carry_lbolt]. rewrite (bind_done _ _ _ _ _ (get_s_eq _)).
    replace (lbolt s >=? hz) with false by lia. rewrite mret_eq, Z.mod_small, Z.div_small by lia.
    by rewrite Z.add_0_r, clock_eta.
  - cbn [carry_lbolt]. rewrite (bind_done _ _ _ _ _ (get_s_eq _)).
    destruct (Z.geb_spec (lbolt s) hz) as [Hge|Hlt].
    + rewrite (bind_done _ _ _ _ _ (modify_eq _ _)).
      assert (Hd : lbolt s / hz = (lbolt s - hz) / hz + 1).
      { rewrite <- Z.div_add by lia. f_equal. lia. }
      assert (Hpos : 0 <= (lbolt s - hz) / hz) by (apply Z.div_pos; lia).
      rewrite IH; simpl; rewrite ?(i32_small (tv_sec (time s) + 1)) by lia; [|lia|lia|lia].
      f_equal. rewrite Hd. unfold upd. simpl. f_equal.
      * f_equal. lia.
      * rewrite <- (Z_mod_plus_full (lbolt s - hz) 1 hz). f_equal. lia.
    + rewrite mret_eq, Z.mod_small, Z.div_small by lia.
      by rewrite Z.add_0_r, clock_eta.
Qed.

(** [adjtime] steps the clock at once, whatever the size of the adjustment:
    the time in ticks moves by exactly the delta, whole seconds are carried out of
    [lbolt], nothing is left in [adjdelta] for the clock to work off, and the old
    adjustment is reported as zero. *)
Theorem adjtime_steps tv a b rest s :
  0 < hz → u_uid (u s) = 0 → u_arg (u s) = a :: b :: rest →
  badrange a 8 = false → bytes_words (ubytes (umem s) a 8) = tv_words tv → b ≠ 0 →
  badrange b 8 = false →
  - 2 ^ 31 <= tv_sec (time s) + tv_sec tv < 2 ^ 31 →
  let ticks := lbolt s + Z.quot (tv_usec tv) usechz in
  0 <= ticks < 2 ^ 31 → tv_sec (time s) + tv_sec tv + ticks / hz < 2 ^ 31 →
  ∃ s', adjtime s = Done tt s' ∧ u_error (u s') = 0 ∧ adjdelta s' = adjdelta s ∧
    0 <= lbolt s' < hz ∧
    tv_sec (time s') * hz + lbolt s' = (tv_sec (time s) + tv_sec tv) * hz + ticks ∧
    bytes_words (ubytes (umem s') b 8) = [0; 0].
Proof.
  intros Hhz Hroot Harg Ha Hmem Hb0 Hb Hsec ticks Ht Hcarry.
  assert (Et : lbolt s + Z.quot (tv_usec tv) usechz = ticks) by done. clearbody ticks.
  assert (Es : Prot.suser s = Done true s) by (by rewrite Prot.suser_eq, Hroot).
  unfold adjtime. rewrite (bind_done _ _ _ _ _ Es). cbn [negb].
  rewrite (bind_done _ _ _ _ _ (uap_eq s 0 a ltac:(by rewrite Harg))).
  rewrite (bind_done _ _ _ _ _ (copyin_tv_ok s a tv Ha Hmem)).
  cbv iota beta. kstep. cbv zeta.
  kstep.
  replace ((0x7fff <? _) || (_ <? 0x8000)) with true by lia.
  cbv iota beta.
  do 3 kstep.
  erewrite bind_done by (apply carry_lbolt_spec; simpl; rewrite ?Et, ?i32_small by lia; lia).
  rewrite (proj2 (Z.eqb_neq _ _) Hb0).
  rewrite (bind_done _ _ _ _ _ (copyout_words_ok (tv_words (MkTv 0 0)) b _ Hb)).
  eexists. split; [reflexivity|]. simpl. rewrite Et, !i32_small by lia.
  pose proof (Z.div_mod ticks hz). pose proof (Z.mod_pos_bound ticks hz Hhz).
  split_and!; [done|done|lia|lia|lia|].
  exact (uwords_ustore _ b [0; 0]).
Qed.

(** the time [settimeofday] sets is the time [gettimeofday] reads back, its
    microseconds rounded down to the clock's ticks; the boot time moves with it,
    so the time since boot is unchanged. *)
Theorem settimeofday_gettimeofday tv a b rest rest' s :
  0 < hz <= 1000000 → u_uid (u s) = 0 → u_arg (u s) = a :: 0 :: rest → a ≠ 0 → b ≠ 0 →
  badrange a 8 = false → bytes_words (ubytes (umem s) a 8) = tv_words tv →
  badrange b 8 = false →
  - 2 ^ 31 <= tv_sec tv < 2 ^ 31 → 0 <= tv_usec tv < 1000000 →
  - 2 ^ 31 <= tv_sec (boottime s) + (tv_sec tv - tv_sec (time s)) < 2 ^ 31 →
  ∃ s1 s2, settimeofday s = Done tt s1 ∧
    gettimeofday (Prot.with_args (b :: 0 :: rest') s1) = Done tt s2 ∧ u_error (u s2) = 0 ∧
    bytes_words (ubytes (umem s2) b 8) =
      [tv_sec tv; tv_usec tv - tv_usec tv mod usechz] ∧
    tv_sec (time s2) - tv_sec (boottime s2) = tv_sec (time s) - tv_sec (boottime s).
Proof.
  intros Hhz Hroot Harg Ha0 Hb0 Ha Hmem Hb Hsec Husec Hboot.
  assert (Hz : 0 < usechz <= 1000000).
  { unfold usechz. rewrite Z.quot_div_nonneg by lia. split.
    - apply Z.div_str_pos. lia.
    - apply Z.div_le_upper_bound; nia. }
  pose proof (Z.div_mod (tv_usec tv) usechz). pose proof (Z.mod_pos_bound (tv_usec tv) usechz).
  set (s0 := s <| u ::= λ r, r <| u_error := 0 |> |>).
  assert (Es : Prot.suser s0 = Done true s0) by (rewrite Prot.suser_eq; simpl; by rewrite Hroot).
  assert (Eset : settimeofday s = Done tt (s0
    <| boottime ::= λ b, b <| tv_sec ::= λ z, i32 (z + (tv_sec tv - tv_sec (time s))) |> |>
    <| time := tv |> <| lbolt := Z.quot (tv_usec tv) usechz |>)).
  { unfold settimeofday. kstep. rewrite (proj2 (Z.eqb_neq _ _) Ha0).
    rewrite bind_assoc, (bind_done _ _ _ _ _ (copyin_tv_ok s a tv Ha Hmem)). cbv beta iota.
    repeat kstep. unfold setthetime. repeat kstep. cbn [negb]. repeat kstep.
    unfold resettodr. repeat kstep. change (u_error _) with 0.
    cbn [Z.eqb negb]. repeat kstep. reflexivity. }
  eexists _, _. split; [exact Eset|]. split.
  { unfold gettimeofday. kstep. rewrite (proj2 (Z.eqb_neq _ _) Hb0). do 2 kstep. cbv zeta.
    rewrite bind_assoc, (bind_done _ _ _ _ _ (copyout_words_ok (tv_words _) b _ Hb)).
    repeat kstep. cbn [Z.eqb negb]. repeat kstep. reflexivity. }
  assert (Hq : 0 <= tv_usec tv / usechz) by (apply Z.div_pos; lia).
  simpl. rewrite Z.quot_div_nonneg by lia. split_and!; [done| |rewrite i32_small by lia; lia].
  rewrite u32_small by nia. rewrite (i32_small (_ * _)) by nia.
  replace (tv_usec tv - tv_usec tv mod usechz) with (tv_usec tv / usechz * usechz) by lia.
  etrans; [exact (uwords_ustore _ b [tv_sec tv; tv_usec tv / usechz * usechz])|].
  simpl. by rewrite !i32_small by nia.
Qed.

(** the ticks [hzto] gives for a time to come stay within an [int] and, up to
    24 days ahead, are the ticks that fit in the wait, to within a millisecond. *)
Theorem hzto_bounds tv s :
  let sec := tv_sec tv - tv_sec (time s) in
  let wait := sec * 1000000 + (tv_usec tv - tv_usec (time s)) in
  let tick := Z.quot 1000 hz * 1000 in
  0 < hz <= 1000 → 0 <= tv_usec tv < 1000000 → 0 <= tv_usec (time s) < 1000000 →
  sec < 2 ^ 31 → 0 <= wait →
  ∃ r, hzto tv s = Done r s ∧ 0 <= r <= 0x7fffffff ∧
    (sec <= 2146483 → r * tick - 1000 < wait < (r + 1) * tick) ∧
    (2147483647 < sec * hz → 2146483 < sec → r = 0x7fffffff).
Proof.
  intros sec wait tick Hhz Hu1 Hu2 Hsec Hwait.
  assert (Hsec0 : 0 <= sec) by (subst wait; nia).
  unfold hzto. kstep. fold sec. rewrite (i32_small sec) by lia.
  eexists. split; [reflexivity|].
  change (Z.quot 0x7fffffff 1000 - 1000) with 2146483.
  assert (Hd : -1000000 < tv_usec tv - tv_usec (time s) < 1000000) by lia.
  set (d := tv_usec tv - tv_usec (time s)) in *.
  assert (Hq : - 1000 < Z.quot d 1000 * 1000 - d < 1000 ∧ - 1000 < Z.quot d 1000 < 1000 ∧
               (0 <= d → Z.quot d 1000 * 1000 <= d) ∧ d - 1000 < Z.quot d 1000 * 1000).
  { pose proof (Z.quot_rem' d 1000). pose proof (Z.rem_bound_abs d 1000).
    destruct (Z.le_ge_cases 0 d).
    - pose proof (Z.rem_bound_pos d 1000). lia.
    - pose proof (Z.rem_bound_pos_neg d 1000). lia. }
  assert (Htick : 1 <= Z.quot 1000 hz) by (apply Z.quot_le_lower_bound; lia).
  destruct (Z.leb_spec sec 2146483) as [Hs|Hs].
  - rewrite (i32_small (sec * 1000)), i32_small by lia.
    set (ms := sec * 1000 + Z.quot d 1000) in *.
    assert (Hms : 0 <= ms) by (subst ms wait; lia).
    rewrite Z.quot_div_nonneg by lia.
    pose proof (Z.div_mod ms (Z.quot 1000 hz)). pose proof (Z.mod_pos_bound ms (Z.quot 1000 hz)).
    assert (0 <= ms / Z.quot 1000 hz <= ms).
    { split; [apply Z.div_pos; lia|apply Z.div_le_upper_bound; nia]. }
    assert (Hb : ms < (ms / Z.quot 1000 hz + 1) * Z.quot 1000 hz ∧
      ms / Z.quot 1000 hz * Z.quot 1000 hz <= ms) by nia.
    set (r := ms / Z.quot 1000 hz) in *. split_and!; [lia|subst ms; lia| |lia].
    intros _. replace (r * tick) with (r * Z.quot 1000 hz * 1000) by (subst tick; ring).
    replace ((r + 1) * tick) with ((r + 1) * Z.quot 1000 hz * 1000) by (subst tick; ring).
    subst wait ms. lia.
  - pose proof (Z.quot_div_nonneg 0x7fffffff hz). pose proof (Z.div_mod 0x7fffffff hz).
    pose proof (Z.mod_pos_bound 0x7fffffff hz).
    destruct (Z.leb_spec sec (Z.quot 0x7fffffff hz)).
    + assert (sec * hz <= 0x7fffffff) by nia.
      rewrite i32_small by nia. split_and!; [nia|lia|lia|lia].
    + lia.
Qed.
End time.

(** * Witnesses: the super user, at 1000 s past the epoch, 2 ticks into the second *)

Definition time_example (args ws : list Z) : kstate := kstate0
  <| u ::= λ r, r <| u_arg := args |> |> <| procs := {[0%nat := proc0]} |>
  <| time := MkTv 1000 0 |> <| lbolt := 2 |>
  <| umem := ustore ∅ 0x2000000 (mbind word_bytes ws) |>.

Lemma setitimer_getitimer_witness :
  ∃ s1 s2, setitimer (H := gba_cfg) (H0 := Prot.prot_layout)
      (time_example [1; 0x2000000; 0; 0; 0; 0] [3; 0; 1; 500000]) = Done tt s1 ∧
    getitimer (H := gba_cfg) (H0 := Prot.prot_layout)
      (Prot.with_args [1; 0x2000100; 0; 0; 0; 0] s1) = Done tt s2 ∧
    bytes_words (ubytes (umem s2) 0x2000100 16) = [3; 0; 2; 0].
Proof.
  destruct (setitimer_getitimer (H := gba_cfg) (H0 := Prot.prot_layout) 1
    (MkItv (MkTv 3 0) (MkTv 1 500000)) 0x2000000 0x2000100 [0; 0; 0] [0; 0; 0; 0]
    (time_example [1; 0x2000000; 0; 0; 0; 0] [3; 0; 1; 500000]) proc0)
    as (s1 & s2 & E1 & E2 & _ & Hr);
    [lia|reflexivity|reflexivity|reflexivity|lia|reflexivity|reflexivity|reflexivity|reflexivity| |].
  - intros tv [->| ->]; vm_compute; split; discriminate || reflexivity.
  - exists s1, s2. split; [exact E1|]. split; [exact E2|exact Hr].
Defined.

Lemma adjtime_steps_witness :
  ∃ s', adjtime (H := gba_cfg) (H0 := Prot.prot_layout)
      (time_example [0x2000000; 0x2000100; 0; 0; 0; 0] [0; 20000]) = Done tt s' ∧
    tv_sec (time s') * 100 + lbolt s' = 100004.
Proof.
  destruct (adjtime_steps (H := gba_cfg) (H0 := Prot.prot_layout) (MkTv 0 20000) 0x2000000
    0x2000100 [0; 0; 0; 0] (time_example [0x2000000; 0x2000100; 0; 0; 0; 0] [0; 20000]))
    as (s' & E & _ & _ & _ & Hr & _);
    [reflexivity|reflexivity|reflexivity|reflexivity|reflexivity|lia|reflexivity
    |simpl; lia|vm_compute; split; discriminate || reflexivity|reflexivity|].
  exists s'. split; [exact E|exact Hr].
Defined.

Lemma settimeofday_gettimeofday_witness :
  ∃ s1 s2, settimeofday (H := gba_cfg) (H0 := Prot.prot_layout)
      (time_example [0x2000000; 0; 0; 0; 0; 0] [5000; 123456]) = Done tt s1 ∧
    gettimeofday (H := gba_cfg) (H0 := Prot.prot_layout)
      (Prot.with_args [0x2000100; 0; 0; 0; 0; 0] s1) = Done tt s2 ∧
    bytes_words (ubytes (umem s2) 0x2000100 8) = [5000; 120000].
Proof.
  destruct (settimeofday_gettimeofday (H := gba_cfg) (H0 := Prot.prot_layout) (MkTv 5000 123456)
    0x2000000 0x2000100 [0; 0; 0; 0] [0; 0; 0; 0]
    (time_example [0x2000000; 0; 0; 0; 0; 0] [5000; 123456])) as (s1 & s2 & E1 & E2 & _ & Hr & _);
    [simpl; lia|reflexivity|reflexivity|lia|lia|reflexivity|reflexivity|reflexivity
    |simpl; lia|simpl; lia|simpl; lia|].
  exists s1, s2. split; [exact E1|]. split; [exact E2|exact Hr].
Defined.

Lemma hzto_bounds_witness :
  ∃ r, hzto (H := gba_cfg) (MkTv 1002 500000) (time_example [] []) = Done r (time_example [] []) ∧
    r * 10000 - 1000 < 2500000.
Proof.
  destruct (hzto_bounds (H := gba_cfg) (MkTv 1002 500000) (time_example [] []))
    as (r & E & _ & Hr & _); [simpl; lia|simpl; lia|simpl; lia|simpl; lia|simpl; lia|].
  exists r. split; [exact E|]. apply Hr. simpl. lia.
Defined.
End Time.
