(* ===== verification/Sig.v ===== *)
(** Signals: posting them, taking them and their default actions
    (kern/kern_sig.c, sys/signal.h, sys/signalvar.h). *)
From S2P Require Import Prelude Buf Kernel Links Sched Prot.

(** * Constants *)

Definition SIGKILL : Z := 9.
Definition SIGSYS : Z := 12.
Definition SIGALRM : Z := 14.
Definition SIGSTOP : Z := 17.
Definition SIGTSTP : Z := 18.
Definition SIGCONT : Z := 19.
Definition SIGCHLD : Z := 20.
Definition SIGTTIN : Z := 21.
Definition SIGTTOU : Z := 22.
Definition SIGXCPU : Z := 24.
Definition SIGVTALRM : Z := 26.
Definition SIGPROF : Z := 27.

Definition SIG_DFL : Z := 0.
Definition SIG_IGN : Z := 1.
Definition SIG_CATCH : Z := 2.
Definition SIG_HOLD : Z := 3.

Definition SA_ONSTACK : Z := 0x0001.
Definition SA_RESTART : Z := 0x0002.
Definition SA_DISABLE : Z := 0x0004.
Definition SA_NOCLDSTOP : Z := 0x0008.
Definition SAS_OLDMASK : Z := 0x01.
Definition SAS_ALTSTACK : Z := 0x02.
Definition SA_KILL : Z := 0x01.
Definition SA_CORE : Z := 0x02.
Definition SA_STOP : Z := 0x04.
Definition SA_TTYSTOP : Z := 0x08.
Definition SA_IGNORE : Z := 0x10.
Definition SA_CONT : Z := 0x20.

Definition sigmask (m : Z) : Z := Z.shiftl 1 (m - 1).
Definition contsigmask : Z := sigmask SIGCONT.
Definition stopsigmask : Z :=
  Z.lor (Z.lor (Z.lor (sigmask SIGSTOP) (sigmask SIGTSTP)) (sigmask SIGTTIN)) (sigmask SIGTTOU).
Definition sigcantmask : Z := Z.lor (sigmask SIGKILL) (sigmask SIGSTOP).

(** Signal properties and default actions, by signal number. *)
Definition sigprop : list Z :=
  [0; SA_KILL; SA_KILL; Z.lor SA_KILL SA_CORE; Z.lor SA_KILL SA_CORE; Z.lor SA_KILL SA_CORE;
   Z.lor SA_KILL SA_CORE; Z.lor SA_KILL SA_CORE; Z.lor SA_KILL SA_CORE; SA_KILL;
   Z.lor SA_KILL SA_CORE; Z.lor SA_KILL SA_CORE; Z.lor SA_KILL SA_CORE; SA_KILL; SA_KILL;
   SA_KILL; SA_IGNORE; SA_STOP; Z.lor SA_STOP SA_TTYSTOP; Z.lor SA_IGNORE SA_CONT; SA_IGNORE;
   Z.lor SA_STOP SA_TTYSTOP; Z.lor SA_STOP SA_TTYSTOP; SA_IGNORE; SA_KILL; SA_KILL; SA_KILL;
   SA_KILL; SA_IGNORE; SA_IGNORE; SA_KILL; SA_KILL; 0].
Definition sigprop_of (sig : Z) : K Z :=
  if sig <? 0 then fault else unless_none (sigprop !! Z.to_nat sig).

(** [ffs]: the number of the lowest bit set, from 1; 0 if there is none. *)
Fixpoint ffs_loop (fuel : nat) (cnt mask : Z) : Z :=
  match fuel with
  | O => cnt
  | S fuel => if Z.testbit mask 0 then cnt else ffs_loop fuel (cnt + 1) (Z.shiftr mask 1)
  end.
Definition ffs (mask : Z) : Z := if mask =? 0 then 0 else ffs_loop 32 1 mask.

(** What other parts of the kernel do for this one: a context switch (which
    returns when the process runs again), the tracer's request, the machine's
    signal frame, core dumps, exit, and the user areas of the other processes. *)
Class SigEnv := {
  swtch : K unit;
  procxmt : K bool;
  sendsig : Z → Z → Z → K unit;
  core : K bool;
  exit : Z → K unit;
  (** [((struct user * )p->p_addr)->u_ruid] *)
  loaded_ruid : nat → K Z;
  (** the same in the block read from the swap device; [None] on an I/O error *)
  swapped_ruid : nat → K (option Z);
  (** how often [issignal] looks again, across the context switches *)
  sig_passes : nat;
}.

Module Sig.
Section sig.
Context `{KConfig} `{KLayout} `{SigEnv}.

(** The real uid of a process (kern_sysctl.c). *)
Definition fill_from_u (p : nat) : K Z :=
  r ← getp p;
  if p_stat r =? SZOMB then mret (u32 (-2))
  else if has (p_flag r) SLOAD then loaded_ruid p
  else o ← swapped_ruid p; set_error 0 ;; mret (default (u32 (-2)) o).

(** [short] p_uid against [uid_t]: both sides as unsigned. *)
Definition cansignal (q : nat) (signum : Z) : K bool :=
  ruid ← fill_from_u q;
  curp ← curproc; r ← getp q; cu ← getu u_ruid;
  if (p_uid curp =? 0) || (cu =? ruid) || (u32 (p_uid curp) =? ruid) ||
     (cu =? u32 (p_uid r)) || (p_uid curp =? p_uid r) then mret true
  else if signum =? SIGCONT then Sched.inferior q
  else mret false.

(** The address of a [struct proc], as a sleep channel. *)
Definition c_proc (p : option nat) : wchan :=
  match p with Some p => WChan "proc" (Z.of_nat p) | None => WChan "null" 0 end.

Definition stop (p : nat) : K unit :=
  setp p (λ r, r <| p_stat := SSTOP |>) ;;
  setp p (λ r, r <| p_flag ::= λ f, clrf f P_WAITED |>) ;;
  r ← getp p; Sched.wakeup (c_proc (p_pptr r)).

(** What a signal does to a process now: [None] if it is ignored. *)
Definition sig_action (r : proc) (mask : Z) : option Z :=
  if has (p_flag r) P_TRACED then Some SIG_DFL
  else if has (p_sigignore r) mask then None
  else if has (p_sigmask r) mask then Some SIG_HOLD
  else if has (p_sigcatch r) mask then Some SIG_CATCH
  else Some SIG_DFL.

(** [run:] in [psignal]. *)
Definition psignal_run (p : nat) : K unit :=
  r ← getp p;
  when (PUSER <? p_pri r) (setp p (λ r, r <| p_pri := PUSER |>)) ;;
  Sched.setrun p.

(** The [switch (p->p_stat)] of [psignal]; [notify q] is [psignal (q, SIGCHLD)]. *)
Definition psignal_switch (notify : nat → K unit) (p : nat) (sig action prop mask : Z) : K unit :=
  r ← getp p;
  if p_stat r =? SSLEEP then
    if negb (has (p_flag r) P_SINTR) then mret tt
    else if has (p_flag r) P_TRACED then psignal_run p
    else if has prop SA_CONT && (action =? SIG_DFL) then
      setp p (λ r, r <| p_sig ::= λ f, clrf f mask |>)
    else if has prop SA_STOP then
      if negb (action =? SIG_DFL) then psignal_run p
      else if has (p_flag r) SVFORK then mret tt
      else
        setp p (λ r, r <| p_sig ::= λ f, clrf f mask |>) ;;
        setp p (λ r, r <| p_ptracesig := sig |>) ;;
        q ← unless_none (p_pptr r); rq ← getp q;
        when (negb (has (p_flag rq) P_NOCLDSTOP)) (notify q) ;;
        stop p
    else psignal_run p
  else if p_stat r =? SSTOP then
    if has (p_flag r) P_TRACED then mret tt
    else if sig =? SIGKILL then psignal_run p
    else if has prop SA_CONT then
      when (action =? SIG_DFL) (setp p (λ r, r <| p_sig ::= λ f, clrf f mask |>)) ;;
      if (action =? SIG_CATCH) || bool_decide (p_wchan r = None) then psignal_run p
      else setp p (λ r, r <| p_stat := SSLEEP |>)
    else if has prop SA_STOP then setp p (λ r, r <| p_sig ::= λ f, clrf f mask |>)
    else when (bool_decide (p_wchan r ≠ None) && has (p_flag r) P_SINTR) (Sched.unsleep p)
  else mret tt.

Definition psignal_with (notify : nat → K unit) (p : nat) (sig : Z) : K unit :=
  let mask := sigmask sig in
  prop ← sigprop_of sig;
  r ← getp p;
  match sig_action r mask with
  | None => mret tt
  | Some action =>
    when ((NZERO <? p_nice r) && (action =? SIG_DFL) && has prop SA_KILL &&
          negb (has (p_flag r) P_TRACED)) (setp p (λ r, r <| p_nice := NZERO |>)) ;;
    when (has prop SA_CONT) (setp p (λ r, r <| p_sig ::= λ f, clrf f stopsigmask |>)) ;;
    if has prop SA_STOP && has prop SA_TTYSTOP && bool_decide (p_pptr r = Some 1%nat) &&
       (action =? SIG_DFL) then mret tt
    else
      when (has prop SA_STOP) (setp p (λ r, r <| p_sig ::= λ f, clrf f contsigmask |>)) ;;
      setp p (λ r, r <| p_sig ::= λ f, setf f mask |>) ;;
      if (action =? SIG_HOLD) && (negb (has prop SA_CONT) || negb (p_stat r =? SSTOP)) then mret tt
      else psignal_switch notify p sig action prop mask
  end.

(** SIGCHLD stops nobody, so telling the parent tells no one else. *)
Definition psignal (p : nat) (sig : Z) : K unit :=
  psignal_with (λ q, psignal_with (λ _, nofuel) q SIGCHLD) p sig.

Fixpoint killpg1_loop (fuel : nat) (signo pgrp : Z) (all : bool) (p : option nat)
    (f error : Z) : K Z :=
  match p with
  | None => mret (if negb (error =? 0) then error else if f =? 0 then ESRCH else 0)
  | Some p =>
    match fuel with
    | O => nofuel
    | S fuel =>
      let next f error := r ← getp p; killpg1_loop fuel signo pgrp all (p_nxt r) f error in
      r ← getp p; cur ← getu u_procp;
      if (negb (p_pgrp r =? pgrp) && negb all) || (p_ppid r =? 0) || has (p_flag r) SSYS ||
         (all && bool_decide (p = cur)) then next f error
      else
        ok ← cansignal p signo;
        if negb ok then next f (if all then error else EPERM)
        else when (negb (signo =? 0)) (psignal p signo) ;; next (f + 1) error
    end
  end.
Definition killpg1 (signo pgrp : Z) (all : bool) : K Z :=
  pgrp' ← (if negb all && (pgrp =? 0) then r ← curproc; mret (p_pgrp r) else mret pgrp);
  if negb all && (pgrp =? 0) && (pgrp' =? 0) then mret ESRCH
  else s ← get_s; killpg1_loop (size (procs s)) signo pgrp' all (allproc s) 0 0.

Definition kill : K unit :=
  pid ← uap 0; signo ← uap 1;
  error ←
    (if (signo <? 0) || (NSIG <=? signo) then mret EINVAL
     else if 0 <? pid then
       o ← Sched.pfind pid;
       match o with
       | None => mret ESRCH
       | Some p =>
         ok ← cansignal p signo;
         if negb ok then mret EPERM
         else when (negb (signo =? 0)) (psignal p signo) ;; mret 0
       end
     else if pid =? -1 then killpg1 signo 0 true
     else if pid =? 0 then killpg1 signo 0 false
     else killpg1 signo (i32 (- pid)) false);
  set_error error.

Definition killpg : K unit :=
  pgrp ← uap 0; signo ← uap 1;
  error ← (if (signo <? 0) || (NSIG <=? signo) then mret EINVAL else killpg1 signo pgrp false);
  set_error error.

Fixpoint gsignal_loop (fuel : nat) (pgrp sig : Z) (p : option nat) : K unit :=
  match p with
  | None => mret tt
  | Some p =>
    match fuel with
    | O => nofuel
    | S fuel =>
      r ← getp p;
      when (p_pgrp r =? pgrp) (psignal p sig) ;;
      r ← getp p; gsignal_loop fuel pgrp sig (p_nxt r)
    end
  end.
Definition gsignal (pgrp sig : Z) : K unit :=
  if pgrp =? 0 then mret tt
  else s ← get_s; gsignal_loop (size (procs s)) pgrp sig (allproc s).

(** * Taking signals *)

(** The signal looked at next: the lowest pending one that is not masked (nor,
    between vfork and exec, a stop signal). *)
Definition pending_mask (r : proc) : Z :=
  let mask := clrf (p_sig r) (p_sigmask r) in
  if has (p_flag r) SVFORK then clrf mask stopsigmask else mask.

(** [do { stop (p); swtch (); } while (! procxmt () && (p->p_flag & P_TRACED))] *)
Fixpoint traced_stop (fuel : nat) (p : nat) : K unit :=
  match fuel with
  | O => nofuel
  | S fuel =>
    stop p ;; swtch ;;
    ok ← procxmt; r ← getp p;
    if negb ok && has (p_flag r) P_TRACED then traced_stop fuel p else mret tt
  end.

(** A traced process stops for its parent; the signal to go on with, or [None]
    to look again. *)
Definition issignal_traced (p : nat) (sig : Z) : K (option Z) :=
  setp p (λ r, r <| p_sig ::= λ f, clrf f (sigmask sig) |>) ;;
  setp p (λ r, r <| p_ptracesig := sig |>) ;;
  r ← getp p; q ← unless_none (p_pptr r); psignal q SIGCHLD ;;
  traced_stop sig_passes p ;;
  r ← getp p;
  let sig := p_ptracesig r in
  if sig =? 0 then mret None
  else
    setp p (λ r, r <| p_sig ::= λ f, setf f (sigmask sig) |>) ;;
    if has (p_sigmask r) (sigmask sig) || negb (has (p_flag r) P_TRACED) then mret None
    else mret (Some sig).

(** The default action of [issignal]: [true] to return the signal, [false] to
    drop it. *)
Definition issignal_default (p : nat) (sig : Z) : K bool :=
  r ← getp p; prop ← sigprop_of sig;
  if p_pid r <=? 1 then mret false
  else if has prop SA_STOP then
    if has (p_flag r) P_TRACED || (bool_decide (p_pptr r = Some 1%nat) && has prop SA_TTYSTOP)
    then mret false
    else
      setp p (λ r, r <| p_ptracesig := sig |>) ;;
      q ← unless_none (p_pptr r); rq ← getp q;
      when (negb (has (p_flag rq) P_NOCLDSTOP)) (psignal q SIGCHLD) ;;
      stop p ;; swtch ;; mret false
  else mret (negb (has prop SA_IGNORE)).

Fixpoint issignal_loop (fuel : nat) (p : nat) : K Z :=
  match fuel with
  | O => nofuel
  | S fuel =>
    r ← getp p;
    let mask := pending_mask r in
    if mask =? 0 then mret 0
    else
      let sig := ffs (u32 mask) in
      if has (p_sigignore r) (sigmask sig) && negb (has (p_flag r) P_TRACED) then
        setp p (λ r, r <| p_sig ::= λ f, clrf f (sigmask sig) |>) ;;
        issignal_loop fuel p
      else
        o ← (if has (p_flag r) P_TRACED && negb (has (p_flag r) SVFORK)
             then issignal_traced p sig else mret (Some sig));
        match o with
        | None => issignal_loop fuel p
        | Some sig =>
          us ← getu u_signal; act ← unless_none (us !! Z.to_nat sig);
          take ← (if act =? SIG_DFL then issignal_default p sig
                  else mret (negb (act =? SIG_IGN)));
          if (take : bool) then mret sig
          else
            setp p (λ r, r <| p_sig ::= λ f, clrf f (sigmask sig) |>) ;;
            issignal_loop fuel p
        end
  end.
Definition issignal (p : nat) : K Z := issignal_loop sig_passes p.

Definition CURSIG (p : nat) : K Z :=
  r ← getp p;
  if (p_sig r =? 0) || (negb (has (p_flag r) P_TRACED) && (clrf (p_sig r) (p_sigmask r) =? 0))
  then mret 0 else issignal p.

Definition postsig (sig : Z) : K unit :=
  p ← getu u_procp;
  let mask := sigmask sig in
  setp p (λ r, r <| p_sig ::= λ f, clrf f mask |>) ;;
  us ← getu u_signal; action ← unless_none (us !! Z.to_nat sig);
  if negb (action =? SIG_DFL) then
    r ← getp p;
    when (DIAGNOSTIC && ((action =? SIG_IGN) || has (p_sigmask r) mask)) (panic "postsig action") ;;
    set_error 0 ;;
    fl ← getu u_psflags; old ← getu u_oldmask;
    (if has fl SAS_OLDMASK then setu (λ r, r <| u_psflags ::= λ f, clrf f SAS_OLDMASK |>)
     else mret tt) ;;
    let returnmask := if has fl SAS_OLDMASK then old else p_sigmask r in
    ms ← getu u_sigmask; m ← unless_none (ms !! Z.to_nat sig);
    setp p (λ r, r <| p_sigmask ::= λ f, setf f (setf m mask) |>) ;;
    setu (λ r, r <| u_ru ::= λ t, t <| ru_nsignals ::= λ z, i32 (z + 1) |> |>) ;;
    sendsig action sig returnmask
  else
    prop ← sigprop_of sig;
    if has prop SA_CORE then
      set_uap 0 sig ;; dumped ← core; exit (if (dumped : bool) then Z.lor sig 128 else sig)
    else exit sig.

Fixpoint execsigs_loop (fuel : nat) (p : nat) : K unit :=
  r ← getp p;
  if p_sigcatch r =? 0 then mret tt
  else
    match fuel with
    | O => nofuel
    | S fuel =>
      let nc := ffs (u32 (p_sigcatch r)) in
      let mask := sigmask nc in
      setp p (λ r, r <| p_sigcatch ::= λ f, clrf f mask |>) ;;
      prop ← sigprop_of nc;
      when (has prop SA_IGNORE)
        (when (negb (nc =? SIGCONT)) (setp p (λ r, r <| p_sigignore ::= λ f, setf f mask |>)) ;;
         setp p (λ r, r <| p_sig ::= λ f, clrf f mask |>)) ;;
      us ← getu u_signal; _ ← unless_none (us !! Z.to_nat nc);
      setu (λ r, r <| u_signal ::= <[Z.to_nat nc := SIG_DFL]> |>) ;;
      execsigs_loop fuel p
    end.
Definition execsigs (p : nat) : K unit :=
  execsigs_loop 32 p ;;
  setu (λ r, r <| u_sigstk ::= λ t, t <| ss_flags := SA_DISABLE |> |>) ;;
  setu (λ r, r <| u_sigstk ::= λ t, t <| ss_size := 0 |> |>) ;;
  setu (λ r, r <| u_sigstk ::= λ t, t <| ss_base := 0 |> |>) ;;
  setu (λ r, r <| u_psflags := 0 |>).

Definition nosys : K unit :=
  us ← getu u_signal; h ← unless_none (us !! Z.to_nat SIGSYS);
  when ((h =? SIG_IGN) || (h =? SIG_HOLD)) (set_error EINVAL) ;;
  p ← getu u_procp; psignal p SIGSYS.

(** [addupc] (machdep.c): a tick at [pc]'s slot of the profile buffer. *)
Definition addupc (pc : Z) (ticks : Z) : K unit :=
  pb ← getu u_prof;
  if pc <? pr_off pb then mret tt
  else
    let indx := u32 (pc - pr_off pb) in
    let indx := Z.shiftr (u32 (indx * pr_scale pb)) 16 in
    if pr_size pb <=? indx then mret tt
    else
      let a := u32 (pr_base pb + 4 * indx) in
      s ← get_s;
      w ← unless_none (head (bytes_words (ubytes (umem s) a 4)));
      modify (λ s, s <| umem ::= λ m, ustore m a (word_bytes (w + ticks)) |>).

Fixpoint userret_sigs (fuel : nat) : K unit :=
  match fuel with
  | O => nofuel
  | S fuel =>
    p ← getu u_procp; sig ← CURSIG p;
    if sig <=? 0 then mret tt else postsig sig ;; userret_sigs fuel
  end.
Definition userret (pc syst : Z) : K unit :=
  userret_sigs sig_passes ;;
  p ← getu u_procp; pri ← Sched.setpri p;
  modify (λ s, s <| curpri := cchar pri |>) ;;
  s ← get_s;
  when (negb (runrun s =? 0))
    (Sched.setrq p ;;
     setu (λ r, r <| u_ru ::= λ t, t <| ru_nivcsw ::= λ z, i32 (z + 1) |> |>) ;;
     swtch) ;;
  pb ← getu u_prof; ru ← getu u_ru;
  when (negb (pr_scale pb =? 0)) (addupc pc (i32 (ru_stime ru - syst))).

(** * kern_sig.c: the old [sigstack] *)

Definition sigstack : K unit :=
  nss ← uap 0; oss ← uap 1; t ← getu u_sigstk;
  e ← (if oss =? 0 then mret 0
       else copyout_words [ss_base t; Z.land (ss_flags t) SA_ONSTACK] oss);
  if negb (e =? 0) then set_error e
  else if nss =? 0 then set_error 0
  else
    r ← copyin_words nss 2;
    match r with
    | inr e => set_error e
    | inl [sp; on] =>
      setu (λ r, r <| u_sigstk ::= λ t, t <| ss_base := u32 sp |> |>) ;;
      setu (λ r, r <| u_sigstk ::= λ t, t <| ss_size := 0 |> |>) ;;
      setu (λ r, r <| u_sigstk ::= λ t,
        t <| ss_flags ::= λ f, setf f (Z.land on SA_ONSTACK) |> |>) ;;
      setu (λ r, r <| u_psflags ::= λ f, setf f SAS_ALTSTACK |>) ;;
      set_error 0
    | inl _ => fault
    end.
(** * What posting a signal may change *)

(** A process never has a stop signal and SIGCONT pending together. *)
Definition sig_excl (r : proc) : Prop :=
  has (p_sig r) stopsigmask = false ∨ has (p_sig r) contsigmask = false.

(** Scheduling, pending signals, nice, and that the parent has been told. *)
Record sig_only (r r' : proc) : Prop := {
  so_fields : r' = r <| p_pri := p_pri r' |> <| p_cpu := p_cpu r' |> <| p_slptime := p_slptime r' |>
    <| p_stat := p_stat r' |> <| p_wchan := p_wchan r' |> <| p_link := p_link r' |>
    <| p_sig := p_sig r' |> <| p_nice := p_nice r' |> <| p_ptracesig := p_ptracesig r' |>
    <| p_flag := p_flag r' |>;
  so_flag : clrf (p_flag r') P_WAITED = clrf (p_flag r) P_WAITED;
  so_wchan : p_wchan r' = p_wchan r ∨ p_wchan r' = None;
  so_excl : sig_excl r → sig_excl r';
}.
Definition sig_step (s s' : kstate) : Prop :=
  Sched.sched_frame s s' ∧ (∀ k, procs s !! k = None → procs s' !! k = None) ∧
  ∀ k r, procs s !! k = Some r → ∃ r', procs s' !! k = Some r' ∧ sig_only r r'.

Lemma sig_only_refl r : sig_only r r.
Proof. split; [by destruct r|done|by left|done]. Qed.
Lemma sig_only_trans r1 r2 r3 : sig_only r1 r2 → sig_only r2 r3 → sig_only r1 r3.
Proof.
  intros [F1 L1 W1 E1] [F2 L2 W2 E2]. split.
  - rewrite F2, F1. by destruct r1.
  - congruence.
  - destruct W1, W2; [left|right|right|right]; congruence.
  - auto.
Qed.
Lemma sig_step_refl s : sig_step s s.
Proof.
  split; [apply Sched.sched_frame_refl|]. split; [done|]. intros k r Hk. exists r.
  split; [done|apply sig_only_refl].
Qed.
Lemma sig_step_trans s1 s2 s3 : sig_step s1 s2 → sig_step s2 s3 → sig_step s1 s3.
Proof.
  intros (F1 & N1 & G1) (F2 & N2 & G2). split; [by eapply Sched.sched_frame_trans|].
  split; [auto|]. intros k r Hk. destruct (G1 k r Hk) as (r2 & Hk2 & S1).
  destruct (G2 k r2 Hk2) as (r3 & Hk3 & S2). exists r3. split; [done|by eapply sig_only_trans].
Qed.
Lemma sig_step_put s p r r' :
  procs s !! p = Some r → sig_only r r' → sig_step s (s <| procs ::= <[p := r']> |>).
Proof.
  intros Hp Ho. split; [by destruct s|]. simpl. split.
  - intros k Hk. rewrite lookup_insert_ne; [done|]. intros ->. congruence.
  - intros k q Hk. destruct (decide (k = p)) as [->|Hkp].
    + rewrite lookup_insert_eq. assert (q = r) as -> by congruence. eauto.
    + rewrite lookup_insert_ne by done. exists q. split; [done|apply sig_only_refl].
Qed.

(** What the scheduler changes. *)
Lemma sig_only_link r l : sig_only r (r <| p_link := l |>).
Proof. split; [by destruct r|done|by left|done]. Qed.
Lemma updatepri_rec_only r : sig_only r (Sched.updatepri_rec r).
Proof. split; [by destruct r|done|by left|done]. Qed.
Lemma wake_rec_only r l : sig_only r (Sched.wake_rec r <| p_link := l |>).
Proof.
  unfold Sched.wake_rec. split.
  - destruct (p_stat r =? SSLEEP), (1 <? p_slptime r), r; reflexivity.
  - by destruct (p_stat r =? SSLEEP), (1 <? p_slptime r), r.
  - by right.
  - by destruct (p_stat r =? SSLEEP), (1 <? p_slptime r), r.
Qed.
Lemma setrun_rec_only r l : sig_only r (Sched.setrun_rec r <| p_link := l |>).
Proof.
  unfold Sched.setrun_rec. split.
  - destruct (1 <? p_slptime r), r; reflexivity.
  - by destruct (1 <? p_slptime r), r.
  - by right.
  - by destruct (1 <? p_slptime r), r.
Qed.
Lemma woke_sig_step D s s' : Sched.woke D s s' → sig_step s s'.
Proof.
  intros (F & N & W). split; [done|]. split; [done|]. intros k r Hk.
  destruct (W k r Hk) as (l & [[_ E]|[_ E]]); rewrite E; eexists; (split; [done|]).
  - apply wake_rec_only.
  - apply sig_only_link.
Qed.

(** A sleeper that signals may wake has a parent, and is not the swapper. *)
Definition sig_wf (s : kstate) : Prop := ∀ k r,
  procs s !! k = Some r → has (p_flag r) P_SINTR = true →
  p_wchan r ≠ Some Sched.c_runout ∧ ∃ q, p_pptr r = Some q ∧ q ≠ k ∧ is_Some (procs s !! q).

Lemma so_has r r' m : sig_only r r' → Z.land P_WAITED m = 0 → has (p_flag r') m = has (p_flag r) m.
Proof.
  intros [_ L _ _] E. rewrite <- (has_clrf_disj (p_flag r') P_WAITED m E), L.
  by apply has_clrf_disj.
Qed.
Lemma so_pptr r r' : sig_only r r' → p_pptr r' = p_pptr r.
Proof. intros [F _ _ _]. rewrite F. by destruct r. Qed.
Lemma sig_wf_step s s' : sig_step s s' → sig_wf s → sig_wf s'.
Proof.
  intros (_ & N & G) Hw k r' Hk' Hf. destruct (procs s !! k) as [r|] eqn:Hk.
  2:{ rewrite (N k Hk) in Hk'. done. }
  destruct (G k r Hk) as (r2 & E2 & Ho). assert (r2 = r') as -> by congruence.
  rewrite (so_has _ _ P_SINTR Ho eq_refl) in Hf. destruct (Hw k r Hk Hf) as (Hc & q & Hq & Hqk & [rq Hrq]).
  split.
  - destruct (so_wchan _ _ Ho) as [-> | ->]; done.
  - exists q. rewrite (so_pptr _ _ Ho). split; [done|]. split; [done|].
    destruct (G q rq Hrq) as (? & ? & _). eauto.
Qed.
(** Everyone but [p] and the swapper is left alone. *)
Definition quiet (p : nat) (s s' : kstate) : Prop := ∀ k q,
  k ≠ p → procs s !! k = Some q → p_wchan q ≠ Some Sched.c_runout →
  ∃ l, procs s' !! k = Some (q <| p_link := l |>).
Lemma quiet_refl p s : quiet p s s.
Proof. intros k q _ Hk _. exists (p_link q). rewrite Hk. by destruct q. Qed.
Lemma quiet_put p s r s' : quiet p (s <| procs ::= <[p := r]> |>) s' → quiet p s s'.
Proof.
  intros Q k q Hkp Hk Hw. apply Q; [done| |done]. simpl. by rewrite lookup_insert_ne.
Qed.

Lemma setrun_step s rl sq p r :
  Sched.sched_inv s rl sq → procs s !! p = Some r →
  (p_stat r = SSLEEP ∨ p_stat r = SSTOP ∨ p_stat r = SIDL) →
  ∃ s' w sq', Sched.setrun p s = Done tt s' ∧ sig_step s s' ∧
    Sched.sched_inv s' (w ++ rl) sq' ∧ (has (p_flag r) SLOAD = true → p ∈ w) ∧
    (∃ l, procs s' !! p = Some (Sched.setrun_rec r <| p_link := l |>)) ∧ quiet p s s'.
Proof.
  intros Hi Hr Hst.
  destruct (Sched.setrun_spec s rl sq p r Hi Hr Hst) as (s' & w & sq' & E & F & Hi' & Hl & [l Hp] & N & Ho).
  exists s', w, sq'. split; [done|]. split.
  { split; [done|]. split; [done|]. intros k q Hk. destruct (decide (k = p)) as [->|Hkp].
    - assert (q = r) as -> by congruence. rewrite Hp. eexists. split; [done|]. apply setrun_rec_only.
    - destruct (Ho k q Hkp Hk) as (l' & [[_ E']|[_ E']]); rewrite E'; eexists; (split; [done|]).
      + apply wake_rec_only.
      + apply sig_only_link. }
  split; [done|]. split; [done|]. split; [by eauto|].
  intros k q Hkp Hk Hw. destruct (Ho k q Hkp Hk) as (l' & [[D _]|[_ E']]); [|by eauto].
  destruct D as (_ & _ & q' & Hq' & Hc). congruence.
Qed.

Lemma psignal_run_step s rl sq p r :
  Sched.sched_inv s rl sq → procs s !! p = Some r → (p_stat r = SSLEEP ∨ p_stat r = SSTOP) →
  ∃ s' w sq', psignal_run p s = Done tt s' ∧ sig_step s s' ∧ Sched.sched_inv s' (w ++ rl) sq' ∧
    (has (p_flag r) SLOAD = true → p ∈ w) ∧
    (∃ l, procs s' !! p = Some (Sched.setrun_rec (r <| p_pri := Z.min (p_pri r) PUSER |>) <| p_link := l |>)) ∧
    quiet p s s'.
Proof.
  intros Hi Hr Hst. unfold psignal_run. kstep.
  set (r1 := r <| p_pri := Z.min (p_pri r) PUSER |>).
  assert (E : when (PUSER <? p_pri r) (setp p (λ r, r <| p_pri := PUSER |>)) s =
    Done tt (s <| procs ::= <[p := r1]> |>)).
  { unfold when. destruct (Z.ltb_spec PUSER (p_pri r)) as [Hlt|Hge].
    - rewrite (setp_eq _ _ _ _ Hr). subst r1. by rewrite Z.min_r by lia.
    - rewrite mret_eq. subst r1. rewrite Z.min_l by lia.
      replace (r <| p_pri := p_pri r |>) with r by (by destruct r). unfold upd at 1. simpl.
      rewrite insert_id by done. by destruct s. }
  rewrite (bind_done _ _ _ _ _ E).
  destruct (setrun_step (s <| procs ::= <[p := r1]> |>) rl sq p r1) as
    (s' & w & sq' & E' & S & Hi' & Hl & Hp & Q).
  - by eapply Sched.sched_inv_setp.
  - by simpl; rewrite lookup_insert_eq.
  - subst r1. simpl. naive_solver.
  - exists s', w, sq'. split; [done|]. split.
    { eapply sig_step_trans; [|exact S]. eapply sig_step_put; [exact Hr|].
      split; [by destruct r|done|by left|done]. }
    split; [done|]. split; [done|]. split; [done|]. by eapply quiet_put.
Qed.

(** Stopping a sleeper leaves it on its queue. *)
Lemma sched_inv_stop s rl sq p r r' :
  Sched.sched_inv s rl sq → procs s !! p = Some r → p ∉ rl → p_link r' = p_link r →
  p_wchan r' = p_wchan r → (p_stat r' = SSLEEP ∨ p_stat r' = SSTOP) →
  Sched.sched_inv (s <| procs ::= <[p := r']> |>) rl sq.
Proof.
  intros [I1 I2 I3 I4 I5] Hr Hp Hl Hw Hst. split; simpl.
  - by eapply chain_insert_nxt.
  - intros h. by eapply chain_insert_nxt.
  - intros k Hk. destruct (I3 k Hk) as (q & Hq & ?). exists q.
    rewrite lookup_insert_ne by (intros ->; done). done.
  - intros h k Hk. destruct (I4 h k Hk) as (q & c & Hq & ?). destruct (decide (k = p)) as [->|Hkp].
    + simplify_eq. exists r', c. rewrite lookup_insert_eq, Hw. naive_solver.
    + exists q, c. by rewrite lookup_insert_ne.
  - intros k q c. destruct (decide (k = p)) as [->|Hkp].
    + rewrite lookup_insert_eq. intros [= <-] Hc. rewrite Hw in Hc. eauto.
    + rewrite lookup_insert_ne by done. eauto.
Qed.

Lemma stop_step s rl sq p r :
  Sched.sched_inv s rl sq → procs s !! p = Some r → p ∉ rl →
  let r1 := r <| p_stat := SSTOP |> <| p_flag ::= λ f, clrf f P_WAITED |> in
  let s1 := s <| procs ::= <[p := r1]> |> in
  ∃ s' w sq', stop p s = Done tt s' ∧ sig_step s s' ∧ Sched.sched_inv s' (w ++ rl) sq' ∧
    Sched.woke (Sched.wakes s1 (c_proc (p_pptr r))) s1 s'.
Proof.
  intros Hi Hr Hp r1 s1.
  assert (Hi1 : Sched.sched_inv s1 rl sq) by (by eapply sched_inv_stop; eauto).
  destruct (Sched.wakeup_spec (c_proc (p_pptr r)) s1 rl sq Hi1) as (s' & E & W & _ & w & sq' & Hi' & _).
  exists s', w, sq'. split.
  - unfold stop. kstep. kstep.
    assert (Es : s <| procs ::= <[p := r <| p_stat := SSTOP |>]> |>
      <| procs ::= <[p := r <| p_stat := SSTOP |> <| p_flag ::= λ f, clrf f P_WAITED |>]> |> = s1).
    { subst s1. unfold upd. simpl. by rewrite insert_insert_eq. }
    rewrite Es, (bind_done _ _ _ _ _ (getp_eq s1 p r1 ltac:(by subst s1; simpl; rewrite lookup_insert_eq))).
    exact E.
  - split; [|by split]. eapply sig_step_trans; [|by eapply woke_sig_step].
    eapply sig_step_put; [exact Hr|]. subst r1. split; [by destruct r| |by left|done].
    simpl. unfold clrf. apply Z.bits_inj'. intros n Hn. rewrite !Z.ldiff_spec.
    by destruct (Z.testbit (p_flag r) n), (Z.testbit P_WAITED n).
Qed.
(** * Posting *)

Definition put (s : kstate) (p : nat) (r : proc) : kstate := s <| procs ::= <[p := r]> |>.
Lemma put_put s p r r' : put (put s p r) p r' = put s p r'.
Proof. unfold put, upd. simpl. by rewrite insert_insert_eq. Qed.
Lemma put_lookup s p r : procs (put s p r) !! p = Some r.
Proof. unfold put. simpl. by rewrite lookup_insert_eq. Qed.
Lemma put_id s p r : procs s !! p = Some r → put s p r = s.
Proof. intros E. unfold put, upd. simpl. rewrite insert_id by done. by destruct s. Qed.
Lemma setp_put s p r f : setp p f (put s p r) = Done tt (put s p (f r)).
Proof. rewrite (setp_eq _ _ _ _ (put_lookup s p r)). apply f_equal, put_put. Qed.
Lemma setp_put_eq s p r f : procs s !! p = Some r → setp p f s = Done tt (put s p (f r)).
Proof. apply setp_eq. Qed.
Lemma when_setp b p f s r :
  procs s !! p = Some r → when b (setp p f) s = Done tt (put s p (if b then f r else r)).
Proof.
  intros E. destruct b; simpl; [by rewrite (setp_eq _ _ _ _ E)|]. by rewrite put_id.
Qed.

Definition nice_reset (r : proc) (action prop : Z) : proc :=
  if (NZERO <? p_nice r) && (action =? SIG_DFL) && has prop SA_KILL &&
     negb (has (p_flag r) P_TRACED) then r <| p_nice := NZERO |> else r.
Definition cont_clears (r : proc) (prop : Z) : proc :=
  if has prop SA_CONT then r <| p_sig ::= λ f, clrf f stopsigmask |> else r.
Definition stop_clears (r : proc) (prop : Z) : proc :=
  if has prop SA_STOP then r <| p_sig ::= λ f, clrf f contsigmask |> else r.
(** The record with the signal posted. *)
Definition posted (r : proc) (sig action prop : Z) : proc :=
  stop_clears (cont_clears (nice_reset r action prop) prop) prop <| p_sig ::= λ f, setf f (sigmask sig) |>.
Definition orphan_drops (r : proc) (action prop : Z) : bool :=
  has prop SA_STOP && has prop SA_TTYSTOP && bool_decide (p_pptr r = Some 1%nat) &&
  (action =? SIG_DFL).
Definition deferred (r : proc) (action prop : Z) : bool :=
  (action =? SIG_HOLD) && (negb (has prop SA_CONT) || negb (p_stat r =? SSTOP)).

Lemma psignal_with_eq notify p sig s r prop :
  procs s !! p = Some r → sigprop_of sig s = Done prop s →
  psignal_with notify p sig s =
    match sig_action r (sigmask sig) with
    | None => Done tt s
    | Some action =>
      if orphan_drops r action prop then Done tt (put s p (cont_clears (nice_reset r action prop) prop))
      else if deferred r action prop then Done tt (put s p (posted r sig action prop))
      else psignal_switch notify p sig action prop (sigmask sig) (put s p (posted r sig action prop))
    end.
Proof.
  intros Hr Hprop. unfold psignal_with. kstep. kstep.
  destruct (sig_action r (sigmask sig)) as [action|]; [|done].
  rewrite (bind_done _ _ _ _ _ (when_setp _ _ _ _ _ Hr)). cbv beta. fold (nice_reset r action prop).
  rewrite (bind_done _ _ _ _ _ (when_setp _ _ _ _ _ (put_lookup _ _ _))), put_put. cbv beta.
  fold (cont_clears (nice_reset r action prop) prop). fold (orphan_drops r action prop).
  destruct (orphan_drops r action prop); [done|].
  rewrite (bind_done _ _ _ _ _ (when_setp _ _ _ _ _ (put_lookup _ _ _))), put_put. cbv beta.
  fold (stop_clears (cont_clears (nice_reset r action prop) prop) prop).
  rewrite (bind_done _ _ _ _ _ (setp_eq _ _ _ _ (put_lookup _ _ _))).
  match goal with |- context [put ?s p ?a <| procs ::= <[p := ?b]> |>] =>
    change (put s p a <| procs ::= <[p := b]> |>) with (put (put s p a) p b) end.
  rewrite put_put. fold (posted r sig action prop). fold (deferred r action prop).
  by destruct (deferred r action prop).
Qed.

Lemma posted_fields r sig action prop :
  posted r sig action prop = r <| p_nice := p_nice (posted r sig action prop) |>
    <| p_sig := p_sig (posted r sig action prop) |>.
Proof.
  unfold posted, stop_clears, cont_clears, nice_reset.
  destruct ((NZERO <? p_nice r) && (action =? SIG_DFL) && has prop SA_KILL && negb (has (p_flag r) P_TRACED)),
    (has prop SA_CONT), (has prop SA_STOP), r; reflexivity.
Qed.

(** The properties of the signals, by inspection of the table. *)
Lemma sigprop_of_ok sig s : 0 <= sig <= NSIG → ∃ prop, sigprop_of sig s = Done prop s.
Proof.
  intros Hs. unfold sigprop_of. replace (sig <? 0) with false by lia.
  destruct (lookup_lt_is_Some_2 sigprop (Z.to_nat sig)) as [prop E]; [unfold NSIG in *; simpl; lia|].
  exists prop. by rewrite E.
Qed.
Lemma sigprop_of_any sig s s' prop : sigprop_of sig s = Done prop s → sigprop_of sig s' = Done prop s'.
Proof. unfold sigprop_of. destruct (sig <? 0); [done|]. destruct (sigprop !! _); [|done]. by intros [= ->]. Qed.
Lemma sigprop_masks sig s prop : 0 < sig < NSIG → sigprop_of sig s = Done prop s →
  (has prop SA_CONT = true → Z.land (sigmask sig) stopsigmask = 0 ∧ has prop SA_STOP = false) ∧
  (has prop SA_STOP = true → Z.land (sigmask sig) contsigmask = 0) ∧
  (has prop SA_CONT = false → has prop SA_STOP = false →
    Z.land (sigmask sig) stopsigmask = 0 ∧ Z.land (sigmask sig) contsigmask = 0).
Proof.
  intros Hs. unfold NSIG in Hs.
  assert (Hc : sig ∈ seqZ 1 31) by (apply elem_of_seqZ; lia). clear Hs. revert prop.
  revert sig Hc. refine (proj1 (Forall_forall _ _) _).
  let v := eval vm_compute in (seqZ 1 31) in change (seqZ 1 31) with v.
  repeat (apply Forall_cons; split); try (by apply Forall_nil).
  all: intros prop [= <-]; vm_compute; naive_solver.
Qed.
Definition notify_ok (notify : nat → K unit) : Prop := ∀ q rq s rl sq,
  Sched.sched_inv s rl sq → sig_wf s → procs s !! q = Some rq →
  ∃ s' w sq', notify q s = Done tt s' ∧ sig_step s s' ∧ Sched.sched_inv s' (w ++ rl) sq' ∧
    quiet q s s'.

Lemma excl_clrf r m : sig_excl r → sig_excl (r <| p_sig ::= λ f, clrf f m |>).
Proof. intros [E|E]; [left|right]; by apply has_clrf_mono. Qed.
Lemma sig_only_clr r m : sig_only r (r <| p_sig ::= λ f, clrf f m |>).
Proof. split; [by destruct r|done|by left|apply excl_clrf]. Qed.
Lemma not_queued s rl sq p r :
  Sched.sched_inv s rl sq → procs s !! p = Some r → p_stat r ≠ SRUN → p ∉ rl.
Proof.
  intros Hi Hr Hst Hp. destruct (Sched.si_runp _ _ _ Hi p Hp) as (r' & Hr' & _ & ?). congruence.
Qed.
Lemma unsleep_step s rl sq p r :
  Sched.sched_inv s rl sq → procs s !! p = Some r →
  ∃ s' sq', Sched.unsleep p s = Done tt s' ∧ sig_step s s' ∧ Sched.sched_inv s' rl sq' ∧ quiet p s s'.
Proof.
  intros Hi Hr. destruct (Sched.setrun_unsleep s rl sq p r Hi Hr) as (s' & sq' & E & F & _ & Hi' & [l Hp] & Ho).
  exists s', sq'. split; [done|]. split; [|split; [done|]].
  - split; [done|]. split.
    + intros k Hk. destruct (decide (k = p)) as [->|Hkp]; [congruence|].
      destruct (Ho k Hkp) as [f ->]. by rewrite Hk.
    + intros k q Hk. destruct (decide (k = p)) as [->|Hkp].
      * assert (q = r) as -> by congruence. eexists. split; [exact Hp|].
        split; [by destruct r|done|by right|done].
      * destruct (Ho k Hkp) as [f Hf]. rewrite Hf, Hk. eexists. split; [done|]. apply sig_only_link.
  - intros k q Hkp Hk _. destruct (Ho k Hkp) as [f Hf]. exists (f q). by rewrite Hf, Hk.
Qed.

(** The stop case of [psignal_switch]: the parent is told, then waited for. *)
Lemma psignal_stop_step notify p sig mask s rl sq r :
  notify_ok notify → Sched.sched_inv s rl sq → sig_wf s → procs s !! p = Some r →
  p_stat r = SSLEEP → has (p_flag r) P_SINTR = true →
  ∃ s' w sq',
    (setp p (λ r, r <| p_sig ::= λ f, clrf f mask |>) ;;
     setp p (λ r, r <| p_ptracesig := sig |>) ;;
     q ← unless_none (p_pptr r); rq ← getp q;
     when (negb (has (p_flag rq) P_NOCLDSTOP)) (notify q) ;; stop p) s = Done tt s' ∧
    sig_step s s' ∧ Sched.sched_inv s' (w ++ rl) sq' ∧
    (p_wchan r ≠ Some (c_proc (p_pptr r)) → ∃ l, procs s' !! p =
      Some (r <| p_sig ::= λ f, clrf f mask |> <| p_ptracesig := sig |> <| p_stat := SSTOP |>
              <| p_flag ::= λ f, clrf f P_WAITED |> <| p_link := l |>)).
Proof.
  intros Hn Hi Hw Hr Hst Hf. destruct (Hw p r Hr Hf) as (Hc & q & Hq & Hqp & [rq Hrq]).
  set (r1 := r <| p_sig ::= λ f, clrf f mask |> <| p_ptracesig := sig |>).
  assert (S1 : sig_only r r1).
  { eapply sig_only_trans; [apply (sig_only_clr r mask)|]. by split; [destruct r| |left|]. }
  pose proof (sig_step_put s p r r1 Hr S1) as Sp. fold (put s p r1) in Sp.
  assert (Hi1 : Sched.sched_inv (put s p r1) rl sq) by (by eapply Sched.sched_inv_setp).
  pose proof (sig_wf_step _ _ Sp Hw) as Hw1.
  assert (Hrq1 : procs (put s p r1) !! q = Some rq) by (simpl; by rewrite lookup_insert_ne).
  kstep. fold (put s p (r <| p_sig ::= λ f, clrf f mask |>)).
  rewrite (bind_done _ _ _ _ _ (setp_eq _ _ _ _ (put_lookup _ _ _))).
  match goal with |- context [put ?s p ?a <| procs ::= <[p := ?b]> |>] =>
    change (put s p a <| procs ::= <[p := b]> |>) with (put (put s p a) p b) end.
  rewrite put_put. fold r1. rewrite Hq. cbn [unless_none].
  rewrite (bind_done _ _ _ _ _ (mret_eq _ _)). kstep.
  assert (∃ s2 w sq2, when (negb (has (p_flag rq) P_NOCLDSTOP)) (notify q) (put s p r1) = Done tt s2 ∧
    sig_step (put s p r1) s2 ∧ Sched.sched_inv s2 (w ++ rl) sq2 ∧ quiet q (put s p r1) s2)
    as (s2 & w2 & sq2 & E2 & S2 & Hi2 & Q2).
  { destruct (negb (has (p_flag rq) P_NOCLDSTOP)).
    - destruct (Hn q rq (put s p r1) rl sq Hi1 Hw1 Hrq1) as (s2 & w & sq2 & E & S & I & Q). by exists s2, w, sq2.
    - exists (put s p r1), [], sq. split; [done|]. split; [apply sig_step_refl|]. split; [done|].
      apply quiet_refl. }
  rewrite (bind_done _ _ _ _ _ E2).
  destruct (Q2 p r1 (not_eq_sym Hqp) (put_lookup _ _ _) Hc) as [l Hp2].
  destruct (stop_step s2 (w2 ++ rl) sq2 p _ Hi2 Hp2) as (s3 & w3 & sq3 & E3 & S3 & Hi3 & W3).
  { eapply not_queued; [exact Hi2|exact Hp2|]. simpl. by rewrite Hst. }
  exists s3, (w3 ++ w2), sq3. split; [exact E3|]. split; [|split; [by rewrite <- app_assoc|]].
  - eapply sig_step_trans; [exact Sp|]. by eapply sig_step_trans.
  - intros Hne. destruct W3 as (_ & _ & W3).
    destruct (W3 p _ (put_lookup s2 p _)) as (l3 & [[D _]|[_ Hp3]]).
    + destruct D as [(r' & Hr' & Hc')|(_ & _ & (r' & Hr' & Hc'))]; simpl in Hr'; rewrite lookup_insert_eq in Hr';
        injection Hr' as <-; simpl in Hc'; congruence.
    + exists l3. exact Hp3.
Qed.

Lemma psignal_switch_step notify p sig action prop mask s rl sq r :
  (has prop SA_STOP = true → notify_ok notify) →
  Sched.sched_inv s rl sq → sig_wf s → procs s !! p = Some r →
  ∃ s' w sq', psignal_switch notify p sig action prop mask s = Done tt s' ∧ sig_step s s' ∧
    Sched.sched_inv s' (w ++ rl) sq' ∧ (has prop SA_STOP = false → quiet p s s').
Proof.
  intros Hn Hi Hw Hr.
  assert (Hsame : ∃ s' w sq', (mret tt : K unit) s = Done tt s' ∧ sig_step s s' ∧
    Sched.sched_inv s' (w ++ rl) sq' ∧ (has prop SA_STOP = false → quiet p s s')).
  { exists s, [], sq. split; [done|]. split; [apply sig_step_refl|]. split; [done|].
    intros _. apply quiet_refl. }
  assert (Hput : ∀ r', sig_only r r' → p_link r' = p_link r → p_wchan r' = p_wchan r →
    (p_stat r' = p_stat r ∨ (p_stat r = SSTOP ∧ p_stat r' = SSLEEP)) → ∀ x,
    x = Done tt (put s p r') → ∃ s' w sq', x = Done tt s' ∧ sig_step s s' ∧
    Sched.sched_inv s' (w ++ rl) sq' ∧ (has prop SA_STOP = false → quiet p s s')).
  { intros r' Ho Hl Hwc Hst x Ex. exists (put s p r'), [], sq. split; [done|].
    split; [by eapply sig_step_put|]. split.
    - destruct Hst as [Hst|[Hst Hst']]; [by eapply Sched.sched_inv_setp|].
      eapply sched_inv_stop; eauto. eapply not_queued; [done|done|]. by rewrite Hst.
    - intros _. eapply quiet_put, quiet_refl. }
  assert (Hrun : (p_stat r = SSLEEP ∨ p_stat r = SSTOP) → ∃ s' w sq', psignal_run p s = Done tt s' ∧
    sig_step s s' ∧ Sched.sched_inv s' (w ++ rl) sq' ∧ (has prop SA_STOP = false → quiet p s s')).
  { intros Hst. destruct (psignal_run_step s rl sq p r Hi Hr Hst) as (s' & w & sq' & E & S & I & _ & _ & Q).
    by exists s', w, sq'. }
  unfold psignal_switch. kstep. destruct (Z.eqb_spec (p_stat r) SSLEEP) as [Hsl|Hsl].
  - destruct (has (p_flag r) P_SINTR) eqn:Hf; [|exact Hsame]. cbn [negb].
    destruct (has (p_flag r) P_TRACED); [by apply Hrun; left|].
    destruct (has prop SA_CONT && (action =? SIG_DFL)).
    { eapply Hput; [apply (sig_only_clr r mask)|done|done|by left|]. by apply setp_eq. }
    destruct (has prop SA_STOP) eqn:Hs; [|by apply Hrun; left].
    destruct (action =? SIG_DFL); [|by apply Hrun; left]. cbn [negb].
    destruct (has (p_flag r) SVFORK); [exact Hsame|].
    destruct (psignal_stop_step notify p sig mask s rl sq r (Hn eq_refl) Hi Hw Hr Hsl Hf) as
      (s' & w & sq' & E & S & I & _). by exists s', w, sq'.
  - destruct (Z.eqb_spec (p_stat r) SSTOP) as [Hst|Hst]; [|exact Hsame].
    destruct (has (p_flag r) P_TRACED); [exact Hsame|].
    destruct (sig =? SIGKILL); [by apply Hrun; right|].
    destruct (has prop SA_CONT).
    2:{ destruct (has prop SA_STOP).
      - eapply Hput; [apply (sig_only_clr r mask)|done|done|by left|]. by apply setp_eq.
      - unfold when. destruct (_ && _); [|exact Hsame].
        destruct (unsleep_step s rl sq p r Hi Hr) as (s' & sq' & E & S & I & Q). by exists s', [], sq'. }
    rewrite (bind_done _ _ _ _ _ (when_setp _ _ _ _ _ Hr)). cbv beta.
    set (r1 := if action =? SIG_DFL then _ else r).
    assert (S1 : sig_only r r1).
    { subst r1. destruct (action =? SIG_DFL); [apply sig_only_clr|apply sig_only_refl]. }
    assert (Hr1 : p_link r1 = p_link r ∧ p_wchan r1 = p_wchan r ∧ p_stat r1 = p_stat r).
    { subst r1. by destruct (action =? SIG_DFL). }
    destruct ((action =? SIG_CATCH) || bool_decide (p_wchan r = None)).
    + destruct (psignal_run_step (put s p r1) rl sq p r1) as (s' & w & sq' & E & S & I & _ & _ & Q).
      * by eapply Sched.sched_inv_setp; naive_solver.
      * apply put_lookup.
      * right. naive_solver congruence.
      * exists s', w, sq'. split; [done|]. split; [|split; [done|]].
        -- eapply sig_step_trans; [by eapply (sig_step_put s p r r1)|exact S].
        -- intros _. by eapply quiet_put.
    + eapply (Hput (r1 <| p_stat := SSLEEP |>)).
      * eapply sig_only_trans; [exact S1|]. by split; [destruct r1| |left|].
      * simpl. naive_solver.
      * simpl. naive_solver.
      * right. done.
      * rewrite (setp_eq _ _ _ _ (put_lookup _ _ _)).
        change (put s p r1 <| procs ::= <[p := r1 <| p_stat := SSLEEP |>]> |>)
          with (put (put s p r1) p (r1 <| p_stat := SSLEEP |>)). by rewrite put_put.
Qed.
Lemma nice_reset_only r action prop : sig_only r (nice_reset r action prop).
Proof.
  unfold nice_reset. case_match; [|apply sig_only_refl].
  by split; [destruct r| |left|].
Qed.
Lemma cont_clears_only r prop : sig_only r (cont_clears r prop).
Proof. unfold cont_clears. destruct (has prop SA_CONT); [apply sig_only_clr|apply sig_only_refl]. Qed.
Lemma posted_only r sig action prop s :
  0 < sig < NSIG → sigprop_of sig s = Done prop s → sig_only r (posted r sig action prop).
Proof.
  intros Hs Hp. destruct (sigprop_masks sig s prop Hs Hp) as (M1 & M2 & M3).
  pose proof (posted_fields r sig action prop) as E. split.
  - generalize dependent (posted r sig action prop). intros x E.
    destruct x, r. unfold upd in E. simpl in E. injection E. intros. by subst.
  - by rewrite E.
  - left. by rewrite E.
  - intros Hx. unfold posted, stop_clears, sig_excl.
    assert (Hc : sig_excl (cont_clears (nice_reset r action prop) prop)).
    { apply (cont_clears_only _ prop), (nice_reset_only _ action prop), Hx. }
    destruct (has prop SA_STOP) eqn:Es; simpl.
    + right. rewrite has_setf by auto. apply has_clrf_self.
    + destruct (has prop SA_CONT) eqn:Ec; unfold cont_clears in *; rewrite Ec in *; simpl in *.
      * left. rewrite has_setf by naive_solver. apply has_clrf_self.
      * destruct (M3 eq_refl eq_refl) as [M4 M5]. by rewrite !has_setf.
Qed.
Lemma posted_sched r sig action prop :
  p_link (posted r sig action prop) = p_link r ∧ p_wchan (posted r sig action prop) = p_wchan r ∧
  p_stat (posted r sig action prop) = p_stat r ∧ p_flag (posted r sig action prop) = p_flag r ∧
  p_pptr (posted r sig action prop) = p_pptr r.
Proof. by rewrite posted_fields. Qed.

Lemma psignal_with_step notify p sig s rl sq r prop :
  0 < sig < NSIG → sigprop_of sig s = Done prop s →
  (has prop SA_STOP = true → notify_ok notify) →
  Sched.sched_inv s rl sq → sig_wf s → procs s !! p = Some r →
  ∃ s' w sq', psignal_with notify p sig s = Done tt s' ∧ sig_step s s' ∧
    Sched.sched_inv s' (w ++ rl) sq' ∧ (has prop SA_STOP = false → quiet p s s').
Proof.
  intros Hsig Hprop Hn Hi Hw Hr. rewrite (psignal_with_eq _ _ _ _ _ _ Hr Hprop).
  destruct (sig_action r (sigmask sig)) as [action|].
  2:{ exists s, [], sq. split; [done|]. split; [apply sig_step_refl|]. split; [done|].
      intros _. apply quiet_refl. }
  assert (Hput : ∀ r', sig_only r r' → p_link r' = p_link r → p_wchan r' = p_wchan r →
    p_stat r' = p_stat r → sig_step s (put s p r') ∧ Sched.sched_inv (put s p r') rl sq).
  { intros r' Ho H1' H2' H3'. split; [by eapply sig_step_put|by eapply Sched.sched_inv_setp]. }
  destruct (posted_sched r sig action prop) as (Pl & Pw & Ps & _).
  destruct (Hput _ (posted_only r sig action prop s Hsig Hprop) Pl Pw Ps) as [S1 I1].
  destruct (orphan_drops r action prop).
  { destruct (Hput (cont_clears (nice_reset r action prop) prop)) as [S I].
    - eapply sig_only_trans; [apply nice_reset_only|apply cont_clears_only].
    - unfold cont_clears, nice_reset. by repeat case_match.
    - unfold cont_clears, nice_reset. by repeat case_match.
    - unfold cont_clears, nice_reset. by repeat case_match.
    - eexists _, [], sq. split; [done|]. split; [exact S|]. split; [exact I|].
      intros _. eapply quiet_put, quiet_refl. }
  destruct (deferred r action prop).
  { eexists _, [], sq. split; [done|]. split; [exact S1|]. split; [exact I1|].
    intros _. eapply quiet_put, quiet_refl. }
  destruct (psignal_switch_step notify p sig action prop (sigmask sig) _ rl sq _ Hn I1
    (sig_wf_step _ _ S1 Hw) (put_lookup s p _)) as (s' & w & sq' & E & S & I & Q).
  exists s', w, sq'. split; [done|]. split; [by eapply sig_step_trans|]. split; [done|].
  intros Hs. by eapply quiet_put, Q.
Qed.

Lemma notify_sigchld : notify_ok (λ q, psignal_with (λ _, nofuel) q SIGCHLD).
Proof.
  intros q rq s rl sq Hi Hw Hq.
  destruct (psignal_with_step (λ _, nofuel) q SIGCHLD s rl sq rq SA_IGNORE) as
    (s' & w & sq' & E & S & I & Q); try done.
  exists s', w, sq'. split_and!; try done. by apply Q.
Qed.

Lemma psignal_step p sig s rl sq r :
  0 < sig < NSIG → Sched.sched_inv s rl sq → sig_wf s → procs s !! p = Some r →
  ∃ s' w sq', psignal p sig s = Done tt s' ∧ sig_step s s' ∧ Sched.sched_inv s' (w ++ rl) sq'.
Proof.
  intros Hsig Hi Hw Hr. destruct (sigprop_of_ok sig s ltac:(lia)) as [prop Hprop].
  destruct (psignal_with_step (λ q, psignal_with (λ _, nofuel) q SIGCHLD) p sig s rl sq r prop) as
    (s' & w & sq' & E & S & I & _); try done.
  - intros _. apply notify_sigchld.
  - by exists s', w, sq'.
Qed.

(** C15: posting any signal to any process returns without a panic, keeps the run
    and sleep queues well formed, takes nobody off the run queue, changes of each
    process only its scheduling state, its pending signals, its nice value and
    whether its parent has been told, and never leaves a stop signal pending
    together with SIGCONT. *)
Theorem psignal_safe p sig s rl sq r :
  0 < sig < NSIG → Sched.sched_inv s rl sq → sig_wf s → procs s !! p = Some r →
  (∀ k q, procs s !! k = Some q → sig_excl q) →
  ∃ s' w sq', psignal p sig s = Done tt s' ∧ Sched.sched_inv s' (w ++ rl) sq' ∧ sig_wf s' ∧
    Sched.sched_frame s s' ∧ ∀ k, match procs s !! k, procs s' !! k with
      | Some q, Some q' => sig_only q q' ∧ sig_excl q'
      | None, None => True
      | _, _ => False
      end.
Proof.
  intros Hsig Hi Hw Hr Hx.
  destruct (psignal_step p sig s rl sq r Hsig Hi Hw Hr) as (s' & w & sq' & E & S & I).
  exists s', w, sq'. split; [done|]. split; [done|]. split; [by eapply sig_wf_step|].
  destruct S as (F & N & G). split; [done|]. intros k. destruct (procs s !! k) as [q|] eqn:Hk.
  - destruct (G k q Hk) as (q' & Hk' & Ho). rewrite Hk'. split; [done|]. apply Ho. by eapply Hx.
  - by rewrite (N k Hk).
Qed.
(** * What a signal does at once *)

(** A signal that acts now on a process that can take it: posted, it makes an
    interruptible sleeper runnable if it is traced (and no orphan), catches the signal or would
    die of it, and a stopped one if it is SIGKILL, or SIGCONT and nothing keeps
    it asleep. *)
Definition runs_now (r : proc) (sig action prop : Z) : Prop :=
  (p_stat r = SSLEEP ∧ has (p_flag r) P_SINTR = true ∧
   ((has (p_flag r) P_TRACED = true ∧ p_pptr r ≠ Some 1%nat) ∨ action = SIG_CATCH ∨
    (action = SIG_DFL ∧ has prop SA_STOP = false ∧ has prop SA_CONT = false))) ∨
  (p_stat r = SSTOP ∧ has (p_flag r) P_TRACED = false ∧
   (sig = SIGKILL ∨ (sig = SIGCONT ∧ (action = SIG_CATCH ∨ p_wchan r = None)))).

Lemma sigmask_nz sig : 0 < sig → sigmask sig ≠ 0.
Proof. intros Hs. unfold sigmask. rewrite Z.shiftl_1_l. pose proof (Z.pow_pos_nonneg 2 (sig - 1)). lia. Qed.

(** [psignal_switch] where it goes to [run:]. *)
Lemma psignal_switch_run notify p sig action prop s r :
  procs s !! p = Some r → sigprop_of sig s = Done prop s → runs_now r sig action prop →
  psignal_switch notify p sig action prop (sigmask sig) s =
    psignal_run p (put s p (if bool_decide (p_stat r = SSTOP) && (sig =? SIGCONT) && (action =? SIG_DFL)
      then r <| p_sig ::= λ f, clrf f (sigmask sig) |> else r)).
Proof.
  intros Hr Hprop Hrun. unfold psignal_switch. kstep.
  destruct Hrun as [(Hst & Hf & Hcase)|(Hst & Ht & Hcase)]; rewrite Hst; cbn [Z.eqb Pos.eqb SSLEEP SSTOP].
  - rewrite bool_decide_false by done. cbn [andb]. rewrite (put_id _ _ _ Hr), Hf. cbn [negb].
    destruct (has (p_flag r) P_TRACED) eqn:Ht; [done|].
    destruct Hcase as [[? _]|[-> |(-> & -> & ->)]]; [congruence| |done].
    rewrite andb_false_r. by destruct (has prop SA_STOP).
  - rewrite (bool_decide_true (SSTOP = SSTOP)), Ht by done. cbn [andb].
    destruct Hcase as [-> |(-> & Hcase)].
    + change (SIGKILL =? SIGCONT) with false. cbn [andb]. by rewrite (put_id _ _ _ Hr).
    + change (SIGCONT =? SIGKILL) with false. change (SIGCONT =? SIGCONT) with true. injection Hprop as <-.
      change (has _ SA_CONT) with true. cbv iota. cbn [andb].
      rewrite (bind_done _ _ _ _ _ (when_setp _ _ _ _ _ Hr)). cbv beta.
      replace ((action =? SIG_CATCH) || bool_decide (p_wchan r = None)) with true; [done|].
      destruct Hcase as [-> | ->]; [done|]. rewrite bool_decide_true by done. by rewrite orb_true_r.
Qed.
Lemma runs_now_not_dropped r sig action prop s :
  sigprop_of sig s = Done prop s → runs_now r sig action prop → orphan_drops r action prop = false.
Proof.
  intros Hprop Hrun. unfold orphan_drops. destruct Hrun as [(_ & _ & Hc)|(_ & _ & Hc)].
  - destruct Hc as [[_ Hp]|[-> |(-> & -> & _)]]; [|by rewrite andb_false_r|done].
    rewrite (bool_decide_false _ Hp). by destruct (has prop SA_STOP), (has prop SA_TTYSTOP).
  - destruct Hc as [-> |[-> _]]; by injection Hprop as <-.
Qed.
Lemma runs_now_not_deferred r sig action prop s :
  sig_action r (sigmask sig) = Some action → sigprop_of sig s = Done prop s →
  action ≠ SIG_HOLD ∨ sig = SIGCONT → runs_now r sig action prop → deferred r action prop = false.
Proof.
  intros Hact Hprop Hhold Hrun. unfold deferred.
  destruct (Z.eqb_spec action SIG_HOLD) as [->|]; [|done]. destruct Hhold as [| ->]; [done|].
  injection Hprop as <-. destruct Hrun as [(_ & _ & Hc)|(-> & _)]; [|done].
  destruct Hc as [[Ht _]|[|(? & _)]]; [|done|done]. unfold sig_action in Hact. by rewrite Ht in Hact.
Qed.
Lemma posted_has_sig r sig action prop : 0 < sig → has (p_sig (posted r sig action prop)) (sigmask sig) = true.
Proof. intros Hs. unfold posted. simpl. by apply has_setf_self, sigmask_nz. Qed.

(** C25: a signal that reaches a process which can take it makes the process
    runnable, loaded ones on the run queue, with the signal left pending for it,
    except the SIGCONT whose only action is to continue it. In particular SIGKILL
    restarts a stopped process. *)
Theorem psignal_runs p sig s rl sq r action prop :
  0 < sig < NSIG → Sched.sched_inv s rl sq → procs s !! p = Some r →
  sigprop_of sig s = Done prop s → sig_action r (sigmask sig) = Some action →
  action ≠ SIG_HOLD ∨ sig = SIGCONT → runs_now r sig action prop →
  ∃ s' w sq' r', psignal p sig s = Done tt s' ∧ Sched.sched_inv s' (w ++ rl) sq' ∧
    (has (p_flag r) SLOAD = true → p ∈ w) ∧ procs s' !! p = Some r' ∧ p_stat r' = SRUN ∧
    p_wchan r' = None ∧
    has (p_sig r') (sigmask sig) =
      negb (bool_decide (p_stat r = SSTOP) && (sig =? SIGCONT) && (action =? SIG_DFL)).
Proof.
  intros Hsig Hi Hr Hprop Hact Hhold Hrun.
  set (r1 := posted r sig action prop).
  destruct (posted_sched r sig action prop) as (Pl & Pw & Ps & Pf & Pp). fold r1 in Pl, Pw, Ps, Pf, Pp.
  assert (Hrun1 : runs_now r1 sig action prop) by (unfold runs_now; by rewrite Ps, Pf, Pw, Pp).
  set (r2 := if bool_decide (p_stat r1 = SSTOP) && (sig =? SIGCONT) && (action =? SIG_DFL)
    then r1 <| p_sig ::= λ f, clrf f (sigmask sig) |> else r1).
  assert (H2 : p_link r2 = p_link r ∧ p_wchan r2 = p_wchan r ∧ p_stat r2 = p_stat r ∧ p_flag r2 = p_flag r)
    by (subst r2; by case_match).
  destruct H2 as (Rl & Rw & Rs & Rf).
  destruct (psignal_run_step (put s p r2) rl sq p r2) as (s' & w & sq' & E & _ & I & Hl & [l Hp] & _).
  - by eapply Sched.sched_inv_setp.
  - apply put_lookup.
  - rewrite Rs. destruct Hrun as [(-> & _)|(-> & _)]; auto.
  - rewrite Rf in Hl. eexists s', w, sq', _. split; [|split; [exact I|split; [exact Hl|split; [exact Hp|]]]].
    + unfold psignal. rewrite (psignal_with_eq _ _ _ _ _ _ Hr Hprop), Hact. fold r1.
      replace (orphan_drops r action prop) with false
        by (symmetry; by eapply runs_now_not_dropped).
      replace (deferred r action prop) with false by (symmetry; by eapply runs_now_not_deferred).
      rewrite (psignal_switch_run _ p sig action prop _ r1 (put_lookup s p r1)
        (sigprop_of_any _ _ _ _ Hprop) Hrun1).
      fold r2. rewrite put_put. exact E.
    + unfold Sched.setrun_rec. split; [by case_match|]. split; [by case_match|].
      replace (p_sig _) with (p_sig r2) by (by case_match). subst r2.
      rewrite <- Ps.
      destruct (bool_decide (p_stat r1 = SSTOP) && (sig =? SIGCONT) && (action =? SIG_DFL)); simpl;
        [apply has_clrf_self|apply posted_has_sig; lia].
Qed.

Lemma sig_action_eq r r' mask :
  p_flag r' = p_flag r → p_sigignore r' = p_sigignore r → p_sigmask r' = p_sigmask r →
  p_sigcatch r' = p_sigcatch r → sig_action r' mask = sig_action r mask.
Proof. intros E1 E2 E3 E4. unfold sig_action. by rewrite E1, E2, E3, E4. Qed.
(** C27: job control. SIGSTOP, where its default action is taken, stops an
    interruptible sleeper where it sleeps; SIGCONT puts it back to sleep on the
    same channel, with neither signal left pending. *)
Theorem stop_continue p s rl sq r c :
  Sched.sched_inv s rl sq → sig_wf s → procs s !! p = Some r →
  p_stat r = SSLEEP → p_wchan r = Some c → c ≠ c_proc (p_pptr r) →
  has (p_flag r) P_SINTR = true → has (p_flag r) P_TRACED = false → has (p_flag r) SVFORK = false →
  sig_action r (sigmask SIGSTOP) = Some SIG_DFL → sig_action r (sigmask SIGCONT) = Some SIG_DFL →
  ∃ s1 s2 r1 r2, psignal p SIGSTOP s = Done tt s1 ∧ procs s1 !! p = Some r1 ∧
    p_stat r1 = SSTOP ∧ p_wchan r1 = Some c ∧ p_ptracesig r1 = SIGSTOP ∧
    psignal p SIGCONT s1 = Done tt s2 ∧ procs s2 !! p = Some r2 ∧
    p_stat r2 = SSLEEP ∧ p_wchan r2 = Some c ∧
    has (p_sig r2) stopsigmask = false ∧ has (p_sig r2) contsigmask = false.
Proof.
  intros Hi Hw Hr Hst Hc Hne Hf Ht Hv Ha1 Ha2.
  set (r0 := posted r SIGSTOP SIG_DFL SA_STOP).
  destruct (posted_sched r SIGSTOP SIG_DFL SA_STOP) as (Pl & Pw & Ps & Pf & Pp). fold r0 in Pl, Pw, Ps, Pf, Pp.
  assert (S0 : sig_step s (put s p r0)).
  { eapply sig_step_put; [done|]. by eapply (posted_only _ _ _ _ s). }
  destruct (psignal_stop_step (λ q, psignal_with (λ _, nofuel) q SIGCHLD) p SIGSTOP (sigmask SIGSTOP)
    (put s p r0) rl sq r0) as (s1 & w & sq1 & E1 & _ & Hi1 & Hp1).
  - apply notify_sigchld.
  - by eapply Sched.sched_inv_setp.
  - by eapply sig_wf_step.
  - apply put_lookup.
  - by rewrite Ps.
  - by rewrite Pf.
  - destruct Hp1 as [l Hp1]; [rewrite Pw, Pp, Hc; congruence|].
    set (r1 := r0 <| p_sig ::= λ f, clrf f (sigmask SIGSTOP) |> <| p_ptracesig := SIGSTOP |>
      <| p_stat := SSTOP |> <| p_flag ::= λ f, clrf f P_WAITED |> <| p_link := l |>) in *.
    assert (Et : has (p_flag r1) P_TRACED = false).
    { change (p_flag r1) with (clrf (p_flag r0) P_WAITED). rewrite Pf. by apply has_clrf_mono. }
    assert (Ea : sig_action r1 (sigmask SIGCONT) = Some SIG_DFL).
    { unfold sig_action in *. rewrite Et. rewrite Ht in Ha2. change (p_sigignore r1) with (p_sigignore r0).
      change (p_sigmask r1) with (p_sigmask r0). change (p_sigcatch r1) with (p_sigcatch r0).
      subst r0. by rewrite posted_fields. }
    exists s1. eexists _, r1, _. split.
    { unfold psignal. rewrite (psignal_with_eq _ p SIGSTOP s r SA_STOP Hr eq_refl), Ha1.
      change (orphan_drops r SIG_DFL SA_STOP) with false. change (deferred r SIG_DFL SA_STOP) with false.
      cbv iota. fold r0. rewrite <- E1. unfold psignal_switch.
      rewrite (bind_done _ _ _ _ _ (getp_eq _ _ _ (put_lookup s p r0))), Ps, Pf, Hst, Hf, Ht, Hv. done. }
    split; [exact Hp1|]. split; [done|]. split; [change (p_wchan r1) with (p_wchan r0); by rewrite Pw|].
    split; [done|].
    split.
    { unfold psignal. rewrite (psignal_with_eq _ p SIGCONT s1 r1 (Z.lor SA_IGNORE SA_CONT) Hp1 eq_refl), Ea.
      change (orphan_drops r1 SIG_DFL _) with false. change (deferred r1 SIG_DFL _) with false.
      cbv iota. set (r2 := posted r1 SIGCONT SIG_DFL _). unfold psignal_switch.
      rewrite (bind_done _ _ _ _ _ (getp_eq _ _ _ (put_lookup s1 p r2))).
      destruct (posted_sched r1 SIGCONT SIG_DFL (Z.lor SA_IGNORE SA_CONT)) as (_ & Qw & Qs & Qf & _).
      fold r2 in Qw, Qs, Qf. rewrite Qs, Qw, Qf, Et. change (p_wchan r1) with (p_wchan r0).
      rewrite Pw, Hc. change (p_stat r1 =? SSLEEP) with false. change (p_stat r1 =? SSTOP) with true.
      change (SIGCONT =? SIGKILL) with false. change (has _ SA_CONT) with true.
      change (SIG_DFL =? SIG_DFL) with true. change (SIG_DFL =? SIG_CATCH) with false. cbv iota.
      rewrite (bind_done _ _ _ _ _ (when_setp true _ _ _ _ (put_lookup s1 p r2))). cbv beta iota.
      rewrite bool_decide_false by done. cbn [orb].
      apply setp_eq. apply put_lookup. }
    split; [unfold put; simpl; apply lookup_insert_eq|]. split; [done|].
    destruct (posted_sched r1 SIGCONT SIG_DFL (Z.lor SA_IGNORE SA_CONT)) as (_ & Qw & _).
    split; [etrans; [exact Qw|]; change (p_wchan r0 = Some c); by rewrite Pw|].
    set (f := p_sig (nice_reset r1 SIG_DFL (Z.lor SA_IGNORE SA_CONT))).
    change (has (clrf (setf (clrf f stopsigmask) contsigmask) contsigmask) stopsigmask = false ∧
      has (clrf (setf (clrf f stopsigmask) contsigmask) contsigmask) contsigmask = false).
    split; [|apply has_clrf_self]. apply has_clrf_mono. rewrite has_setf by done. apply has_clrf_self.
Qed.
(** * Taking the next signal *)

Lemma has_sigmask f k : 0 < k → has f (sigmask k) = Z.testbit f (k - 1).
Proof.
  intros Hk. unfold has, sigmask. rewrite Z.shiftl_1_l.
  destruct (Z.testbit f (k - 1)) eqn:E.
  - apply negb_true_iff, Z.eqb_neq. intros E'. apply (f_equal (λ z, Z.testbit z (k - 1))) in E'.
    rewrite Z.land_spec, E, Z.pow2_bits_true, Z.bits_0 in E' by lia. done.
  - apply negb_false_iff, Z.eqb_eq, Z.bits_inj'. intros n Hn. rewrite Z.land_spec, Z.bits_0.
    destruct (decide (n = k - 1)) as [->|]; [by rewrite E|].
    rewrite Z.pow2_bits_false by lia. by rewrite andb_false_r.
Qed.
Lemma clrf_bit f m j : Z.testbit (clrf f m) j = Z.testbit f j && negb (Z.testbit m j).
Proof. apply Z.ldiff_spec. Qed.
Lemma sigmask_bit k j : 0 < k → 0 <= j → Z.testbit (sigmask k) j = (j =? k - 1).
Proof.
  intros Hk Hj. unfold sigmask. rewrite Z.shiftl_1_l.
  destruct (Z.eqb_spec j (k - 1)) as [->|]; [by apply Z.pow2_bits_true; lia|by apply Z.pow2_bits_false; lia].
Qed.
Lemma clrf_sigmask f k j : 0 < k → 0 <= j →
  Z.testbit (clrf f (sigmask k)) j = Z.testbit f j && negb (j =? k - 1).
Proof. intros Hk Hj. by rewrite clrf_bit, sigmask_bit. Qed.

Lemma ffs_loop_spec fuel cnt m :
  0 < m < 2 ^ Z.of_nat fuel → ∃ i, 0 <= i < Z.of_nat fuel ∧ ffs_loop fuel cnt m = cnt + i ∧
    Z.testbit m i = true ∧ ∀ j, 0 <= j < i → Z.testbit m j = false.
Proof.
  revert cnt m. induction fuel as [|fuel IH]; intros cnt m Hm; [simpl in Hm; lia|].
  cbn [ffs_loop]. destruct (Z.testbit m 0) eqn:E0.
  - exists 0. split_and!; [lia|lia|lia|done|intros; lia].
  - assert (Hm2 : m = 2 * Z.shiftr m 1).
    { rewrite <- Z.div2_spec. pose proof (Z.div2_odd m) as Ho. rewrite <- Z.bit0_odd, E0 in Ho. simpl in Ho. lia. }
    destruct (IH (cnt + 1) (Z.shiftr m 1)) as (i & Hi & E & Ht & Hlow).
    { rewrite Nat2Z.inj_succ, Z.pow_succ_r in Hm by lia. lia. }
    exists (i + 1). split; [lia|]. split; [lia|].
    assert (Hsh : ∀ j, 0 <= j → Z.testbit m (j + 1) = Z.testbit (Z.shiftr m 1) j).
    { intros j Hj. by rewrite Z.shiftr_spec. }
    split; [by rewrite Hsh by lia|]. intros j Hj.
    destruct (decide (j = 0)) as [->|]; [done|].
    replace j with (j - 1 + 1) by lia. rewrite Hsh by lia. apply Hlow. lia.
Qed.
Lemma ffs_spec m : 0 < m < 2 ^ 32 →
  1 <= ffs m <= 32 ∧ Z.testbit m (ffs m - 1) = true ∧ ∀ j, 0 <= j < ffs m - 1 → Z.testbit m j = false.
Proof.
  intros Hm. unfold ffs. replace (m =? 0) with false by lia.
  destruct (ffs_loop_spec 32 1 m) as (i & Hi & -> & Ht & Hl); [done|].
  replace (1 + i - 1) with i by lia. split_and!; [lia|lia|done|done].
Qed.

(** Pending and not masked. *)
Definition pending (r : proc) (k : Z) : bool := Z.testbit (pending_mask r) (k - 1).
(** Does [issignal] return this signal (rather than drop it)? *)
Definition deliverable (r : proc) (us : list Z) (k : Z) : bool :=
  negb (has (p_sigignore r) (sigmask k)) &&
  match us !! Z.to_nat k, sigprop !! Z.to_nat k with
  | Some act, Some prop =>
    if act =? SIG_DFL then (1 <? p_pid r) && negb (has prop SA_IGNORE) else negb (act =? SIG_IGN)
  | _, _ => false
  end.
(** Would taking it stop the process? *)
Definition stops (r : proc) (us : list Z) (k : Z) : bool :=
  negb (has (p_sigignore r) (sigmask k)) && (1 <? p_pid r) &&
  match us !! Z.to_nat k, sigprop !! Z.to_nat k with
  | Some act, Some prop => (act =? SIG_DFL) && has prop SA_STOP
  | _, _ => false
  end.
Lemma clrf_range a m n : 0 <= n → 0 <= a < 2 ^ n → 0 <= clrf a m < 2 ^ n.
Proof.
  intros Hn Ha. assert (E : clrf a m = Z.land (clrf a m) (Z.ones n)).
  { unfold clrf. transitivity (Z.ldiff (Z.land a (Z.ones n)) m).
    - rewrite Z.land_ones by done. by rewrite Z.mod_small.
    - apply Z.bits_inj'. intros j Hj. rewrite !Z.land_spec, !Z.ldiff_spec, Z.land_spec.
      by destruct (Z.testbit a j), (Z.testbit (Z.ones n) j), (Z.testbit m j). }
  rewrite E, Z.land_ones by done. apply Z.mod_pos_bound. lia.
Qed.
Lemma pending_mask_range r : 0 <= p_sig r < 2 ^ 31 → 0 <= pending_mask r < 2 ^ 31.
Proof. intros Hr. unfold pending_mask. case_match; repeat (apply clrf_range; [lia|]); done. Qed.
Lemma pending_clr r k j : 0 < k → 0 <= j →
  Z.testbit (pending_mask (r <| p_sig ::= λ f, clrf f (sigmask k) |>)) j =
  Z.testbit (pending_mask r) j && negb (j =? k - 1).
Proof.
  intros Hk Hj. unfold pending_mask. simpl. case_match; rewrite !clrf_bit, sigmask_bit by done;
    by destruct (Z.testbit (p_sig r) j), (j =? k - 1), (Z.testbit (p_sigmask r) j), (Z.testbit stopsigmask j).
Qed.

Lemma sigprop_lookup k : 0 <= k < 32 → ∃ prop, sigprop !! Z.to_nat k = Some prop ∧
  ∀ s, sigprop_of k s = Done prop s.
Proof.
  intros Hk. destruct (sigprop_of_ok k kstate0 ltac:(unfold NSIG; lia)) as [prop E]. exists prop.
  unfold sigprop_of in *. replace (k <? 0) with false in * by lia.
  destruct (sigprop !! Z.to_nat k) as [x|]; [|done]. by injection E as ->.
Qed.

(** One pass over a pending signal of an untraced process that does not stop. *)
Lemma issignal_pass fuel p s r sig :
  procs s !! p = Some r → has (p_flag r) P_TRACED = false → length (u_signal (u s)) = 32%nat →
  pending_mask r ≠ 0 → ffs (u32 (pending_mask r)) = sig → 1 <= sig < 32 →
  stops r (u_signal (u s)) sig = false →
  issignal_loop (S fuel) p s =
    if deliverable r (u_signal (u s)) sig then Done sig s
    else issignal_loop fuel p (put s p (r <| p_sig ::= λ f, clrf f (sigmask sig) |>)).
Proof.
  intros Hr Ht Hlen Hnz Hffs Hs Hst. cbn [issignal_loop]. kstep.
  rewrite (proj2 (Z.eqb_neq _ _) Hnz), Hffs, Ht. cbn [negb andb].
  unfold stops, deliverable in *. destruct (has (p_sigignore r) (sigmask sig)) eqn:Hig.
  { cbn [negb andb]. by kstep. }
  cbn [negb andb] in *. kstep. kstep.
  destruct (lookup_lt_is_Some_2 (u_signal (u s)) (Z.to_nat sig)) as [act Hact]; [lia|].
  destruct (sigprop_lookup sig ltac:(lia)) as (prop & Hprop & Hpo).
  rewrite Hact, Hprop in *. cbn [unless_none]. kstep.
  assert (Htake : (if act =? SIG_DFL then issignal_default p sig else mret (negb (act =? SIG_IGN))) s =
    Done (if act =? SIG_DFL then (1 <? p_pid r) && negb (has prop SA_IGNORE) else negb (act =? SIG_IGN)) s).
  { destruct (act =? SIG_DFL); [|done]. unfold issignal_default. kstep.
    rewrite (bind_done _ _ _ _ _ (Hpo s)). cbv beta. cbn [andb] in Hst.
    destruct (Z.leb_spec (p_pid r) 1) as [Hp|Hp].
    - by replace (1 <? p_pid r) with false by lia.
    - replace (1 <? p_pid r) with true in * by lia. cbn [andb] in *. by rewrite Hst. }
  rewrite (bind_done _ _ _ _ _ Htake). cbv beta.
  match goal with |- context [if ?b then mret sig else _] => destruct b end; [done|]. by kstep.
Qed.

Lemma issignal_loop_first fuel i p s r :
  procs s !! p = Some r → has (p_flag r) P_TRACED = false → length (u_signal (u s)) = 32%nat →
  0 <= p_sig r < 2 ^ 31 → 1 <= i <= 32 → 32 - i < Z.of_nat fuel →
  (∀ k, 1 <= k < i → pending r k = false) →
  (∀ k, 1 <= k < 32 → pending r k = true → stops r (u_signal (u s)) k = false) →
  ∃ v f, issignal_loop fuel p s = Done v (put s p (r <| p_sig := f |>)) ∧ 0 <= v < 32 ∧
    (v ≠ 0 → pending r v = true ∧ deliverable r (u_signal (u s)) v = true) ∧
    (∀ k, 1 <= k < 32 → v = 0 ∨ k < v → pending r k = true → deliverable r (u_signal (u s)) k = false) ∧
    (∀ j, 0 <= j → Z.testbit f j =
      Z.testbit (p_sig r) j && negb (pending r (j + 1) && ((v =? 0) || (j + 1 <? v)))).
Proof.
  revert i s r. induction fuel as [|fuel IH]; intros i s r Hr Ht Hlen Hsig Hi Hf Hlow Hst; [lia|].
  pose proof (pending_mask_range r Hsig) as Hpm.
  assert (Hdone : ∀ v, (∀ j, 0 <= j → pending r (j + 1) && ((v =? 0) || (j + 1 <? v)) = false) →
    put s p (r <| p_sig := p_sig r |>) = s ∧ ∀ j, 0 <= j → Z.testbit (p_sig r) j =
      Z.testbit (p_sig r) j && negb (pending r (j + 1) && ((v =? 0) || (j + 1 <? v)))).
  { intros v Hv. split.
    - apply put_id. rewrite Hr. f_equal. by destruct r.
    - intros j Hj. rewrite (Hv j Hj). by rewrite andb_true_r. }
  destruct (decide (pending_mask r = 0)) as [Ez|Hnz].
  { destruct (Hdone 0) as [E1 E2].
    { intros j _. unfold pending. by rewrite Ez, Z.bits_0. }
    exists 0, (p_sig r). rewrite E1. split; [|split_and!; [lia|lia|done| |exact E2]].
    - cbn [issignal_loop]. kstep. by rewrite Ez.
    - intros k _ _. unfold pending. by rewrite Ez, Z.bits_0. }
  destruct (ffs_spec (u32 (pending_mask r))) as (Hs & Hbit & Hl); [rewrite u32_small by lia; lia|].
  set (sig := ffs (u32 (pending_mask r))) in *. rewrite u32_small in Hbit, Hl by lia.
  assert (Hs32 : sig < 32).
  { destruct (decide (sig = 32)) as [E|]; [|lia]. rewrite E in Hbit.
    rewrite Z.bits_above_log2 in Hbit; [done|lia|]. apply Z.log2_lt_pow2; lia. }
  assert (Hisig : i <= sig).
  { destruct (Z.le_gt_cases i sig); [done|]. exfalso.
    specialize (Hlow sig ltac:(lia)). unfold pending in Hlow. congruence. }
  rewrite (issignal_pass fuel p s r sig Hr Ht Hlen Hnz eq_refl ltac:(lia) (Hst sig ltac:(lia) Hbit)).
  assert (Hlow' : ∀ k, 1 <= k < sig → pending r k = false).
  { intros k Hk. unfold pending. apply Hl. lia. }
  destruct (deliverable r (u_signal (u s)) sig) eqn:Hdel.
  { destruct (Hdone sig) as [E1 E2].
    { intros j Hj. destruct (Z.ltb_spec (j + 1) sig) as [Hlt|Hge].
      - by rewrite Hlow' by lia.
      - replace (sig =? 0) with false by lia. by rewrite andb_false_r. }
    exists sig, (p_sig r). rewrite E1. split_and!; [done|lia|lia|done| |exact E2].
    intros k Hk [?|?] Hpk; [lia|]. rewrite Hlow' in Hpk by lia. done. }
  set (r1 := r <| p_sig ::= λ f, clrf f (sigmask sig) |>).
  assert (Hpend : ∀ k, 1 <= k → pending r1 k = pending r k && negb (k =? sig)).
  { intros k Hk. unfold pending. subst r1. rewrite pending_clr by lia. f_equal. f_equal.
    destruct (Z.eqb_spec (k - 1) (sig - 1)), (Z.eqb_spec k sig); lia || done. }
  destruct (IH (sig + 1) (put s p r1) r1) as (v & f & E & Hv & H1' & H2' & H3').
  - apply put_lookup.
  - done.
  - done.
  - subst r1. simpl. by apply clrf_range.
  - lia.
  - lia.
  - intros k Hk. rewrite Hpend by lia. destruct (Z.eqb_spec k sig) as [|]; [by rewrite andb_false_r|].
    by rewrite Hlow' by lia.
  - intros k Hk. rewrite Hpend by lia. intros [Hk1 _]%andb_prop. by apply Hst.
  - exists v, f. rewrite put_put in E. split; [exact E|]. split; [done|].
    change (u_signal (u (put s p r1))) with (u_signal (u s)) in *.
    change (deliverable r1) with (deliverable r) in *.
    assert (Hvs : v = 0 ∨ sig < v).
    { destruct (decide (v = 0)) as [|Hv0]; [by left|right]. destruct (H1' Hv0) as [Hp _].
      rewrite Hpend in Hp by lia. apply andb_prop in Hp as [Hp Hne].
      destruct (Z.lt_trichotomy v sig) as [Hlt|[->|]]; [|by rewrite Z.eqb_refl in Hne|done].
      rewrite Hlow' in Hp by lia. done. }
    split_and!.
    + intros Hv0. destruct (H1' Hv0) as [Hp Hd]. rewrite Hpend in Hp by lia.
      by apply andb_prop in Hp as [Hp _].
    + intros k Hk Hkv Hp. destruct (Z.eq_dec k sig) as [->|Hks]; [done|].
      apply H2'; [done|done|]. rewrite Hpend, Hp by lia. by rewrite (proj2 (Z.eqb_neq _ _) Hks).
    + intros j Hj. rewrite H3' by done. subst r1. simpl. rewrite clrf_sigmask, Hpend by lia.
      destruct (Z.eqb_spec j (sig - 1)) as [->|Hjs].
      * replace (sig - 1 + 1) with sig by lia. rewrite Z.eqb_refl. simpl.
        replace (pending r sig) with true by (symmetry; exact Hbit). rewrite andb_false_r. simpl.
        replace ((v =? 0) || (sig <? v)) with true by lia. by rewrite andb_false_r.
      * replace (j + 1 =? sig) with false by lia. simpl. by rewrite !andb_true_r.
Qed.

Lemma issignal_first_spec p s r :
  procs s !! p = Some r → has (p_flag r) P_TRACED = false → length (u_signal (u s)) = 32%nat →
  0 <= p_sig r < 2 ^ 31 → (32 <= sig_passes)%nat →
  (∀ k, 1 <= k < 32 → pending r k = true → stops r (u_signal (u s)) k = false) →
  ∃ v f, issignal p s = Done v (put s p (r <| p_sig := f |>)) ∧ 0 <= v < 32 ∧
    (v ≠ 0 → pending r v = true ∧ deliverable r (u_signal (u s)) v = true) ∧
    (∀ k, 1 <= k < 32 → v = 0 ∨ k < v → pending r k = true → deliverable r (u_signal (u s)) k = false) ∧
    (∀ j, 0 <= j → Z.testbit f j =
      Z.testbit (p_sig r) j && negb (pending r (j + 1) && ((v =? 0) || (j + 1 <? v)))).
Proof.
  intros Hr Ht Hlen Hsig Hfuel Hst.
  apply (issignal_loop_first sig_passes 1 p s r Hr Ht Hlen Hsig); [lia|lia|intros; lia|done].
Qed.

(** C23: of an untraced process none of whose pending signals stops it, [issignal]
    returns the lowest-numbered pending, unmasked signal that is neither ignored
    nor dropped by default, or 0 if there is none, after at most one pass per
    signal; it drops exactly the pending ones below that, and changes nothing
    else. *)
Theorem issignal_first p s r :
  procs s !! p = Some r → has (p_flag r) P_TRACED = false → length (u_signal (u s)) = 32%nat →
  0 <= p_sig r < 2 ^ 31 → (32 <= sig_passes)%nat →
  (∀ k, 1 <= k < 32 → pending r k = true → stops r (u_signal (u s)) k = false) →
  ∃ v f, issignal p s = Done v (put s p (r <| p_sig := f |>)) ∧ 0 <= v < 32 ∧
    (v ≠ 0 → pending r v = true ∧ deliverable r (u_signal (u s)) v = true) ∧
    (∀ k, 1 <= k < 32 → v = 0 ∨ k < v → pending r k = true → deliverable r (u_signal (u s)) k = false) ∧
    (∀ j, 0 <= j → Z.testbit f j =
      Z.testbit (p_sig r) j && negb (pending r (j + 1) && ((v =? 0) || (j + 1 <? v)))).
Proof. apply issignal_first_spec. Qed.
(** * kill *)

(** Whose processes may the caller signal: root's may signal all, others those
    whose real or effective user is their own real or effective user. *)
Definition may_signal (cur : proc) (cu ruid : Z) (r : proc) : Prop :=
  p_uid cur = 0 ∨ cu = ruid ∨ u32 (p_uid cur) = ruid ∨ cu = u32 (p_uid r) ∨ p_uid cur = p_uid r.
#[local] Instance may_signal_dec cur cu ruid r : Decision (may_signal cur cu ruid r).
Proof. unfold may_signal. apply _. Defined.

Lemma cansignal_eq q signum s cur r ruid :
  fill_from_u q s = Done ruid s → procs s !! u_procp (u s) = Some cur → procs s !! q = Some r →
  cansignal q signum s =
    if decide (may_signal cur (u_ruid (u s)) ruid r) then Done true s
    else if signum =? SIGCONT then Sched.inferior q s else Done false s.
Proof.
  intros Hf Hc Hr. unfold cansignal. kstep. kstep. kstep. kstep.
  replace (_ || _) with (bool_decide (may_signal cur (u_ruid (u s)) ruid r)).
  - case_decide as Hm; [by rewrite bool_decide_true|]. rewrite bool_decide_false by done.
    by destruct (signum =? SIGCONT).
  - unfold may_signal. apply eq_true_iff_eq. rewrite bool_decide_eq_true, !orb_true_iff, !Z.eqb_eq. tauto.
Qed.


End sig.

(** * Witnesses: process 0 (pid 1, root) runs; its child 1 (pid 5, user 7) sleeps
    interruptibly on a terminal *)

#[local] Instance sig_env0 : SigEnv :=
  {| swtch := mret tt; procxmt := mret true; sendsig := λ _ _ _, mret tt; core := mret true;
     exit := λ _, mret tt; loaded_ruid := λ _, mret 7; swapped_ruid := λ _, mret (Some 7);
     sig_passes := 64 |}.
Definition sig_child : proc :=
  proc0 <| p_stat := SSLEEP |> <| p_flag := Z.lor SLOAD P_SINTR |> <| p_pptr := Some 0%nat |>
    <| p_pid := 5 |> <| p_ppid := 1 |> <| p_uid := 7 |> <| p_pri := 40 |>
    <| p_wchan := Some Sched.c_tty |>.
Definition sig_example : kstate :=
  kstate0 <| slpque := {[ 1 := 1%nat ]} |> <| pidhash := {[ 5 := 1%nat ]} |>
    <| u ::= λ r, r <| u_arg := [5; 15; 0; 0; 0; 0] |> |>
    <| procs := {[ 0%nat := proc0 <| p_stat := SRUN |> <| p_flag := SLOAD |> <| p_pid := 1 |>;
                   1%nat := sig_child ]} |>.
Definition sig_example_sq (h : Z) : list nat := if h =? 1 then [1%nat] else [].

Lemma sig_example_inv : Sched.sched_inv (H0 := Sched.layout1) sig_example [] sig_example_sq.
Proof.
  split.
  - solve_chain.
  - intros h. unfold sig_example_sq. destruct (Z.eqb_spec h 1) as [->|]; [solve_chain|].
    change (({[ 1 := 1%nat ]} : gmap Z nat) !! h = None). by simplify_map_eq.
  - intros p ?%elem_of_nil. done.
  - intros h p. unfold sig_example_sq. destruct (Z.eqb_spec h 1) as [->|]; [|by intros ?%elem_of_nil].
    intros ->%list_elem_of_singleton. eexists _, _. split; [done|]. split; [done|]. split; [done|by left].
  - intros p r c Hp Hc. destruct p as [|[|p]].
    + vm_compute in Hp. injection Hp as <-. discriminate Hc.
    + vm_compute in Hp. injection Hp as <-. injection Hc as <-. vm_compute. constructor.
    + unfold sig_example in Hp. simpl in Hp. by simplify_map_eq.
Defined.
Lemma sig_example_wf : sig_wf sig_example.
Proof.
  intros [|[|k]] r Hk Hf.
  - vm_compute in Hk. injection Hk as <-. discriminate Hf.
  - vm_compute in Hk. injection Hk as <-. split; [discriminate|]. exists 0%nat.
    split; [done|]. split; [done|]. by eexists.
  - unfold sig_example in Hk. simpl in Hk. by simplify_map_eq.
Defined.
Lemma sig_example_excl k q : procs sig_example !! k = Some q → sig_excl q.
Proof.
  destruct k as [|[|k]]; intros Hk; [vm_compute in Hk; injection Hk as <-; by left..|].
  unfold sig_example in Hk. simpl in Hk. by simplify_map_eq.
Defined.

Lemma psignal_safe_witness :
  ∃ s', psignal (H := gba_cfg) (H0 := Sched.layout1) 1 SIGTSTP sig_example = Done tt s' ∧ sig_wf s'.
Proof.
  destruct (psignal_safe (H := gba_cfg) (H0 := Sched.layout1) 1 SIGTSTP sig_example [] sig_example_sq
    sig_child) as (s' & w & sq' & E & _ & Hw & _);
    [split; reflexivity|exact sig_example_inv|exact sig_example_wf|reflexivity|exact sig_example_excl|].
  exists s'. split; [exact E|exact Hw].
Defined.

Lemma psignal_runs_witness :
  ∃ s' r', psignal (H := gba_cfg) (H0 := Sched.layout1) 1 SIGKILL sig_example = Done tt s' ∧
    procs s' !! 1%nat = Some r' ∧ p_stat r' = SRUN.
Proof.
  destruct (psignal_runs (H := gba_cfg) (H0 := Sched.layout1) 1 SIGKILL sig_example [] sig_example_sq
    sig_child SIG_DFL SA_KILL) as (s' & w & sq' & r' & E & _ & _ & Hr & Hst & _);
    [split; reflexivity|exact sig_example_inv|reflexivity|reflexivity|reflexivity|by left| |].
  - left. split; [done|]. split; [done|]. right. right. done.
  - exists s', r'. split; [exact E|]. split; [exact Hr|exact Hst].
Defined.

Lemma stop_continue_witness :
  ∃ s1 s2 r2, psignal (H := gba_cfg) (H0 := Sched.layout1) 1 SIGSTOP sig_example = Done tt s1 ∧
    psignal (H := gba_cfg) (H0 := Sched.layout1) 1 SIGCONT s1 = Done tt s2 ∧
    procs s2 !! 1%nat = Some r2 ∧ p_stat r2 = SSLEEP.
Proof.
  destruct (stop_continue (H := gba_cfg) (H0 := Sched.layout1) 1 sig_example [] sig_example_sq
    sig_child Sched.c_tty) as (s1 & s2 & r1 & r2 & E1 & _ & _ & _ & _ & E2 & Hr & Hst & _);
    [exact sig_example_inv|exact sig_example_wf|reflexivity|reflexivity|reflexivity|discriminate
    |reflexivity|reflexivity|reflexivity|reflexivity|reflexivity|].
  exists s1, s2, r2. split; [exact E1|]. split; [exact E2|]. split; [exact Hr|exact Hst].
Defined.

(** With SIGTERM and, below it, nothing else pending. *)
Lemma issignal_first_witness :
  ∃ v s', issignal (H := gba_cfg) (H0 := Sched.layout1) 1
    (put sig_example 1 (sig_child <| p_sig := sigmask 15 |>)) = Done v s' ∧ 0 <= v < 32.
Proof.
  destruct (issignal_first (H := gba_cfg) (H0 := Sched.layout1) 1
    (put sig_example 1 (sig_child <| p_sig := sigmask 15 |>)) (sig_child <| p_sig := sigmask 15 |>))
    as (v & f & E & Hv & _).
  - reflexivity.
  - reflexivity.
  - reflexivity.
  - vm_compute. split; [discriminate|reflexivity].
  - simpl. lia.
  - intros k Hk. assert (Hin : k ∈ seqZ 1 31) by (apply elem_of_seqZ; lia). clear Hk.
    revert k Hin. refine (proj1 (Forall_forall _ _) _).
    let l := eval vm_compute in (seqZ 1 31) in change (seqZ 1 31) with l.
    repeat (apply Forall_cons; split); try (by apply Forall_nil).
    all: vm_compute; intros; congruence.
  - exists v. eexists. split; [exact E|exact Hv].
Defined.


End Sig.
