(* ===== verification/Clock.v ===== *)
(** Sleeping and the clock: tsleep, sleep, endtsleep and schedcpu
    (kern/kern_synch.c), hardclock, softclock and gatherstats
    (kern/kern_clock.c). *)
From stdpp Require Import functions.
From S2P Require Import Prelude Buf Kernel Links Callout Sched Prot Time Sig.

Definition CP_USER : nat := 0.
Definition CP_NICE : nat := 1.
Definition CP_SYS : nat := 2.
Definition CP_IDLE : nat := 3.
Definition RLIMIT_CPU : nat := 0.

(** What the machine and the rest of the kernel give the clock: the drivers'
    callouts, the memory statistics, and what the saved status word says. *)
Class ClockEnv := {
  driver_call : Z → Z → K unit;
  vmmeter : K unit;
  USERMODE : Z → bool;
  BASEPRI : Z → bool;
}.

Module Clock.
Section clock.
Context `{KConfig} `{KLayout} `{SigEnv} `{ClockEnv}.

Definition c_runin : wchan := WChan "runin" 0.
Definition c_lbolt : wchan := WChan "lbolt" 0.

(** * kern_synch.c *)

Definition endtsleep (p : nat) : K unit :=
  r ← getp p;
  match p_wchan r with
  | None => mret tt
  | Some _ =>
    (if p_stat r =? SSLEEP then Sched.setrun p else Sched.unsleep p) ;;
    setp p (λ r, r <| p_flag ::= λ f, setf f P_TIMEOUT |>)
  end.

(** From [resume:] on; [sig] is the signal [CURSIG] found before sleeping. *)
Definition tsleep_resume (p : nat) (catch : bool) (timo sig : Z) : K Z :=
  setp p (λ r, r <| p_flag ::= λ f, clrf f P_SINTR |>) ;;
  r ← getp p;
  let late := has (p_flag r) P_TIMEOUT in
  (if late then setp p (λ r, r <| p_flag ::= λ f, clrf f P_TIMEOUT |>)
   else when (negb (timo =? 0)) (Callout.untimeout Cendtsleep (Z.of_nat p))) ;;
  if late && (sig =? 0) then mret EWOULDBLOCK
  else if (catch : bool) then
    sig ← (if negb (sig =? 0) then mret sig else Sig.CURSIG p);
    if sig =? 0 then mret 0
    else
      intr ← getu u_sigintr;
      mret (if has intr (sigmask sig) then EINTR else ERESTART)
  else mret 0.

(** Put the process on its sleep queue, and start its timeout. *)
Definition tsleep_enqueue (p : nat) (ident : wchan) (priority timo : Z) : K unit :=
  setp p (λ r, r <| p_wchan := Some ident |>) ;;
  setp p (λ r, r <| p_slptime := 0 |>) ;;
  setp p (λ r, r <| p_pri := cchar (Z.land priority PRIMASK) |>) ;;
  s ← get_s;
  setp p (λ r, r <| p_link := slpque s !! Sched.HASH ident |>) ;;
  modify (λ s, s <| slpque ::= <[Sched.HASH ident := p]> |>) ;;
  when (negb (timo =? 0)) (Callout.timeout Cendtsleep (Z.of_nat p) (i32 timo)).

(** Give up the processor. *)
Definition tsleep_switch (p : nat) : K unit :=
  setp p (λ r, r <| p_stat := SSLEEP |>) ;;
  when (negb (bool_decide (p = 0%nat))) (Sched.wakeup c_runin) ;;
  setu (λ r, r <| u_ru ::= λ t, t <| ru_nvcsw ::= λ z, i32 (z + 1) |> |>) ;;
  swtch.

Definition tsleep (ident : wchan) (priority timo : Z) : K Z :=
  p ← getu u_procp;
  let catch := has priority PCATCH in
  s ← get_s;
  if panicstr s then mret 0
  else
    r ← getp p;
    when (DIAGNOSTIC && negb (p_stat r =? SRUN)) (panic "tsleep") ;;
    tsleep_enqueue p ident priority timo ;;
    if catch then
      setp p (λ r, r <| p_flag ::= λ f, setf f P_SINTR |>) ;;
      sig ← Sig.CURSIG p;
      r ← getp p;
      if negb (sig =? 0) then
        when (negb (bool_decide (p_wchan r = None))) (Sched.unsleep p) ;;
        setp p (λ r, r <| p_stat := SRUN |>) ;;
        tsleep_resume p catch timo sig
      else if bool_decide (p_wchan r = None) then tsleep_resume p false timo sig
      else tsleep_switch p ;; tsleep_resume p catch timo sig
    else tsleep_switch p ;; tsleep_resume p catch timo 0.

(** [sleep]; [false] where it leaves by [longjmp] to [u.u_qsave]. *)
Definition sleep (chan : wchan) (pri : Z) : K bool :=
  let priority := if PZERO <? pri then Z.lor pri PCATCH else pri in
  e ← tsleep chan priority 0;
  set_error e ;;
  e ← getu u_error;
  mret (negb (has priority PCATCH) || (e =? 0)).

(** One process of [schedcpu]'s loop. *)
Definition schedcpu_one (p : nat) : K unit :=
  r ← getp p;
  when (negb (p_time r =? 127)) (setp p (λ r, r <| p_time ::= λ z, cchar (z + 1) |>)) ;;
  (if it_value (p_realtimer r) =? 0 then mret tt
   else
     setp p (λ r, r <| p_realtimer ::= λ t, t <| it_value ::= λ z, i32 (z - 1) |> |>) ;;
     r ← getp p;
     when (it_value (p_realtimer r) =? 0)
       (Sig.psignal p SIGALRM ;;
        setp p (λ r, r <| p_realtimer ::= λ t, t <| it_value := it_interval t |> |>))) ;;
  r ← getp p;
  when ((p_stat r =? SSLEEP) || (p_stat r =? SSTOP))
    (when (negb (p_slptime r =? 127)) (setp p (λ r, r <| p_slptime ::= λ z, cchar (z + 1) |>))) ;;
  r ← getp p;
  if 1 <? p_slptime r then mret tt
  else
    let a := Z.quot (Z.land (p_cpu r) 0xff * 8) 10 + p_nice r in
    let a := if a <? 0 then 0 else a in
    let a := if 255 <? a then 255 else a in
    setp p (λ r, r <| p_cpu := cchar a |>) ;;
    if PUSER <=? p_pri r then _ ← Sched.setpri p; mret tt else mret tt.

Fixpoint schedcpu_loop (fuel : nat) (p : option nat) : K unit :=
  match p with
  | None => mret tt
  | Some p =>
    match fuel with
    | O => nofuel
    | S fuel => schedcpu_one p ;; r ← getp p; schedcpu_loop fuel (p_nxt r)
    end
  end.

Definition schedcpu : K unit :=
  Sched.wakeup c_lbolt ;;
  s ← get_s;
  schedcpu_loop (size (procs s)) (allproc s) ;;
  vmmeter ;;
  s ← get_s;
  when (negb (runin s =? 0)) (modify (λ s, s <| runin := 0 |>) ;; Sched.wakeup c_runin) ;;
  modify (λ s, s <| runrun ::= λ z, i32 (z + 1) |>) ;;
  Callout.timeout Cschedcpu 0 hz.

(** * kern_clock.c *)

Definition gatherstats (ps : Z) : K unit :=
  cpstate ←
    (if USERMODE ps then r ← curproc; mret (if NZERO <? p_nice r then CP_NICE else CP_USER)
     else s ← get_s; mret (if negb (noproc s =? 0) && BASEPRI ps then CP_IDLE else CP_SYS));
  modify (λ s, s <| cp_time ::= alter (λ z, i32 (z + 1)) cpstate |>).

(** [( *func) (arg)] in [softclock]. *)
Definition call (f : cofun) (arg : Z) : K unit :=
  match f with
  | Cschedcpu => schedcpu
  | Cendtsleep => endtsleep (Z.to_nat arg)
  | Cdriver n => driver_call n arg
  end.

(** A user's processor time over ten minutes lowers its priority. *)
Definition softclock (pc ps : Z) : K unit :=
  s ← get_s;
  Callout.softclock_loop call (size (callouts s)) ;;
  if USERMODE ps then
    p ← getu u_procp; pb ← getu u_prof;
    when (negb (pr_scale pb =? 0)) (Sig.addupc pc 1) ;;
    r ← getp p; ru ← getu u_ru;
    if negb (p_uid r =? 0) && (p_nice r =? NZERO) && (10 * 60 * hz <? ru_utime ru) then
      setp p (λ r, r <| p_nice := NZERO + 4 |>) ;;
      _ ← Sched.setpri p; mret tt
    else mret tt
  else mret tt.

(** [if (t->it_value && !--t->it_value) { psignal (p, sig); t->it_value =
    t->it_interval; }] for the timer [u.u_timer[n]]. *)
Definition tick_timer (n : nat) (sig : Z) : K unit :=
  ts ← getu u_timer; t ← unless_none (ts !! n);
  if it_value t =? 0 then mret tt
  else
    setu (λ r, r <| u_timer ::= alter (λ t, t <| it_value ::= λ z, i32 (z - 1) |>) n |>) ;;
    ts ← getu u_timer; t ← unless_none (ts !! n);
    when (it_value t =? 0)
      (p ← getu u_procp; Sig.psignal p sig ;;
       setu (λ r, r <| u_timer ::= alter (λ t, t <| it_value := it_interval t |>) n |>)).

(** What a tick costs the process on the cpu. *)
Definition charge_tick (p : nat) : K unit :=
  setp p (λ r, r <| p_cpu ::= λ c, cchar (c + 1) |>) ;;
  r ← getp p;
  when (p_cpu r =? 0) (setp p (λ r, r <| p_cpu ::= λ c, cchar (c - 1) |>)) ;;
  ru ← getu u_ru; ls ← getu u_rlimit; lim ← unless_none (ls !! RLIMIT_CPU);
  when (rlim_cur lim <? i32 (i32 (ru_utime ru + ru_stime ru) + 1))
    (Sig.psignal p SIGXCPU ;;
     ls ← getu u_rlimit; lim ← unless_none (ls !! RLIMIT_CPU);
     when (rlim_cur lim <? rlim_max lim)
       (setu (λ r, r <| u_rlimit ::= alter (λ l, l <| rlim_cur ::= λ z, i32 (z + 5 * hz) |>) RLIMIT_CPU |>))) ;;
  tick_timer 1 SIGPROF.

(** The time of day: [adjdelta] is worked off a tick at a time, and [lbolt]
    carries into the seconds. *)
Definition tick_time : K unit :=
  s ← get_s;
  (if adjdelta s =? 0 then mret tt
   else if 0 <? adjdelta s then
     modify (λ s, s <| lbolt ::= λ z, i32 (z + 1) |> <| adjdelta ::= λ z, z - 1 |>)
   else modify (λ s, s <| lbolt ::= λ z, i32 (z - 1) |> <| adjdelta ::= λ z, z + 1 |>)) ;;
  modify (λ s, s <| lbolt ::= λ z, i32 (z + 1) |>) ;;
  s ← get_s;
  when (hz <=? lbolt s)
    (modify (λ s, s <| lbolt ::= λ z, z - hz |>
                    <| time ::= λ t, t <| tv_sec ::= λ z, i32 (z + 1) |> |>)).

Definition hardclock (pc ps : Z) : K unit :=
  needsoft ← Callout.hardclock_callouts;
  needsoft ←
    (if USERMODE ps then
       pb ← getu u_prof;
       setu (λ r, r <| u_ru ::= λ t, t <| ru_utime ::= λ z, i32 (z + 1) |> |>) ;;
       tick_timer 0 SIGVTALRM ;;
       mret (needsoft || negb (pr_scale pb =? 0))
     else
       s ← get_s;
       when (noproc s =? 0) (setu (λ r, r <| u_ru ::= λ t, t <| ru_stime ::= λ z, i32 (z + 1) |> |>)) ;;
       mret needsoft);
  s ← get_s;
  when (noproc s =? 0) (p ← getu u_procp; charge_tick p) ;;
  gatherstats ps ;;
  tick_time ;;
  when (needsoft && BASEPRI ps) (softclock pc ps).
(** * Sleeping *)

Lemma enqueue_inv s rl sq p r r1 c :
  Sched.sched_inv s rl sq → procs s !! p = Some r → p ∉ rl → p_wchan r = None →
  p_link r1 = slpque s !! Sched.HASH c → p_wchan r1 = Some c → p_stat r1 = SSLEEP →
  Sched.sched_inv (s <| procs ::= <[p := r1]> |> <| slpque ::= <[Sched.HASH c := p]> |>) rl
    (<[Sched.HASH c := p :: sq (Sched.HASH c)]> sq).
Proof.
  intros [I1 I2 I3 I4 I5] Hr Hp Hw Hl1 Hw1 Hst1. set (h := Sched.HASH c) in *.
  assert (Hnq : ∀ h', p ∉ sq h').
  { intros h' Hin. destruct (I4 h' p Hin) as (q & c' & Hq & Hc' & _). congruence. }
  split; simpl.
  - by apply chain_insert_ne.
  - intros h'. destruct (decide (h = h')) as [<-|Hh].
    + rewrite fn_lookup_insert, lookup_insert_eq. simpl. split; [done|]. exists r1.
      rewrite lookup_insert_eq. split; [done|]. rewrite Hl1. by apply chain_insert_ne.
    + rewrite fn_lookup_insert_ne, lookup_insert_ne by done. by apply chain_insert_ne.
  - intros k Hk. destruct (I3 k Hk) as (q & Hq & ?). exists q.
    by rewrite lookup_insert_ne by (intros ->; done).
  - intros h' k Hk. destruct (decide (k = p)) as [->|Hkp].
    + exists r1, c. rewrite lookup_insert_eq. split; [done|]. split; [done|]. split; [|by left].
      destruct (decide (h = h')) as [<-|Hh]; [done|]. rewrite fn_lookup_insert_ne in Hk by done.
      by destruct (Hnq h').
    + rewrite lookup_insert_ne by done. apply I4. destruct (decide (h = h')) as [<-|Hh].
      * rewrite fn_lookup_insert in Hk. set_solver.
      * by rewrite fn_lookup_insert_ne in Hk.
  - intros k q c'. destruct (decide (k = p)) as [->|Hkp].
    + rewrite lookup_insert_eq. intros [= <-] Hc'. assert (c' = c) as -> by congruence.
      fold h. rewrite fn_lookup_insert. set_solver.
    + rewrite lookup_insert_ne by done. intros Hk Hc'. pose proof (I5 k q c' Hk Hc') as Hin.
      destruct (decide (h = Sched.HASH c')) as [E|Hh].
      * rewrite <- E in *. rewrite fn_lookup_insert. set_solver.
      * by rewrite fn_lookup_insert_ne.
Qed.

Lemma co_inv_ext s s' lt lf :
  callouts s' = callouts s → calltodo s' = calltodo s → callfree s' = callfree s →
  Callout.co_inv s lt lf → Callout.co_inv s' lt lf.
Proof. intros E1 E2 E3 []. split; rewrite ?E1, ?E2, ?E3; done. Qed.
Lemma pending_ext s s' lt : callouts s' = callouts s → Callout.pending s' lt = Callout.pending s lt.
Proof. unfold Callout.pending. by intros ->. Qed.
Lemma sched_frame_callouts s s' : Sched.sched_frame s s' →
  callouts s' = callouts s ∧ calltodo s' = calltodo s ∧ callfree s' = callfree s ∧ u s' = u s.
Proof. unfold Sched.sched_frame. by intros ->. Qed.
Lemma co_frame_sched s s' : Callout.co_frame s s' →
  procs s' = procs s ∧ qs s' = qs s ∧ slpque s' = slpque s ∧ u s' = u s.
Proof. unfold Callout.co_frame. by intros ->. Qed.

(** The record of a process that has put itself on a sleep queue. *)
Definition enqueued (s : kstate) (r : proc) (ident : wchan) (pri : Z) : proc :=
  r <| p_wchan := Some ident |> <| p_slptime := 0 |> <| p_pri := cchar (Z.land pri PRIMASK) |>
    <| p_link := slpque s !! Sched.HASH ident |>.

Lemma tsleep_enqueue_spec s lt lf p r ident pri timo :
  Callout.co_inv s lt lf → (timo ≠ 0 → lf ≠ []) → procs s !! p = Some r → 0 <= timo < 2 ^ 31 →
  ∃ s' lt' lf', tsleep_enqueue p ident pri timo s = Done tt s' ∧ Callout.co_inv s' lt' lf' ∧
    Callout.pending s' lt' = (if timo =? 0 then Callout.pending s lt
      else Callout.sched (timo, (Cendtsleep, Z.of_nat p)) (Callout.pending s lt)) ∧
    procs s' = <[p := enqueued s r ident pri]> (procs s) ∧
    slpque s' = <[Sched.HASH ident := p]> (slpque s) ∧ qs s' = qs s ∧ u s' = u s.
Proof.
  intros Hc Hlf Hr Htimo. unfold tsleep_enqueue.
  rewrite (bind_done _ _ _ _ _ (Sig.setp_put_eq _ _ _ _ Hr)). cbv beta.
  do 2 (rewrite (bind_done _ _ _ _ _ (Sig.setp_put _ _ _ _)); cbv beta).
  rewrite (bind_done _ _ _ _ _ (get_s_eq _)). cbv beta.
  rewrite (bind_done _ _ _ _ _ (Sig.setp_put _ _ _ _)). cbv beta.
  change (slpque (Sig.put s p _)) with (slpque s). fold (enqueued s r ident pri).
  rewrite (bind_done _ _ _ _ _ (modify_eq _ _)). cbv beta.
  set (s1 := Sig.put s p (enqueued s r ident pri) <| slpque ::= <[Sched.HASH ident := p]> |>).
  assert (Hc1 : Callout.co_inv s1 lt lf) by (by eapply co_inv_ext; [..|exact Hc]).
  unfold when. destruct (Z.eqb_spec timo 0) as [->|Hnz]; simpl.
  - exists s1, lt, lf. by split_and!.
  - destruct lf as [|n lf]; [by destruct Hlf|].
    destruct (Callout.timeout_spec Cendtsleep (Z.of_nat p) (i32 timo) s1 lt n lf Hc1) as
      (s' & l1 & l2 & -> & E & F & Hc' & Hp').
    destruct (co_frame_sched _ _ F) as (Ep & Eq & Es & Eu).
    exists s', (l1 ++ n :: l2), lf. rewrite i32_small in Hp' by lia. rewrite Z.max_r in Hp' by lia.
    rewrite (pending_ext s s1) in Hp' by done. split_and!; try done; by rewrite ?Ep, ?Eq, ?Es, ?Eu.
Qed.

Lemma tsleep_resume_spec s lt lf p r timo :
  Callout.co_inv s lt lf → procs s !! p = Some r →
  let late := has (p_flag r) P_TIMEOUT in
  ∃ s' lt' lf' r', tsleep_resume p false timo 0 s = Done (if late then EWOULDBLOCK else 0) s' ∧
    Callout.co_inv s' lt' lf' ∧ procs s' !! p = Some r' ∧
    has (p_flag r') P_SINTR = false ∧ has (p_flag r') P_TIMEOUT = false ∧
    Callout.pending s' lt' = (if late || (timo =? 0) then Callout.pending s lt
      else Callout.unsched (Cendtsleep, Z.of_nat p) (Callout.pending s lt)).
Proof.
  intros Hc Hr late. unfold tsleep_resume. kstep.
  set (r1 := r <| p_flag ::= λ f, clrf f P_SINTR |>). set (s1 := s <| procs ::= <[p := r1]> |>).
  kstep. assert (El : has (p_flag r1) P_TIMEOUT = late) by (by apply has_clrf_disj).
  rewrite El. assert (Hc1 : Callout.co_inv s1 lt lf) by (by eapply co_inv_ext; [..|exact Hc]).
  assert (Hp1 : procs s1 !! p = Some r1) by (subst s1; simpl; apply lookup_insert_eq).
  destruct late eqn:Hlate; simpl.
  - rewrite (bind_done _ _ _ _ _ (setp_eq _ _ _ _ Hp1)). eexists _, lt, lf, _.
    split; [reflexivity|]. split; [by eapply co_inv_ext; [..|exact Hc1]|].
    split; [simpl; apply lookup_insert_eq|]. simpl.
    split; [|split; [apply has_clrf_self|done]].
    apply has_clrf_mono, has_clrf_self.
  - unfold when. destruct (Z.eqb_spec timo 0) as [->|Hnz]; simpl.
    + exists s1, lt, lf, r1. split_and!; try done. apply has_clrf_self.
    + destruct (Callout.untimeout_spec Cendtsleep (Z.of_nat p) s1 lt lf Hc1) as
        (s' & lt' & lf' & E & F & Hc' & Hp' & _).
      rewrite (bind_done _ _ _ _ _ E). destruct (co_frame_sched _ _ F) as (Ep & _).
      exists s', lt', lf', r1. rewrite Ep. split_and!; try done. apply has_clrf_self.
Qed.
Lemma bind_start {A B} (m m' : K A) (k : A → K B) s s' :
  m s = m' s' → (m ≫= k) s = (m' ≫= k) s'.
Proof. unfold mbind, M_bind. by intros ->. Qed.

Lemma tsleep_switch_spec s rl sq p r c :
  Sched.sched_inv s rl sq → procs s !! p = Some r → p_stat r = SSLEEP → p_wchan r = Some c →
  c ≠ c_runin → c ≠ Sched.c_runout → p ≠ 0%nat →
  ∃ s1 w sq1 l,
    (when (negb (bool_decide (p = 0%nat))) (Sched.wakeup c_runin) ;;
     setu (λ r, r <| u_ru ::= λ t, t <| ru_nvcsw ::= λ z, i32 (z + 1) |> |>) ;; swtch) s =
      swtch s1 ∧
    Sched.sched_inv s1 (w ++ rl) sq1 ∧ procs s1 !! p = Some (r <| p_link := l |>) ∧
    callouts s1 = callouts s ∧ calltodo s1 = calltodo s ∧ callfree s1 = callfree s.
Proof.
  intros Hi Hr Hst Hw Hc1 Hc2 Hp.
  destruct (Sched.wakeup_spec c_runin s rl sq Hi) as (s' & E & (F & _ & W) & _ & w & sq' & Hi' & _).
  rewrite bool_decide_false by done. cbn [negb when].
  rewrite (bind_done _ _ _ _ _ E), (bind_done _ _ _ _ _ (setu_eq _ _)).
  destruct (sched_frame_callouts _ _ F) as (E1 & E2 & E3 & _).
  destruct (W p r Hr) as (l & [[D _]|[_ E']]).
  { exfalso. destruct D as [(q & Hq & Hqc)|(_ & _ & q & Hq & Hqc)]; congruence. }
  eexists _, w, sq', l. split; [reflexivity|]. split; [by eapply Sched.sched_inv_ext; [..|exact Hi']|].
  by split_and!.
Qed.

(** C22: an uninterruptible [tsleep]: when it gives up the processor the process
    is asleep on its channel's queue at the given priority, and with a timeout
    [endtsleep] is due for it in that many ticks; when it runs again the result
    says whether the timeout came first, and if it did not no [endtsleep] of the
    process is left to disturb a later sleep. *)
Theorem tsleep_sleeps ident pri timo s rl sq lt lf r :
  let p := u_procp (u s) in
  Sched.sched_inv s rl sq → Callout.co_inv s lt lf → (timo ≠ 0 → lf ≠ []) →
  procs s !! p = Some r → p_stat r = SRUN → p ∉ rl → p ≠ 0%nat → panicstr s = false →
  has pri PCATCH = false → 0 <= timo < 2 ^ 31 → ident ≠ c_runin → ident ≠ Sched.c_runout →
  ∃ s1 w sq1 lt1 lf1 r1,
    tsleep ident pri timo s = (swtch ≫= λ _, tsleep_resume p false timo 0) s1 ∧
    Sched.sched_inv s1 (w ++ rl) sq1 ∧ procs s1 !! p = Some r1 ∧
    p_stat r1 = SSLEEP ∧ p_wchan r1 = Some ident ∧ p_slptime r1 = 0 ∧
    p_pri r1 = cchar (Z.land pri PRIMASK) ∧ Callout.co_inv s1 lt1 lf1 ∧
    Callout.pending s1 lt1 = (if timo =? 0 then Callout.pending s lt
      else Callout.sched (timo, (Cendtsleep, Z.of_nat p)) (Callout.pending s lt)) ∧
    ∀ s2 r2 lt2 lf2, procs s2 !! p = Some r2 → Callout.co_inv s2 lt2 lf2 →
      let late := has (p_flag r2) P_TIMEOUT in
      ∃ s3 lt3 lf3, tsleep_resume p false timo 0 s2 = Done (if late then EWOULDBLOCK else 0) s3 ∧
        Callout.co_inv s3 lt3 lf3 ∧
        Callout.pending s3 lt3 = (if late || (timo =? 0) then Callout.pending s2 lt2
          else Callout.unsched (Cendtsleep, Z.of_nat p) (Callout.pending s2 lt2)).
Proof.
  intros p Hi Hc Hlf Hr Hst Hrl Hp0 Hpan Hcatch Htimo Hid1 Hid2.
  assert (Hw : p_wchan r = None) by (eapply Sched.sched_awake; [done|done|by rewrite Hst..]).
  destruct (tsleep_enqueue_spec s lt lf p r ident pri timo Hc Hlf Hr Htimo) as
    (s1 & lt1 & lf1 & E1 & Hc1 & Hp1 & Ep & Es & Eq & Eu).
  set (r1 := enqueued s r ident pri) in *.
  assert (Hr1 : procs s1 !! p = Some r1) by (rewrite Ep; apply lookup_insert_eq).
  set (r2 := r1 <| p_stat := SSLEEP |>).
  assert (Hi2 : Sched.sched_inv (Sig.put s1 p r2) rl (<[Sched.HASH ident := p :: sq (Sched.HASH ident)]> sq)).
  { eapply Sched.sched_inv_ext; [| | |eapply (enqueue_inv s rl sq p r r2 ident)]; try done.
    simpl. by rewrite Ep, insert_insert_eq. }
  destruct (tsleep_switch_spec (Sig.put s1 p r2) rl _ p r2 ident Hi2 (Sig.put_lookup _ _ _)) as
    (s3 & w & sq3 & l & E3 & Hi3 & Hr3 & F1 & F2 & F3); try done.
  exists s3, w, sq3, lt1, lf1, (r2 <| p_link := l |>).
  split.
  { unfold tsleep. rewrite (bind_done _ _ _ _ _ (getu_eq _ _)). fold p. cbv zeta.
    rewrite (bind_done _ _ _ _ _ (get_s_eq _)), Hpan. cbv beta iota.
    rewrite (bind_done _ _ _ _ _ (getp_eq _ _ _ Hr)). cbv beta.
    rewrite Hst. cbn [Z.eqb Pos.eqb SRUN negb]. rewrite andb_false_r. cbn [when].
    rewrite (bind_done _ _ _ _ _ (mret_eq _ _)), (bind_done _ _ _ _ _ E1), Hcatch. cbv beta iota.
    unfold tsleep_switch. rewrite bind_assoc, (bind_done _ _ _ _ _ (setp_eq _ _ _ _ Hr1)). cbv beta.
    fold (Sig.put s1 p r2). apply bind_start, E3. }
  split; [done|]. split; [done|]. split; [done|]. split; [done|]. split; [done|]. split; [done|].
  split; [by eapply co_inv_ext; [..|exact Hc1]|].
  split; [by rewrite (pending_ext s1 s3)|].
  intros s2 q lt2 lf2 Hq Hc2. destruct (tsleep_resume_spec s2 lt2 lf2 p q timo Hc2 Hq) as
    (s4 & lt4 & lf4 & r4 & E4 & Hc4 & _ & _ & _ & Hp4).
  by exists s4, lt4, lf4.
Qed.

(** [endtsleep] makes a process that is still asleep runnable, takes one that
    was stopped meanwhile off its queue without restarting it, and marks either
    as timed out; a process that was woken before is left alone. *)
Theorem endtsleep_times_out p s rl sq r :
  Sched.sched_inv s rl sq → procs s !! p = Some r →
  (p_wchan r = None → endtsleep p s = Done tt s) ∧
  (p_wchan r ≠ None → ∃ s' w sq' r', endtsleep p s = Done tt s' ∧
    Sched.sched_inv s' (w ++ rl) sq' ∧ procs s' !! p = Some r' ∧ p_wchan r' = None ∧
    p_stat r' = (if p_stat r =? SSLEEP then SRUN else SSTOP) ∧ has (p_flag r') P_TIMEOUT = true).
Proof.
  intros Hi Hr. unfold endtsleep. split.
  { intros Hw. kstep. by rewrite Hw. }
  intros Hw. kstep. destruct (p_wchan r) as [c|] eqn:Hc; [|done].
  assert (Hst : p_stat r = SSLEEP ∨ p_stat r = SSTOP).
  { destruct (Sched.si_slpp _ _ _ Hi _ p (Sched.si_all _ _ _ Hi p r c Hr Hc)) as
      (q & c' & Hq & _ & _ & Hst). congruence. }
  assert (Hfin : ∀ m s1 rl1 sq1 r1 l, m s = Done tt s1 → Sched.sched_inv s1 rl1 sq1 →
    procs s1 !! p = Some (r1 <| p_link := l |>) → p_wchan r1 = None →
    ∃ s', (m ;; setp p (λ r, r <| p_flag ::= λ f, setf f P_TIMEOUT |>)) s = Done tt s' ∧
      Sched.sched_inv s' rl1 sq1 ∧ ∃ r', procs s' !! p = Some r' ∧ p_wchan r' = None ∧
      p_stat r' = p_stat r1 ∧ has (p_flag r') P_TIMEOUT = true).
  { intros m s1 rl1 sq1 r1 l E1 Hi1 Hr1 Hw1. rewrite (bind_done _ _ _ _ _ E1), (setp_eq _ _ _ _ Hr1).
    eexists. split; [done|]. split; [by eapply Sched.sched_inv_setp|]. eexists.
    split; [simpl; apply lookup_insert_eq|]. simpl. split; [done|]. split; [done|].
    by apply has_setf_self. }
  destruct (Z.eqb_spec (p_stat r) SSLEEP) as [Hsl|Hsl].
  - destruct (Sig.setrun_step s rl sq p r Hi Hr ltac:(auto)) as (s' & w & sq' & E & _ & Hi' & _ & (l & Hp) & _).
    destruct (Hfin _ s' _ sq' _ l E Hi' Hp) as (s2 & E2 & Hi2 & r2 & Hr2 & Hw2 & Hs2 & Hf2); [done|].
    exists s2, w, sq', r2. split_and!; done.
  - destruct (Sched.setrun_unsleep s rl sq p r Hi Hr) as (s' & sq' & E & _ & _ & Hi' & (l & Hp) & _).
    destruct (Hfin _ s' rl sq' (r <| p_wchan := None |>) l E Hi' Hp) as
      (s2 & E2 & Hi2 & r2 & Hr2 & Hw2 & Hs2 & Hf2); [done|].
    exists s2, [], sq', r2. split_and!; try done. rewrite Hs2. simpl. naive_solver.
Qed.

(** a clock tick moves the time of day forward by one tick, or by two or none
    while [adjdelta] is being worked off, and keeps [lbolt] within the second. *)
Theorem tick_time_advances s :
  2 <= hz → 0 <= lbolt s < hz → hz < 2 ^ 30 → - 2 ^ 31 <= tv_sec (time s) < 2 ^ 31 - 1 →
  ∃ s', tick_time s = Done tt s' ∧ 0 <= lbolt s' < hz ∧
    tv_sec (time s') * hz + lbolt s' = tv_sec (time s) * hz + lbolt s + 1 + Z.sgn (adjdelta s) ∧
    adjdelta s' = adjdelta s - Z.sgn (adjdelta s).
Proof.
  intros Hhz Hl Hmax Hsec. unfold tick_time. kstep.
  assert (E : ∃ s1, (if adjdelta s =? 0 then mret tt
   else if 0 <? adjdelta s then
     modify (λ s, s <| lbolt ::= λ z, i32 (z + 1) |> <| adjdelta ::= λ z, z - 1 |>)
   else modify (λ s, s <| lbolt ::= λ z, i32 (z - 1) |> <| adjdelta ::= λ z, z + 1 |>)) s = Done tt s1 ∧
    lbolt s1 = lbolt s + Z.sgn (adjdelta s) ∧ adjdelta s1 = adjdelta s - Z.sgn (adjdelta s) ∧
    time s1 = time s).
  { destruct (Z.eqb_spec (adjdelta s) 0) as [E0|]; [|destruct (Z.ltb_spec 0 (adjdelta s))].
    - exists s. rewrite E0. simpl. split_and!; [done|lia|lia|done].
    - eexists. split; [reflexivity|]. simpl. rewrite i32_small, Z.sgn_pos by lia. done.
    - eexists. split; [reflexivity|]. simpl. rewrite i32_small, Z.sgn_neg by lia. split_and!; [lia|lia|done]. }
  destruct E as (s1 & E & El & Ea & Et). rewrite (bind_done _ _ _ _ _ E). kstep. kstep.
  simpl lbolt. rewrite El.
  assert (Hsg : -1 <= Z.sgn (adjdelta s) <= 1) by (destruct (adjdelta s); simpl; lia).
  rewrite (i32_small (lbolt s + Z.sgn (adjdelta s) + 1)) by lia.
  destruct (Z.leb_spec hz (lbolt s + Z.sgn (adjdelta s) + 1)) as [Hge|Hlt]; cbn [when].
  - eexists. split; [reflexivity|]. simpl. rewrite Ea, El, Et, !i32_small by lia.
    split_and!; [lia|lia|lia|done].
  - eexists. split; [reflexivity|]. simpl. rewrite Ea, El, Et, i32_small by lia.
    split_and!; [lia|lia|lia|done].
Qed.
End clock.

(** * Witnesses: process 1 runs, one callout is free *)

Definition clock_example : kstate :=
  kstate0 <| u ::= λ r, r <| u_procp := 1%nat |> |> <| callfree := Some 0%nat |>
    <| callouts := {[ 0%nat := MkCo 0 0 (Cdriver 0) None ]} |> <| lbolt := 99 |>
    <| procs := {[ 0%nat := proc0 <| p_stat := SRUN |>; 1%nat := proc0 <| p_stat := SRUN |> ]} |>.
Lemma clock_example_inv : Sched.sched_inv (H0 := Sched.layout1) clock_example [] (λ _, []).
Proof.
  split; [done|done|set_solver|set_solver|]. intros p r c Hp Hc.
  destruct p as [|[|p]]; [vm_compute in Hp; injection Hp as <-; discriminate Hc..|].
  unfold clock_example in Hp. simpl in Hp. by simplify_map_eq.
Defined.
Lemma clock_example_co : Callout.co_inv clock_example [] [0%nat].
Proof. split; [done|solve_chain|set_solver|constructor]. Defined.

Lemma tsleep_sleeps_witness :
  ∃ s1 w sq1 r1, tsleep (H := gba_cfg) (H0 := Sched.layout1) (H1 := Sig.sig_env0) Sched.c_tty 20 5
      clock_example =
      (swtch (SigEnv := Sig.sig_env0) ≫= λ _, tsleep_resume (H := gba_cfg) (H0 := Sched.layout1) (H1 := Sig.sig_env0) 1 false 5 0) s1 ∧
    Sched.sched_inv (H0 := Sched.layout1) s1 w sq1 ∧ procs s1 !! 1%nat = Some r1 ∧ p_stat r1 = SSLEEP.
Proof.
  destruct (tsleep_sleeps (H := gba_cfg) (H0 := Sched.layout1) (H1 := Sig.sig_env0) Sched.c_tty 20 5
    clock_example [] (λ _, []) [] [0%nat] (proc0 <| p_stat := SRUN |>)) as
    (s1 & w & sq1 & lt1 & lf1 & r1 & E & Hi & Hr & Hst & _);
    [exact clock_example_inv|exact clock_example_co|discriminate|reflexivity|reflexivity|set_solver
    |discriminate|reflexivity|reflexivity|lia|discriminate|discriminate|].
  exists s1, (w ++ []), sq1, r1. split; [exact E|]. split; [exact Hi|]. split; [exact Hr|exact Hst].
Defined.

Lemma endtsleep_times_out_witness :
  ∃ s' r', endtsleep (H := gba_cfg) (H0 := Sched.layout1) 1 Sig.sig_example = Done tt s' ∧
    procs s' !! 1%nat = Some r' ∧ p_stat r' = SRUN.
Proof.
  destruct (endtsleep_times_out (H := gba_cfg) (H0 := Sched.layout1) 1 Sig.sig_example []
    Sig.sig_example_sq Sig.sig_child Sig.sig_example_inv eq_refl) as [_ W].
  destruct W as (s' & w & sq' & r' & E & _ & Hr & _ & Hst & _); [discriminate|].
  exists s', r'. split; [exact E|]. split; [exact Hr|exact Hst].
Defined.

Lemma tick_time_advances_witness :
  ∃ s', tick_time (H := gba_cfg) clock_example = Done tt s' ∧ tv_sec (time s') * 100 + lbolt s' = 100.
Proof.
  destruct (tick_time_advances (H := gba_cfg) clock_example) as (s' & E & _ & Ht & _);
    [simpl; lia|simpl; lia|simpl; lia|simpl; lia|].
  exists s'. split; [exact E|exact Ht].
Defined.
End Clock.
