(* ===== verification/Sig2.v ===== *)
(** Signal dispositions and masks: the system calls of kern/kern_sig2.c. *)
From S2P Require Import Prelude Buf Kernel Links Callout Sched Prot Time Sig Clock.

Definition SIG_BLOCK : Z := 1.
Definition SIG_UNBLOCK : Z := 2.
Definition SIG_SETMASK : Z := 3.
Definition MINSIGSTKSZ : Z := 128.
(** [struct sigaction]. *)
Record sigaction_t := MkSa { sa_handler : Z; sa_mask : Z; sa_flags : Z }.

Module Sig2.
Section sig2.
Context `{KConfig} `{KLayout} `{SigEnv}.

Definition setsigvec (signum : Z) (sa : sigaction_t) : K unit :=
  p ← getu u_procp;
  let bit := sigmask signum in
  let n := Z.to_nat signum in
  prop ← sigprop_of signum;
  setu (λ r, r <| u_signal ::= <[n := sa_handler sa]> |>) ;;
  setu (λ r, r <| u_sigmask ::= <[n := clrf (sa_mask sa) sigcantmask]> |>) ;;
  setu (λ r, r <| u_sigintr ::= λ f,
    if negb (has (sa_flags sa) SA_RESTART) then setf f bit else clrf f bit |>) ;;
  setu (λ r, r <| u_sigonstack ::= λ f,
    if has (sa_flags sa) SA_ONSTACK then setf f bit else clrf f bit |>) ;;
  when (signum =? SIGCHLD)
    (setp p (λ r, r <| p_flag ::= λ f,
      if has (sa_flags sa) SA_NOCLDSTOP then setf f P_NOCLDSTOP else clrf f P_NOCLDSTOP |>)) ;;
  if (sa_handler sa =? SIG_IGN) || (has prop SA_IGNORE && (sa_handler sa =? SIG_DFL)) then
    setp p (λ r, r <| p_sig ::= λ f, clrf f bit |>) ;;
    when (negb (signum =? SIGCONT)) (setp p (λ r, r <| p_sigignore ::= λ f, setf f bit |>)) ;;
    setp p (λ r, r <| p_sigcatch ::= λ f, clrf f bit |>)
  else
    setp p (λ r, r <| p_sigignore ::= λ f, clrf f bit |>) ;;
    setp p (λ r, r <| p_sigcatch ::= λ f,
      if sa_handler sa =? SIG_DFL then clrf f bit else setf f bit |>).

Definition sa_words (sa : sigaction_t) : list Z := [sa_handler sa; sa_mask sa; sa_flags sa].

(** What [sigaction] reports of the old action. *)
Definition old_sigaction (signum : Z) : K sigaction_t :=
  us ← getu u_signal; h ← unless_none (us !! Z.to_nat signum);
  ms ← getu u_sigmask; m ← unless_none (ms !! Z.to_nat signum);
  on ← getu u_sigonstack; intr ← getu u_sigintr; r ← curproc;
  let bit := sigmask signum in
  let fl := if has on bit then SA_ONSTACK else 0 in
  let fl := if negb (has intr bit) then setf fl SA_RESTART else fl in
  mret (MkSa h m (if has (p_flag r) P_NOCLDSTOP then setf fl SA_NOCLDSTOP else fl)).

Definition sigaction : K unit :=
  signum ← uap 0; nsa ← uap 1; osa ← uap 2; tramp ← uap 3;
  setu (λ r, r <| u_sigtramp := u32 tramp |>) ;;
  if (signum <=? 0) || (NSIG <=? signum) then set_error EINVAL
  else if negb (nsa =? 0) && ((signum =? SIGKILL) || (signum =? SIGSTOP)) then set_error EINVAL
  else
    e ← (if osa =? 0 then mret 0
         else sa ← old_sigaction signum; copyout_words (sa_words sa) osa);
    if negb (e =? 0) then set_error e
    else if nsa =? 0 then set_error 0
    else
      r ← copyin_words nsa 3;
      match r with
      | inr e => set_error e
      | inl [h; m; fl] => setsigvec signum (MkSa (u32 h) m fl) ;; set_error 0
      | inl _ => fault
      end.

Definition fatalsig (signum : Z) : K unit :=
  p ← getu u_procp;
  setu (λ r, r <| u_signal ::= <[Z.to_nat signum := SIG_DFL]> |>) ;;
  let mask := sigmask signum in
  setp p (λ r, r <| p_sigignore ::= λ f, clrf f mask |>) ;;
  setp p (λ r, r <| p_sigcatch ::= λ f, clrf f mask |>) ;;
  setp p (λ r, r <| p_sigmask ::= λ f, clrf f mask |>) ;;
  Sig.psignal p signum.

Definition siginit (p : nat) : K unit :=
  foldl (λ m i, m ;;
      prop ← sigprop_of i;
      when (has prop SA_IGNORE && negb (i =? SIGCONT))
        (setp p (λ r, r <| p_sigignore ::= λ f, setf f (sigmask i) |>)))
    (mret tt) (seqZ 0 NSIG).

Definition sigprocmask : K unit :=
  how ← uap 0; set ← uap 1; oset ← uap 2; p ← getu u_procp;
  r ← getp p;
  let oldmask := p_sigmask r in
  error ←
    (if set =? 0 then mret 0
     else
       c ← copyin_words set 1;
       match c with
       | inr e => mret e
       | inl [newmask] =>
         if how =? SIG_BLOCK then
           setp p (λ r, r <| p_sigmask ::= λ f, setf f (clrf newmask sigcantmask) |>) ;; mret 0
         else if how =? SIG_UNBLOCK then
           setp p (λ r, r <| p_sigmask ::= λ f, clrf f newmask |>) ;; mret 0
         else if how =? SIG_SETMASK then
           setp p (λ r, r <| p_sigmask := clrf newmask sigcantmask |>) ;; mret 0
         else mret EINVAL
       | inl _ => fault
       end);
  if (error =? 0) && negb (oset =? 0) then e ← copyout_words [oldmask] oset; set_error e
  else set_error error.

Definition sigpending : K unit :=
  set ← uap 0; r ← curproc;
  e ← (if negb (set =? 0) then copyout_words [p_sig r] set else mret EINVAL);
  set_error e.

(** [while (tsleep ((caddr_t) &u, PPAUSE|PCATCH, 0) == 0) ;] *)
Fixpoint sigsuspend_loop (fuel : nat) : K unit :=
  match fuel with
  | O => nofuel
  | S fuel =>
    e ← Clock.tsleep (WChan "u" 0) (Z.lor PPAUSE PCATCH) 0;
    if e =? 0 then sigsuspend_loop fuel else mret tt
  end.
Definition sigsuspend : K unit :=
  set ← uap 0; p ← getu u_procp;
  nmask ← (if set =? 0 then mret 0
           else c ← copyin_words set 1;
                match c with inl [m] => mret m | inl _ => fault | inr _ => mret 0 end);
  r ← getp p;
  setu (λ r', r' <| u_oldmask := p_sigmask r |>) ;;
  setu (λ r, r <| u_psflags ::= λ f, setf f SAS_OLDMASK |>) ;;
  setp p (λ r, r <| p_sigmask := clrf nmask sigcantmask |>) ;;
  sigsuspend_loop sig_passes ;;
  set_error EINTR.

Definition stk_words (t : stack_t) : list Z := [ss_base t; ss_size t; ss_flags t].
Definition sigaltstack : K unit :=
  nss ← uap 0; oss ← uap 1;
  fl ← getu u_psflags;
  when (negb (has fl SAS_ALTSTACK))
    (setu (λ r, r <| u_sigstk ::= λ t, t <| ss_flags ::= λ f, setf f SA_DISABLE |> |>)) ;;
  t ← getu u_sigstk;
  e ← (if oss =? 0 then mret 0 else copyout_words (stk_words t) oss);
  if negb (e =? 0) then set_error e
  else if nss =? 0 then set_error 0
  else
    c ← copyin_words nss 3;
    match c with
    | inr e => set_error e
    | inl [base; size; flags] =>
      if has flags SA_DISABLE then
        if has (ss_flags t) SA_ONSTACK then set_error EINVAL
        else
          setu (λ r, r <| u_psflags ::= λ f, clrf f SAS_ALTSTACK |>) ;;
          setu (λ r, r <| u_sigstk ::= λ t, t <| ss_flags := flags |> |>) ;;
          set_error 0
      else if size <? MINSIGSTKSZ then set_error ENOMEM
      else
        setu (λ r, r <| u_psflags ::= λ f, setf f SAS_ALTSTACK |>) ;;
        setu (λ r, r <| u_sigstk := MkStk (u32 base) size flags |>) ;;
        set_error 0
    | inl _ => fault
    end.

(** [while ((sigsavail = (wanted & p->p_sig)) == 0) tsleep (...);] *)
Fixpoint sigwait_loop (fuel : nat) (p : nat) (wanted : Z) : K Z :=
  r ← getp p;
  let sigsavail := Z.land wanted (p_sig r) in
  if negb (sigsavail =? 0) then mret sigsavail
  else
    match fuel with
    | O => nofuel
    | S fuel =>
      _ ← Clock.tsleep (WChan "u_signal" 0) (Z.lor PPAUSE PCATCH) 0;
      sigwait_loop fuel p wanted
    end.
Definition sigwait : K unit :=
  set ← uap 0; sig ← uap 1; p ← getu u_procp;
  if (set =? 0) || (sig =? 0) then set_error EINVAL
  else
    c ← copyin_words set 1;
    match c with
    | inr e => set_error e
    | inl [wanted] =>
      avail ← sigwait_loop sig_passes p (Z.lor wanted sigcantmask);
      if has avail sigcantmask then set_error EINTR
      else
        let signo := ffs (u32 avail) in
        setp p (λ r, r <| p_sig ::= λ f, clrf f (sigmask signo) |>) ;;
        e ← copyout_words [signo] sig; set_error e
    | inl _ => fault
    end.
(** * What the dispositions mean *)

(** The masks of the process table agree with the handlers of the user area, and
    SIGKILL and SIGSTOP are neither caught, ignored nor masked. *)
Record disp_ok (r : proc) (us : user) : Prop := {
  d_len : length (u_signal us) = 32%nat;
  d_mlen : length (u_sigmask us) = 32%nat;
  d_range : 0 <= p_sigcatch r < 2 ^ 31;
  d_mask : has (p_sigmask r) sigcantmask = false;
  d_umask : Forall (λ m, has m sigcantmask = false) (u_sigmask us);
  d_catch : ∀ k h, 1 <= k < 32 → u_signal us !! Z.to_nat k = Some h →
    has (p_sigcatch r) (sigmask k) = negb (h =? SIG_DFL) && negb (h =? SIG_IGN);
  d_ign : ∀ k h prop, 1 <= k < 32 → u_signal us !! Z.to_nat k = Some h →
    sigprop !! Z.to_nat k = Some prop →
    has (p_sigignore r) (sigmask k) =
      ((h =? SIG_IGN) || ((h =? SIG_DFL) && has prop SA_IGNORE)) && negb (k =? SIGCONT);
  d_cant : u_signal us !! 9%nat = Some SIG_DFL ∧ u_signal us !! 17%nat = Some SIG_DFL;
}.

Lemma disp_ok_ext r r' us us' :
  p_sigmask r' = p_sigmask r → p_sigcatch r' = p_sigcatch r → p_sigignore r' = p_sigignore r →
  u_signal us' = u_signal us → u_sigmask us' = u_sigmask us → disp_ok r us → disp_ok r' us'.
Proof. intros E1 E2 E3 E4 E5 []. split; rewrite ?E1, ?E2, ?E3, ?E4, ?E5; done. Qed.

Lemma has_setf_sigmask f n k : 0 < n → 0 < k →
  has (setf f (sigmask n)) (sigmask k) = has f (sigmask k) || (k =? n).
Proof.
  intros Hn Hk. rewrite !Sig.has_sigmask by done. unfold setf.
  rewrite Z.lor_spec, Sig.sigmask_bit by lia. f_equal.
  destruct (Z.eqb_spec (k - 1) (n - 1)), (Z.eqb_spec k n); lia || done.
Qed.
Lemma has_clrf_sigmask f n k : 0 < n → 0 < k →
  has (clrf f (sigmask n)) (sigmask k) = has f (sigmask k) && negb (k =? n).
Proof.
  intros Hn Hk. rewrite !Sig.has_sigmask by done. rewrite Sig.clrf_sigmask by lia. f_equal. f_equal.
  destruct (Z.eqb_spec (k - 1) (n - 1)), (Z.eqb_spec k n); lia || done.
Qed.
Lemma setf_range f n : 0 < n < 32 → 0 <= f < 2 ^ 31 → 0 <= setf f (sigmask n) < 2 ^ 31.
Proof.
  intros Hn Hf. unfold setf, sigmask. rewrite Z.shiftl_1_l.
  assert (Hp : 0 <= 2 ^ (n - 1)) by (apply Z.pow_nonneg; lia).
  split; [apply Z.lor_nonneg; lia|].
  destruct (decide (Z.lor f (2 ^ (n - 1)) = 0)) as [->|Hnz]; [lia|].
  pose proof (proj2 (Z.lor_nonneg f (2 ^ (n - 1))) (conj (proj1 Hf) Hp)).
  apply Z.log2_lt_pow2; [lia|]. rewrite Z.log2_lor by lia. apply Z.max_lub_lt.
  - destruct (decide (f = 0)) as [->|]; [done|]. apply Z.log2_lt_pow2; lia.
  - rewrite Z.log2_pow2 by lia. lia.
Qed.

(** The record and user area [setsigvec] leaves. *)
Definition set_disp (signum prop : Z) (sa : sigaction_t) (r : proc) : proc :=
  let bit := sigmask signum in
  let r := if signum =? SIGCHLD then r <| p_flag ::= λ f,
      if has (sa_flags sa) SA_NOCLDSTOP then setf f P_NOCLDSTOP else clrf f P_NOCLDSTOP |> else r in
  if (sa_handler sa =? SIG_IGN) || (has prop SA_IGNORE && (sa_handler sa =? SIG_DFL)) then
    let r := r <| p_sig ::= λ f, clrf f bit |> in
    let r := if negb (signum =? SIGCONT) then r <| p_sigignore ::= λ f, setf f bit |> else r in
    r <| p_sigcatch ::= λ f, clrf f bit |>
  else r <| p_sigignore ::= λ f, clrf f bit |>
         <| p_sigcatch ::= λ f, if sa_handler sa =? SIG_DFL then clrf f bit else setf f bit |>.

Lemma setsigvec_spec signum sa s p r prop :
  u_procp (u s) = p → procs s !! p = Some r → 0 < signum < 32 →
  sigprop !! Z.to_nat signum = Some prop →
  ∃ s', setsigvec signum sa s = Done tt s' ∧ procs s' = <[p := set_disp signum prop sa r]> (procs s) ∧
    u_signal (u s') = <[Z.to_nat signum := sa_handler sa]> (u_signal (u s)) ∧
    u_sigmask (u s') = <[Z.to_nat signum := clrf (sa_mask sa) sigcantmask]> (u_sigmask (u s)) ∧
    u_procp (u s') = p.
Proof.
  intros Hp Hr Hs Hprop. unfold setsigvec. kstep. rewrite Hp. cbv zeta.
  assert (Hpo : sigprop_of signum s = Done prop s).
  { unfold sigprop_of. replace (signum <? 0) with false by lia. by rewrite Hprop. }
  rewrite (bind_done _ _ _ _ _ Hpo). do 4 kstep.
  match goal with |- context [(when _ _ ≫= _) ?t] => set (s1 := t) end.
  assert (Hr1 : procs s1 !! p = Some r) by done.
  rewrite (bind_done _ _ _ _ _ (Sig.when_setp _ _ _ _ _ Hr1)). cbv beta.
  set (r1 := if signum =? SIGCHLD then _ else r).
  assert (Hdone : ∀ r', Sig.put s1 p r' = Sig.put s1 p (set_disp signum prop sa r) →
    ∃ s', Done tt (Sig.put s1 p r') = Done tt s' ∧ procs s' = <[p := set_disp signum prop sa r]> (procs s) ∧
    u_signal (u s') = <[Z.to_nat signum := sa_handler sa]> (u_signal (u s)) ∧
    u_sigmask (u s') = <[Z.to_nat signum := clrf (sa_mask sa) sigcantmask]> (u_sigmask (u s)) ∧
    u_procp (u s') = p).
  { intros r' ->. eexists. split; [done|]. by split_and!. }
  unfold set_disp in Hdone |- *. fold r1 in Hdone |- *.
  destruct ((sa_handler sa =? SIG_IGN) || (has prop SA_IGNORE && (sa_handler sa =? SIG_DFL))).
  - rewrite (bind_done _ _ _ _ _ (Sig.setp_put _ _ _ _)). cbv beta.
    rewrite (bind_done _ _ _ _ _ (Sig.when_setp _ _ _ _ _ (Sig.put_lookup _ _ _))), Sig.put_put. cbv beta.
    rewrite Sig.setp_put. by apply Hdone.
  - rewrite (bind_done _ _ _ _ _ (Sig.setp_put _ _ _ _)). cbv beta. rewrite Sig.setp_put. by apply Hdone.
Qed.

Lemma set_disp_ok signum prop sa r us us' :
  0 < signum < 32 → signum ≠ SIGKILL → signum ≠ SIGSTOP → sigprop !! Z.to_nat signum = Some prop →
  u_signal us' = <[Z.to_nat signum := sa_handler sa]> (u_signal us) →
  u_sigmask us' = <[Z.to_nat signum := clrf (sa_mask sa) sigcantmask]> (u_sigmask us) →
  disp_ok r us → disp_ok (set_disp signum prop sa r) us'.
Proof.
  intros Hs Hk1 Hk2 Hprop Eu Em [L1 L2 R M U C I [K1 K2]].
  assert (Hm : p_sigmask (set_disp signum prop sa r) = p_sigmask r)
    by (unfold set_disp; by repeat case_match).
  set (caught := negb (sa_handler sa =? SIG_DFL) && negb (sa_handler sa =? SIG_IGN)).
  assert (Hc : p_sigcatch (set_disp signum prop sa r) =
    if caught then setf (p_sigcatch r) (sigmask signum) else clrf (p_sigcatch r) (sigmask signum)).
  { subst caught. unfold set_disp.
    destruct (Z.eqb_spec (sa_handler sa) SIG_DFL), (Z.eqb_spec (sa_handler sa) SIG_IGN);
      unfold SIG_DFL, SIG_IGN in *; try lia; simpl; rewrite ?andb_false_r; repeat case_match; done. }
  set (ign := (sa_handler sa =? SIG_IGN) || (has prop SA_IGNORE && (sa_handler sa =? SIG_DFL))).
  assert (Hi : p_sigignore (set_disp signum prop sa r) =
    if ign then (if negb (signum =? SIGCONT) then setf (p_sigignore r) (sigmask signum) else p_sigignore r)
    else clrf (p_sigignore r) (sigmask signum)).
  { subst ign. unfold set_disp. by repeat case_match. }
  split.
  - by rewrite Eu, length_insert.
  - by rewrite Em, length_insert.
  - rewrite Hc. destruct caught; [by apply setf_range|by apply Sig.clrf_range].
  - by rewrite Hm.
  - rewrite Em. apply Forall_insert; [done|]. apply has_clrf_self.
  - intros k h Hk. rewrite Eu. destruct (decide (k = signum)) as [->|Hne].
    + rewrite list_lookup_insert_eq by lia. intros [= <-]. fold caught. rewrite Hc.
      destruct caught; [rewrite has_setf_sigmask by lia|rewrite has_clrf_sigmask by lia];
        rewrite Z.eqb_refl; [by rewrite orb_true_r|by rewrite andb_false_r].
    + rewrite list_lookup_insert_ne by lia. intros Hh. rewrite Hc, <- (C k h Hk Hh).
      destruct caught; [rewrite has_setf_sigmask by lia|rewrite has_clrf_sigmask by lia];
        rewrite (proj2 (Z.eqb_neq _ _) Hne); [by rewrite orb_false_r|by rewrite andb_true_r].
  - intros k h prop' Hk. rewrite Eu. destruct (decide (k = signum)) as [->|Hne].
    + rewrite list_lookup_insert_eq by lia. intros [= <-] Hprop'. assert (prop' = prop) as -> by congruence.
      replace (_ || _) with ign by (subst ign; f_equal; apply andb_comm). rewrite Hi.
      destruct (lookup_lt_is_Some_2 (u_signal us) (Z.to_nat signum)) as [h0 Hh0]; [lia|].
      destruct ign; [|rewrite has_clrf_sigmask by lia; rewrite Z.eqb_refl; by rewrite andb_false_r].
      destruct (Z.eqb_spec signum SIGCONT) as [E|E]; simpl.
      * rewrite (I signum h0 prop Hk Hh0 Hprop), E. by rewrite andb_false_r.
      * rewrite has_setf_sigmask by lia. by rewrite Z.eqb_refl, orb_true_r.
    + rewrite list_lookup_insert_ne by lia. intros Hh Hp'. rewrite Hi, <- (I k h prop' Hk Hh Hp').
      destruct ign; [destruct (negb (signum =? SIGCONT)); [rewrite has_setf_sigmask by lia|done]
        |rewrite has_clrf_sigmask by lia];
        rewrite (proj2 (Z.eqb_neq _ _) Hne); [by rewrite orb_false_r|by rewrite andb_true_r].
  - rewrite Eu. unfold SIGKILL, SIGSTOP in *. rewrite !list_lookup_insert_ne by lia. done.
Qed.
(** The current process's dispositions. *)
Definition cur_ok (s : kstate) : Prop :=
  ∃ r, procs s !! u_procp (u s) = Some r ∧ disp_ok r (u s).
Lemma cur_ok_ext s s' :
  procs s' = procs s → u_procp (u s') = u_procp (u s) → u_signal (u s') = u_signal (u s) →
  u_sigmask (u s') = u_sigmask (u s) → cur_ok s → cur_ok s'.
Proof.
  intros E1 E2 E3 E4 (r & Hr & Hd). exists r. rewrite E1, E2. split; [done|].
  by eapply disp_ok_ext; [..|exact Hd].
Qed.
Lemma sigprop_some k : 0 <= k < 32 → ∃ prop, sigprop !! Z.to_nat k = Some prop.
Proof. intros Hk. destruct (Sig.sigprop_lookup k Hk) as (prop & E & _). by exists prop. Qed.

Lemma copyout_words_any ws to s : ∃ e s', copyout_words ws to s = Done e s' ∧
  procs s' = procs s ∧ u s' = u s.
Proof.
  destruct (badrange to (4 * Z.of_nat (length ws))) eqn:Hb.
  - exists EFAULT, s. by rewrite (copyout_words_bad _ _ _ Hb).
  - rewrite (copyout_words_ok _ _ _ Hb). by eexists _, _.
Qed.
Lemma copyin_words_any from n s : (∃ ws, copyin_words from n s = Done (inl ws) s ∧ length ws = n) ∨
  copyin_words from n s = Done (inr EFAULT) s.
Proof.
  destruct (badrange from (4 * Z.of_nat n)) eqn:Hb.
  - right. by apply copyin_words_bad.
  - left. rewrite (copyin_words_ok _ _ _ Hb). eexists. split; [done|]. apply length_bytes_words.
Qed.

Lemma sigaction_keeps s a0 a1 a2 a3 rest :
  cur_ok s → u_arg (u s) = a0 :: a1 :: a2 :: a3 :: rest → ∃ s', sigaction s = Done tt s' ∧ cur_ok s'.
Proof.
  intros Hok Harg. unfold sigaction. do 5 kstep.
  set (s1 := s <| u ::= λ r, r <| u_sigtramp := u32 a3 |> |>).
  assert (Hok1 : cur_ok s1) by (by eapply cur_ok_ext; [..|exact Hok]).
  assert (Herr : ∀ e s2, cur_ok s2 → ∃ s', set_error e s2 = Done tt s' ∧ cur_ok s').
  { intros e s2 Hok2. eexists. split; [apply set_error_eq|]. by eapply cur_ok_ext; [..|exact Hok2]. }
  destruct ((a0 <=? 0) || (NSIG <=? a0)) eqn:Hs; [by apply Herr|].
  assert (Hs' : 0 < a0 < 32) by (unfold NSIG in Hs; lia). clear Hs.
  destruct (negb (a1 =? 0) && ((a0 =? SIGKILL) || (a0 =? SIGSTOP))) eqn:Hk; [by apply Herr|].
  destruct Hok1 as (r & Hr & Hd).
  assert (Hold : ∃ e s2, (if a2 =? 0 then mret 0 else sa ← old_sigaction a0; copyout_words (sa_words sa) a2) s1
    = Done e s2 ∧ procs s2 = procs s1 ∧ u s2 = u s1).
  { destruct (a2 =? 0); [by eexists _, _|].
    assert (∃ sa, old_sigaction a0 s1 = Done sa s1) as [sa E].
    { unfold old_sigaction.
      destruct (lookup_lt_is_Some_2 (u_signal (u s1)) (Z.to_nat a0)) as [h Hh]; [rewrite (d_len _ _ Hd); lia|].
      destruct (lookup_lt_is_Some_2 (u_sigmask (u s1)) (Z.to_nat a0)) as [m Hm]; [rewrite (d_mlen _ _ Hd); lia|].
      kstep. rewrite Hh. cbn [unless_none]. kstep. kstep. rewrite Hm. cbn [unless_none]. kstep.
      kstep. kstep. rewrite (bind_done _ _ _ _ _ (curproc_eq _ _ Hr)). by eexists. }
    rewrite (bind_done _ _ _ _ _ E). apply copyout_words_any. }
  destruct Hold as (e & s2 & E & Ep & Eu). rewrite (bind_done _ _ _ _ _ E). cbv beta.
  assert (Hok2 : cur_ok s2) by (exists r; by rewrite Ep, Eu).
  destruct (negb (e =? 0)); [by apply Herr|]. destruct (a1 =? 0) eqn:Ha1; [by apply Herr|].
  destruct (copyin_words_any a1 3 s2) as [(ws & Ec & Hl)|Ec]; rewrite (bind_done _ _ _ _ _ Ec);
    [|by apply Herr].
  destruct ws as [|h [|m [|fl [|? ws]]]]; try done.
  destruct (sigprop_some a0 ltac:(lia)) as [prop Hprop].
  destruct (setsigvec_spec a0 (MkSa (u32 h) m fl) s2 (u_procp (u s2)) r prop) as
    (s3 & E3 & Ep3 & Es3 & Em3 & Eu3); [done|by rewrite Ep, Eu|done|done|].
  rewrite (bind_done _ _ _ _ _ E3). apply Herr. exists (set_disp a0 prop (MkSa (u32 h) m fl) r).
  rewrite Eu3, Ep3. split; [apply lookup_insert_eq|].
  cbn [negb andb] in Hk. eapply set_disp_ok; [done| | |done|exact Es3|exact Em3|by rewrite Eu]; lia.
Qed.

Lemma sigprocmask_keeps s a0 a1 a2 rest :
  cur_ok s → u_arg (u s) = a0 :: a1 :: a2 :: rest → ∃ s', sigprocmask s = Done tt s' ∧ cur_ok s'.
Proof.
  intros (r & Hr & Hd) Harg. unfold sigprocmask. do 5 kstep. cbv zeta.
  set (p := u_procp (u s)) in *.
  assert (Hset : ∃ e s1, (if a1 =? 0 then mret 0
     else
       c ← copyin_words a1 1;
       match c with
       | inr e => mret e
       | inl [newmask] =>
         if a0 =? SIG_BLOCK then
           setp p (λ r, r <| p_sigmask ::= λ f, setf f (clrf newmask sigcantmask) |>) ;; mret 0
         else if a0 =? SIG_UNBLOCK then
           setp p (λ r, r <| p_sigmask ::= λ f, clrf f newmask |>) ;; mret 0
         else if a0 =? SIG_SETMASK then
           setp p (λ r, r <| p_sigmask := clrf newmask sigcantmask |>) ;; mret 0
         else mret EINVAL
       | inl _ => fault
       end) s = Done e s1 ∧ cur_ok s1).
  { destruct (a1 =? 0); [eexists _, _; split; [done|]; by exists r|].
    destruct (copyin_words_any a1 1 s) as [(ws & Ec & Hl)|Ec]; rewrite (bind_done _ _ _ _ _ Ec).
    2:{ eexists _, _. split; [done|]. by exists r. }
    destruct ws as [|m [|? ws]]; try done.
    assert (Hput : ∀ f, has (f (p_sigmask r)) sigcantmask = false → ∃ e s1,
      (setp p (λ r, r <| p_sigmask ::= f |>) ;; mret 0) s = Done e s1 ∧ cur_ok s1).
    { intros f Hf. rewrite (bind_done _ _ _ _ _ (setp_eq _ _ _ _ Hr)). eexists _, _. split; [done|].
      eexists. split; [simpl; apply lookup_insert_eq|]. destruct Hd. by split. }
    destruct (a0 =? SIG_BLOCK); [apply (Hput (λ f, setf f (clrf m sigcantmask)))|].
    { rewrite has_setf; [apply (d_mask _ _ Hd)|]. pose proof (has_clrf_self m sigcantmask) as E.
      unfold has in E. by apply negb_false_iff, Z.eqb_eq in E. }
    destruct (a0 =? SIG_UNBLOCK); [apply (Hput (λ f, clrf f m)), has_clrf_mono, (d_mask _ _ Hd)|].
    destruct (a0 =? SIG_SETMASK); [apply (Hput (λ _, clrf m sigcantmask)), has_clrf_self|].
    eexists _, _. split; [done|]. by exists r. }
  destruct Hset as (e & s1 & E & Hok1). rewrite (bind_done _ _ _ _ _ E). cbv beta.
  destruct ((e =? 0) && negb (a2 =? 0)).
  - destruct (copyout_words_any [p_sigmask r] a2 s1) as (e' & s2 & E2 & Ep2 & Eu2).
    rewrite (bind_done _ _ _ _ _ E2). eexists. split; [apply set_error_eq|].
    by eapply cur_ok_ext; [..|exact Hok1]; simpl; rewrite ?Ep2, ?Eu2.
  - eexists. split; [apply set_error_eq|]. by eapply cur_ok_ext; [..|exact Hok1].
Qed.

(** One caught signal reset by [execsigs]. *)
Definition exec_rec (r : proc) (nc prop : Z) : proc :=
  let r := r <| p_sigcatch ::= λ f, clrf f (sigmask nc) |> in
  if has prop SA_IGNORE then
    (if negb (nc =? SIGCONT) then r <| p_sigignore ::= λ f, setf f (sigmask nc) |> else r)
      <| p_sig ::= λ f, clrf f (sigmask nc) |>
  else r.

Lemma exec_rec_ok r us us' nc prop h :
  disp_ok r us → 1 <= nc < 32 → has (p_sigcatch r) (sigmask nc) = true →
  u_signal us !! Z.to_nat nc = Some h → sigprop !! Z.to_nat nc = Some prop →
  u_signal us' = <[Z.to_nat nc := SIG_DFL]> (u_signal us) → u_sigmask us' = u_sigmask us →
  disp_ok (exec_rec r nc prop) us'.
Proof.
  intros [L1 L2 R M U C I [K1 K2]] Hnc Hc Hh Hprop Eu Em.
  assert (Hm : p_sigmask (exec_rec r nc prop) = p_sigmask r) by (unfold exec_rec; by repeat case_match).
  assert (Hcat : p_sigcatch (exec_rec r nc prop) = clrf (p_sigcatch r) (sigmask nc))
    by (unfold exec_rec; by repeat case_match).
  assert (Hig : p_sigignore (exec_rec r nc prop) =
    if has prop SA_IGNORE && negb (nc =? SIGCONT) then setf (p_sigignore r) (sigmask nc) else p_sigignore r)
    by (unfold exec_rec; by repeat case_match).
  split.
  - by rewrite Eu, length_insert.
  - by rewrite Em.
  - rewrite Hcat. by apply Sig.clrf_range.
  - by rewrite Hm.
  - by rewrite Em.
  - intros k h' Hk. rewrite Eu, Hcat, has_clrf_sigmask by lia. destruct (decide (k = nc)) as [->|Hne].
    + rewrite list_lookup_insert_eq by lia. intros [= <-]. by rewrite Z.eqb_refl, andb_false_r.
    + rewrite list_lookup_insert_ne by lia. intros Hh'. rewrite <- (C k h' Hk Hh').
      by rewrite (proj2 (Z.eqb_neq _ _) Hne), andb_true_r.
  - intros k h' prop' Hk. rewrite Eu, Hig. destruct (decide (k = nc)) as [->|Hne].
    + rewrite list_lookup_insert_eq by lia. intros [= <-] Hp'. assert (prop' = prop) as -> by congruence.
      rewrite (C nc h Hk Hh) in Hc. pose proof (I nc h prop Hk Hh Hprop) as Hi.
      destruct (h =? SIG_DFL), (h =? SIG_IGN); try done. simpl in Hi. simpl.
      destruct (has prop SA_IGNORE); simpl; [|done].
      destruct (Z.eqb_spec nc SIGCONT); simpl; [done|]. by rewrite has_setf_sigmask, Z.eqb_refl, orb_true_r by lia.
    + rewrite list_lookup_insert_ne by lia. intros Hh' Hp'. rewrite <- (I k h' prop' Hk Hh' Hp').
      destruct (_ && _); [|done]. rewrite has_setf_sigmask by lia.
      by rewrite (proj2 (Z.eqb_neq _ _) Hne), orb_false_r.
  - rewrite Eu. split; rewrite list_lookup_insert_ne; try done; intros E.
    + assert (nc = 9) as -> by lia. rewrite (C 9 SIG_DFL ltac:(lia) K1) in Hc. done.
    + assert (nc = 17) as -> by lia. rewrite (C 17 SIG_DFL ltac:(lia) K2) in Hc. done.
Qed.

Lemma execsigs_loop_keeps fuel i s p r :
  u_procp (u s) = p → procs s !! p = Some r → disp_ok r (u s) → 1 <= i <= 32 → 32 - i <= Z.of_nat fuel →
  (∀ k, 1 <= k < i → has (p_sigcatch r) (sigmask k) = false) →
  ∃ s' r', Sig.execsigs_loop fuel p s = Done tt s' ∧ u_procp (u s') = p ∧ procs s' !! p = Some r' ∧
    disp_ok r' (u s') ∧ p_sigcatch r' = 0.
Proof.
  revert i s r. induction fuel as [|fuel IH]; intros i s r Hp Hr Hd Hi Hf Hlow;
    cbn [Sig.execsigs_loop]; kstep; destruct (Z.eqb_spec (p_sigcatch r) 0) as [Ez|Hnz];
    try (by exists s, r).
  all: pose proof (d_range _ _ Hd) as Hrg.
  all: destruct (Sig.ffs_spec (u32 (p_sigcatch r))) as (Hs & Hbit & Hl); [rewrite u32_small by lia; lia|].
  all: set (nc := ffs (u32 (p_sigcatch r))) in *; rewrite u32_small in Hbit, Hl by lia.
  all: assert (Hnc : nc < 32) by (destruct (decide (nc = 32)) as [E|]; [|lia]; rewrite E in Hbit;
    rewrite Z.bits_above_log2 in Hbit; [done|lia|apply Z.log2_lt_pow2; lia]).
  all: assert (Hc : has (p_sigcatch r) (sigmask nc) = true) by (by rewrite Sig.has_sigmask by lia).
  all: assert (Hinc : i <= nc) by (destruct (Z.le_gt_cases i nc); [done|]; rewrite Hlow in Hc by lia; done).
  { lia. }
  cbv zeta. destruct (sigprop_some nc ltac:(lia)) as [prop Hprop].
  destruct (lookup_lt_is_Some_2 (u_signal (u s)) (Z.to_nat nc)) as [h Hh]; [rewrite (d_len _ _ Hd); lia|].
  rewrite (bind_done _ _ _ _ _ (Sig.setp_put_eq _ _ _ _ Hr)). cbv beta.
  set (r1 := r <| p_sigcatch ::= λ f, clrf f (sigmask nc) |>).
  assert (Hpo : sigprop_of nc (Sig.put s p r1) = Done prop (Sig.put s p r1)).
  { unfold sigprop_of. replace (nc <? 0) with false by lia. by rewrite Hprop. }
  rewrite (bind_done _ _ _ _ _ Hpo). cbv beta.
  assert (Hw : when (has prop SA_IGNORE)
        (when (negb (nc =? SIGCONT)) (setp p (λ r, r <| p_sigignore ::= λ f, setf f (sigmask nc) |>)) ;;
         setp p (λ r, r <| p_sig ::= λ f, clrf f (sigmask nc) |>)) (Sig.put s p r1) =
    Done tt (Sig.put s p (exec_rec r nc prop))).
  { unfold exec_rec. fold r1. destruct (has prop SA_IGNORE); [|done]. cbn [when].
    rewrite (bind_done _ _ _ _ _ (Sig.when_setp _ _ _ _ _ (Sig.put_lookup _ _ _))), Sig.put_put. cbv beta.
    by rewrite Sig.setp_put. }
  rewrite (bind_done _ _ _ _ _ Hw). kstep.
  change (u_signal (u (Sig.put s p (exec_rec r nc prop)))) with (u_signal (u s)).
  rewrite Hh. cbn [unless_none]. kstep. kstep.
  apply (IH (nc + 1) _ (exec_rec r nc prop)).
  - done.
  - apply Sig.put_lookup.
  - eapply (exec_rec_ok r (u s) _ nc prop h Hd); [lia|exact Hc|exact Hh|exact Hprop|reflexivity|reflexivity].
  - lia.
  - lia.
  - intros k Hk. replace (p_sigcatch (exec_rec r nc prop)) with (clrf (p_sigcatch r) (sigmask nc))
      by (unfold exec_rec; by repeat case_match).
    rewrite has_clrf_sigmask by lia. destruct (Z.eqb_spec k nc) as [->|]; [by rewrite andb_false_r|].
    rewrite andb_true_r. destruct (Z.lt_ge_cases k i); [apply Hlow; lia|].
    rewrite Sig.has_sigmask by lia. apply Hl. lia.
Qed.

(** The calls that change dispositions and masks. *)
Inductive sigcall := Sigaction | Sigprocmask | Execsigs.
Definition run_sigcall (c : sigcall) : K unit :=
  match c with
  | Sigaction => sigaction
  | Sigprocmask => sigprocmask
  | Execsigs => p ← getu u_procp; Sig.execsigs p
  end.

(** C21: [sigaction], [sigprocmask] and [execsigs], whatever their arguments and
    user memory, return with the masks of the process table in step with the
    handlers of the user area, and SIGKILL and SIGSTOP neither caught, ignored
    nor masked. *)
Theorem dispositions_kept c s a0 a1 a2 a3 rest :
  cur_ok s → u_arg (u s) = a0 :: a1 :: a2 :: a3 :: rest →
  ∃ s', run_sigcall c s = Done tt s' ∧ cur_ok s'.
Proof.
  intros Hok Harg. destruct c; cbn [run_sigcall].
  - by eapply sigaction_keeps.
  - by eapply sigprocmask_keeps.
  - destruct Hok as (r & Hr & Hd). kstep. unfold Sig.execsigs.
    destruct (execsigs_loop_keeps 32 1 s (u_procp (u s)) r) as (s1 & r1 & E & Ep & Hr1 & Hd1 & _);
      [done|done|done|lia|lia|intros; lia|].
    rewrite (bind_done _ _ _ _ _ E). do 3 kstep. eexists. split; [apply setu_eq|].
    exists r1. simpl. rewrite Ep. split; [done|]. by eapply disp_ok_ext; [..|exact Hd1].
Qed.
(** * sigwait and the other signals *)

(** A signal that would interrupt a sleep is pending, and none of those waited
    for is. *)
Record distracted (p : nat) (wanted : Z) (s : kstate) : Prop := {
  ds_cur : u_procp (u s) = p;
  ds_panic : panicstr s = false;
  ds_len : length (u_signal (u s)) = 32%nat;
  ds_rec : ∃ r v, procs s !! p = Some r ∧ p_stat r = SRUN ∧ has (p_flag r) P_TRACED = false ∧
    has (p_flag r) P_TIMEOUT = false ∧ 0 <= p_sig r < 2 ^ 31 ∧ Z.land wanted (p_sig r) = 0 ∧
    1 <= v < 32 ∧ Sig.pending r v = true ∧ Sig.deliverable r (u_signal (u s)) v = true ∧
    ∀ k, 1 <= k < 32 → Sig.pending r k = true → Sig.stops r (u_signal (u s)) k = false;
}.

Lemma unsleep_find_head fuel h p s :
  slpque s !! h = Some p → Sched.unsleep_find fuel h p None s = Done None s.
Proof.
  intros E. assert (Eg : Sched.get_slink h None s = Done (Some p) s).
  { cbn [Sched.get_slink]. by rewrite gets_eq, E. }
  destruct fuel; cbn [Sched.unsleep_find]; rewrite (bind_done _ _ _ _ _ Eg); by rewrite decide_True.
Qed.

(** The record and state in the middle of [tsleep], and after. *)
Definition sleepy (s : kstate) (r : proc) (ident : wchan) (pri : Z) : proc :=
  Clock.enqueued s r ident pri <| p_flag ::= λ f, setf f P_SINTR |>.

Lemma pending_flag r r' f :
  p_sig r' = f → p_sigmask r' = p_sigmask r → has (p_flag r') SVFORK = has (p_flag r) SVFORK →
  (∀ j, 0 <= j → Z.testbit f j = true → Z.testbit (p_sig r) j = true) → ∀ k, 1 <= k →
  Sig.pending r' k = Z.testbit f (k - 1) && Sig.pending r k.
Proof.
  intros Es Em Ef Hsub k Hk. unfold Sig.pending, Sig.pending_mask. rewrite Es, Em, Ef.
  pose proof (Hsub (k - 1) ltac:(lia)) as Hs.
  destruct (has (p_flag r) SVFORK); rewrite !Sig.clrf_bit; destruct (Z.testbit f (k - 1)); simpl; try done;
    by rewrite Hs.
Qed.

(** The process table and the sleep queues in the middle of [tsleep]. *)
Definition put_slp (s : kstate) (p : nat) (r : proc) (h : Z) : kstate :=
  Sig.put s p r <| slpque ::= <[h := p]> |>.
Lemma put_slp_lookup s p r h : procs (put_slp s p r h) !! p = Some r.
Proof. apply Sig.put_lookup. Qed.
Lemma put_slp_put s p r r' h : Sig.put (put_slp s p r h) p r' = put_slp s p r' h.
Proof. unfold put_slp, Sig.put, upd. simpl. by rewrite insert_insert_eq. Qed.
Lemma setp_put_slp s p r h f : setp p f (put_slp s p r h) = Done tt (put_slp s p (f r) h).
Proof. rewrite (Sig.setp_put_eq _ _ _ _ (put_slp_lookup s p r h)). by rewrite put_slp_put. Qed.

(** Taking the process at the head of its sleep queue off it. *)
Lemma unsleep_head s p r ident :
  p_wchan r = Some ident → p_link r = slpque s !! Sched.HASH ident →
  Sched.unsleep p (put_slp s p r (Sched.HASH ident)) = Done tt (Sig.put s p (r <| p_wchan := None |>)).
Proof.
  intros Ew El. unfold Sched.unsleep. set (h := Sched.HASH ident) in *.
  rewrite (bind_done _ _ _ _ _ (getp_eq _ _ _ (put_slp_lookup s p r h))). cbv beta. rewrite Ew. cbv iota.
  rewrite (bind_done _ _ _ _ _ (get_s_eq _)). cbv beta. fold h.
  assert (Eh : slpque (put_slp s p r h) !! h = Some p) by (apply lookup_insert_eq).
  rewrite (bind_done _ _ _ _ _ (unsleep_find_head _ _ _ _ Eh)). cbv beta.
  rewrite (bind_done _ _ _ _ _ (getp_eq _ _ _ (put_slp_lookup s p r h))). cbv beta. cbn [Sched.set_slink].
  rewrite (bind_done _ _ _ _ _ (modify_eq _ _)). cbv beta. rewrite El.
  assert (E : upd slpque (partial_alter (λ _, slpque s !! h) h) (put_slp s p r h) = Sig.put s p r).
  { unfold put_slp, Sig.put, upd. simpl. f_equal. apply map_eq. intros k. destruct (decide (k = h)) as [->|Hk].
    - by rewrite lookup_partial_alter_eq.
    - by rewrite lookup_partial_alter_ne, lookup_insert_ne. }
  rewrite E. apply Sig.setp_put.
Qed.

Lemma tsleep_enqueue_put p ident pri s r :
  procs s !! p = Some r → Clock.tsleep_enqueue p ident pri 0 s =
    Done tt (put_slp s p (Clock.enqueued s r ident pri) (Sched.HASH ident)).
Proof.
  intros Hr. unfold Clock.tsleep_enqueue. rewrite (bind_done _ _ _ _ _ (Sig.setp_put_eq _ _ _ _ Hr)). cbv beta.
  do 2 (rewrite (bind_done _ _ _ _ _ (Sig.setp_put _ _ _ _)); cbv beta). rewrite (bind_done _ _ _ _ _ (get_s_eq _)).
  cbv beta. rewrite (bind_done _ _ _ _ _ (Sig.setp_put _ _ _ _)). cbv beta.
  by rewrite (bind_done _ _ _ _ _ (modify_eq _ _)).
Qed.

(** A signal that is pending lets [CURSIG] through to [issignal]. *)
Lemma cursig_pending p s r k :
  procs s !! p = Some r → 1 <= k → Sig.pending r k = true →
  Z.testbit (p_sig r) (k - 1) = true ∧ Sig.CURSIG p s = Sig.issignal p s.
Proof.
  intros Hr Hk Hp.
  assert (Hb : Z.testbit (p_sig r) (k - 1) = true).
  { unfold Sig.pending, Sig.pending_mask in Hp. destruct (has (p_flag r) SVFORK); rewrite !Sig.clrf_bit in Hp;
      by destruct (Z.testbit (p_sig r) (k - 1)). }
  split; [done|]. unfold Sig.CURSIG. rewrite (bind_done _ _ _ _ _ (getp_eq _ _ _ Hr)). cbv beta.
  replace (_ || _) with false; [done|]. symmetry.
  assert (Hne : clrf (p_sig r) (p_sigmask r) ≠ 0).
  { intros E0. apply (f_equal (λ z, Z.testbit z (k - 1))) in E0. rewrite Z.bits_0 in E0.
    unfold Sig.pending, Sig.pending_mask in Hp.
    destruct (has (p_flag r) SVFORK); [rewrite Sig.clrf_bit, E0 in Hp|rewrite E0 in Hp]; done. }
  rewrite (proj2 (Z.eqb_neq _ _) Hne), andb_false_r, orb_false_r. apply Z.eqb_neq.
  intros E0. rewrite E0, Z.bits_0 in Hb. done.
Qed.

(** An interruptible [tsleep] that finds a signal to take returns at once, having
    taken the process off its queue again; [f] is what is left of the signals. *)
Definition awake (r : proc) (f : Z) : proc :=
  r <| p_sig := f |> <| p_wchan := None |> <| p_stat := SRUN |> <| p_flag ::= λ f, clrf f P_SINTR |>.
Lemma tsleep_interrupted p s r ident pri v f :
  u_procp (u s) = p → panicstr s = false → procs s !! p = Some r → p_stat r = SRUN →
  has (p_flag r) P_TIMEOUT = false → has pri PCATCH = true → v ≠ 0 →
  Sig.CURSIG p (put_slp s p (sleepy s r ident pri) (Sched.HASH ident)) =
    Done v (put_slp s p (sleepy s r ident pri <| p_sig := f |>) (Sched.HASH ident)) →
  ∃ e, Clock.tsleep ident pri 0 s = Done e (Sig.put s p (awake (sleepy s r ident pri) f)).
Proof.
  intros Hcur Hpan Hr Hst Hto Hcatch Hv Hcs. set (r1 := sleepy s r ident pri) in *.
  exists (if has (u_sigintr (u s)) (sigmask v) then EINTR else ERESTART).
  unfold Clock.tsleep. rewrite (bind_done _ _ _ _ _ (getu_eq _ _)), Hcur. cbv zeta.
  rewrite (bind_done _ _ _ _ _ (get_s_eq _)), Hpan. cbv beta iota.
  rewrite (bind_done _ _ _ _ _ (getp_eq _ _ _ Hr)). cbv beta. rewrite Hst. cbn [Z.eqb Pos.eqb SRUN negb].
  rewrite andb_false_r. cbn [when].
  rewrite (bind_done _ _ _ _ _ (mret_eq _ _)), (bind_done _ _ _ _ _ (tsleep_enqueue_put _ _ _ _ _ Hr)).
  cbv beta. rewrite Hcatch, (bind_done _ _ _ _ _ (setp_put_slp _ _ _ _ _)). cbv beta.
  fold (sleepy s r ident pri). fold r1. rewrite (bind_done _ _ _ _ _ Hcs). cbv beta.
  rewrite (bind_done _ _ _ _ _ (getp_eq _ _ _ (put_slp_lookup _ _ _ _))). cbv beta.
  rewrite (proj2 (Z.eqb_neq _ _) Hv). cbn [negb]. rewrite bool_decide_false by done. cbn [negb when].
  assert (Hun : Sched.unsleep p (put_slp s p (r1 <| p_sig := f |>) (Sched.HASH ident)) =
    Done tt (Sig.put s p (r1 <| p_sig := f |> <| p_wchan := None |>))) by (by apply unsleep_head).
  rewrite (bind_done _ _ _ _ _ Hun). cbv beta.
  rewrite (bind_done _ _ _ _ _ (Sig.setp_put _ _ _ _)). cbv beta. unfold Clock.tsleep_resume.
  rewrite (bind_done _ _ _ _ _ (Sig.setp_put _ _ _ _)). cbv beta. fold (awake r1 f).
  rewrite (bind_done _ _ _ _ _ (getp_eq _ _ _ (Sig.put_lookup s p (awake r1 f)))). cbv beta zeta.
  assert (Et4 : has (p_flag (awake r1 f)) P_TIMEOUT = false).
  { change (p_flag (awake r1 f)) with (clrf (setf (p_flag r) P_SINTR) P_SINTR).
    apply has_clrf_mono. by rewrite has_setf. }
  rewrite Et4. cbn [when negb Z.eqb andb]. rewrite (bind_done _ _ _ _ _ (mret_eq _ _)). cbv beta iota.
  rewrite (proj2 (Z.eqb_neq _ _) Hv). cbn [negb]. rewrite (bind_done _ _ _ _ _ (mret_eq _ _)). cbv beta iota.
  rewrite (proj2 (Z.eqb_neq _ _) Hv). by rewrite (bind_done _ _ _ _ _ (getu_eq _ _)).
Qed.

Lemma land_sub_bits f g :
  (∀ j, 0 <= j → Z.testbit f j = true → Z.testbit g j = true) → Z.land f g = f.
Proof.
  intros Hsub. apply Z.bits_inj'. intros j Hj. rewrite Z.land_spec. pose proof (Hsub j Hj).
  destruct (Z.testbit f j); simpl; auto.
Qed.

Lemma sleepy_pending s r ident pri k : 1 <= k → Sig.pending (sleepy s r ident pri) k = Sig.pending r k.
Proof.
  intros Hk. rewrite (pending_flag r (sleepy s r ident pri) (p_sig r)); [|done|done|by apply has_setf|done|done].
  unfold Sig.pending, Sig.pending_mask. destruct (has (p_flag r) SVFORK); rewrite ?Sig.clrf_bit;
    by destruct (Z.testbit (p_sig r) (k - 1)).
Qed.

(** The signal [CURSIG] finds and the signals it leaves. *)
Lemma distracted_cursig p s r v ident pri :
  (32 <= sig_passes)%nat → length (u_signal (u s)) = 32%nat → procs s !! p = Some r →
  has (p_flag r) P_TRACED = false → 0 <= p_sig r < 2 ^ 31 →
  1 <= v < 32 → Sig.pending r v = true → Sig.deliverable r (u_signal (u s)) v = true →
  (∀ k, 1 <= k < 32 → Sig.pending r k = true → Sig.stops r (u_signal (u s)) k = false) →
  ∃ v' f, Sig.CURSIG p (put_slp s p (sleepy s r ident pri) (Sched.HASH ident)) =
      Done v' (put_slp s p (sleepy s r ident pri <| p_sig := f |>) (Sched.HASH ident)) ∧
    1 <= v' < 32 ∧ Sig.pending r v' = true ∧ Sig.deliverable r (u_signal (u s)) v' = true ∧
    Z.testbit f (v' - 1) = true ∧ Z.land f (p_sig r) = f.
Proof.
  intros Hpass Hlen Hr Htr Hrg Hv Hpend Hdel Hstops. set (r1 := sleepy s r ident pri).
  set (s1 := put_slp s p r1 (Sched.HASH ident)).
  assert (Hr1 : procs s1 !! p = Some r1) by (apply put_slp_lookup).
  assert (Hsame : ∀ k, 1 <= k → Sig.pending r1 k = Sig.pending r k) by (intros; by apply sleepy_pending).
  assert (Htr1 : has (p_flag r1) P_TRACED = false) by (subst r1; simpl; by rewrite has_setf).
  destruct (Sig.issignal_first_spec p s1 r1 Hr1 Htr1 Hlen Hrg Hpass) as (v' & f & Ei & Hv' & Hgot & Hnone & Hf).
  { intros k Hk Hp. rewrite Hsame in Hp by lia. by apply Hstops. }
  assert (Hv0 : v' ≠ 0).
  { intros ->. specialize (Hnone v Hv ltac:(by left)). rewrite Hsame in Hnone by lia.
    change (Sig.deliverable r1 (u_signal (u s1)) v) with (Sig.deliverable r (u_signal (u s)) v) in Hnone.
    rewrite Hnone in Hdel; done. }
  destruct (Hgot Hv0) as [Hpv Hdv].
  destruct (cursig_pending p s1 r1 v' Hr1 ltac:(lia) Hpv) as [Hbitv Hcs]. rewrite Hsame in Hpv by lia.
  exists v', f. split; [rewrite Hcs, Ei; f_equal; apply put_slp_put|]. split; [lia|]. split; [done|].
  split; [exact Hdv|]. split.
  - rewrite Hf by lia. replace (v' - 1 + 1) with v' by lia.
    replace ((v' =? 0) || (v' <? v')) with false by lia. rewrite andb_false_r, andb_true_r. exact Hbitv.
  - apply land_sub_bits. intros j Hj Hb. rewrite Hf in Hb by done. by apply andb_prop in Hb as [Hb _].
Qed.

Lemma tsleep_distracted p wanted s ident pri :
  (32 <= sig_passes)%nat → has pri PCATCH = true → distracted p wanted s →
  ∃ e s', Clock.tsleep ident pri 0 s = Done e s' ∧ distracted p wanted s'.
Proof.
  intros Hpass Hcatch [Hcur Hpan Hlen (r & v & Hr & Hst & Htr & Hto & Hrg & Hw & Hv & Hpend & Hdel & Hstops)].
  destruct (distracted_cursig p s r v ident pri) as
    (v' & f & Hcs & Hv' & Hpv & Hdv & Hbitf & Hfl); [done..|].
  destruct (tsleep_interrupted p s r ident pri v' f) as [e E]; [done..|lia|done|].
  exists e, (Sig.put s p (awake (sleepy s r ident pri) f)). split; [exact E|]. clear E Hcs.
  set (r4 := awake (sleepy s r ident pri) f).
  assert (Hflag : p_flag r4 = clrf (setf (p_flag r) P_SINTR) P_SINTR) by done.
  assert (Hsub : ∀ j, 0 <= j → Z.testbit f j = true → Z.testbit (p_sig r) j = true).
  { intros j Hj Hb. rewrite <- Hfl, Z.land_spec in Hb. by apply andb_prop in Hb as [_ Hb]. }
  assert (Hp4 : ∀ k, 1 <= k → Sig.pending r4 k = Z.testbit f (k - 1) && Sig.pending r k).
  { apply pending_flag; [done|done| |exact Hsub]. rewrite Hflag.
    rewrite has_clrf_disj by done. by apply has_setf. }
  split; [done|done|done|]. exists r4, v'. split; [apply Sig.put_lookup|]. split; [done|]. rewrite Hflag.
  split; [apply has_clrf_mono; by rewrite has_setf|]. split; [apply has_clrf_mono; by rewrite has_setf|].
  change (p_sig r4) with f. split; [|split; [|split; [lia|split; [|split; [exact Hdv|]]]]].
  - assert (E1 : p_sig r = Z.land (p_sig r) (Z.ones 31)).
    { rewrite Z.land_ones by lia. by rewrite Z.mod_small by lia. }
    rewrite <- Hfl, E1, Z.land_assoc, Z.land_ones by lia. apply Z.mod_pos_bound. lia.
  - rewrite <- Hfl, (Z.land_comm f), Z.land_assoc, Hw. done.
  - by rewrite Hp4, Hbitf by lia.
  - intros k Hk Hpk. rewrite Hp4 in Hpk by lia. apply andb_prop in Hpk as [_ Hpk].
    exact (Hstops k Hk Hpk).
Qed.

(** C39: [sigwait] hangs the processor when a signal it does not wait for is
    pending and would be taken: [tsleep] returns at once, without giving up the
    processor, and the loop looks again, for ever. *)
Theorem sigwait_spins p wanted s :
  (32 <= sig_passes)%nat → distracted p wanted s →
  ∀ fuel, sigwait_loop fuel p wanted s = NoFuel.
Proof.
  intros Hpass Hd fuel. revert s Hd. induction fuel as [|fuel IH]; intros s Hd;
    destruct (ds_rec _ _ _ Hd) as (r & v & Hr & _ & _ & _ & _ & Hw & _);
    cbn [sigwait_loop]; rewrite (bind_done _ _ _ _ _ (getp_eq _ _ _ Hr)); cbv beta zeta; rewrite Hw; cbn [Z.eqb negb].
  - done.
  - destruct (tsleep_distracted p wanted s (WChan "u_signal" 0) (Z.lor PPAUSE PCATCH) Hpass eq_refl Hd) as
      (e & s' & E & Hd'). rewrite (bind_done _ _ _ _ _ E). by apply IH.
Qed.
End sig2.

(** * Witnesses *)

Definition disp_example_proc : proc :=
  proc0 <| p_stat := SRUN |> <| p_pid := 5 |>
    <| p_sigignore := Z.lor (sigmask 16) (Z.lor (sigmask 20) (Z.lor (sigmask 23)
         (Z.lor (sigmask 28) (sigmask 29)))) |>.
Definition disp_example : kstate :=
  kstate0 <| procs := {[ 0%nat := disp_example_proc ]} |>
    <| u ::= λ r, r <| u_arg := [15; 0x2000000; 0; 0; 0; 0] |> |>
    <| umem := ustore ∅ 0x2000000 (mbind word_bytes [4096; 0x10000; 0]) |>.
Lemma disp_example_ok : cur_ok disp_example.
Proof.
  exists disp_example_proc. split; [reflexivity|]. split.
  - reflexivity.
  - reflexivity.
  - vm_compute. split; [discriminate|reflexivity].
  - reflexivity.
  - exact (Forall_replicate (λ m, has m sigcantmask = false) 32 0 eq_refl).
  - intros k h Hk Hh.
    assert (h = SIG_DFL) as ->.
    { apply list_elem_of_lookup_2 in Hh. revert Hh. simpl. repeat (rewrite elem_of_cons). rewrite elem_of_nil. tauto. }
    simpl. change (p_sigcatch disp_example_proc) with 0. unfold has. by rewrite Z.land_0_l.
  - intros k h prop Hk Hh. assert (h = SIG_DFL) as ->.
    { apply list_elem_of_lookup_2 in Hh. revert Hh. simpl. repeat (rewrite elem_of_cons). rewrite elem_of_nil. tauto. }
    clear Hh. assert (Hin : k ∈ seqZ 1 31) by (apply elem_of_seqZ; lia). clear Hk. revert prop.
    revert k Hin. refine (proj1 (Forall_forall _ _) _).
    let l := eval vm_compute in (seqZ 1 31) in change (seqZ 1 31) with l.
    repeat (apply Forall_cons; split); try (by apply Forall_nil).
    all: intros prop [= <-]; reflexivity.
  - by split.
Defined.

Lemma dispositions_kept_witness :
  ∃ s', run_sigcall (H0 := Sched.layout1) Sigaction disp_example = Done tt s' ∧ cur_ok s'.
Proof.
  exact (dispositions_kept (H0 := Sched.layout1) Sigaction disp_example 15 0x2000000 0 0
    [0; 0] disp_example_ok eq_refl).
Defined.

Definition spin_proc : proc := proc0 <| p_stat := SRUN |> <| p_pid := 5 |> <| p_sig := sigmask 15 |>.
Lemma sigwait_spins_witness :
  sigwait_loop (H := gba_cfg) (H0 := Sched.layout1) (H1 := Sig.sig_env0) 1000 0 (sigmask 14)
    (kstate0 <| procs := {[ 0%nat := spin_proc ]} |>) = NoFuel.
Proof.
  apply (sigwait_spins (H := gba_cfg) (H0 := Sched.layout1) (H1 := Sig.sig_env0) 0 (sigmask 14)
    (kstate0 <| procs := {[ 0%nat := spin_proc ]} |>)).
  - simpl. lia.
  - split; [reflexivity|reflexivity|reflexivity|]. exists spin_proc, 15.
    split; [reflexivity|]. split; [reflexivity|]. split; [reflexivity|]. split; [reflexivity|].
    split; [vm_compute; split; [discriminate|reflexivity]|]. split; [reflexivity|]. split; [lia|].
    split; [reflexivity|]. split; [reflexivity|]. intros k Hk.
    assert (Hin : k ∈ seqZ 1 31) by (apply elem_of_seqZ; lia). clear Hk. revert k Hin.
    refine (proj1 (Forall_forall _ _) _).
    let l := eval vm_compute in (seqZ 1 31) in change (seqZ 1 31) with l.
    repeat (apply Forall_cons; split); try (by apply Forall_nil).
    all: vm_compute; intros; congruence.
Defined.
End Sig2.
