(* ===== verification/Ring.v ===== *)
(** Circular doubly linked lists with a head: what the buffer cache's hash
    chains and free lists have in common. [F] and [B] read a cell's forward and
    backward links; [L] gives the members of each head's list. *)
From stdpp Require Import functions.
From S2P Require Import Prelude.

Lemma nodup_bind {A Q} (f : A → list Q) (l : list A) :
  NoDup (l ≫= f) → (∀ a, a ∈ l → NoDup (f a)) ∧
  ∀ i j a b k, l !! i = Some a → l !! j = Some b → k ∈ f a → k ∈ f b → i = j.
Proof.
  induction l as [|a l IH]; simpl; [intros _; split; [by intros ? ?%elem_of_nil|done]|].
  intros (Ha & Hd & Hl)%NoDup_app. destruct (IH Hl) as [IH1 IH2].
  assert (Hout : ∀ k j b, k ∈ f a → l !! j = Some b → k ∈ f b → False).
  { intros k j b Hk Hj Hb. apply (Hd k Hk). apply list_elem_of_bind. exists b. split; [done|].
    by eapply list_elem_of_lookup_2. }
  split.
  - intros b [->|Hb]%elem_of_cons; auto.
  - intros [|i] [|j] b c k Hb Hc Hkb Hkc; simplify_eq/=; [done| | |f_equal; by eapply IH2].
    + by destruct (Hout k j c).
    + by destruct (Hout k i b).
Qed.

Section ring.
Context {P : Type} `{EqDecision P}.
Implicit Types (F B : P → option P) (L : P → list P) (a h k n p x z : P) (l heads : list P).

(** Following [F] from [a] spells [l] and ends at [z]; [B] leads back. *)
Fixpoint path F B a l z : Prop :=
  match l with
  | [] => F a = Some z ∧ B z = Some a
  | x :: l' => F a = Some x ∧ B x = Some a ∧ path F B x l' z
  end.

Lemma path_app F B a l1 x l2 z :
  path F B a (l1 ++ x :: l2) z ↔ path F B a l1 x ∧ path F B x l2 z.
Proof. revert a. induction l1 as [|y l1 IH]; intros a; simpl; [tauto|]. rewrite IH. tauto. Qed.

Lemma path_first F B a l z : path F B a l z → F a = Some (List.hd z l).
Proof. destruct l; simpl; tauto. Qed.
Lemma path_last F B a l z : path F B a l z → B z = Some (List.last l a).
Proof.
  destruct l as [|x l _] using rev_ind; simpl; [tauto|]. rewrite path_app, List.last_last. simpl. tauto.
Qed.

Lemma path_ext F F' B B' a l z :
  (∀ k, k ∈ a :: l → F' k = F k) → (∀ k, k ∈ z :: l → B' k = B k) →
  path F B a l z → path F' B' a l z.
Proof.
  revert a. induction l as [|x l IH]; intros a HF HB; simpl.
  - rewrite HF, HB by set_solver. done.
  - intros (E1 & E2 & Hp). rewrite HF, HB by set_solver. split; [done|]. split; [done|].
    apply IH; [set_solver..|done].
Qed.

Lemma last_in l a : List.last l a ∈ a :: l.
Proof.
  destruct l as [|x l _] using rev_ind; simpl; [set_solver|]. rewrite List.last_last. set_solver.
Qed.
Lemma hd_in l z : List.hd z l ∈ z :: l.
Proof. destruct l; simpl; set_solver. Qed.

(** Unlinking [x]: its neighbours are joined. *)
Lemma path_remove F B F' B' a l1 x l2 z :
  let p := List.last l1 a in let n := List.hd z l2 in
  path F B a (l1 ++ x :: l2) z → NoDup (a :: l1 ++ x :: l2) → NoDup (z :: l1 ++ x :: l2) →
  (∀ k, k ≠ x → F' k = <[p := Some n]> F k) → (∀ k, k ≠ x → B' k = <[n := Some p]> B k) →
  path F' B' a (l1 ++ l2) z.
Proof.
  intros p n [H1 H2]%path_app Ha Hz HF HB.
  apply NoDup_cons in Ha as [Ha Hnd]. apply NoDup_cons in Hz as [Hz _].
  apply NoDup_app in Hnd as (Hl1 & Hd & [Hx Hl2]%NoDup_cons).
  rewrite elem_of_app, elem_of_cons in Ha, Hz.
  assert (Hx1 : x ∉ l1) by (intros Hk; apply (Hd x Hk), elem_of_cons; by left).
  assert (Hd2 : ∀ k, k ∈ l1 → k ∉ l2) by (intros k Hk Hk2; apply (Hd k Hk), elem_of_cons; by right).
  clear Hd. pose proof (last_in l1 a) as Hp. pose proof (hd_in l2 z) as Hn. fold p in Hp. fold n in Hn.
  rewrite elem_of_cons in Hp, Hn.
  assert (Hpx : p ≠ x) by (intros ->; destruct Hp as [->|]; tauto).
  assert (Hnx : n ≠ x) by (intros ->; destruct Hn as [->|]; tauto).
  assert (Fp : F' p = Some n) by (rewrite HF by done; by rewrite fn_lookup_insert).
  assert (Bn : B' n = Some p) by (rewrite HB by done; by rewrite fn_lookup_insert).
  assert (HF' : ∀ k, k ≠ x → k ≠ p → F' k = F k)
    by (intros; rewrite HF by done; by rewrite fn_lookup_insert_ne).
  assert (HB' : ∀ k, k ≠ x → k ≠ n → B' k = B k)
    by (intros; rewrite HB by done; by rewrite fn_lookup_insert_ne).
  (* the second half, from [p] *)
  assert (Hr : path F' B' p l2 z).
  { destruct l2 as [|y l2]; simpl in *; [done|]. destruct H2 as (_ & _ & H2).
    split; [done|]. split; [done|]. apply NoDup_cons in Hl2 as [Hy _].
    eapply path_ext; [..|exact H2]; intros k Hk.
    - apply HF'; intros ->; [done|]. destruct Hp as [->|Hp]; [tauto|by apply (Hd2 p)].
    - rewrite elem_of_cons in Hk, Hx, Hz. apply HB'; intros ->; [|subst n]; destruct Hk as [->|]; tauto. }
  destruct l1 as [|y l1 _] using rev_ind; simpl; [exact Hr|].
  subst p. rewrite List.last_last in *. rewrite <- app_assoc. simpl. apply path_app.
  split; [|exact Hr]. apply path_app in H1 as [H1 _]. apply NoDup_app in Hl1 as (_ & Hd1 & _).
  rewrite elem_of_app, elem_of_cons in Ha, Hz, Hx1.
  eapply path_ext; [..|exact H1]; intros k Hk; rewrite elem_of_cons in Hk.
  - apply HF'; intros ->; destruct Hk as [->|Hk]; try tauto. apply (Hd1 y Hk). set_solver.
  - assert (Hnin : n ∉ y :: l1).
    { intros Hk'. destruct Hn as [->|Hn]; [rewrite elem_of_cons in Hk'; tauto|].
      apply (Hd2 n); [|done]. rewrite elem_of_app, elem_of_cons. rewrite elem_of_cons in Hk'. tauto. }
    rewrite elem_of_cons in Hnin. apply HB'; intros ->; [|tauto]. destruct Hk as [->|]; tauto.
Qed.

(** Linking [x] in between [l1] and [l2]. *)
Lemma path_insert F B F' B' a l1 x l2 z :
  let p := List.last l1 a in let n := List.hd z l2 in
  path F B a (l1 ++ l2) z → NoDup (a :: l1 ++ l2) → NoDup (z :: l1 ++ l2) →
  x ≠ a → x ≠ z → x ∉ l1 ++ l2 →
  F' x = Some n → F' p = Some x → B' x = Some p → B' n = Some x →
  (∀ k, k ≠ x → k ≠ p → F' k = F k) → (∀ k, k ≠ x → k ≠ n → B' k = B k) →
  path F' B' a (l1 ++ x :: l2) z.
Proof.
  intros p n H Ha Hz Hxa Hxz Hx Fx Fp Bx Bn HF HB. apply path_app.
  apply NoDup_cons in Ha as [Ha Hnd]. apply NoDup_cons in Hz as [Hz _].
  apply NoDup_app in Hnd as (Hl1 & Hd & Hl2). rewrite elem_of_app in Ha, Hz, Hx.
  pose proof (last_in l1 a) as Hp. pose proof (hd_in l2 z) as Hn. fold p in Hp. fold n in Hn.
  rewrite elem_of_cons in Hp, Hn. split.
  - destruct l1 as [|y l1 _] using rev_ind; simpl; [done|].
    subst p. rewrite List.last_last in *. apply path_app. rewrite <- app_assoc in H. apply path_app in H as [H _].
    apply NoDup_app in Hl1 as (_ & Hd1 & _). split; [|done].
    assert (Hy : y ∉ l1) by (intros Hk; apply (Hd1 y Hk), elem_of_cons; by left).
    assert (Hnd : n ∉ l1 ++ [y]) by (intros Hk; destruct Hn as [->|Hn]; [tauto|by apply (Hd n)]).
    rewrite elem_of_app, list_elem_of_singleton in Ha, Hz, Hx, Hnd.
    eapply path_ext; [..|exact H]; intros k Hk; rewrite elem_of_cons in Hk;
      [apply HF|apply HB]; intros ->; destruct Hk as [->|]; tauto.
  - destruct l2 as [|y l2]; simpl in *; [done|]. subst n. split; [done|]. split; [done|].
    apply NoDup_cons in Hl2 as [Hy Hl2]. assert (H2 : path F B y l2 z) by (apply path_app in H; tauto).
    assert (Hpd : p ∉ y :: l2) by (intros Hk; destruct Hp as [->|Hp]; [tauto|by apply (Hd p)]).
    rewrite elem_of_cons in Ha, Hz, Hx, Hpd.
    eapply path_ext; [..|exact H2]; intros k Hk; rewrite elem_of_cons in Hk;
      [apply HF|apply HB]; intros ->; destruct Hk as [->|]; tauto.
Qed.

(** The lists of several heads, without a cell in common. *)
Record rings F B heads L : Prop := {
  rg_path : ∀ h, h ∈ heads → path F B h (L h) h;
  rg_nodup : ∀ h, h ∈ heads → NoDup (h :: L h);
  rg_disj : ∀ h1 h2 k, h1 ∈ heads → h2 ∈ heads → k ∈ h1 :: L h1 → k ∈ h2 :: L h2 → h1 = h2;
}.
Definition on_ring heads L k : Prop := ∃ h, h ∈ heads ∧ k ∈ h :: L h.

(** Links off the rings do not matter. *)
Lemma rings_ext F B F' B' heads L :
  (∀ k, on_ring heads L k → F' k = F k ∧ B' k = B k) → rings F B heads L → rings F' B' heads L.
Proof.
  intros Hag [H1 H2 H3]. split; [|done|done]. intros h Hh.
  eapply path_ext; [..|by apply H1]; intros k Hk; apply Hag; by exists h.
Qed.

Lemma rings_replace F B F' B' heads L h l :
  rings F B heads L → h ∈ heads → path F' B' h l h → NoDup (h :: l) →
  (∀ k, k ∈ l → k ∈ L h ∨ ¬ on_ring heads L k) →
  (∀ k, on_ring heads L k → k ∉ h :: L h → F' k = F k ∧ B' k = B k) →
  rings F' B' heads (<[h := l]> L).
Proof.
  intros [H1 H2 H3] Hh Hl Hnd Hin Hag.
  assert (Hcase : ∀ h', <[h := l]> L h' = if decide (h' = h) then l else L h').
  { intros h'. destruct (decide (h' = h)) as [->|]; [by rewrite fn_lookup_insert|by rewrite fn_lookup_insert_ne]. }
  assert (Hout : ∀ h' k, h' ∈ heads → h' ≠ h → k ∈ h' :: L h' → k ∉ h :: l).
  { intros h' k Hh' Hne Hk. intros [->|Hkl]%elem_of_cons.
    - apply Hne. eapply H3; [done|done|exact Hk|set_solver].
    - destruct (Hin k Hkl) as [HkL|Hno]; [|by destruct Hno; exists h'].
      apply Hne. eapply H3; [done|done|exact Hk|set_solver]. }
  split.
  - intros h' Hh'. rewrite Hcase. case_decide as E; [by subst|].
    eapply path_ext; [..|by apply H1]; intros k Hk; apply Hag; try (by exists h');
      intros Hk'; apply E; by eapply H3.
  - intros h' Hh'. rewrite Hcase. case_decide; subst; auto.
  - intros h1 h2 k Hh1 Hh2. rewrite !Hcase. destruct (decide (h1 = h)) as [->|], (decide (h2 = h)) as [->|];
      intros Hk1 Hk2; try done.
    + by destruct (Hout h2 k).
    + by destruct (Hout h1 k).
    + by eapply H3.
Qed.

Lemma rings_links F B heads L h l1 x l2 :
  rings F B heads L → h ∈ heads → L h = l1 ++ x :: l2 →
  B x = Some (List.last l1 h) ∧ F x = Some (List.hd h l2).
Proof.
  intros Hr Hh E. pose proof (rg_path _ _ _ _ Hr h Hh) as Hp. rewrite E in Hp.
  apply path_app in Hp as [Hp1 Hp2]. split; [by eapply path_last|by eapply path_first].
Qed.

(** The neighbours of a member, and what unlinking it leaves. *)
Lemma rings_neighbours F B heads L h l1 x l2 :
  let p := List.last l1 h in let n := List.hd h l2 in
  rings F B heads L → h ∈ heads → L h = l1 ++ x :: l2 →
  B x = Some p ∧ F x = Some n ∧ on_ring heads L p ∧ on_ring heads L n ∧ p ≠ x ∧ x ∉ l1 ++ l2.
Proof.
  intros p n Hr Hh E. destruct (rings_links _ _ _ _ _ _ _ _ Hr Hh E) as [Ep En].
  pose proof (rg_nodup _ _ _ _ Hr h Hh) as Hnd. rewrite E in Hnd.
  pose proof (last_in l1 h) as Hp. pose proof (hd_in l2 h) as Hn. fold p in Hp. fold n in Hn.
  rewrite elem_of_cons in Hp, Hn. apply NoDup_cons in Hnd as [Hhn Hnd].
  apply NoDup_app in Hnd as (_ & Hd & [Hx2 _]%NoDup_cons). rewrite elem_of_app, elem_of_cons in Hhn.
  assert (Hx1 : x ∉ l1) by (intros Hk; apply (Hd x Hk), elem_of_cons; by left).
  split; [done|]. split; [done|]. split; [|split; [|split]].
  - exists h. split; [done|]. rewrite E, elem_of_cons, elem_of_app. tauto.
  - exists h. split; [done|]. rewrite E, elem_of_cons, elem_of_app, elem_of_cons. tauto.
  - intros ->. destruct Hp as [->|]; tauto.
  - rewrite elem_of_app. tauto.
Qed.

Lemma rings_remove F B F' B' heads L h l1 x l2 :
  let p := List.last l1 h in let n := List.hd h l2 in
  rings F B heads L → h ∈ heads → L h = l1 ++ x :: l2 →
  (∀ k, k ≠ x → F' k = <[p := Some n]> F k) → (∀ k, k ≠ x → B' k = <[n := Some p]> B k) →
  rings F' B' heads (<[h := l1 ++ l2]> L).
Proof.
  intros p n Hr Hh E HF HB. pose proof (rg_nodup _ _ _ _ Hr h Hh) as Hnd.
  pose proof (rg_path _ _ _ _ Hr h Hh) as Hp. rewrite E in Hnd, Hp.
  assert (Hpin : p ∈ h :: L h) by (pose proof (last_in l1 h) as Hpl; fold p in Hpl; rewrite E; set_solver).
  assert (Hnin : n ∈ h :: L h) by (pose proof (hd_in l2 h) as Hnl; fold n in Hnl; rewrite E; set_solver).
  eapply rings_replace; [done|done|by eapply path_remove| | |].
  - apply NoDup_cons in Hnd as [Hn Hnd]. apply NoDup_cons. split; [set_solver|].
    apply NoDup_app in Hnd as (Hn1 & Hd & [_ Hn2]%NoDup_cons). apply NoDup_app. set_solver.
  - intros k Hk. left. rewrite E. set_solver.
  - intros k _ Hk. assert (k ≠ x) by (intros ->; apply Hk; rewrite E; set_solver).
    rewrite HF, HB by done. by rewrite !fn_lookup_insert_ne by (intros ->; done).
Qed.

Lemma rings_insert F B F' B' heads L h l1 x l2 :
  let p := List.last l1 h in let n := List.hd h l2 in
  rings F B heads L → h ∈ heads → L h = l1 ++ l2 → ¬ on_ring heads L x →
  F' x = Some n → F' p = Some x → B' x = Some p → B' n = Some x →
  (∀ k, k ≠ x → k ≠ p → F' k = F k) → (∀ k, k ≠ x → k ≠ n → B' k = B k) →
  rings F' B' heads (<[h := l1 ++ x :: l2]> L).
Proof.
  intros p n Hr Hh E Hx Fx Fp Bx Bn HF HB. pose proof (rg_nodup _ _ _ _ Hr h Hh) as Hnd.
  pose proof (rg_path _ _ _ _ Hr h Hh) as Hpt. rewrite E in Hnd, Hpt.
  assert (Hxh : x ∉ h :: L h) by (intros Hk; apply Hx; by exists h).
  assert (Hpin : p ∈ h :: L h) by (pose proof (last_in l1 h) as Hpl; fold p in Hpl; rewrite E; set_solver).
  assert (Hnin : n ∈ h :: L h) by (pose proof (hd_in l2 h) as Hnl; fold n in Hnl; rewrite E; set_solver).
  rewrite E in Hxh.
  eapply rings_replace; [done|done| | | |].
  - eapply path_insert; [done|done|done|set_solver|set_solver|set_solver|done..].
  - apply NoDup_cons in Hnd as [Hn Hnd]. apply NoDup_cons. split; [set_solver|].
    apply NoDup_app in Hnd as (Hn1 & Hd & Hn2). apply NoDup_app. split; [done|]. split; [set_solver|].
    apply NoDup_cons. set_solver.
  - intros k Hk. rewrite E. destruct (decide (k = x)) as [->|]; [by right|left; set_solver].
  - intros k Ho Hk. assert (k ≠ x) by (intros ->; done).
    rewrite HF, HB by (done || intros ->; done). done.
Qed.

(** An unlinked cell is on no ring. *)
Lemma rings_removed F B heads L h l1 x l2 :
  rings F B heads L → h ∈ heads → L h = l1 ++ x :: l2 → ¬ on_ring heads (<[h := l1 ++ l2]> L) x.
Proof.
  intros Hr Hh E (h' & Hh' & Hx).
  destruct (rings_neighbours _ _ _ _ _ _ _ _ Hr Hh E) as (_ & _ & _ & _ & _ & Hxl).
  pose proof (rg_nodup _ _ _ _ Hr h Hh) as [Hn _]%NoDup_cons.
  assert (Hin : x ∈ L h) by (rewrite E, elem_of_app, elem_of_cons; tauto).
  rewrite elem_of_cons in Hx. destruct (decide (h' = h)) as [->|Hne].
  - rewrite fn_lookup_insert in Hx. destruct Hx as [->|]; tauto.
  - rewrite fn_lookup_insert_ne in Hx by done. apply Hne.
    apply (rg_disj _ _ _ _ Hr h' h x Hh' Hh); rewrite elem_of_cons; tauto.
Qed.

(** A list ends at its head, and not before. *)
Lemma rings_ne F B heads L h x : rings F B heads L → h ∈ heads → x ∈ L h → x ≠ h.
Proof. intros Hr Hh Hx ->. by apply (rg_nodup _ _ _ _ Hr h), NoDup_cons in Hh as [??]. Qed.

(** Where a cell of one list is not: on another one. *)
Lemma rings_other F B heads L h h' x :
  rings F B heads L → h ∈ heads → h' ∈ heads → x ∈ L h → h' ≠ h → x ∉ h' :: L h'.
Proof. intros Hr Hh Hh' Hx Hne Hx'. apply Hne. eapply (rg_disj _ _ _ _ Hr); [done..|set_solver]. Qed.
(** Decidable: a table can be checked. *)
#[export] Instance path_dec F B a l z : Decision (path F B a l z).
Proof. revert a. induction l as [|x l IH]; intros a; simpl; apply _. Defined.

Lemma rings_check F B heads L :
  Forall (λ h, path F B h (L h) h) heads → NoDup (heads ≫= λ h, h :: L h) → rings F B heads L.
Proof.
  intros Hp Hn. destruct (nodup_bind _ _ Hn) as [H1 H2]. rewrite Forall_forall in Hp. split; [done|done|].
  intros h1 h2 k Hh1 Hh2 Hk1 Hk2. apply list_elem_of_lookup in Hh1 as [i Hi], Hh2 as [j Hj].
  assert (i = j) as -> by (by eapply H2). congruence.
Qed.
End ring.
