(* ===== verification/Bio.v ===== *)
(** The buffer cache: kern/ufs_bio.c, the list macros of sys/buf.h and the
    boot code of kern/init_main.c. *)
From stdpp Require Import functions.
From S2P Require Import Prelude Buf Kernel Links Callout Sched Prot Time Sig Clock Ring.

(** The block device switch: how many drivers there are, their strategy
    routines and flags by major number; where the linker put [bufdata]. *)
Class BioEnv := {
  nblkdev : Z;
  d_strategy : Z → bptr → K unit;
  d_flags : Z → Z;
  bufdata_addr : Z;
}.

Definition major (x : Z) : Z := Z.land (Z.shiftr x 8) 255.
Definition fsbtodb (b : Z) : Z := b.
Definition BUFHASH (dev bn : Z) : bptr :=
  HashP (Z.to_nat (Z.land (dev + bn) (Z.of_nat BUFHSZ - 1))).

Module Bio.
(** The sleep channel of a buffer header: its address. *)
Definition chan (b : bptr) : wchan :=
  match b with
  | BufP n => WChan "buf" (Z.of_nat n)
  | HashP n => WChan "bufhash" (Z.of_nat n)
  | FreeP n => WChan "bfreelist" (Z.of_nat n)
  | DrvP n => WChan "drvtab" (Z.of_nat n)
  end.

(** * The lists *)

Definition bremhash (bp : bptr) : K unit :=
  r ← getbuf bp; back ← unless_none (b_back r); setbuf back (λ d, d <| b_forw := b_forw r |>) ;;
  r ← getbuf bp; forw ← unless_none (b_forw r); setbuf forw (λ d, d <| b_back := b_back r |>).
Definition binshash (bp dp : bptr) : K unit :=
  d ← getbuf dp; setbuf bp (λ b, b <| b_forw := b_forw d |>) ;;
  setbuf bp (λ b, b <| b_back := Some dp |>) ;;
  d ← getbuf dp; forw ← unless_none (b_forw d); setbuf forw (λ b, b <| b_back := Some bp |>) ;;
  setbuf dp (λ d, d <| b_forw := Some bp |>).
Definition bremfree (bp : bptr) : K unit :=
  r ← getbuf bp; back ← unless_none (av_back r); setbuf back (λ d, d <| av_forw := av_forw r |>) ;;
  r ← getbuf bp; forw ← unless_none (av_forw r); setbuf forw (λ d, d <| av_back := av_back r |>).
Definition binsheadfree (bp dp : bptr) : K unit :=
  d ← getbuf dp; forw ← unless_none (av_forw d); setbuf forw (λ b, b <| av_back := Some bp |>) ;;
  d ← getbuf dp; setbuf bp (λ b, b <| av_forw := av_forw d |>) ;;
  setbuf dp (λ d, d <| av_forw := Some bp |>) ;;
  setbuf bp (λ b, b <| av_back := Some dp |>).
Definition binstailfree (bp dp : bptr) : K unit :=
  d ← getbuf dp; back ← unless_none (av_back d); setbuf back (λ b, b <| av_forw := Some bp |>) ;;
  d ← getbuf dp; setbuf bp (λ b, b <| av_back := av_back d |>) ;;
  setbuf dp (λ d, d <| av_back := Some bp |>) ;;
  setbuf bp (λ b, b <| av_forw := Some dp |>).
Definition notavail (bp : bptr) : K unit :=
  bremfree bp ;; setbuf bp (λ b, b <| b_flags ::= λ f, setf f B_BUSY |>).
Definition bfree (bp : bptr) : K unit := setbuf bp (λ b, b <| b_bcount := 0 |>).

Section bio.
Context `{KConfig} `{KLayout} `{SigEnv} `{BioEnv}.

Definition set_bflags (bp : bptr) (m : Z) : K unit := setbuf bp (λ b, b <| b_flags ::= λ f, setf f m |>).
Definition clr_bflags (bp : bptr) (m : Z) : K unit := setbuf bp (λ b, b <| b_flags ::= λ f, clrf f m |>).
Definition strategy (bp : bptr) : K unit := r ← getbuf bp; d_strategy (major (b_dev r)) bp.

(** * I/O completion *)

Definition geterror (bp : bptr) : K Z :=
  r ← getbuf bp;
  mret (if has (b_flags r) B_ERROR then (if b_error r =? 0 then EIO else b_error r) else 0).

(** Below PZERO [sleep] always returns, so its result is not looked at. *)
Fixpoint biowait_loop (fuel : nat) (bp : bptr) : K unit :=
  r ← getbuf bp;
  if has (b_flags r) B_DONE then mret tt
  else
    match fuel with
    | O => nofuel
    | S fuel => _ ← Clock.sleep (chan bp) PRIBIO; biowait_loop fuel bp
    end.
Definition biowait (fuel : nat) (bp : bptr) : K unit :=
  biowait_loop fuel bp ;;
  e ← getu u_error;
  when (e =? 0) (e ← geterror bp; set_error e).

Definition brelse (bp : bptr) : K unit :=
  r ← getbuf bp;
  when (has (b_flags r) B_WANTED) (Sched.wakeup (chan bp)) ;;
  f ← getbuf (FreeP 0);
  when (has (b_flags f) B_WANTED) (clr_bflags (FreeP 0) B_WANTED ;; Sched.wakeup (chan (FreeP 0))) ;;
  r ← getbuf bp;
  when (has (b_flags r) B_ERROR)
    (if has (b_flags r) B_LOCKED then clr_bflags bp B_ERROR
     else setbuf bp (λ b, b <| b_dev := NODEV |>)) ;;
  r ← getbuf bp;
  (if has (b_flags r) (Z.lor B_ERROR B_INVAL) then binsheadfree bp (FreeP BQ_AGE)
   else binstailfree bp (FreeP (if has (b_flags r) B_LOCKED then BQ_LOCKED
                                else if has (b_flags r) B_AGE then BQ_AGE else BQ_LRU))) ;;
  clr_bflags bp (Z.lor (Z.lor B_WANTED B_BUSY) (Z.lor B_ASYNC B_AGE)).

Definition biodone (bp : bptr) : K unit :=
  r ← getbuf bp;
  if has (b_flags r) B_DONE then panic "dup biodone"
  else
    set_bflags bp B_DONE ;;
    if has (b_flags r) B_ASYNC then brelse bp
    else clr_bflags bp B_WANTED ;; Sched.wakeup (chan bp).

(** * Writing *)

Definition bwrite (fuel : nat) (bp : bptr) : K unit :=
  r ← getbuf bp;
  let flag := b_flags r in
  clr_bflags bp (Z.lor (Z.lor B_READ B_DONE) (Z.lor B_ERROR B_DELWRI)) ;;
  when (negb (has flag B_DELWRI)) (setu (λ r, r <| u_ru ::= λ t, t <| ru_oublock ::= λ z, i32 (z + 1) |> |>)) ;;
  setbuf bp (λ b, b <| b_bcount := DEV_BSIZE |>) ;;
  strategy bp ;;
  if negb (has flag B_ASYNC) then biowait fuel bp ;; brelse bp
  else when (has flag B_DELWRI) (set_bflags bp B_AGE).
Definition bawrite (fuel : nat) (bp : bptr) : K unit := set_bflags bp B_ASYNC ;; bwrite fuel bp.
Definition bdwrite (fuel : nat) (bp : bptr) : K unit :=
  r ← getbuf bp;
  when (negb (has (b_flags r) B_DELWRI))
    (setu (λ r, r <| u_ru ::= λ t, t <| ru_oublock ::= λ z, i32 (z + 1) |> |>)) ;;
  if has (d_flags (major (b_dev r))) B_TAPE then bawrite fuel bp
  else set_bflags bp (Z.lor B_DELWRI B_DONE) ;; brelse bp.

(** * Finding and getting buffers *)

(** The chain from [bp] up to [dp], searched for the valid buffer of a block. *)
Fixpoint hash_find (fuel : nat) (dp bp : bptr) (dev blkno : Z) : K (option bptr) :=
  if decide (bp = dp) then mret None
  else
    match fuel with
    | O => nofuel
    | S fuel =>
      r ← getbuf bp;
      if negb (b_blkno r =? blkno) || negb (b_dev r =? dev) || has (b_flags r) B_INVAL then
        n ← unless_none (b_forw r); hash_find fuel dp n dev blkno
      else mret (Some bp)
    end.
Definition hash_search (dp : bptr) (dev blkno : Z) : K (option bptr) :=
  s ← get_s; d ← getbuf dp; bp ← unless_none (b_forw d);
  hash_find (size (bstore s)) dp bp dev blkno.
Definition incore (dev blkno : Z) : K bool :=
  o ← hash_search (BUFHASH dev blkno) dev (fsbtodb blkno);
  mret (match o with Some _ => true | None => false end).

(** The last free list that is not empty; 0 when AGE and LRU are. *)
Fixpoint getnewbuf_pick (q : nat) : K nat :=
  match q with
  | O => mret 0%nat
  | S q' =>
    d ← getbuf (FreeP q);
    if decide (av_forw d = Some (FreeP q)) then getnewbuf_pick q' else mret q
  end.
Fixpoint getnewbuf (fuel : nat) : K bptr :=
  match fuel with
  | O => nofuel
  | S fuel =>
    q ← getnewbuf_pick BQ_AGE;
    if decide (q = 0%nat) then
      set_bflags (FreeP 0) B_WANTED ;;
      _ ← Clock.sleep (chan (FreeP 0)) (PRIBIO + 1);
      getnewbuf fuel
    else
      d ← getbuf (FreeP q); bp ← unless_none (av_forw d);
      notavail bp ;;
      r ← getbuf bp;
      if has (b_flags r) B_DELWRI then bawrite fuel bp ;; getnewbuf fuel
      else
        when (has (b_flags r) (Z.lor B_RAMREMAP B_PHYS))
          match bp with
          | BufP i =>
            if DIAGNOSTIC && (NBUF <=? i)%nat then panic "getnewbuf: RAMREMAP bp addr"
            else setbuf bp (λ b, b <| b_addr := bufdata_addr + DEV_BSIZE * Z.of_nat i |>)
          | _ => if DIAGNOSTIC then panic "getnewbuf: RAMREMAP bp addr" else fault
          end ;;
        setbuf bp (λ b, b <| b_flags := B_BUSY |>) ;;
        mret bp
  end.

Fixpoint getblk_loop (fuel : nat) (dp : bptr) (dev dblkno : Z) : K bptr :=
  match fuel with
  | O => nofuel
  | S fuel =>
    o ← hash_search dp dev dblkno;
    match o with
    | Some bp =>
      r ← getbuf bp;
      if has (b_flags r) B_BUSY then
        set_bflags bp B_WANTED ;; _ ← Clock.sleep (chan bp) (PRIBIO + 1); getblk_loop fuel dp dev dblkno
      else notavail bp ;; mret bp
    | None =>
      bp ← getnewbuf fuel;
      bfree bp ;; bremhash bp ;; binshash bp dp ;;
      setbuf bp (λ b, b <| b_dev := dev |>) ;;
      setbuf bp (λ b, b <| b_blkno := dblkno |>) ;;
      setbuf bp (λ b, b <| b_error := 0 |>) ;;
      mret bp
    end
  end.
Definition getblk (fuel : nat) (dev blkno : Z) : K bptr :=
  when (DIAGNOSTIC && (nblkdev <=? major dev)) (panic "blkdev") ;;
  getblk_loop fuel (BUFHASH dev blkno) dev (fsbtodb blkno).
Definition geteblk (fuel : nat) : K bptr :=
  bp ← getnewbuf fuel;
  set_bflags bp B_INVAL ;; bfree bp ;; bremhash bp ;; binshash bp (FreeP BQ_AGE) ;;
  setbuf bp (λ b, b <| b_dev := NODEV |>) ;;
  setbuf bp (λ b, b <| b_error := 0 |>) ;;
  mret bp.

(** * Reading *)

Definition pay_read : K unit := setu (λ r, r <| u_ru ::= λ t, t <| ru_inblock ::= λ z, i32 (z + 1) |> |>).
Definition bread (fuel : nat) (dev blkno : Z) : K bptr :=
  bp ← getblk fuel dev blkno;
  r ← getbuf bp;
  if has (b_flags r) (Z.lor B_DONE B_DELWRI) then mret bp
  else
    set_bflags bp B_READ ;;
    setbuf bp (λ b, b <| b_bcount := DEV_BSIZE |>) ;;
    strategy bp ;; pay_read ;; biowait fuel bp ;; mret bp.

Definition breada (fuel : nat) (dev blkno rablkno : Z) : K bptr :=
  c ← incore dev blkno;
  obp ←
    (if c : bool then mret None
     else
       bp ← getblk fuel dev blkno;
       r ← getbuf bp;
       when (negb (has (b_flags r) (Z.lor B_DONE B_DELWRI)))
         (set_bflags bp B_READ ;; setbuf bp (λ b, b <| b_bcount := DEV_BSIZE |>) ;; strategy bp ;; pay_read) ;;
       mret (Some bp));
  (if rablkno =? 0 then mret tt
   else
     c ← incore dev rablkno;
     if c : bool then mret tt
     else
       rabp ← getblk fuel dev rablkno;
       r ← getbuf rabp;
       if has (b_flags r) (Z.lor B_DONE B_DELWRI) then brelse rabp
       else
         set_bflags rabp (Z.lor B_READ B_ASYNC) ;; setbuf rabp (λ b, b <| b_bcount := DEV_BSIZE |>) ;;
         strategy rabp ;; pay_read) ;;
  match obp with
  | None => bread fuel dev blkno
  | Some bp => biowait fuel bp ;; mret bp
  end.

(** * Flushing *)

(** The chain from [ep]: a valid buffer of the block that is busy or to be
    written. *)
Fixpoint blkflush_find (fuel : nat) (dp ep : bptr) (dev blkno : Z) : K (option bptr) :=
  if decide (ep = dp) then mret None
  else
    match fuel with
    | O => nofuel
    | S fuel =>
      r ← getbuf ep;
      if (negb (b_blkno r =? blkno) || negb (b_dev r =? dev) || has (b_flags r) B_INVAL)
         || negb (has (b_flags r) B_BUSY || has (b_flags r) B_DELWRI)
      then n ← unless_none (b_forw r); blkflush_find fuel dp n dev blkno
      else mret (Some ep)
    end.
Fixpoint blkflush_loop (fuel : nat) (dp : bptr) (dev blkno : Z) : K unit :=
  match fuel with
  | O => nofuel
  | S fuel =>
    s ← get_s; d ← getbuf dp; bp ← unless_none (b_forw d);
    o ← blkflush_find (size (bstore s)) dp bp dev blkno;
    match o with
    | None => mret tt
    | Some ep =>
      r ← getbuf ep;
      (if has (b_flags r) B_BUSY then
         set_bflags ep B_WANTED ;; _ ← Clock.sleep (chan ep) (PRIBIO + 1); mret tt
       else notavail ep ;; bwrite fuel ep) ;;
      blkflush_loop fuel dp dev blkno
    end
  end.
Definition blkflush (fuel : nat) (dev blkno : Z) : K unit :=
  blkflush_loop fuel (BUFHASH dev blkno) dev (fsbtodb blkno).

(** The free list from [bp]: a delayed write of the device. *)
Fixpoint bflush_find (fuel : nat) (flist bp : bptr) (dev : Z) : K (option bptr) :=
  if decide (bp = flist) then mret None
  else
    match fuel with
    | O => nofuel
    | S fuel =>
      r ← getbuf bp;
      if has (b_flags r) B_DELWRI && (dev =? b_dev r) then mret (Some bp)
      else n ← unless_none (av_forw r); bflush_find fuel flist n dev
    end.
Fixpoint bflush_lists (qs : list nat) (dev : Z) : K (option bptr) :=
  match qs with
  | [] => mret None
  | q :: qs =>
    s ← get_s; d ← getbuf (FreeP q); bp ← unless_none (av_forw d);
    o ← bflush_find (size (bstore s)) (FreeP q) bp dev;
    match o with Some bp => mret (Some bp) | None => bflush_lists qs dev end
  end.
Fixpoint bflush (fuel : nat) (dev : Z) : K unit :=
  match fuel with
  | O => nofuel
  | S fuel =>
    o ← bflush_lists (seq 0 BQUEUES) dev;
    match o with
    | None => mret tt
    | Some bp => set_bflags bp B_ASYNC ;; notavail bp ;; bwrite fuel bp ;; bflush fuel dev
    end
  end.

Fixpoint binval_chain (fuel : nat) (dp bp : bptr) (dev : Z) : K unit :=
  if decide (bp = dp) then mret tt
  else
    match fuel with
    | O => nofuel
    | S fuel =>
      r ← getbuf bp;
      when (b_dev r =? dev) (set_bflags bp B_INVAL) ;;
      r ← getbuf bp; n ← unless_none (b_forw r); binval_chain fuel dp n dev
    end.
Fixpoint binval_heads (hs : list nat) (dev : Z) : K unit :=
  match hs with
  | [] => mret tt
  | h :: hs =>
    s ← get_s; d ← getbuf (HashP h); bp ← unless_none (b_forw d);
    binval_chain (size (bstore s)) (HashP h) bp dev ;; binval_heads hs dev
  end.
Definition binval (dev : Z) : K unit := binval_heads (seq 0 BUFHSZ) dev.

(** * Boot *)

Fixpoint bhinit_loop (hs : list nat) : K unit :=
  match hs with
  | [] => mret tt
  | h :: hs =>
    setbuf (HashP h) (λ b, b <| b_back := Some (HashP h) |> <| b_forw := Some (HashP h) |>) ;;
    bhinit_loop hs
  end.
Definition bhinit : K unit := bhinit_loop (seq 0 BUFHSZ).
Fixpoint binit_heads (qs : list nat) : K unit :=
  match qs with
  | [] => mret tt
  | q :: qs =>
    let f := Some (FreeP q) in
    setbuf (FreeP q) (λ b, b <| av_back := f |> <| av_forw := f |> <| b_back := f |> <| b_forw := f |>) ;;
    binit_heads qs
  end.
Fixpoint binit_bufs (ids : list nat) (paddr : Z) : K unit :=
  match ids with
  | [] => mret tt
  | i :: ids =>
    let bp := BufP i in
    setbuf bp (λ b, b <| b_dev := NODEV |>) ;;
    setbuf bp (λ b, b <| b_bcount := 0 |>) ;;
    setbuf bp (λ b, b <| b_addr := paddr |>) ;;
    binshash bp (FreeP BQ_AGE) ;;
    setbuf bp (λ b, b <| b_flags := Z.lor B_BUSY B_INVAL |>) ;;
    brelse bp ;;
    binit_bufs ids (paddr + DEV_BSIZE)
  end.
Definition binit : K unit := binit_heads (seq 0 BQUEUES) ;; binit_bufs (seq 0 NBUF) bufdata_addr.
End bio.
(** * The lists in the store *)

Implicit Types (s : kstate) (st : bufs) (b bp h : bptr) (r : buf) (HL FL : bptr → list bptr).

Definition hfwd st b : option bptr := st !! b ≫= b_forw.
Definition hbwd st b : option bptr := st !! b ≫= b_back.
Definition ffwd st b : option bptr := st !! b ≫= av_forw.
Definition fbwd st b : option bptr := st !! b ≫= av_back.
(** A header without its hash links; without its free-list links. *)
Definition nohash (r : buf) : buf := r <| b_forw := None |> <| b_back := None |>.
Definition nofree (r : buf) : buf := r <| av_forw := None |> <| av_back := None |>.

(** The heads of the hash chains ([geteblk] hashes on a free-list head) and of
    the free lists. *)
Definition hheads : list bptr := (HashP <$> seq 0 BUFHSZ) ++ (FreeP <$> seq 0 BQUEUES).
Definition fheads : list bptr := FreeP <$> seq 0 BQUEUES.

Definition with_b (s : kstate) (st : bufs) : kstate := s <| bstore := st |>.
Lemma with_b_id s : with_b s (bstore s) = s.
Proof. by destruct s. Qed.
Lemma with_b_with s st st' : with_b (with_b s st) st' = with_b s st'.
Proof. done. Qed.
Lemma getbuf_with s st b r : st !! b = Some r → getbuf b (with_b s st) = Done r (with_b s st).
Proof. exact (getbuf_eq (with_b s st) b r). Qed.
Lemma setbuf_with s st b f :
  is_Some (st !! b) → setbuf b f (with_b s st) = Done tt (with_b s (alter f b st)).
Proof.
  intros [r Hr]. rewrite (setbuf_eq _ _ _ r) by done. f_equal. unfold with_b, upd. simpl.
  f_equal. apply map_eq. intros k. destruct (decide (k = b)) as [->|Hk].
  - by rewrite lookup_insert_eq, lookup_alter_eq, Hr.
  - by rewrite lookup_insert_ne, lookup_alter_ne.
Qed.
Lemma is_Some_alter st b f k : is_Some (st !! k) → is_Some (alter f b st !! k).
Proof. rewrite lookup_alter_is_Some. done. Qed.
Lemma view_alter {A} (g : buf → option A) st b f k :
  (alter f b st !! k ≫= g) = if decide (k = b) then (st !! k ≫= λ r, g (f r)) else st !! k ≫= g.
Proof.
  case_decide as E; [subst|by rewrite lookup_alter_ne]. rewrite lookup_alter_eq. by destruct (st !! b).
Qed.
Lemma proj_alter {A} (g : buf → A) st b f k :
  (∀ r, g (f r) = g r) → g <$> alter f b st !! k = g <$> st !! k.
Proof.
  intros Hg. destruct (decide (k = b)) as [->|]; [|by rewrite lookup_alter_ne].
  rewrite lookup_alter_eq. destruct (st !! b) as [r|]; [|done]. simpl. by rewrite Hg.
Qed.
Lemma view_some {A} (g : buf → option A) st b v : st !! b ≫= g = Some v → is_Some (st !! b).
Proof. destruct (st !! b); [by eexists|done]. Qed.
Lemma view_get {A} (g : buf → option A) st b v :
  st !! b ≫= g = Some v → ∃ r, st !! b = Some r ∧ g r = Some v.
Proof. destruct (st !! b) as [r|]; [by exists r|done]. Qed.

(** What a store update on links does: the forward and backward links it
    redirects, and nothing but links. *)
Record relinks {A} (strip : buf → A) (fw bk : bufs → bptr → option bptr)
    st st' (F B : bptr → option bptr) : Prop := {
  rl_fwd : ∀ k, fw st' k = F k;
  rl_bwd : ∀ k, bk st' k = B k;
  rl_rest : ∀ k, strip <$> st' !! k = strip <$> st !! k;
}.

(** The links after some [alter]s, cell by cell. *)
Ltac relinks_by :=
  split; intros k;
    [unfold hfwd, ffwd; rewrite !view_alter; unfold insert, fn_insert
    |unfold hbwd, fbwd; rewrite !view_alter; unfold insert, fn_insert
    |rewrite !proj_alter; done];
    repeat case_decide; subst; try congruence;
    repeat match goal with H : is_Some (_ !! _) |- _ => destruct H as [? H]; rewrite H end; try done.
(** Run the next store access. *)
Ltac bget H := rewrite (bind_done _ _ _ _ _ (getbuf_with _ _ _ _ H)); cbv beta.
Ltac bset H := rewrite (bind_done _ _ _ _ _ (setbuf_with _ _ _ _ H)); cbv beta.
Ltac bopt E := rewrite E; cbn [unless_none]; rewrite (bind_done _ _ _ _ _ (mret_eq _ _)); cbv beta.

Lemma bremhash_spec s st x p n :
  hbwd st x = Some p → hfwd st x = Some n → is_Some (st !! p) → is_Some (st !! n) → p ≠ x →
  ∃ st', bremhash x (with_b s st) = Done tt (with_b s st') ∧
    relinks nohash hfwd hbwd st st' (<[p := Some n]> (hfwd st)) (<[n := Some p]> (hbwd st)).
Proof.
  intros (r & Hr & Ep)%view_get (r' & Hr' & En)%view_get Hp Hn Hpx. assert (r' = r) as -> by congruence.
  unfold bremhash. bget Hr. bopt Ep. bset Hp.
  assert (Hr2 : alter (λ c, c <| b_forw := b_forw r |>) p st !! x = Some r) by (by rewrite lookup_alter_ne).
  bget Hr2. rewrite Ep. bopt En. eexists. split; [apply setbuf_with; by apply is_Some_alter|].
  relinks_by.
Qed.

Lemma bremfree_spec s st x p n :
  fbwd st x = Some p → ffwd st x = Some n → is_Some (st !! p) → is_Some (st !! n) → p ≠ x →
  ∃ st', bremfree x (with_b s st) = Done tt (with_b s st') ∧
    relinks nofree ffwd fbwd st st' (<[p := Some n]> (ffwd st)) (<[n := Some p]> (fbwd st)).
Proof.
  intros (r & Hr & Ep)%view_get (r' & Hr' & En)%view_get Hp Hn Hpx. assert (r' = r) as -> by congruence.
  unfold bremfree. bget Hr. bopt Ep. bset Hp.
  assert (Hr2 : alter (λ c, c <| av_forw := av_forw r |>) p st !! x = Some r) by (by rewrite lookup_alter_ne).
  bget Hr2. rewrite Ep. bopt En. eexists. split; [apply setbuf_with; by apply is_Some_alter|].
  relinks_by.
Qed.

Lemma binshash_spec s st x h n :
  hfwd st h = Some n → is_Some (st !! n) → is_Some (st !! x) → x ≠ h → x ≠ n →
  ∃ st', binshash x h (with_b s st) = Done tt (with_b s st') ∧
    relinks nohash hfwd hbwd st st' (<[h := Some x]> (<[x := Some n]> (hfwd st)))
      (<[n := Some x]> (<[x := Some h]> (hbwd st))).
Proof.
  intros (d & Hd & En)%view_get Hn Hx Hxh Hxn. unfold binshash. bget Hd. bset Hx.
  assert (Hx1 : is_Some (alter (λ c, c <| b_forw := b_forw d |>) x st !! x)) by (by apply is_Some_alter).
  bset Hx1.
  assert (Hd2 : alter (λ c, c <| b_back := Some h |>) x (alter (λ c, c <| b_forw := b_forw d |>) x st) !! h =
    Some d) by (by rewrite !lookup_alter_ne).
  bget Hd2. bopt En.
  match goal with |- context [(setbuf n _ ≫= _) (with_b s ?t)] =>
    assert (Hn2 : is_Some (t !! n)) by (by repeat apply is_Some_alter) end.
  bset Hn2. eexists. split; [apply setbuf_with; by repeat apply is_Some_alter|].
  assert (Hh : is_Some (st !! h)) by (by exists d). clear Hx1 Hd2 Hn2. relinks_by.
Qed.

Lemma binsheadfree_spec s st x h n :
  ffwd st h = Some n → is_Some (st !! n) → is_Some (st !! x) → x ≠ h → x ≠ n →
  ∃ st', binsheadfree x h (with_b s st) = Done tt (with_b s st') ∧
    relinks nofree ffwd fbwd st st' (<[h := Some x]> (<[x := Some n]> (ffwd st)))
      (<[n := Some x]> (<[x := Some h]> (fbwd st))).
Proof.
  intros (d & Hd & En)%view_get Hn Hx Hxh Hxn. unfold binsheadfree. bget Hd. bopt En. bset Hn.
  assert (∃ d2, alter (λ c, c <| av_back := Some x |>) n st !! h = Some d2 ∧ av_forw d2 = Some n) as (d2 & Hd2 & En2).
  { apply view_get. rewrite view_alter, Hd. by case_decide. }
  bget Hd2. rewrite En2.
  match goal with |- context [(setbuf x _ ≫= _) (with_b s ?t)] =>
    assert (Hx2 : is_Some (t !! x)) by (by repeat apply is_Some_alter) end.
  bset Hx2.
  match goal with |- context [(setbuf h _ ≫= _) (with_b s ?t)] =>
    assert (Hh2 : is_Some (t !! h)) by (repeat apply is_Some_alter; by exists d) end.
  bset Hh2. eexists. split; [apply setbuf_with; by repeat apply is_Some_alter|].
  assert (Hh : is_Some (st !! h)) by (by exists d). clear Hx2 Hd2 Hh2. relinks_by.
Qed.

Lemma binstailfree_spec s st x h p :
  fbwd st h = Some p → is_Some (st !! p) → is_Some (st !! x) → x ≠ h → x ≠ p →
  ∃ st', binstailfree x h (with_b s st) = Done tt (with_b s st') ∧
    relinks nofree ffwd fbwd st st' (<[x := Some h]> (<[p := Some x]> (ffwd st)))
      (<[h := Some x]> (<[x := Some p]> (fbwd st))).
Proof.
  intros (d & Hd & Ep)%view_get Hp Hx Hxh Hxp. unfold binstailfree. bget Hd. bopt Ep. bset Hp.
  assert (∃ d2, alter (λ c, c <| av_forw := Some x |>) p st !! h = Some d2 ∧ av_back d2 = Some p) as (d2 & Hd2 & Ep2).
  { apply view_get. rewrite view_alter, Hd. by case_decide. }
  bget Hd2. rewrite Ep2.
  match goal with |- context [(setbuf x _ ≫= _) (with_b s ?t)] =>
    assert (Hx2 : is_Some (t !! x)) by (by repeat apply is_Some_alter) end.
  bset Hx2.
  match goal with |- context [(setbuf h _ ≫= _) (with_b s ?t)] =>
    assert (Hh2 : is_Some (t !! h)) by (repeat apply is_Some_alter; by exists d) end.
  bset Hh2. eexists. split; [apply setbuf_with; by repeat apply is_Some_alter|].
  assert (Hh : is_Some (st !! h)) by (by exists d). clear Hx2 Hd2 Hh2. relinks_by.
Qed.
(** * The cache *)

(** A header without links: the block it holds and its state. *)
Definition bare (r : buf) : buf := nofree (nohash r).
(** The stores hold the same blocks, but for [f] at [x]. *)
Definition same_but st st' x (f : buf → buf) : Prop :=
  ∀ k, bare <$> st' !! k = bare <$> alter f x st !! k.

(** Every buffer of the pool is in one hash chain, in a free list exactly when
    not busy, and one with a block in the chain of that block. [HL] and [FL] give the
    members of the chains and of the free lists, in order. *)
Record cache_ok `{KConfig} st HL FL : Prop := {
  ck_hash : rings (hfwd st) (hbwd st) hheads HL;
  ck_free : rings (ffwd st) (fbwd st) fheads FL;
  ck_pool : ∀ i, (i < NBUF)%nat → ∃ r, st !! BufP i = Some r ∧
    (∃ h, h ∈ hheads ∧ BufP i ∈ HL h) ∧
    ((∃ q, q ∈ fheads ∧ BufP i ∈ FL q) ↔ has (b_flags r) B_BUSY = false);
  ck_hmem : ∀ h k, h ∈ hheads → k ∈ HL h → ∃ i, (i < NBUF)%nat ∧ k = BufP i;
  ck_fmem : ∀ q k, q ∈ fheads → k ∈ FL q → ∃ i, (i < NBUF)%nat ∧ k = BufP i;
  ck_place : ∀ h k r, h ∈ hheads → k ∈ HL h → st !! k = Some r →
    b_dev r ≠ NODEV → BUFHASH (b_dev r) (b_blkno r) = h;
}.

(** At most one valid buffer per block. *)
Definition valid (r : buf) : Prop := has (b_flags r) B_INVAL = false ∧ b_dev r ≠ NODEV.
Definition holds (r : buf) (dev blkno : Z) : Prop :=
  b_dev r = dev ∧ b_blkno r = blkno ∧ has (b_flags r) B_INVAL = false.
Definition unique `{KConfig} st : Prop := ∀ i j ri rj, (i < NBUF)%nat → (j < NBUF)%nat →
  st !! BufP i = Some ri → st !! BufP j = Some rj → valid ri → valid rj →
  b_dev ri = b_dev rj → b_blkno ri = b_blkno rj → i = j.

Lemma hfwd_nofree st k : hfwd st k = (nofree <$> st !! k) ≫= b_forw.
Proof. unfold hfwd. by destruct (st !! k). Qed.
Lemma hbwd_nofree st k : hbwd st k = (nofree <$> st !! k) ≫= b_back.
Proof. unfold hbwd. by destruct (st !! k). Qed.
Lemma ffwd_nohash st k : ffwd st k = (nohash <$> st !! k) ≫= av_forw.
Proof. unfold ffwd. by destruct (st !! k). Qed.
Lemma fbwd_nohash st k : fbwd st k = (nohash <$> st !! k) ≫= av_back.
Proof. unfold fbwd. by destruct (st !! k). Qed.
Lemma bare_nofree st k : bare <$> st !! k = nohash <$> (nofree <$> st !! k).
Proof. by destruct (st !! k). Qed.
Lemma bare_nohash st k : bare <$> st !! k = nofree <$> (nohash <$> st !! k).
Proof. by destruct (st !! k). Qed.

(** A view of the store that only looks at bare headers. *)
Lemma bare_view {A} (g : buf → A) st st' k :
  (∀ r, g r = g (bare r)) → bare <$> st' !! k = bare <$> st !! k → g <$> st' !! k = g <$> st !! k.
Proof.
  intros Hg E. destruct (st' !! k), (st !! k); try done.
  apply (inj Some) in E. simpl. f_equal. rewrite (Hg b), (Hg b0). by f_equal.
Qed.
Lemma bare_lookup st st' k r :
  st !! k = Some r → bare <$> st' !! k = bare <$> st !! k → ∃ r', st' !! k = Some r' ∧ bare r' = bare r.
Proof. intros ->. destruct (st' !! k) as [r'|]; [|done]. intros E%(inj Some). by exists r'. Qed.
Lemma bare_fields r r' : bare r' = bare r →
  b_flags r' = b_flags r ∧ b_bcount r' = b_bcount r ∧ b_error r' = b_error r ∧ b_dev r' = b_dev r ∧
  b_addr r' = b_addr r ∧ b_blkno r' = b_blkno r ∧ b_resid r' = b_resid r.
Proof.
  intros E. exact (conj (f_equal b_flags E) (conj (f_equal b_bcount E) (conj (f_equal b_error E)
    (conj (f_equal b_dev E) (conj (f_equal b_addr E) (conj (f_equal b_blkno E) (f_equal b_resid E))))))).
Qed.

Lemma bare_eq r r' :
  b_flags r' = b_flags r → b_bcount r' = b_bcount r → b_error r' = b_error r → b_dev r' = b_dev r →
  b_addr r' = b_addr r → b_blkno r' = b_blkno r → b_resid r' = b_resid r → bare r' = bare r.
Proof. destruct r, r'; simpl; intros; by subst. Qed.
(** An update of the state looks at nothing else. *)
Definition stateful (f : buf → buf) : Prop := ∀ r r', bare r = bare r' → bare (f r) = bare (f r').

Lemma same_but_lookup st st' x f k r : same_but st st' x f → st !! k = Some r →
  ∃ r', st' !! k = Some r' ∧ bare r' = bare (if decide (k = x) then f r else r).
Proof.
  intros Hs Hr. assert (E : alter f x st !! k = Some (if decide (k = x) then f r else r)).
  { case_decide; [subst; by rewrite lookup_alter_eq, Hr|by rewrite lookup_alter_ne]. }
  by eapply bare_lookup.
Qed.
Lemma same_but_inv st st' x f k r' : same_but st st' x f → st' !! k = Some r' →
  ∃ r, st !! k = Some r ∧ bare r' = bare (if decide (k = x) then f r else r).
Proof.
  intros Hs Hr. pose proof (Hs k) as E. rewrite Hr in E.
  destruct (alter f x st !! k) as [r0|] eqn:Hr0; [|done]. apply (inj Some) in E. case_decide; subst.
  - rewrite lookup_alter_eq in Hr0. destruct (st !! x) as [r|]; [|done].
    apply (inj Some) in Hr0. exists r. by rewrite E, <- Hr0.
  - rewrite lookup_alter_ne in Hr0 by done. by exists r0.
Qed.

Lemma bufp_not_head i : BufP i ∉ hheads ∧ BufP i ∉ fheads.
Proof.
  unfold hheads, fheads. rewrite elem_of_app, !list_elem_of_fmap.
  split; [intros [(n & ? & _)|(n & ? & _)]|intros (n & ? & _)]; done.
Qed.
Lemma fheads_hheads q : q ∈ fheads → q ∈ hheads.
Proof. unfold hheads, fheads. rewrite elem_of_app. tauto. Qed.

(** Every cell of a ring has links. *)
Lemma rings_on {F B : bptr → option bptr} {heads L k} :
  rings F B heads L → on_ring heads L k → is_Some (F k) ∧ is_Some (B k).
Proof.
  intros Hr (h & Hh & Hk). apply elem_of_cons in Hk as [->|Hk].
  - pose proof (rg_path _ _ _ _ Hr h Hh) as Hp.
    split; [rewrite (path_first _ _ _ _ _ Hp)|rewrite (path_last _ _ _ _ _ Hp)]; by eexists.
  - apply list_elem_of_split in Hk as (l1 & l2 & E).
    destruct (rings_links _ _ _ _ _ _ _ _ Hr Hh E) as [-> ->]. split; by eexists.
Qed.
Lemma on_ring_mem heads (L : bptr → list bptr) h k : h ∈ heads → k ∈ h :: L h → on_ring heads L k.
Proof. intros. by exists h. Qed.
Lemma ffwd_some st k : is_Some (ffwd st k) → is_Some (st !! k).
Proof. intros [v E]. by eapply view_some. Qed.
Lemma hfwd_some st k : is_Some (hfwd st k) → is_Some (st !! k).
Proof. intros [v E]. by eapply view_some. Qed.
Lemma stateful_flags g : stateful (λ r, r <| b_flags ::= g |>).
Proof.
  intros r r' (E1 & E2 & E3 & E4 & E5 & E6 & E7)%bare_fields. apply bare_eq; try done. simpl. by rewrite E1.
Qed.
Lemma stateful_bcount n : stateful (λ r, r <| b_bcount := n |>).
Proof. intros r r' (E1 & E2 & E3 & E4 & E5 & E6 & E7)%bare_fields. by apply bare_eq. Qed.
Lemma stateful_assign d n e : stateful (λ r, r <| b_dev := d |> <| b_blkno := n |> <| b_error := e |>).
Proof. intros r r' (E1 & E2 & E3 & E4 & E5 & E6 & E7)%bare_fields. by apply bare_eq. Qed.

Section cache.
Context `{KConfig}.

(** Well-formedness is kept when one buffer changes place and state. *)
Lemma cache_ok_step st st' HL FL HL' FL' j f :
  let x := BufP j in
  cache_ok st HL FL → (j < NBUF)%nat → same_but st st' x f →
  rings (hfwd st') (hbwd st') hheads HL' → rings (ffwd st') (fbwd st') fheads FL' →
  (∀ h k, h ∈ hheads → k ≠ x → k ∈ HL' h ↔ k ∈ HL h) →
  (∀ q k, q ∈ fheads → k ≠ x → k ∈ FL' q ↔ k ∈ FL q) →
  (∃ h, h ∈ hheads ∧ x ∈ HL' h) →
  (∀ r, st !! x = Some r → (∃ q, q ∈ fheads ∧ x ∈ FL' q) ↔ has (b_flags (f r)) B_BUSY = false) →
  (∀ h r, h ∈ hheads → x ∈ HL' h → st !! x = Some r → b_dev (f r) ≠ NODEV →
    BUFHASH (b_dev (f r)) (b_blkno (f r)) = h) →
  cache_ok st' HL' FL'.
Proof.
  intros x [_ _ Hpool Hhm Hfm Hpl] Hj Hs Hh Hf HinH HinF Hx Hbusy Hplace. split; [done|done| | | |].
  - intros i Hi. destruct (Hpool i Hi) as (r & Hr & Hrh & Hrf).
    destruct (same_but_lookup _ _ _ _ _ _ Hs Hr) as (r' & Hr' & Eb).
    apply bare_fields in Eb as (Efl & _). exists r'. split; [done|]. rewrite Efl.
    case_decide as E; [rewrite E in Hr |- *; split; [done|by apply Hbusy]|].
    split; [destruct Hrh as (h & ? & ?); exists h; split; [done|]; by apply HinH|].
    rewrite <- Hrf. split; intros (q & ? & ?); exists q; (split; [done|]); by apply HinF.
  - intros h k Hh' Hk. destruct (decide (k = x)) as [->|]; [by exists j|]. apply HinH in Hk; eauto.
  - intros q k Hq Hk. destruct (decide (k = x)) as [->|]; [by exists j|]. apply HinF in Hk; eauto.
  - intros h k r' Hh' Hk Hr'. destruct (same_but_inv _ _ _ _ _ _ Hs Hr') as (r & Hr & Eb).
    apply bare_fields in Eb as (_ & _ & _ & -> & _ & -> & _). case_decide as E.
    + subst k. by apply Hplace.
    + apply (Hpl h k r); [done|by apply HinH|done].
Qed.

(** One that only changes its state. *)
Lemma cache_ok_alter st HL FL j f r :
  cache_ok st HL FL → (j < NBUF)%nat → st !! BufP j = Some r →
  b_forw (f r) = b_forw r → b_back (f r) = b_back r → av_forw (f r) = av_forw r → av_back (f r) = av_back r →
  has (b_flags (f r)) B_BUSY = has (b_flags r) B_BUSY →
  (b_dev (f r) ≠ NODEV → b_dev (f r) = b_dev r ∧ b_blkno (f r) = b_blkno r) →
  cache_ok (alter f (BufP j) st) HL FL.
Proof.
  intros Hc Hj Hr E1 E2 E3 E4 Eb Ei.
  assert (Hv : ∀ {A} (g : buf → option A) k, g (f r) = g r → (alter f (BufP j) st !! k ≫= g) = (st !! k ≫= g)).
  { intros A g k Eg. rewrite view_alter. case_decide; [subst; rewrite Hr; exact Eg|done]. }
  pose proof Hc as [Hh Hf Hpool Hhm Hfm Hpl]. eapply (cache_ok_step st); [done|done|done| | |done|done| | |].
  - eapply rings_ext; [|exact Hh]. intros k _. by split; apply (Hv _ _ k).
  - eapply rings_ext; [|exact Hf]. intros k _. by split; apply (Hv _ _ k).
  - by destruct (Hpool j Hj) as (_ & _ & ? & _).
  - intros r0 Hr0. destruct (Hpool j Hj) as (r1 & Hr1 & _ & Hb). simplify_eq. by rewrite Eb.
  - intros h r0 Hh' Hk Hr0 Hd. simplify_eq. destruct (Ei Hd) as (Ed & En).
    rewrite Ed, En. apply Hpl with (k := BufP j); [done..|]. by rewrite <- Ed.
Qed.

Lemma relinks_free_hash st st' F B :
  relinks nofree ffwd fbwd st st' F B → ∀ k, hfwd st' k = hfwd st k ∧ hbwd st' k = hbwd st k.
Proof. intros [_ _ E] k. by rewrite !hfwd_nofree, !hbwd_nofree, E. Qed.
Lemma relinks_hash_free st st' F B :
  relinks nohash hfwd hbwd st st' F B → ∀ k, ffwd st' k = ffwd st k ∧ fbwd st' k = fbwd st k.
Proof. intros [_ _ E] k. by rewrite !ffwd_nohash, !fbwd_nohash, E. Qed.
(** An update of the state leaves the links. *)
Lemma alter_links st x f k :
  (∀ r, b_forw (f r) = b_forw r ∧ b_back (f r) = b_back r ∧ av_forw (f r) = av_forw r ∧ av_back (f r) = av_back r) →
  hfwd (alter f x st) k = hfwd st k ∧ hbwd (alter f x st) k = hbwd st k ∧
  ffwd (alter f x st) k = ffwd st k ∧ fbwd (alter f x st) k = fbwd st k.
Proof.
  intros Hf. unfold hfwd, hbwd, ffwd, fbwd. rewrite !view_alter.
  destruct (st !! k) as [r|]; simpl; [|by repeat case_decide].
  destruct (Hf r) as (-> & -> & -> & ->). by repeat case_decide.
Qed.
Lemma same_but_alter st st' x f g :
  (∀ k, bare <$> st' !! k = bare <$> alter g x st !! k) →
  stateful f →
  same_but st (alter f x st') x (λ r, f (g r)).
Proof.
  intros E Hf k. specialize (E k). destruct (decide (k = x)) as [->|Hk].
  - rewrite !lookup_alter_eq. rewrite lookup_alter_eq in E.
    destruct (st' !! x), (st !! x); try done. apply (inj Some) in E. simpl. f_equal. by apply Hf.
  - by rewrite lookup_alter_ne, E, !lookup_alter_ne.
Qed.
Lemma same_but_trans st st1 st2 x f g :
  same_but st st1 x f → same_but st1 st2 x g → stateful g → same_but st st2 x (λ r, g (f r)).
Proof.
  intros E1 E2 Hg k. rewrite (E2 k). apply (same_but_alter st st1 x g f E1 Hg).
Qed.
Lemma bare_alter_id st k x : bare <$> st !! k = bare <$> alter (λ r, r) x st !! k.
Proof.
  destruct (decide (k = x)) as [->|]; [rewrite lookup_alter_eq; by destruct (st !! x)|by rewrite lookup_alter_ne].
Qed.

Lemma notavail_spec s st HL FL q l1 j l2 :
  let x := BufP j in
  cache_ok st HL FL → q ∈ fheads → FL q = l1 ++ x :: l2 →
  ∃ st', notavail x (with_b s st) = Done tt (with_b s st') ∧
    cache_ok st' HL (<[q := l1 ++ l2]> FL) ∧
    same_but st st' x (λ r, r <| b_flags ::= λ f, setf f B_BUSY |>).
Proof.
  intros x Hc Hq E. pose proof Hc as [Hh Hf Hpool Hhm Hfm Hpl].
  assert (Hxq : x ∈ FL q) by (rewrite E; set_solver).
  assert (Hj : (j < NBUF)%nat) by (destruct (Hfm q x Hq Hxq) as (i & Hi & [= ->]); done).
  destruct (rings_neighbours _ _ _ _ _ _ _ _ Hf Hq E) as (Ep & En & Hpo & Hno & Hpx & Hxl).
  set (p := List.last l1 q) in *. set (n := List.hd q l2) in *.
  destruct (bremfree_spec s st x p n) as (st1 & E1 & R); [done|done| | |done|].
  { by apply ffwd_some, (rings_on Hf). }
  { by apply ffwd_some, (rings_on Hf). }
  set (f := λ r : buf, r <| b_flags ::= λ f, setf f B_BUSY |>).
  assert (Hx1 : is_Some (st1 !! x)).
  { destruct (Hpool j Hj) as (r & Hr & _). pose proof (rl_rest _ _ _ _ _ _ _ R x) as Er. fold x in Hr.
    rewrite Hr in Er. by destruct (st1 !! x); [eexists|]. }
  exists (alter f x st1). split; [unfold notavail; rewrite (bind_done _ _ _ _ _ E1); by apply setbuf_with|].
  assert (Hs : same_but st (alter f x st1) x f).
  { apply (same_but_alter st st1 x f (λ r, r)).
    - intros k. rewrite <- bare_alter_id, !bare_nofree. by rewrite (rl_rest _ _ _ _ _ _ _ R).
    - apply stateful_flags. }
  assert (Hl : ∀ k, hfwd (alter f x st1) k = hfwd st k ∧ hbwd (alter f x st1) k = hbwd st k ∧
    ffwd (alter f x st1) k = <[p := Some n]> (ffwd st) k ∧ fbwd (alter f x st1) k = <[n := Some p]> (fbwd st) k).
  { intros k. destruct (alter_links st1 x f k) as (-> & -> & -> & ->); [done|].
    destruct (relinks_free_hash _ _ _ _ R k) as [-> ->]. by rewrite (rl_fwd _ _ _ _ _ _ _ R), (rl_bwd _ _ _ _ _ _ _ R). }
  split; [|done]. eapply (cache_ok_step st _ HL FL); [done|done|done| | |done| | | |].
  - eapply rings_ext; [|exact Hh]. intros k _. by destruct (Hl k) as (? & ? & _).
  - eapply rings_remove; [exact Hf|done|exact E| |]; intros k _; by destruct (Hl k) as (_ & _ & ? & ?).
  - intros q' k Hq' Hk. destruct (decide (q' = q)) as [->|]; [|by rewrite fn_lookup_insert_ne].
    rewrite fn_lookup_insert, E. set_solver.
  - by destruct (Hpool j Hj) as (_ & _ & ? & _).
  - intros r _. simpl. rewrite has_setf_self by done. split; [|done].
    intros (q' & Hq' & Hk). exfalso. destruct (decide (q' = q)) as [->|Hne].
    + by rewrite fn_lookup_insert in Hk.
    + rewrite fn_lookup_insert_ne in Hk by done. apply (rings_other _ _ _ _ q q' x Hf Hq Hq' Hxq Hne). set_solver.
  - intros h r Hh' Hk Hr Hd. by apply (Hpl h x r).
Qed.
End cache.
(** * Searching *)

Definition matches (st : bufs) (dev blkno : Z) (k : bptr) : bool :=
  match st !! k with
  | Some r => (b_blkno r =? blkno) && (b_dev r =? dev) && negb (has (b_flags r) B_INVAL)
  | None => false
  end.
Lemma matches_holds st dev blkno k :
  matches st dev blkno k = true ↔ ∃ r, st !! k = Some r ∧ holds r dev blkno.
Proof.
  unfold matches, holds. destruct (st !! k) as [r|]; [|naive_solver].
  rewrite !andb_true_iff, !Z.eqb_eq, negb_true_iff. naive_solver.
Qed.

Lemma nodup_size {A} (m : gmap bptr A) l :
  NoDup l → (∀ k, k ∈ l → is_Some (m !! k)) → (length l ≤ size m)%nat.
Proof.
  intros Hnd Hin. rewrite <- size_dom, <- (size_list_to_set (C := gset bptr) l) by done.
  apply subseteq_size. intros n Hn. apply elem_of_list_to_set in Hn. apply elem_of_dom. auto.
Qed.

Lemma hash_find_spec s fuel dp a l dev blkno :
  path (hfwd (bstore s)) (hbwd (bstore s)) a l dp → dp ∉ l → (length l <= fuel)%nat →
  hash_find fuel dp (List.hd dp l) dev blkno s = Done (List.find (matches (bstore s) dev blkno) l) s.
Proof.
  revert fuel a. induction l as [|x l IH]; intros fuel a Hp Hd Hf.
  - destruct fuel; cbn [hash_find List.hd]; by rewrite decide_True.
  - rewrite elem_of_cons in Hd. destruct fuel as [|fuel]; simpl in Hf; [lia|].
    cbn [hash_find List.hd]. rewrite decide_False by naive_solver.
    destruct Hp as (_ & _ & Hp). pose proof (path_first _ _ _ _ _ Hp) as Hx.
    apply view_get in Hx as (r & Hr & Ex).
    rewrite (bind_done _ _ _ _ _ (getbuf_eq _ _ _ Hr)). cbv beta.
    cbn [List.find]. unfold matches at 1. rewrite Hr.
    destruct (b_blkno r =? blkno), (b_dev r =? dev), (has (b_flags r) B_INVAL); try done;
      cbn [negb andb orb]; bopt Ex; apply (IH fuel x); (done || naive_solver lia).
Qed.

Section search.
Context `{KConfig}.

Lemma hash_search_spec s HL FL dp dev blkno :
  cache_ok (bstore s) HL FL → dp ∈ hheads →
  hash_search dp dev blkno s = Done (List.find (matches (bstore s) dev blkno) (HL dp)) s.
Proof.
  intros [Hh _ Hpool Hhm _ _] Hdp. pose proof (rg_path _ _ _ _ Hh dp Hdp) as Hp.
  pose proof (rg_nodup _ _ _ _ Hh dp Hdp) as [Hn Hnd]%NoDup_cons.
  unfold hash_search. rewrite (bind_done _ _ _ _ _ (get_s_eq _)).
  pose proof (path_first _ _ _ _ _ Hp) as Hx. apply view_get in Hx as (r & Hr & Ex).
  rewrite (bind_done _ _ _ _ _ (getbuf_eq _ _ _ Hr)). cbv beta. bopt Ex.
  eapply hash_find_spec; [done|done|]. apply nodup_size; [done|]. intros k Hk.
  destruct (Hhm dp k Hdp Hk) as (i & Hi & ->). destruct (Hpool i Hi) as (r' & Hr' & _). by exists r'.
Qed.

Lemma BUFHASH_head dev blkno : BUFHASH dev blkno ∈ hheads.
Proof.
  unfold BUFHASH, hheads. apply elem_of_app. left. apply list_elem_of_fmap. eexists. split; [done|].
  apply elem_of_seq. change (Z.of_nat BUFHSZ - 1) with (Z.ones 4). rewrite Z.land_ones by lia.
  pose proof (Z.mod_pos_bound (dev + blkno) (2 ^ 4) eq_refl). change (Z.of_nat BUFHSZ) with 16. unfold BUFHSZ. lia.
Qed.

(** A block is cached exactly when a buffer of its chain holds it. *)
Lemma cached_in_chain st HL FL i r dev blkno :
  cache_ok st HL FL → (i < NBUF)%nat → st !! BufP i = Some r → holds r dev blkno → dev ≠ NODEV →
  BufP i ∈ HL (BUFHASH dev blkno).
Proof.
  intros [_ _ Hpool _ _ Hpl] Hi Hr (Hd & Hb & Hv) Hne. destruct (Hpool i Hi) as (r' & Hr' & (h & Hh & Hk) & _).
  rewrite <- (Hpl h (BufP i) r) in Hk; [by subst dev blkno|done..|]. by rewrite Hd.
Qed.

(** the hashed search of [incore] finds what a search of the whole pool
    would: a block is in core exactly when some buffer holds it. *)
Theorem incore_searches_pool s HL FL dev blkno :
  cache_ok (bstore s) HL FL → dev ≠ NODEV →
  incore dev blkno s = Done (existsb (λ i, matches (bstore s) dev blkno (BufP i)) (seq 0 NBUF)) s.
Proof.
  intros Hc Hne. unfold incore.
  rewrite (bind_done _ _ _ _ _ (hash_search_spec _ _ _ _ _ _ Hc (BUFHASH_head dev blkno))). cbv beta.
  change (fsbtodb blkno) with blkno. rewrite mret_eq. f_equal.
  destruct (List.find _ _) as [k|] eqn:Ef; symmetry.
  - apply List.find_some in Ef as [Hk Hm]. apply list_elem_of_In in Hk.
    destruct (ck_hmem _ _ _ Hc _ _ (BUFHASH_head dev blkno) Hk) as (i & Hi & ->).
    apply existsb_exists. exists i. split; [apply in_seq; lia|done].
  - apply not_true_is_false. intros (i & Hi & Hm)%existsb_exists. apply in_seq in Hi.
    apply matches_holds in Hm as Hm'. destruct Hm' as (r & Hr & Hh).
    pose proof (cached_in_chain _ _ _ i r dev blkno Hc ltac:(lia) Hr Hh Hne) as Hin.
    apply list_elem_of_In in Hin. pose proof (List.find_none _ _ Ef _ Hin). congruence.
Qed.
End search.
(** * Getting a buffer *)

Lemma rehash_spec s st HL h0 l1 x l2 dp :
  rings (hfwd st) (hbwd st) hheads HL → h0 ∈ hheads → HL h0 = l1 ++ x :: l2 → dp ∈ hheads →
  let HL1 := <[h0 := l1 ++ l2]> HL in
  ∃ st1 st2, bremhash x (with_b s st) = Done tt (with_b s st1) ∧
    binshash x dp (with_b s st1) = Done tt (with_b s st2) ∧
    rings (hfwd st2) (hbwd st2) hheads (<[dp := x :: HL1 dp]> HL1) ∧
    ∀ k, nohash <$> st2 !! k = nohash <$> st !! k.
Proof.
  intros Hh Hh0 E Hdp HL1.
  destruct (rings_neighbours _ _ _ _ _ _ _ _ Hh Hh0 E) as (Ep & En & Hpo & Hno & Hpx & _).
  destruct (bremhash_spec s st x _ _ Ep En) as (st1 & E1 & R1); [| |done|].
  { by apply hfwd_some, (rings_on Hh). }
  { by apply hfwd_some, (rings_on Hh). }
  assert (Hh1 : rings (hfwd st1) (hbwd st1) hheads HL1).
  { eapply rings_remove; [exact Hh|done|exact E| |]; intros k _; [apply R1|apply R1]. }
  pose proof (rings_removed _ _ _ _ _ _ _ _ Hh Hh0 E) as Hoff. fold HL1 in Hoff.
  pose proof (rg_path _ _ _ _ Hh1 dp Hdp) as Hp1. apply path_first in Hp1.
  assert (Hxd : x ≠ dp) by (intros ->; apply Hoff; exists dp; split; [done|apply elem_of_cons; by left]).
  assert (Hno1 : on_ring hheads HL1 (List.hd dp (HL1 dp))) by (exists dp; split; [done|apply hd_in]).
  destruct (binshash_spec s st1 x dp _ Hp1) as (st2 & E2 & R2); [| |done| |].
  { by apply hfwd_some, (rings_on Hh1). }
  { pose proof (rl_rest _ _ _ _ _ _ _ R1 x) as Er. apply view_some in Ep as [r Hr].
    rewrite Hr in Er. by destruct (st1 !! x); [eexists|]. }
  { intros E3. apply Hoff. by rewrite E3. }
  exists st1, st2. split; [done|]. split; [done|]. split.
  - assert (Ex : x ≠ List.hd dp (HL1 dp)) by (intros E3; apply Hoff; by rewrite E3).
    eapply (rings_insert _ _ _ _ _ _ dp [] x (HL1 dp)); [exact Hh1|done|done|done|..];
      intros; rewrite ?(rl_fwd _ _ _ _ _ _ _ R2), ?(rl_bwd _ _ _ _ _ _ _ R2); simpl in *;
      rewrite ?fn_lookup_insert, ?fn_lookup_insert_ne by done; rewrite ?fn_lookup_insert; try done;
      by rewrite ?fn_lookup_insert_ne by done.
  - intros k. by rewrite (rl_rest _ _ _ _ _ _ _ R2), (rl_rest _ _ _ _ _ _ _ R1).
Qed.

(** The list [getnewbuf] takes from: AGE before LRU; 0 when both are empty. *)
Definition pick (FL : bptr → list bptr) : nat :=
  match FL (FreeP BQ_AGE), FL (FreeP BQ_LRU) with
  | _ :: _, _ => BQ_AGE
  | [], _ :: _ => BQ_LRU
  | [], [] => 0
  end.

Section getting.
Context `{KConfig} `{KLayout} `{SigEnv} `{BioEnv}.

Lemma fhead q : (q < 3)%nat → FreeP q ∈ fheads.
Proof. intros. unfold fheads. apply list_elem_of_fmap. exists q. split; [done|]. apply elem_of_seq. unfold BQUEUES. lia. Qed.

Lemma getnewbuf_pick_spec s HL FL :
  cache_ok (bstore s) HL FL → getnewbuf_pick BQ_AGE s = Done (pick FL) s.
Proof.
  intros [_ Hf _ _ _ _].
  assert (Hq : ∀ q, (q < 3)%nat → ∃ r, bstore s !! FreeP q = Some r ∧
    (av_forw r = Some (FreeP q) ↔ FL (FreeP q) = [])).
  { intros q Hq. pose proof (rg_path _ _ _ _ Hf _ (fhead q Hq)) as Hp. apply path_first in Hp.
    apply view_get in Hp as (r & Hr & E). exists r. split; [done|]. rewrite E.
    destruct (FL (FreeP q)) as [|y l] eqn:EL; [done|]. simpl. split; [|done]. intros [= ->].
    by destruct (rings_ne _ _ _ _ _ (FreeP q) Hf (fhead q Hq)); [rewrite EL; apply elem_of_cons; left|]. }
  destruct (Hq 2%nat) as (r2 & Hb2 & E2); [lia|]. destruct (Hq 1%nat) as (r1 & Hb1 & E1); [lia|].
  unfold pick, BQ_AGE, BQ_LRU. cbn [getnewbuf_pick].
  rewrite (bind_done _ _ _ _ _ (getbuf_eq _ _ _ Hb2)). cbv beta.
  destruct (FL (FreeP 2)); [rewrite decide_True by tauto|by rewrite decide_False by naive_solver].
  rewrite (bind_done _ _ _ _ _ (getbuf_eq _ _ _ Hb1)). cbv beta.
  destruct (FL (FreeP 1)); [by rewrite decide_True by tauto|by rewrite decide_False by naive_solver].
Qed.

(** What [getnewbuf] makes of the buffer it takes. *)
Definition fresh (i : nat) (r : buf) : buf :=
  (if has (b_flags r) (Z.lor B_RAMREMAP B_PHYS)
   then r <| b_addr := bufdata_addr + DEV_BSIZE * Z.of_nat i |> else r) <| b_flags := B_BUSY |>.

Lemma getnewbuf_clean fuel s st HL FL j rest r :
  let q := FreeP (pick FL) in
  cache_ok st HL FL → pick FL ≠ 0%nat → FL q = BufP j :: rest → st !! BufP j = Some r →
  has (b_flags r) B_DELWRI = false →
  ∃ st', getnewbuf (S fuel) (with_b s st) = Done (BufP j) (with_b s st') ∧
    cache_ok st' HL (<[q := rest]> FL) ∧ same_but st st' (BufP j) (fresh j).
Proof.
  intros q Hc Hp0 Eq Hr Hdel. set (x := BufP j) in *.
  assert (Hq : q ∈ fheads) by (apply fhead; unfold pick; repeat case_match; unfold BQ_AGE, BQ_LRU; lia).
  assert (Hj : (j < NBUF)%nat).
  { destruct (ck_fmem _ _ _ Hc q x Hq) as (i & Hi & [= ->]); [rewrite Eq; apply elem_of_cons; by left|done]. }
  destruct (notavail_spec s st HL FL q [] j rest Hc Hq Eq) as (st1 & E1 & Hc1 & Hs1). simpl in Hc1.
  destruct (same_but_lookup _ _ _ _ _ _ Hs1 Hr) as (r1 & Hr1 & Eb). rewrite decide_True in Eb by done.
  apply bare_fields in Eb as Ef. destruct Ef as (Efl & _). simpl in Efl.
  pose proof (rg_path _ _ _ _ (ck_free _ _ _ Hc) q Hq) as Hpq. apply path_first in Hpq. rewrite Eq in Hpq.
  simpl in Hpq. apply view_get in Hpq as (d & Hd & Ed).
  cbn [getnewbuf]. rewrite (bind_done _ _ _ _ _ (getnewbuf_pick_spec (with_b s st) HL FL Hc)). cbv beta.
  rewrite decide_False by done. fold q. bget Hd. bopt Ed. rewrite (bind_done _ _ _ _ _ E1). cbv beta.
  bget Hr1. rewrite Efl, has_setf by done. rewrite Hdel.
  rewrite has_setf by done.
  set (f := λ r0 : buf, (if has (b_flags r) (Z.lor B_RAMREMAP B_PHYS)
    then r0 <| b_addr := bufdata_addr + DEV_BSIZE * Z.of_nat j |> else r0) <| b_flags := B_BUSY |>).
  assert (Hst : ∃ st2, (when (has (b_flags r) (Z.lor B_RAMREMAP B_PHYS))
      match x with
      | BufP i =>
        if DIAGNOSTIC && (NBUF <=? i)%nat then panic "getnewbuf: RAMREMAP bp addr"
        else setbuf x (λ c, c <| b_addr := bufdata_addr + DEV_BSIZE * Z.of_nat i |>)
      | _ => if DIAGNOSTIC then panic "getnewbuf: RAMREMAP bp addr" else fault
      end) (with_b s st1) = Done tt (with_b s st2) ∧ is_Some (st2 !! x) ∧
      alter (λ c, c <| b_flags := B_BUSY |>) x st2 = alter f x st1).
  { subst x. cbv iota. replace (NBUF <=? j)%nat with false by (symmetry; by apply Nat.leb_gt).
    rewrite andb_false_r. unfold f. destruct (has (b_flags r) (Z.lor B_RAMREMAP B_PHYS)); cbn [when].
    - eexists. split; [apply setbuf_with; by eexists|]. split; [apply is_Some_alter; by eexists|].
      apply map_eq. intros k. destruct (decide (k = BufP j)) as [->|]; [|by rewrite !lookup_alter_ne].
      rewrite !lookup_alter_eq. by destruct (st1 !! BufP j).
    - exists st1. split; [done|]. split; [by eexists|done]. }
  destruct Hst as (st2 & E2 & Hx2 & Ea). rewrite (bind_done _ _ _ _ _ E2). cbv beta. bset Hx2. rewrite Ea.
  exists (alter f x st1). split; [done|].
  assert (Hff : ∀ r0, b_forw (f r0) = b_forw r0 ∧ b_back (f r0) = b_back r0 ∧ av_forw (f r0) = av_forw r0 ∧
    av_back (f r0) = av_back r0 ∧ b_dev (f r0) = b_dev r0 ∧ b_blkno (f r0) = b_blkno r0 ∧ b_flags (f r0) = B_BUSY)
    by (intros r0; subst f; cbv beta; destruct (has (b_flags r) (Z.lor B_RAMREMAP B_PHYS)); split_and!; reflexivity).
  destruct (Hff r1) as (F1 & F2 & F3 & F4 & F5 & F6 & F7). split.
  - eapply (cache_ok_alter _ _ _ j f r1); [done..| |intros _; by rewrite F5, F6].
    by rewrite F7, Efl, has_setf_self.
  - intros k. pose proof (Hs1 k) as Ek. destruct (decide (k = x)) as [->|Hk].
    + rewrite !lookup_alter_eq, Hr, Hr1. simpl.
      f_equal. unfold f, fresh. apply bare_fields in Eb as (? & ? & ? & ? & ? & ? & ?).
      destruct (has (b_flags r) (Z.lor B_RAMREMAP B_PHYS)); by apply bare_eq.
    + rewrite !lookup_alter_ne in Ek |- * by done. by rewrite lookup_alter_ne.
Qed.
End getting.
(** Who is on which chain after a cell moved. *)
Lemma moved_mem (L : bptr → list bptr) h0 l1 x l2 dp h k :
  L h0 = l1 ++ x :: l2 → k ≠ x →
  k ∈ (<[dp := x :: <[h0 := l1 ++ l2]> L dp]> (<[h0 := l1 ++ l2]> L)) h ↔ k ∈ L h.
Proof.
  intros E Hk. assert (Hc : ∀ h, k ∈ <[h0 := l1 ++ l2]> L h ↔ k ∈ L h).
  { intros h'. destruct (decide (h' = h0)) as [->|]; [|by rewrite fn_lookup_insert_ne].
    rewrite fn_lookup_insert, E, !elem_of_app, elem_of_cons. tauto. }
  destruct (decide (h = dp)) as [->|]; [|by rewrite fn_lookup_insert_ne].
  rewrite fn_lookup_insert, elem_of_cons, Hc. tauto.
Qed.

Section getblk.
Context `{KConfig} `{KLayout} `{SigEnv} `{BioEnv}.

Definition busied (r : buf) : buf := r <| b_flags ::= λ f, setf f B_BUSY |>.
(** The buffer [getblk] has assigned to a block. *)
Definition claimed (j : nat) (dev blkno : Z) (r : buf) : buf :=
  fresh j r <| b_bcount := 0 |> <| b_dev := dev |> <| b_blkno := blkno |> <| b_error := 0 |>.

Lemma find_none_holds s HL FL dev blkno i r :
  cache_ok (bstore s) HL FL → dev ≠ NODEV →
  List.find (matches (bstore s) dev blkno) (HL (BUFHASH dev blkno)) = None →
  (i < NBUF)%nat → bstore s !! BufP i = Some r → ¬ holds r dev blkno.
Proof.
  intros Hc Hne Ef Hi Hr Hh. pose proof (cached_in_chain _ _ _ _ _ _ _ Hc Hi Hr Hh Hne) as Hin.
  apply list_elem_of_In in Hin. pose proof (List.find_none _ _ Ef _ Hin) as Hm.
  assert (matches (bstore s) dev blkno (BufP i) = true) by (apply matches_holds; eauto). congruence.
Qed.

(** Uniqueness after one buffer changed. *)
Lemma unique_step st st' j f :
  unique st → same_but st st' (BufP j) f →
  (j < NBUF)%nat →
  (∀ r i ri, st !! BufP j = Some r → i ≠ j → (i < NBUF)%nat → st !! BufP i = Some ri → valid ri → valid (f r) →
    b_dev ri = b_dev (f r) → b_blkno ri ≠ b_blkno (f r)) →
  unique st'.
Proof.
  intros Hu Hs Hj Hf i k ri rk Li Lk Hi Hk Vi Vk Ed Eb.
  destruct (same_but_inv _ _ _ _ _ _ Hs Hi) as (qi & Hqi & Bi).
  destruct (same_but_inv _ _ _ _ _ _ Hs Hk) as (qk & Hqk & Bk).
  apply bare_fields in Bi as (Fi & _ & _ & Di & _ & Ni & _). apply bare_fields in Bk as (Fk & _ & _ & Dk & _ & Nk & _).
  unfold valid in Vi, Vk. rewrite Fi, Di in Vi. rewrite Fk, Dk in Vk. rewrite Di, Dk in Ed. rewrite Ni, Nk in Eb.
  destruct (decide (i = j)) as [->|Hij], (decide (k = j)) as [->|Hkj]; [done| | |].
  - rewrite decide_True in * by done. rewrite decide_False in * by congruence.
    by destruct (Hf qi k qk Hqi Hkj Lk Hqk Vk Vi).
  - rewrite decide_True in * by done. rewrite (decide_False (P := BufP i = BufP j)) in * by congruence.
    by destruct (Hf qk i qi Hqk Hij Li Hqi Vi Vk).
  - rewrite !decide_False in * by congruence. by apply (Hu i k qi qk Li Lk).
Qed.

Lemma getblk_hit fuel s HL FL dev blkno j r :
  cache_ok (bstore s) HL FL → unique (bstore s) → (nblkdev <=? major dev) = false →
  List.find (matches (bstore s) dev blkno) (HL (BUFHASH dev blkno)) = Some (BufP j) →
  bstore s !! BufP j = Some r → has (b_flags r) B_BUSY = false →
  ∃ st' FL', getblk (S fuel) dev blkno s = Done (BufP j) (with_b s st') ∧
    cache_ok st' HL FL' ∧ unique st' ∧ same_but (bstore s) st' (BufP j) busied.
Proof.
  intros Hc Hu Hmaj Ef Hr Hb. apply List.find_some in Ef as Ein. destruct Ein as [Hin Hm].
  apply list_elem_of_In in Hin.
  destruct (ck_hmem _ _ _ Hc _ _ (BUFHASH_head dev blkno) Hin) as (i & Hi & [= <-]).
  destruct (ck_pool _ _ _ Hc j Hi) as (r0 & Hr0 & _ & Hfree). assert (r0 = r) as -> by congruence.
  apply Hfree in Hb as Hq. destruct Hq as (q & Hq & Hjq). apply list_elem_of_split in Hjq as (l1 & l2 & E).
  destruct (notavail_spec s (bstore s) HL FL q l1 j l2 Hc Hq E) as (st' & E1 & Hc' & Hs).
  rewrite with_b_id in E1. exists st', (<[q := l1 ++ l2]> FL). split; [|split; [done|split; [|done]]].
  - unfold getblk. rewrite Hmaj, andb_false_r. cbn [when]. rewrite (bind_done _ _ _ _ _ (mret_eq _ _)).
    cbn [getblk_loop]. change (fsbtodb blkno) with blkno.
    rewrite (bind_done _ _ _ _ _ (hash_search_spec _ _ _ _ _ _ Hc (BUFHASH_head dev blkno))). cbv beta. rewrite Ef.
    rewrite (bind_done _ _ _ _ _ (getbuf_eq _ _ _ Hr)). cbv beta. rewrite Hb. by rewrite (bind_done _ _ _ _ _ E1).
  - eapply unique_step; [exact Hu|exact Hs|done|]. intros r1 k rk Hr1 Hkj Lk Hk Vk Vr Ed Eb.
    assert (r1 = r) as -> by congruence. apply Hkj. apply (Hu k j rk r Lk Hi Hk Hr Vk); [|exact Ed|exact Eb].
    destruct Vr as [V1 V2]. split; [|exact V2]. simpl in V1. by rewrite has_setf in V1.
Qed.

(** The tail of [getblk]: a busy buffer moves to another block's chain. *)
Lemma assign_spec {A} (k : K A) s st HL FL j r dp dev blkno :
  let x := BufP j in
  cache_ok st HL FL → (j < NBUF)%nat → st !! x = Some r → dp ∈ hheads →
  (dev ≠ NODEV → BUFHASH dev blkno = dp) →
  ∃ st' HL',
    (bfree x ;; bremhash x ;; binshash x dp ;; setbuf x (λ c, c <| b_dev := dev |>) ;;
     setbuf x (λ c, c <| b_blkno := blkno |>) ;; setbuf x (λ c, c <| b_error := 0 |>) ;; k) (with_b s st) =
      k (with_b s st') ∧
    cache_ok st' HL' FL ∧
    same_but st st' x (λ r, r <| b_bcount := 0 |> <| b_dev := dev |> <| b_blkno := blkno |> <| b_error := 0 |>).
Proof.
  intros x Hc Hj Hr Hdp Hplace. destruct (ck_pool _ _ _ Hc j Hj) as (r0 & Hr0 & (h0 & Hh0 & Hxh) & Hbusy). fold x in Hxh, Hr0.
  assert (r0 = r) as -> by congruence. apply list_elem_of_split in Hxh as (l1 & l2 & EH).
  set (st2 := alter (λ c, c <| b_bcount := 0 |>) x st).
  assert (Hl2 : ∀ k, hfwd st2 k = hfwd st k ∧ hbwd st2 k = hbwd st k ∧ ffwd st2 k = ffwd st k ∧ fbwd st2 k = fbwd st k)
    by (intros n; by apply alter_links).
  assert (Hh2 : rings (hfwd st2) (hbwd st2) hheads HL).
  { eapply rings_ext; [|exact (ck_hash _ _ _ Hc)]. intros n _. destruct (Hl2 n) as (-> & -> & _). done. }
  destruct (rehash_spec s st2 HL h0 l1 x l2 dp Hh2 Hh0 EH Hdp) as (st3 & st4 & E3 & E4 & Hh4 & Hnh).
  set (g := λ c : buf, c <| b_dev := dev |> <| b_blkno := blkno |> <| b_error := 0 |>).
  assert (Hx4 : is_Some (st4 !! x)).
  { pose proof (Hnh x) as En. unfold st2 in En. rewrite lookup_alter_eq, Hr in En. by destruct (st4 !! x); [eexists|]. }
  assert (Hl : ∀ n, hfwd (alter g x st4) n = hfwd st4 n ∧ hbwd (alter g x st4) n = hbwd st4 n ∧
    ffwd (alter g x st4) n = ffwd st4 n ∧ fbwd (alter g x st4) n = fbwd st4 n) by (intros n; by apply alter_links).
  assert (Hs : same_but st (alter g x st4) x (λ r, g (r <| b_bcount := 0 |>))).
  { apply same_but_alter; [|apply stateful_assign]. intros n. by rewrite bare_nohash, Hnh, <- bare_nohash. }
  eexists (alter g x st4), _. split; [|split; [|exact Hs]].
  - unfold bfree. assert (Hx1 : is_Some (st !! x)) by (by eexists). bset Hx1. fold st2.
    rewrite (bind_done _ _ _ _ _ E3). cbv beta. rewrite (bind_done _ _ _ _ _ E4). cbv beta.
    bset Hx4. assert (Hx5 := is_Some_alter st4 x (λ c, c <| b_dev := dev |>) x Hx4). bset Hx5.
    assert (Hx6 := is_Some_alter _ x (λ c, c <| b_blkno := blkno |>) x Hx5). bset Hx6. f_equal. f_equal.
    apply map_eq. intros n. destruct (decide (n = x)) as [->|]; [|by rewrite !lookup_alter_ne].
    rewrite !lookup_alter_eq. by destruct (st4 !! x).
  - eapply (cache_ok_step st _ HL FL _ _ j); [done|done|exact Hs| | | |done| | |].
    + eapply rings_ext; [|exact Hh4]. intros n _. destruct (Hl n) as (-> & -> & _). done.
    + eapply rings_ext; [|exact (ck_free _ _ _ Hc)]. intros n _. destruct (Hl n) as (_ & _ & -> & ->).
      rewrite !ffwd_nohash, !fbwd_nohash, !Hnh, <- !ffwd_nohash, <- !fbwd_nohash.
      by destruct (Hl2 n) as (_ & _ & ? & ?).
    + intros h n Hh Hn. by apply moved_mem.
    + exists dp. split; [done|]. rewrite fn_lookup_insert. apply elem_of_cons. by left.
    + intros r1 Hr1. change (st !! x = Some r1) in Hr1. assert (r1 = r) as -> by congruence. exact Hbusy.
    + intros h r1 Hh Hk _ Hd. change (BUFHASH dev blkno = h). change (dev ≠ NODEV) in Hd. rewrite (Hplace Hd).
      destruct (decide (h = dp)) as [->|Hnd]; [done|]. exfalso. rewrite fn_lookup_insert_ne in Hk by done.
      apply (rings_removed _ _ _ _ _ _ _ _ Hh2 Hh0 EH). exists h. split; [done|]. apply elem_of_cons. by right.
Qed.

Lemma pick_fheads FL : FreeP (pick FL) ∈ fheads.
Proof. apply fhead. unfold pick. repeat case_match; unfold BQ_AGE, BQ_LRU; lia. Qed.

Lemma getblk_miss fuel s HL FL dev blkno j rest r :
  cache_ok (bstore s) HL FL → unique (bstore s) → dev ≠ NODEV → (nblkdev <=? major dev) = false →
  List.find (matches (bstore s) dev blkno) (HL (BUFHASH dev blkno)) = None →
  pick FL ≠ 0%nat → FL (FreeP (pick FL)) = BufP j :: rest → bstore s !! BufP j = Some r →
  has (b_flags r) B_DELWRI = false →
  ∃ st' HL', getblk (S (S fuel)) dev blkno s = Done (BufP j) (with_b s st') ∧
    cache_ok st' HL' (<[FreeP (pick FL) := rest]> FL) ∧ unique st' ∧
    same_but (bstore s) st' (BufP j) (claimed j dev blkno).
Proof.
  intros Hc Hu Hne Hmaj Ef Hp0 EF Hr Hdel. set (x := BufP j) in *.
  assert (Hj : (j < NBUF)%nat).
  { destruct (ck_fmem _ _ _ Hc _ x (pick_fheads FL)) as (i & Hi & [= ->]); [rewrite EF; apply elem_of_cons; by left|done]. }
  destruct (getnewbuf_clean fuel s (bstore s) HL FL j rest r Hc Hp0 EF Hr Hdel) as (st1 & E1 & Hc1 & Hs1).
  rewrite with_b_id in E1. fold x in E1, Hs1.
  destruct (same_but_lookup _ _ _ _ _ _ Hs1 Hr) as (r1 & Hr1 & _).
  destruct (assign_spec (mret x) s st1 HL _ j r1 (BUFHASH dev blkno) dev blkno Hc1 Hj Hr1 (BUFHASH_head dev blkno)) as
    (st' & HL' & E2 & Hc' & Hs2); [done|].
  assert (Hs : same_but (bstore s) st' x (claimed j dev blkno)).
  { refine (same_but_trans _ st1 _ x (fresh j) _ Hs1 Hs2 _).
    intros a b E. apply (stateful_assign dev blkno 0), stateful_bcount, E. }
  exists st', HL'. split; [|split; [done|split; [|exact Hs]]].
  - unfold getblk. rewrite Hmaj, andb_false_r. cbn [when]. rewrite (bind_done _ _ _ _ _ (mret_eq _ _)).
    cbn [getblk_loop]. change (fsbtodb blkno) with blkno.
    rewrite (bind_done _ _ _ _ _ (hash_search_spec _ _ _ _ _ _ Hc (BUFHASH_head dev blkno))). cbv beta. rewrite Ef.
    rewrite (bind_done _ _ _ _ _ E1). cbv beta. exact E2.
  - eapply unique_step; [exact Hu|exact Hs|done|]. intros r0 k rk Hr0 Hkj Hkn Hk [Vk _] _ Ed Eb.
    change (b_dev rk = dev) in Ed. change (b_blkno rk = blkno) in Eb.
    by apply (find_none_holds s HL FL dev blkno k rk Hc Hne Ef Hkn Hk).
Qed.
End getblk.
(** * Releasing *)

Section releasing.
Context `{KConfig} `{KLayout} `{SigEnv} `{BioEnv}.

(** Nobody sleeps on [c]; nobody new sleeps anywhere. *)
Definition none_left (s' : kstate) (c : wchan) : Prop := ∀ p, ¬ Sched.sleeper s' c p.
Definition no_new (s s' : kstate) : Prop := ∀ c p, Sched.sleeper s' c p → Sched.sleeper s c p.

Lemma wakeup_when (t : bool) c s rl sq :
  Sched.sched_inv s rl sq →
  ∃ s' rl' sq', when t (Sched.wakeup c) s = Done tt s' ∧ Sched.sched_frame s s' ∧
    Sched.sched_inv s' rl' sq' ∧ no_new s s' ∧ (t = true → none_left s' c).
Proof.
  intros Hi. destruct t; cbn [when].
  2:{ exists s, rl, sq. split; [done|]. split; [apply Sched.sched_frame_refl|]. split; [done|]. split; [by intros ??|by intros [=]]. }
  destruct (Sched.wakeup_spec c s rl sq Hi) as (s' & E & (Hf & Hnone & Hw) & _ & w & sq' & Hi' & _).
  exists s', (w ++ rl), sq'. split; [done|]. split; [done|]. split; [done|].
  assert (Hback : ∀ c' p, Sched.sleeper s' c' p → ¬ Sched.wakes s c p ∧ Sched.sleeper s c' p).
  { intros c' p (r' & Hr' & Hc'). destruct (procs s !! p) as [r|] eqn:Hr.
    - destruct (Hw p r Hr) as (l & [[_ E']|[Hd E']]); rewrite E' in Hr'; apply (inj Some) in Hr'; subst r'.
      + change (p_wchan (Sched.wake_rec r) = Some c') in Hc'. by rewrite Sched.wake_rec_wchan in Hc'.
      + split; [done|]. exists r. done.
    - apply Hnone in Hr. congruence. }
  split; [intros c' p Hs; by apply Hback|]. intros _ p Hs. apply Hback in Hs as [Hd Hs]. apply Hd. by left.
Qed.
Lemma sched_frame_bstore s s' : Sched.sched_frame s s' → bstore s' = bstore s.
Proof. by intros ->. Qed.
(** Only the scheduler's data and the buffer headers changed. *)
Definition bio_frame (s s' : kstate) : Prop :=
  s' = s <| procs := procs s' |> <| qs := qs s' |> <| slpque := slpque s' |>
         <| runrun := runrun s' |> <| runout := runout s' |> <| bstore := bstore s' |>.
Lemma bio_frame_with s st : bio_frame s (with_b s st).
Proof. by destruct s. Qed.
Lemma bio_frame_sched s s' : Sched.sched_frame s s' → bio_frame s s'.
Proof. unfold Sched.sched_frame, bio_frame. intros E. rewrite E. by destruct s. Qed.
Lemma bio_frame_trans s1 s2 s3 : bio_frame s1 s2 → bio_frame s2 s3 → bio_frame s1 s3.
Proof. unfold bio_frame. intros E1 E2. rewrite E2. rewrite E1. by destruct s1. Qed.
Lemma sched_inv_with s st rl sq : Sched.sched_inv s rl sq → Sched.sched_inv (with_b s st) rl sq.
Proof. by apply Sched.sched_inv_ext. Qed.

(** Where [brelse] puts a buffer, and in which state. *)
Definition queue_of (r : buf) : nat :=
  if has (b_flags r) B_LOCKED then BQ_LOCKED else if has (b_flags r) B_AGE then BQ_AGE else BQ_LRU.
Lemma queue_of_head r : FreeP (queue_of r) ∈ fheads.
Proof. apply fhead. unfold queue_of, BQ_LOCKED, BQ_AGE, BQ_LRU. repeat case_match; lia. Qed.
Definition requeued (r : buf) (k : bptr) (FL : bptr → list bptr) : bptr → list bptr :=
  if has (b_flags r) B_ERROR && negb (has (b_flags r) B_LOCKED) || has (b_flags r) B_INVAL then
    <[FreeP BQ_AGE := k :: FL (FreeP BQ_AGE)]> FL
  else
    let q := FreeP (queue_of r) in
    <[q := FL q ++ [k]]> FL.
Definition errd (r : buf) : buf :=
  if has (b_flags r) B_ERROR then
    if has (b_flags r) B_LOCKED then r <| b_flags ::= λ f, clrf f B_ERROR |> else r <| b_dev := NODEV |>
  else r.
Definition let_go (r : buf) : buf :=
  errd r <| b_flags ::= λ f, clrf f (Z.lor (Z.lor B_WANTED B_BUSY) (Z.lor B_ASYNC B_AGE)) |>.

(** A cell of no free list goes to the front or the end of one. *)
Lemma binsheadfree_rings s st x FL q :
  rings (ffwd st) (fbwd st) fheads FL → q ∈ fheads → ¬ on_ring fheads FL x → is_Some (st !! x) →
  ∃ st', binsheadfree x q (with_b s st) = Done tt (with_b s st') ∧
    rings (ffwd st') (fbwd st') fheads (<[q := x :: FL q]> FL) ∧ ∀ k, nofree <$> st' !! k = nofree <$> st !! k.
Proof.
  intros Hf Hq Hx Hs. pose proof (rg_path _ _ _ _ Hf q Hq) as Hp. apply path_first in Hp.
  assert (Hno : on_ring fheads FL (List.hd q (FL q))) by (exists q; split; [done|apply hd_in]).
  assert (Hxq : x ≠ q) by (intros ->; apply Hx; exists q; split; [done|apply elem_of_cons; by left]).
  assert (Hxn : x ≠ List.hd q (FL q)) by (intros E; apply Hx; by rewrite E).
  destruct (binsheadfree_spec s st x q _ Hp) as (st' & E & R); [by apply ffwd_some, (rings_on Hf)|done..|].
  exists st'. split; [done|]. split; [|apply R].
  eapply (rings_insert _ _ _ _ _ _ q [] x (FL q)); [exact Hf|done|done|done|..];
    intros; rewrite ?(rl_fwd _ _ _ _ _ _ _ R), ?(rl_bwd _ _ _ _ _ _ _ R); simpl in *;
    rewrite ?fn_lookup_insert, ?fn_lookup_insert_ne by done; rewrite ?fn_lookup_insert; try done;
    by rewrite ?fn_lookup_insert_ne by done.
Qed.
Lemma binstailfree_rings s st x FL q :
  rings (ffwd st) (fbwd st) fheads FL → q ∈ fheads → ¬ on_ring fheads FL x → is_Some (st !! x) →
  ∃ st', binstailfree x q (with_b s st) = Done tt (with_b s st') ∧
    rings (ffwd st') (fbwd st') fheads (<[q := FL q ++ [x]]> FL) ∧ ∀ k, nofree <$> st' !! k = nofree <$> st !! k.
Proof.
  intros Hf Hq Hx Hs. pose proof (rg_path _ _ _ _ Hf q Hq) as Hp. apply path_last in Hp.
  assert (Hno : on_ring fheads FL (List.last (FL q) q)) by (exists q; split; [done|apply last_in]).
  assert (Hxq : x ≠ q) by (intros ->; apply Hx; exists q; split; [done|apply elem_of_cons; by left]).
  assert (Hxn : x ≠ List.last (FL q) q) by (intros E; apply Hx; by rewrite E).
  destruct (binstailfree_spec s st x q _ Hp) as (st' & E & R); [by apply ffwd_some, (rings_on Hf)|done..|].
  exists st'. split; [done|]. split; [|apply R].
  eapply (rings_insert _ _ _ _ _ _ q (FL q) x []); [exact Hf|done|by rewrite app_nil_r|done|..];
    intros; rewrite ?(rl_fwd _ _ _ _ _ _ _ R), ?(rl_bwd _ _ _ _ _ _ _ R); simpl in *;
    rewrite ?fn_lookup_insert, ?fn_lookup_insert_ne by done; rewrite ?fn_lookup_insert; try done;
    by rewrite ?fn_lookup_insert_ne by done.
Qed.
End releasing.
Section brelse.
Context `{KConfig} `{KLayout} `{SigEnv} `{BioEnv}.

Lemma cache_ok_head st HL FL q g :
  cache_ok st HL FL → cache_ok (alter (λ c, c <| b_flags ::= g |>) (FreeP q) st) HL FL.
Proof.
  intros [Hh Hf Hpool Hhm Hfm Hpl].
  set (f := λ c : buf, c <| b_flags ::= g |>).
  assert (Hl : ∀ k, hfwd (alter f (FreeP q) st) k = hfwd st k ∧ hbwd (alter f (FreeP q) st) k = hbwd st k ∧
    ffwd (alter f (FreeP q) st) k = ffwd st k ∧ fbwd (alter f (FreeP q) st) k = fbwd st k)
    by (intros k; by apply alter_links).
  assert (Hne : ∀ i, alter f (FreeP q) st !! BufP i = st !! BufP i)
    by (intros; by rewrite lookup_alter_ne).
  split; [| | |done|done|].
  - eapply rings_ext; [|exact Hh]. intros k _. by destruct (Hl k) as (? & ? & _).
  - eapply rings_ext; [|exact Hf]. intros k _. by destruct (Hl k) as (_ & _ & ? & ?).
  - intros i Hi. destruct (Hpool i Hi) as (r & Hr & Hm). exists r. rewrite Hne. exact (conj Hr Hm).
  - intros h k r Hh' Hk. destruct (Hhm h k Hh' Hk) as (i & _ & ->). rewrite Hne. by apply Hpl.
Qed.

(** A busy buffer is on no free list. *)
Lemma busy_off st HL FL j r :
  cache_ok st HL FL → (j < NBUF)%nat → st !! BufP j = Some r → has (b_flags r) B_BUSY = true →
  ¬ on_ring fheads FL (BufP j).
Proof.
  intros Hc Hj Hr Hb (q & Hq & Hk). apply elem_of_cons in Hk as [<-|Hk].
  - by destruct (bufp_not_head j).
  - destruct (ck_pool _ _ _ Hc j Hj) as (r' & Hr' & _ & Hf). assert (r' = r) as -> by congruence.
    assert (has (b_flags r) B_BUSY = false) by (apply Hf; eauto). congruence.
Qed.

Lemma has_clrf_part f m x : Z.land m x = x → x ≠ 0 → has (clrf f m) x = false.
Proof.
  intros E _. unfold has, clrf. apply negb_false_iff, Z.eqb_eq, Z.bits_inj'. intros n Hn. rewrite <- E.
  rewrite !Z.land_spec, Z.ldiff_spec, Z.bits_0. by destruct (Z.testbit f n), (Z.testbit m n).
Qed.
Lemma has_lor f m x : has f (Z.lor m x) = has f m || has f x.
Proof.
  unfold has. rewrite Z.land_lor_distr_r. apply eq_true_iff_eq.
  rewrite orb_true_iff, !negb_true_iff, !Z.eqb_neq, Z.lor_eq_0_iff. lia.
Qed.
Lemma let_go_flags r : has (b_flags (let_go r)) B_BUSY = false.
Proof. apply has_clrf_part; done. Qed.
(** The tests of [brelse] after it looked at the error. *)
Lemma errd_flags r :
  has (b_flags (errd r)) (Z.lor B_ERROR B_INVAL) =
    has (b_flags r) B_ERROR && negb (has (b_flags r) B_LOCKED) || has (b_flags r) B_INVAL ∧
  has (b_flags (errd r)) B_LOCKED = has (b_flags r) B_LOCKED ∧
  has (b_flags (errd r)) B_AGE = has (b_flags r) B_AGE.
Proof.
  unfold errd. destruct (has (b_flags r) B_ERROR) eqn:Ee, (has (b_flags r) B_LOCKED) eqn:El; simpl;
    rewrite ?has_lor, ?has_clrf_self, ?(has_clrf_disj _ B_ERROR) by done; by rewrite ?Ee, ?El.
Qed.
Lemma errd_links r : b_forw (errd r) = b_forw r ∧ b_back (errd r) = b_back r ∧ av_forw (errd r) = av_forw r ∧
  av_back (errd r) = av_back r.
Proof. unfold errd. by destruct (has (b_flags r) B_ERROR), (has (b_flags r) B_LOCKED). Qed.
Lemma let_go_place r : b_dev (let_go r) ≠ NODEV → b_dev (let_go r) = b_dev r ∧ b_blkno (let_go r) = b_blkno r.
Proof. unfold let_go, errd. destruct (has (b_flags r) B_ERROR), (has (b_flags r) B_LOCKED);
  intros Hd; try done; by destruct Hd. Qed.
Lemma stateful_let_go : stateful let_go.
Proof.
  intros r r' (E1 & E2 & E3 & E4 & E5 & E6 & E7)%bare_fields. unfold let_go, errd. rewrite E1.
  destruct (has (b_flags r') B_ERROR), (has (b_flags r') B_LOCKED); apply bare_eq; simpl; by rewrite ?E1.
Qed.

Lemma errd_step s st x r :
  st !! x = Some r →
  when (has (b_flags r) B_ERROR)
    (if has (b_flags r) B_LOCKED then clr_bflags x B_ERROR
     else setbuf x (λ c, c <| b_dev := NODEV |>)) (with_b s st) = Done tt (with_b s (alter errd x st)).
Proof.
  intros Hr. assert (Hx : is_Some (st !! x)) by (by eexists). unfold clr_bflags.
  assert (E : alter errd x st = if has (b_flags r) B_ERROR then
    (if has (b_flags r) B_LOCKED then alter (λ c, c <| b_flags ::= λ f, clrf f B_ERROR |>) x st
     else alter (λ c, c <| b_dev := NODEV |>) x st) else st).
  { apply map_eq. intros k. destruct (decide (k = x)) as [->|Hk].
    - rewrite lookup_alter_eq, Hr. simpl. unfold errd.
      destruct (has (b_flags r) B_ERROR), (has (b_flags r) B_LOCKED); by rewrite ?lookup_alter_eq, Hr.
    - rewrite lookup_alter_ne by done.
      destruct (has (b_flags r) B_ERROR), (has (b_flags r) B_LOCKED); by rewrite ?lookup_alter_ne. }
  rewrite E. destruct (has (b_flags r) B_ERROR), (has (b_flags r) B_LOCKED); cbn [when]; by rewrite ?setbuf_with.
Qed.

Lemma requeue_rings s st x FL r :
  rings (ffwd st) (fbwd st) fheads FL → ¬ on_ring fheads FL x → is_Some (st !! x) →
  ∃ st', (if has (b_flags r) B_ERROR && negb (has (b_flags r) B_LOCKED) || has (b_flags r) B_INVAL
          then binsheadfree x (FreeP BQ_AGE)
          else binstailfree x (FreeP (if has (b_flags r) B_LOCKED then BQ_LOCKED
                                      else if has (b_flags r) B_AGE then BQ_AGE else BQ_LRU))) (with_b s st) =
      Done tt (with_b s st') ∧
    rings (ffwd st') (fbwd st') fheads (requeued r x FL) ∧ ∀ k, nofree <$> st' !! k = nofree <$> st !! k.
Proof.
  intros Hf Hoff Hx. unfold requeued. destruct (_ || _).
  - apply binsheadfree_rings; [done|apply fhead; unfold BQ_AGE; lia|done|done].
  - apply binstailfree_rings; [done|apply queue_of_head|done|done].
Qed.
Lemma requeued_mem r x FL q k : k ≠ x → k ∈ requeued r x FL q ↔ k ∈ FL q.
Proof.
  intros Hk. unfold requeued.
  destruct (has (b_flags r) B_ERROR && _ || _); cbv zeta; [|set (h := FreeP (queue_of r))].
  - destruct (decide (q = FreeP BQ_AGE)) as [->|]; [|by rewrite fn_lookup_insert_ne].
    rewrite fn_lookup_insert, elem_of_cons. tauto.
  - destruct (decide (q = h)) as [->|]; [|by rewrite fn_lookup_insert_ne].
    rewrite fn_lookup_insert, elem_of_app, list_elem_of_singleton. tauto.
Qed.
Lemma requeued_in r x FL : ∃ q, q ∈ fheads ∧ x ∈ requeued r x FL q.
Proof.
  unfold requeued. destruct (has (b_flags r) B_ERROR && _ || _); cbv zeta.
  - exists (FreeP BQ_AGE). split; [apply fhead; unfold BQ_AGE; lia|]. rewrite fn_lookup_insert. apply elem_of_cons. by left.
  - exists (FreeP (queue_of r)). split; [apply queue_of_head|].
    rewrite fn_lookup_insert. apply elem_of_app. right. by apply list_elem_of_singleton.
Qed.

(** The end of [brelse]: the buffer goes on its free list, no longer busy. *)
Lemma requeue_spec s st HL FL j r :
  let x := BufP j in
  cache_ok st HL FL → (j < NBUF)%nat → st !! x = Some r → has (b_flags r) B_BUSY = true →
  ∃ st',
    ((when (has (b_flags r) B_ERROR)
        (if has (b_flags r) B_LOCKED then clr_bflags x B_ERROR
         else setbuf x (λ c, c <| b_dev := NODEV |>))) ;;
     r ← getbuf x;
     (if has (b_flags r) (Z.lor B_ERROR B_INVAL) then binsheadfree x (FreeP BQ_AGE)
      else binstailfree x (FreeP (if has (b_flags r) B_LOCKED then BQ_LOCKED
                                  else if has (b_flags r) B_AGE then BQ_AGE else BQ_LRU))) ;;
     clr_bflags x (Z.lor (Z.lor B_WANTED B_BUSY) (Z.lor B_ASYNC B_AGE))) (with_b s st) =
      Done tt (with_b s st') ∧
    cache_ok st' HL (requeued r x FL) ∧ same_but st st' x let_go.
Proof.
  intros x Hc Hj Hr Hb. pose proof (busy_off _ _ _ _ _ Hc Hj Hr Hb) as Hoff.
  set (st1 := alter errd x st).
  assert (Hr1 : st1 !! x = Some (errd r)) by (unfold st1; by rewrite lookup_alter_eq, Hr).
  rewrite (bind_done _ _ _ _ _ (errd_step s st x r Hr)). fold st1. cbv beta. bget Hr1.
  destruct (errd_flags r) as (-> & -> & ->).
  assert (Hl1 : ∀ k, hfwd st1 k = hfwd st k ∧ hbwd st1 k = hbwd st k ∧ ffwd st1 k = ffwd st k ∧ fbwd st1 k = fbwd st k)
    by (intros k; apply alter_links, errd_links).
  assert (Hf1 : rings (ffwd st1) (fbwd st1) fheads FL).
  { eapply rings_ext; [|exact (ck_free _ _ _ Hc)]. intros k _. by destruct (Hl1 k) as (_ & _ & ? & ?). }
  assert (Hx1 : is_Some (st1 !! x)) by (by eexists).
  destruct (requeue_rings s st1 x FL r Hf1 Hoff Hx1) as (st2 & E2 & Hf2 & Hn2).
  rewrite (bind_done _ _ _ _ _ E2). cbv beta.
  set (g := λ c : buf, c <| b_flags ::= λ f, clrf f (Z.lor (Z.lor B_WANTED B_BUSY) (Z.lor B_ASYNC B_AGE)) |>).
  assert (Hx2 : is_Some (st2 !! x)).
  { pose proof (Hn2 x) as En. rewrite Hr1 in En. by destruct (st2 !! x); [eexists|]. }
  assert (Hs : same_but st (alter g x st2) x let_go).
  { refine (same_but_alter st st2 x g errd _ (stateful_flags _)).
    intros k. by rewrite !bare_nofree, Hn2. }
  assert (Hl : ∀ k, hfwd (alter g x st2) k = hfwd st k ∧ hbwd (alter g x st2) k = hbwd st k ∧
    ffwd (alter g x st2) k = ffwd st2 k ∧ fbwd (alter g x st2) k = fbwd st2 k).
  { intros k. destruct (alter_links st2 x g k) as (-> & -> & -> & ->); [done|].
    rewrite !hfwd_nofree, !hbwd_nofree, Hn2, <- !hfwd_nofree, <- !hbwd_nofree. by destruct (Hl1 k) as (-> & -> & _). }
  exists (alter g x st2). split; [by apply setbuf_with|]. split; [|exact Hs].
  eapply (cache_ok_step st _ HL FL _ _ j let_go); [done|done|exact Hs| | |done| | | |].
  - eapply rings_ext; [|exact (ck_hash _ _ _ Hc)]. intros k _. by destruct (Hl k) as (? & ? & _).
  - eapply rings_ext; [|exact Hf2]. intros k _. by destruct (Hl k) as (_ & _ & ? & ?).
  - intros q k Hq Hk. by apply requeued_mem.
  - by destruct (ck_pool _ _ _ Hc j Hj) as (_ & _ & ? & _).
  - intros r0 _. rewrite let_go_flags. split; [done|]. intros _. apply requeued_in.
  - intros h r0 Hh Hk Hr0 Hd. destruct (let_go_place _ Hd) as [-> ->]. apply (ck_place _ _ _ Hc h x r0); [done..|].
    by destruct (let_go_place _ Hd) as [<- _].
Qed.
(** The free-list head after [brelse] looked at it. *)
Definition unwant (st : bufs) : bufs :=
  match st !! FreeP 0 with
  | Some f => if has (b_flags f) B_WANTED
              then alter (λ c, c <| b_flags ::= λ f, clrf f B_WANTED |>) (FreeP 0) st else st
  | None => st
  end.
Lemma unwant_other st k : k ≠ FreeP 0 → unwant st !! k = st !! k.
Proof. intros Hk. unfold unwant. repeat case_match; by rewrite ?lookup_alter_ne. Qed.
Lemma cache_ok_unwant st HL FL : cache_ok st HL FL → cache_ok (unwant st) HL FL.
Proof. intros Hc. unfold unwant. repeat case_match; [by apply cache_ok_head|done..]. Qed.

Lemma brelse_spec s HL FL rl sq j r :
  cache_ok (bstore s) HL FL → Sched.sched_inv s rl sq → (j < NBUF)%nat →
  bstore s !! BufP j = Some r → has (b_flags r) B_BUSY = true →
  ∃ s' rl' sq', brelse (BufP j) s = Done tt s' ∧ bio_frame s s' ∧ Sched.sched_inv s' rl' sq' ∧
    cache_ok (bstore s') HL (requeued r (BufP j) FL) ∧
    same_but (unwant (bstore s)) (bstore s') (BufP j) let_go ∧
    no_new s s' ∧ (has (b_flags r) B_WANTED = true → none_left s' (chan (BufP j))) ∧
    (∀ f, bstore s !! FreeP 0 = Some f → has (b_flags f) B_WANTED = true → none_left s' (chan (FreeP 0))).
Proof.
  intros Hc Hi Hj Hr Hb. unfold brelse. rewrite (bind_done _ _ _ _ _ (getbuf_eq _ _ _ Hr)). cbv beta.
  destruct (wakeup_when (has (b_flags r) B_WANTED) (chan (BufP j)) s rl sq Hi) as
    (s1 & rl1 & sq1 & E1 & F1 & Hi1 & N1 & W1).
  rewrite (bind_done _ _ _ _ _ E1). cbv beta. pose proof (sched_frame_bstore _ _ F1) as B1.
  pose proof (path_first _ _ _ _ _ (rg_path _ _ _ _ (ck_free _ _ _ Hc) (FreeP 0) (fhead 0 ltac:(lia)))) as Hf0.
  apply view_get in Hf0 as (f & Hf0 & _). rewrite <- B1 in Hf0.
  rewrite (bind_done _ _ _ _ _ (getbuf_eq _ _ _ Hf0)). cbv beta. rewrite B1 in Hf0.
  assert (E2 : ∃ s2 rl2 sq2,
    when (has (b_flags f) B_WANTED) (clr_bflags (FreeP 0) B_WANTED ;; Sched.wakeup (chan (FreeP 0))) s1 = Done tt s2 ∧
    bio_frame s1 s2 ∧ bstore s2 = unwant (bstore s) ∧ Sched.sched_inv s2 rl2 sq2 ∧ no_new s1 s2 ∧
    (has (b_flags f) B_WANTED = true → none_left s2 (chan (FreeP 0)))).
  { unfold unwant. rewrite Hf0. destruct (has (b_flags f) B_WANTED); cbn [when].
    2:{ exists s1, rl1, sq1. split; [done|]. split; [by destruct s1|]. split; [done|]. split; [done|].
        split; [by intros ??|by intros [=]]. }
    unfold clr_bflags. rewrite <- (with_b_id s1), B1.
    rewrite (bind_done _ _ _ _ _ (setbuf_with s1 (bstore s) (FreeP 0) _ ltac:(by eexists))). cbv beta.
    set (st1 := alter _ (FreeP 0) (bstore s)).
    destruct (wakeup_when true (chan (FreeP 0)) (with_b s1 st1) rl1 sq1) as
      (s2 & rl2 & sq2 & E & F2 & Hi2 & N2 & W2); [by apply sched_inv_with|].
    exists s2, rl2, sq2. split; [exact E|]. split; [|split; [by rewrite (sched_frame_bstore _ _ F2)|done]].
    rewrite <- B1, with_b_id. eapply bio_frame_trans; [apply (bio_frame_with s1 st1)|by apply bio_frame_sched]. }
  destruct E2 as (s2 & rl2 & sq2 & E2 & F2 & B2 & Hi2 & N2 & W2). rewrite (bind_done _ _ _ _ _ E2). cbv beta.
  assert (Hr2 : unwant (bstore s) !! BufP j = Some r) by (by rewrite unwant_other).
  assert (Hr2' : bstore s2 !! BufP j = Some r) by (by rewrite B2).
  rewrite (bind_done _ _ _ _ _ (getbuf_eq _ _ _ Hr2')). cbv beta.
  destruct (requeue_spec s2 (unwant (bstore s)) HL FL j r) as (st' & E3 & Hc' & Hs);
    [by apply cache_ok_unwant|done..|].
  rewrite <- B2, with_b_id in E3. exists (with_b s2 st'), rl2, sq2. split; [exact E3|].
  split; [|split; [by apply sched_inv_with|split; [done|split; [done|split; [|split]]]]].
  - eapply bio_frame_trans; [by apply bio_frame_sched|]. eapply bio_frame_trans; [exact F2|]. apply bio_frame_with.
  - intros c p Hp. apply N1, N2. exact Hp.
  - intros Hw p Hp. apply (W1 Hw p), N2. exact Hp.
  - intros f' Hf' Hw p Hp. assert (f' = f) as -> by congruence. by apply (W2 Hw p).
Qed.

(** C13: [brelse] puts a busy buffer on the free list its state calls for: an
    invalid one or one whose transfer failed at the front of AGE, the others at
    the end of LOCKED, AGE or LRU; it is no longer busy, the cache stays well
    formed, and nobody is left asleep waiting for the buffer, or for any buffer. *)
Theorem brelse_requeues s HL FL rl sq j r :
  cache_ok (bstore s) HL FL → Sched.sched_inv s rl sq → (j < NBUF)%nat →
  bstore s !! BufP j = Some r → has (b_flags r) B_BUSY = true →
  ∃ s' rl' sq', brelse (BufP j) s = Done tt s' ∧ bio_frame s s' ∧ Sched.sched_inv s' rl' sq' ∧
    cache_ok (bstore s') HL (requeued r (BufP j) FL) ∧
    same_but (unwant (bstore s)) (bstore s') (BufP j) let_go ∧
    no_new s s' ∧ (has (b_flags r) B_WANTED = true → none_left s' (chan (BufP j))) ∧
    (∀ f, bstore s !! FreeP 0 = Some f → has (b_flags f) B_WANTED = true → none_left s' (chan (FreeP 0))).
Proof. apply brelse_spec. Qed.
End brelse.
(** * Checking a concrete cache *)

Section check.
Context `{KConfig}.

Definition pool_mem (k : bptr) : bool := match k with BufP i => (i <? NBUF)%nat | _ => false end.
Definition cache_okb (st : bufs) (HL FL : bptr → list bptr) : bool :=
  bool_decide (Forall (λ h, path (hfwd st) (hbwd st) h (HL h) h) hheads) &&
  bool_decide (NoDup (hheads ≫= λ h, h :: HL h)) &&
  bool_decide (Forall (λ h, path (ffwd st) (fbwd st) h (FL h) h) fheads) &&
  bool_decide (NoDup (fheads ≫= λ h, h :: FL h)) &&
  forallb (λ i, match st !! BufP i with
    | Some r => existsb (λ h, bool_decide (BufP i ∈ HL h)) hheads &&
        eqb (existsb (λ q, bool_decide (BufP i ∈ FL q)) fheads) (negb (has (b_flags r) B_BUSY))
    | None => false
    end) (seq 0 NBUF) &&
  forallb (λ h, forallb (λ k, pool_mem k && match st !! k with
    | Some r => (b_dev r =? NODEV) || bool_decide (BUFHASH (b_dev r) (b_blkno r) = h)
    | None => true
    end) (HL h)) hheads &&
  forallb (λ q, forallb pool_mem (FL q)) fheads.

Lemma existsb_elem {A} (P : A → Prop) `{∀ a, Decision (P a)} l :
  existsb (λ a, bool_decide (P a)) l = true ↔ ∃ a, a ∈ l ∧ P a.
Proof.
  rewrite existsb_exists. split; intros (a & Ha & Hp); exists a.
  - by rewrite bool_decide_eq_true, <- list_elem_of_In in *.
  - rewrite bool_decide_eq_true. by rewrite list_elem_of_In in Ha.
Qed.
Lemma forallb_elem {A} (f : A → bool) l a : forallb f l = true → a ∈ l → f a = true.
Proof. intros Hf Ha. rewrite forallb_forall in Hf. by apply Hf, list_elem_of_In. Qed.
Lemma pool_mem_spec k : pool_mem k = true → ∃ i, (i < NBUF)%nat ∧ k = BufP i.
Proof. destruct k; try done. intros Hk%Nat.ltb_lt. eauto. Qed.

Lemma cache_okb_ok st HL FL : cache_okb st HL FL = true → cache_ok st HL FL.
Proof.
  unfold cache_okb. rewrite !andb_true_iff, !bool_decide_eq_true. intros [[[[[[H1 H2] H3] H4] H5] H6] H7]. split.
  - by apply rings_check.
  - by apply rings_check.
  - intros i Hi. pose proof (forallb_elem _ _ i H5 ltac:(apply elem_of_seq; lia)) as Hb. cbv beta in Hb.
    destruct (st !! BufP i) as [r|]; [|done]. exists r. split; [done|].
    apply andb_prop in Hb as [Hh Hf]. apply existsb_elem in Hh. split; [done|].
    apply eqb_prop in Hf. split; intros E.
    + apply (existsb_elem (λ q, BufP i ∈ FL q)) in E. rewrite E in Hf. by destruct (has (b_flags r) B_BUSY).
    + apply (existsb_elem (λ q, BufP i ∈ FL q)). by rewrite Hf, E.
  - intros h k Hh Hk. pose proof (forallb_elem _ _ _ (forallb_elem _ _ _ H6 Hh) Hk) as Hb.
    apply andb_prop in Hb as [Hb _]. by apply pool_mem_spec.
  - intros q k Hq Hk. apply pool_mem_spec. exact (forallb_elem _ _ _ (forallb_elem _ _ _ H7 Hq) Hk).
  - intros h k r Hh Hk Hr Hd. pose proof (forallb_elem _ _ _ (forallb_elem _ _ _ H6 Hh) Hk) as Hb. cbv beta in Hb.
    rewrite Hr in Hb. apply andb_prop in Hb as [_ Hb]. apply orb_prop in Hb as [Hb|Hb].
    + by apply Z.eqb_eq in Hb.
    + by apply bool_decide_eq_true in Hb.
Qed.
End check.

(** * Getting a block *)

Section getting_block.
Context `{KConfig} `{KLayout} `{SigEnv} `{BioEnv}.

(** Nothing to wait for: the cached buffer is idle, or there is a free buffer
    without a delayed write. *)
Definition ready (st : bufs) HL FL (dev blkno : Z) : Prop :=
  match List.find (matches st dev blkno) (HL (BUFHASH dev blkno)) with
  | Some k => ∀ r, st !! k = Some r → has (b_flags r) B_BUSY = false
  | None => ∃ j rest r, pick FL ≠ 0%nat ∧ FL (FreeP (pick FL)) = BufP j :: rest ∧
      st !! BufP j = Some r ∧ has (b_flags r) B_DELWRI = false
  end.


(** C34: when [getblk] has to sleep for a free buffer, and by the time it wakes
    another process has brought the same block in, it does not look again: the
    block ends up in two valid buffers. *)
Theorem getblk_duplicates fuel s s1 HL FL HL1 FL1 dev blkno (slept : bool) i ri j rest rj :
  cache_ok (bstore s) HL FL → (nblkdev <=? major dev) = false → dev ≠ NODEV →
  List.find (matches (bstore s) dev blkno) (HL (BUFHASH dev blkno)) = None → pick FL = 0%nat →
  Clock.sleep (chan (FreeP 0)) (PRIBIO + 1)
    (with_b s (alter (λ c, c <| b_flags ::= λ f, setf f B_WANTED |>) (FreeP 0) (bstore s))) = Done slept s1 →
  cache_ok (bstore s1) HL1 FL1 → (i < NBUF)%nat → bstore s1 !! BufP i = Some ri → holds ri dev blkno →
  pick FL1 ≠ 0%nat → FL1 (FreeP (pick FL1)) = BufP j :: rest → i ≠ j →
  bstore s1 !! BufP j = Some rj → has (b_flags rj) B_DELWRI = false →
  ∃ st', getblk (S (S (S fuel))) dev blkno s = Done (BufP j) (with_b s1 st') ∧
    (∀ k, k = i ∨ k = j → ∃ r, st' !! BufP k = Some r ∧ holds r dev blkno).
Proof.
  intros Hc Hmaj Hne Ef Hp0 Esl Hc1 Hi Hri Hh Hp1 EF Hij Hrj Hdel.
  assert (Hj : (j < NBUF)%nat).
  { destruct (ck_fmem _ _ _ Hc1 _ (BufP j) (pick_fheads FL1)) as (k & Hk & [= ->]); [rewrite EF; apply elem_of_cons; by left|done]. }
  destruct (getnewbuf_clean fuel s1 (bstore s1) HL1 FL1 j rest rj Hc1 Hp1 EF Hrj Hdel) as (st1 & E1 & Hc2 & Hs1).
  rewrite with_b_id in E1.
  destruct (same_but_lookup _ _ _ _ _ _ Hs1 Hrj) as (r1 & Hr1 & Eb1). rewrite decide_True in Eb1 by done.
  destruct (assign_spec (mret (BufP j)) s1 st1 HL1 _ j r1 (BUFHASH dev blkno) dev blkno Hc2 Hj Hr1 (BUFHASH_head dev blkno)) as
    (st' & HL' & E2 & _ & Hs2); [done|]. exists st'. split.
  - unfold getblk. rewrite Hmaj, andb_false_r. cbn [when]. rewrite (bind_done _ _ _ _ _ (mret_eq _ _)).
    cbn [getblk_loop]. change (fsbtodb blkno) with blkno.
    rewrite (bind_done _ _ _ _ _ (hash_search_spec _ _ _ _ _ _ Hc (BUFHASH_head dev blkno))). cbv beta. rewrite Ef.
    assert (E0 : getnewbuf (S (S fuel)) s = Done (BufP j) (with_b s1 st1)).
    { remember (S fuel) as fuel' eqn:Efu. cbn [getnewbuf].
      rewrite (bind_done _ _ _ _ _ (getnewbuf_pick_spec s HL FL Hc)), Hp0. cbv beta. rewrite decide_True by done.
      unfold set_bflags.
      assert (Hf0 : is_Some (bstore s !! FreeP 0)).
      { apply ffwd_some, (rings_on (ck_free _ _ _ Hc)). exists (FreeP 0). split; [apply fhead; lia|apply elem_of_cons; by left]. }
      pose proof (setbuf_with s _ _ (λ c, c <| b_flags ::= λ f, setf f B_WANTED |>) Hf0) as Es. rewrite with_b_id in Es.
      rewrite (bind_done _ _ _ _ _ Es). cbv beta. rewrite (bind_done _ _ _ _ _ Esl). cbv beta. by subst fuel'. }
    rewrite (bind_done _ _ _ _ _ E0). cbv beta. exact E2.
  - intros k [->| ->].
    + destruct (same_but_lookup _ _ _ _ _ _ Hs1 Hri) as (q1 & Hq1 & B1). rewrite decide_False in B1 by congruence.
      destruct (same_but_lookup _ _ _ _ _ _ Hs2 Hq1) as (q2 & Hq2 & B2). rewrite decide_False in B2 by congruence.
      exists q2. split; [done|]. rewrite <- B1 in B2 || rewrite B1 in B2.
      apply bare_fields in B2 as (F1 & _ & _ & F4 & _ & F6 & _). unfold holds in *. by rewrite F1, F4, F6.
    + destruct (same_but_lookup _ _ _ _ _ _ Hs2 Hr1) as (q2 & Hq2 & B2). rewrite decide_True in B2 by done.
      exists q2. split; [done|]. apply bare_fields in B2 as (F1 & _ & _ & F4 & _ & F6 & _).
      apply bare_fields in Eb1 as (G1 & _). unfold holds. rewrite F1, F4, F6. simpl. rewrite G1.
      unfold fresh. by destruct (has (b_flags rj) (Z.lor B_RAMREMAP B_PHYS)).
Qed.
End getting_block.
End Bio.


(** * Examples *)

Definition buf0 : buf := MkBuf 0 None None None None 0 0 0 0 0 0.
(** A driver that transfers at once. *)
#[local] Instance bio_env0 : BioEnv :=
  {| nblkdev := 4; d_strategy := λ _ bp, Bio.biodone (H := gba_cfg) (H0 := Sched.layout1) bp; d_flags := λ _, 0;
     bufdata_addr := 0x3000 |}.
Module BioExamples.
Import Bio.
#[local] Existing Instances gba_cfg Sched.layout1 Sig.sig_env0.

(** The buffers after boot, before any is used. *)
Definition bss : kstate :=
  kstate0 <| procs := {[ 0%nat := proc0 <| p_stat := SRUN |> <| p_flag := SLOAD |> ]} |>
    <| bstore := list_to_map ((λ k, (k, buf0)) <$> hheads ++ (BufP <$> seq 0 3)) |>.
Definition run {A} (m : K A) (s : kstate) : kstate := match m s with Done _ s' => s' | _ => s end.
Definition boot : kstate := Eval vm_compute in run (bhinit ;; binit) bss.
Definition boot_HL (h : bptr) : list bptr :=
  if decide (h = FreeP 2) then [BufP 2; BufP 1; BufP 0] else [].
(** One busy buffer, for block 5 of device 0x100. *)
Definition boot1 : kstate := Eval vm_compute in run (getblk 2 0x100 5) boot.
Definition boot1_HL (h : bptr) : list bptr :=
  if decide (h = HashP 5) then [BufP 2] else if decide (h = FreeP 2) then [BufP 1; BufP 0] else [].
Definition boot1_FL (h : bptr) : list bptr :=
  if decide (h = FreeP 2) then [BufP 1; BufP 0] else [].

Lemma boot_cache_ok : (bhinit ;; binit) bss = Done tt boot ∧ cache_ok (bstore boot) boot_HL boot_HL.
Proof. split; [vm_compute; reflexivity|]. apply cache_okb_ok. vm_compute. reflexivity. Qed.
Lemma boot1_cache_ok : cache_ok (bstore boot1) boot1_HL boot1_FL.
Proof. apply cache_okb_ok. vm_compute. reflexivity. Qed.
(** Every buffer is in use, so [getblk] sleeps; meanwhile another process
    releases two buffers and takes one for the same block. *)
Definition full : kstate := Eval vm_compute in
  run (_ ← getblk 2 0x100 1; _ ← getblk 2 0x100 2; _ ← getblk 2 0x100 3; mret tt) boot.
Definition full_HL (h : bptr) : list bptr :=
  if decide (h = HashP 1) then [BufP 2] else if decide (h = HashP 2) then [BufP 1]
  else if decide (h = HashP 3) then [BufP 0] else [].
Definition others : K unit :=
  brelse (BufP 0) ;; brelse (BufP 1) ;; _ ← getblk 2 0x100 5; _ ← Sched.swtch_pick; mret tt.
Definition race_env : SigEnv :=
  {| swtch := others; procxmt := mret true; sendsig := λ _ _ _, mret tt; core := mret true;
     exit := λ _, mret tt; loaded_ruid := λ _, mret 7; swapped_ruid := λ _, mret (Some 7);
     sig_passes := 64 |}.
Definition asleep_at : kstate := with_b full (alter (λ c, c <| b_flags ::= λ f, setf f B_WANTED |>) (FreeP 0) (bstore full)).
Definition awake_again : kstate := Eval vm_compute in
  run (Clock.sleep (H1 := race_env) (chan (FreeP 0)) (PRIBIO + 1)) asleep_at.
Definition raced_HL (h : bptr) : list bptr :=
  if decide (h = HashP 1) then [BufP 2] else if decide (h = HashP 2) then [BufP 1]
  else if decide (h = HashP 5) then [BufP 0] else [].
Definition raced_FL (h : bptr) : list bptr := if decide (h = FreeP 1) then [BufP 1] else [].
Definition dup : buf := Eval vm_compute in default buf0 (bstore awake_again !! BufP 0).
Definition victim : buf := Eval vm_compute in default buf0 (bstore awake_again !! BufP 1).

Lemma incore_searches_pool_witness :
  cache_ok (bstore boot1) boot1_HL boot1_FL ∧ incore 0x100 5 boot1 = Done true boot1.
Proof.
  split; [exact boot1_cache_ok|].
  exact (incore_searches_pool boot1 boot1_HL boot1_FL 0x100 5 boot1_cache_ok ltac:(discriminate)).
Defined.

Lemma boot_unique : unique (bstore boot).
Proof.
  intros i j ri rj Hi Hj Hri Hrj [_ Vi]. exfalso. apply Vi. unfold NBUF, gba_cfg in Hi.
  destruct i as [|[|[|i]]]; [..|lia]; vm_compute in Hri; by injection Hri as <-.
Qed.

Lemma brelse_requeues_witness : ∃ s', brelse (BufP 2) boot1 = Done tt s' ∧
  cache_ok (bstore s') boot1_HL (<[FreeP 1 := [BufP 2]]> boot1_FL).
Proof.
  destruct (brelse_requeues boot1 boot1_HL boot1_FL [] (λ _, []) 2 (default buf0 (bstore boot1 !! BufP 2)) boot1_cache_ok) as
    (s' & rl & sq & E & _ & _ & Hc & _).
  - split.
    + reflexivity.
    + intros h. reflexivity.
    + intros p Hp. by apply elem_of_nil in Hp.
    + intros h p Hp. by apply elem_of_nil in Hp.
    + intros p r c Hr. change (({[0%nat := proc0 <| p_stat := SRUN |> <| p_flag := SLOAD |>]} : gmap nat proc) !! p = Some r) in Hr.
      apply lookup_singleton_Some in Hr as [_ <-]. done.
  - vm_compute. lia.
  - reflexivity.
  - reflexivity.
  - exists s'. split; [exact E|exact Hc].
Defined.

Lemma getblk_duplicates_witness : ∃ st', getblk (H1 := race_env) 3 0x100 5 full = Done (BufP 1) (with_b awake_again st') ∧
  ∀ k, k = 0%nat ∨ k = 1%nat → ∃ r, st' !! BufP k = Some r ∧ holds r 0x100 5.
Proof.
  refine (getblk_duplicates (H1 := race_env) 0 full awake_again full_HL (λ _, []) raced_HL raced_FL 0x100 5 true
    0 dup 1 [] victim _ eq_refl _ eq_refl eq_refl _ _ _ eq_refl _ _ eq_refl _ eq_refl eq_refl).
  - apply cache_okb_ok. vm_compute. reflexivity.
  - discriminate.
  - vm_compute. reflexivity.
  - apply cache_okb_ok. vm_compute. reflexivity.
  - vm_compute. lia.
  - vm_compute. split_and!; reflexivity.
  - vm_compute. lia.
  - discriminate.
Defined.
End BioExamples.
