(* ===== verification/Fs.v ===== *)
(** File system data: the constants of sys/fs.h, sys/inode.h and sys/mount.h,
    and how superblocks, blocks of the free list and inodes lie in a disk
    block, which is a list of 256 words of 32 bits. *)
From stdpp Require Import functions.
From S2P Require Import Prelude Buf Kernel Links Callout Sched Prot Time Sig Clock Ring Bio.

(** * Constants *)

Definition SUPERB : Z := 0.
Definition ROOTINO : Z := 2.
Definition NICINOD : Z := 32.
Definition NICFREE : Z := 200.
Definition INOPB : Z := 16.
Definition NINDIR : Z := Z.quot DEV_BSIZE 4.
Definition NSHIFT : Z := 8.
Definition NMASK : Z := 255.
Definition DEV_BSHIFT : Z := 10.
Definition DEV_BMASK : Z := 0x3ff.
Definition NDADDR : Z := 4.
Definition NIADDR : Z := 3.
Definition NADDR : Z := NDADDR + NIADDR.
Definition MAXPIPSIZ : Z := NDADDR * 1024.
Definition FSMAGIC1 : Z := 0x3c3c5346.
Definition FSMAGIC2 : Z := 0x53463e3e.

Definition MNT_RDONLY : Z := 0x0001.
Definition MNT_ASYNC : Z := 0x0040.
Definition B_CLRBUF : Z := 0x01.
Definition B_SYNC : Z := 0x02.
Definition IO_SYNC : Z := 0x04.

Definition ILOCKED : Z := 0x1.
Definition IUPD : Z := 0x2.
Definition IACC : Z := 0x4.
Definition IMOUNT : Z := 0x8.
Definition IWANT : Z := 0x10.
Definition IMOD : Z := 0x400.
Definition IPIPE : Z := 0x1000.

(** An inode number's slot in its block, and its block. *)
Definition itoo (x : Z) : Z := u32 (x + INOPB - 1) `mod` INOPB.
Definition itod (x : Z) : Z := u32 (u32 x + INOPB - 1) / INOPB.
(** A byte offset's place in its block, and its block. *)
Definition blkoff (loc : Z) : Z := Z.land loc DEV_BMASK.
Definition lblkno (loc : Z) : Z := Z.shiftr (u32 loc) DEV_BSHIFT.
Definition dbtofsb (b : Z) : Z := b.

(** * Words of a block *)

(** Overwrite the words from [k] on. *)
Definition put_words (k : nat) (ws b : list Z) : list Z :=
  take k b ++ ws ++ drop (k + length ws) b.
Definition get_words (k n : nat) (b : list Z) : list Z := take n (drop k b).

(** [struct fblk]: the first 201 words of a block of the free list. *)
Record fblk := MkFblk { df_nfree : Z; df_free : list Z }.
Definition fblk_words (f : fblk) : list Z := df_nfree f :: df_free f.
Definition words_fblk (b : list Z) : fblk :=
  MkFblk (nth 0 b 0) (get_words 1 (Z.to_nat NICFREE) b).
(** The superblock's free list seen as a [struct fblk], and stored from one. *)
Definition fs_fblk (f : fs) : fblk := MkFblk (fs_nfree f) (fs_free f).
Definition fblk_fs (k : fblk) (f : fs) : fs := f <| fs_nfree := df_nfree k |> <| fs_free := df_free k |>.

(** [struct fs] fills its block. *)
Definition fs_words (f : fs) : list Z :=
  [i32 (fs_magic1 f); i32 (fs_isize f); i32 (fs_fsize f); i32 (fs_swapsz f); fs_nfree f]
  ++ fs_free f ++ [fs_ninode f] ++ (i32 <$> fs_inode f)
  ++ [fs_flock f; fs_fmod f; fs_ilock f; fs_ronly f; fs_time f; i32 (fs_tfree f); i32 (fs_tinode f)]
  ++ fs_fsmnt f
  ++ [i32 (fs_lasti f); i32 (fs_nbehind f); i32 (fs_flags f); i32 (fs_magic2 f)].
Definition words_fs (b : list Z) : fs :=
  let w n := nth n b 0 in
  {| fs_magic1 := u32 (w 0%nat); fs_isize := u32 (w 1%nat); fs_fsize := u32 (w 2%nat);
     fs_swapsz := u32 (w 3%nat); fs_nfree := w 4%nat;
     fs_free := get_words 5 (Z.to_nat NICFREE) b;
     fs_ninode := w 205%nat;
     fs_inode := u32 <$> get_words 206 (Z.to_nat NICINOD) b;
     fs_flock := w 238%nat; fs_fmod := w 239%nat; fs_ilock := w 240%nat; fs_ronly := w 241%nat;
     fs_time := w 242%nat; fs_tfree := u32 (w 243%nat); fs_tinode := u32 (w 244%nat);
     fs_fsmnt := get_words 245 7 b;
     fs_lasti := u32 (w 252%nat); fs_nbehind := u32 (w 253%nat); fs_flags := u32 (w 254%nat);
     fs_magic2 := u32 (w 255%nat) |}.

(** [struct dinode]: 16 words; [i_ic1], [i_flags], [i_ic2] and [i_addr] are
    copied in and out, the reserved word is not. *)
Definition ic1_words (i : inode) : list Z :=
  [i32 (Z.lor (u16 (i_mode i)) (Z.shiftl (u16 (i_nlink i)) 16)); i32 (i_uid i); i32 (i_gid i); i_size i].
Definition ic2_words (i : inode) : list Z := [i_atime i; i_mtime i; i_ctime i].
Definition put_dinode (dp : nat) (i : inode) (b : list Z) : list Z :=
  put_words (dp + 4) (i_addr i)
    (put_words (dp + 13) (ic2_words i)
       (put_words (dp + 12) [i32 (i_flags i)] (put_words dp (ic1_words i) b))).
Definition get_dinode (dp : nat) (b : list Z) (i : inode) : inode :=
  let w n := nth (dp + n) b 0 in
  i <| i_mode := u16 (w 0%nat) |> <| i_nlink := u16 (Z.shiftr (w 0%nat) 16) |>
    <| i_uid := u32 (w 1%nat) |> <| i_gid := u32 (w 2%nat) |> <| i_size := w 3%nat |>
    <| i_flags := u32 (w 12%nat) |>
    <| i_atime := w 13%nat |> <| i_mtime := w 14%nat |> <| i_ctime := w 15%nat |>
    <| i_addr := get_words (dp + 4) (Z.to_nat NADDR) b |>.

(** * Access *)

(** The superblock in a mount table slot. *)
Definition getfs_of (m : nat) : K fs := r ← getm m; mret (m_filsys r).
Definition setfs (m : nat) (f : fs → fs) : K unit := setm m (λ r, r <| m_filsys ::= f |>).

(** The words of a core block, and of the core block of a buffer. *)
Definition getblock (a : Z) : K (list Z) := s ← get_s; unless_none (bufdata s !! a).
Definition setblock (a : Z) (ws : list Z) : K unit :=
  _ ← getblock a; modify (λ s, s <| bufdata ::= <[a := ws]> |>).
Definition bdata (bp : bptr) : K (list Z) := r ← getbuf bp; getblock (b_addr r).
Definition set_bdata (bp : bptr) (ws : list Z) : K unit := r ← getbuf bp; setblock (b_addr r) ws.

(** An element of an array; outside of it is a fault. *)
Definition arr {A} (l : list A) (i : Z) : K A :=
  if i <? 0 then fault else unless_none (l !! Z.to_nat i).

(** Sleep channels. *)
Definition c_flock (m : nat) : wchan := WChan "fs_flock" (Z.of_nat m).
Definition c_ilock (m : nat) : wchan := WChan "fs_ilock" (Z.of_nat m).
Definition c_inode (n : nat) : wchan := WChan "inode" (Z.of_nat n).
