(* ===== verification/Md.v ===== *)
(** The memory disk (dev/md.c), as the ports without MD_MACHDEP build it: two
    regions of memory, a root file system and a swap area, served as one disk. *)
From stdpp Require Import functions.
From S2P Require Import Prelude Buf Kernel Links Callout Sched Prot Time Sig Clock Ring Bio Fs.

Definition ENXIO : Z := 6.
Definition MD_MAJOR : Z := 6.
Definition minor (x : Z) : Z := Z.land x 255.
Definition btod (x : Z) : Z := Z.shiftr (u32 (x + DEV_BSIZE - 1)) DEV_BSHIFT.

(** Where the link editor put the two regions, and whether the kernel is built
    with the option MD_ROOT_RW. *)
Class MdEnv := {
  fs_start : Z;
  fs_end : Z;
  swap_start : Z;
  swap_end : Z;
  MD_ROOT_RW : bool;
}.

Module Md.
Section md.
Context `{KConfig} `{KLayout} `{SigEnv} `{MdEnv}.

Definition MD_ROOT_KB : Z := Z.shiftr (fs_end - fs_start) DEV_BSHIFT.
Definition MD_SWAP_KB (s : kstate) : Z := Z.shiftr (md_swapend s - md_swap s) DEV_BSHIFT.
Definition md_isswap (dev : Z) : bool := minor dev =? 2.

Definition mdopen (dev : Z) : K Z := mret (if 2 <? minor dev then ENXIO else 0).
Definition mdclose (dev : Z) : K Z := mret 0.
Definition mdsize (s : kstate) (dev : Z) : Z :=
  let m := minor dev in
  if (m =? 0) || (m =? 1) then MD_ROOT_KB else if m =? 2 then MD_SWAP_KB s else 0.
Definition md_rootrom (dev : Z) : K bool :=
  s ← get_s; mret ((major dev =? MD_MAJOR) && negb (md_isswap dev) && (md_rootrw s =? 0)).

(** The first [k] bytes of one block over another; words are little-endian. *)
Definition over_bytes (k : Z) (src dst : list Z) : list Z :=
  let q := Z.to_nat (k / 4) in
  let m := 2 ^ (8 * (k mod 4)) - 1 in
  if k mod 4 =? 0 then take q src ++ drop q dst
  else take q src ++ [i32 (Z.lor (Z.land (nth q src 0) m) (Z.ldiff (nth q dst 0) m))] ++ drop (S q) dst.
(** [bcopy (src, dst, len)] between blocks of memory. *)
Fixpoint bcopy (fuel : nat) (src dst len : Z) : K unit :=
  if len <=? 0 then mret tt
  else
    match fuel with
    | O => nofuel
    | S fuel =>
      from ← getblock src;
      to ← getblock dst;
      setblock dst (over_bytes (Z.min len DEV_BSIZE) from to) ;;
      bcopy fuel (src + DEV_BSIZE) (dst + DEV_BSIZE) (len - DEV_BSIZE)
    end.

(** [bad:]. *)
Definition md_bad (bp : bptr) (error : Z) : K unit :=
  setbuf bp (λ b, b <| b_error := error |>) ;;
  setbuf bp (λ b, b <| b_flags ::= λ f, setf f B_ERROR |>) ;;
  Bio.biodone bp.
Definition md_transfer (bp : bptr) : K unit :=
  r ← getbuf bp;
  s ← get_s;
  let base := if md_isswap (b_dev r) then md_swap s else fs_start in
  let addr := base + Z.shiftl (b_blkno r) DEV_BSHIFT in
  let rd := has (b_flags r) B_READ in
  if negb rd && negb (md_isswap (b_dev r)) && (md_rootrw s =? 0) then md_bad bp EROFS
  else
    (if rd then bcopy (Z.to_nat (btod (b_bcount r))) addr (b_addr r) (b_bcount r)
     else bcopy (Z.to_nat (btod (b_bcount r))) (b_addr r) addr (b_bcount r)) ;;
    Bio.biodone bp.
Definition mdstrategy (bp : bptr) : K unit :=
  r ← getbuf bp;
  s ← get_s;
  let psize := mdsize s (b_dev r) in
  let nblk := btod (b_bcount r) in
  if (2 <? minor (b_dev r)) || (b_blkno r <? 0) then md_bad bp ENXIO
  else if psize <? b_blkno r + nblk then
    if b_blkno r =? psize then
      setbuf bp (λ b, b <| b_resid := b_bcount b |>) ;; Bio.biodone bp
    else
      let nblk := psize - b_blkno r in
      if nblk <=? 0 then md_bad bp EINVAL
      else setbuf bp (λ b, b <| b_bcount := Z.shiftl nblk DEV_BSHIFT |>) ;; md_transfer bp
  else md_transfer bp.

(** [mdioctl]: DIOCGETMEDIASIZE gives the size in kbytes. *)
Definition mdioctl (dev : Z) (mediasize : bool) : K (option Z * Z) :=
  s ← get_s; mret (if mediasize then (Some (mdsize s dev), 0) else (None, EINVAL)).

(** [mdprobe] attaches the one unit. *)
Definition mdprobe (unit : Z) : K Z :=
  if negb (unit =? 0) then mret 0
  else
    when MD_ROOT_RW (modify (λ s, s <| md_rootrw := b2z (negb (MD_ROOT_KB =? 0)) |>)) ;;
    mret 1.
(** The static variables before the disk attaches. *)
Definition md_init (s : kstate) : kstate :=
  s <| md_rootrw := 0 |> <| md_swap := swap_start |> <| md_swapend := swap_end |>.
End md.
End Md.
