(* ===== verification/Disk.v ===== *)
(** The buffer cache on the memory disk: reads and writes of blocks through
    the cache are reads and writes of a flat array of blocks. *)
From stdpp Require Import functions.
From S2P Require Import Prelude Buf Kernel Links Callout Sched Prot Time Sig Clock Ring Bio Fs Md.

(** * Flags *)

Lemma has_setf_meet f m x : negb (Z.land m x =? 0) = true → has (setf f m) x = true.
Proof.
  unfold has, setf. rewrite Z.land_lor_distr_l, !negb_true_iff, !Z.eqb_neq, Z.lor_eq_0_iff. tauto.
Qed.
Lemma has_sub f m x : Z.land m x = x → has f m = false → has f x = false.
Proof.
  intros E Hm. apply negb_false_iff, Z.eqb_eq. apply negb_false_iff, Z.eqb_eq in Hm.
  rewrite <- E, Z.land_assoc, Hm. done.
Qed.
Lemma has_sup f m x : Z.land m x = x → has f x = true → has f m = true.
Proof. intros E Hx. apply not_false_is_true. intros Hm. rewrite (has_sub f m x E Hm) in Hx. done. Qed.

(** Decide flag tests after updates with constant masks. *)
Ltac hasf1 :=
  match goal with
  | |- context [has (setf ?f ?m) ?x] => rewrite (has_setf f m x) by reflexivity
  | |- context [has (setf ?f ?m) ?x] => rewrite (has_setf_meet f m x) by reflexivity
  | |- context [has (clrf ?f ?m) ?x] => rewrite (has_clrf_disj f m x) by reflexivity
  | |- context [has (clrf ?f ?m) ?x] => rewrite (Bio.has_clrf_part f m x) by done
  end.
Ltac hasf := simpl; repeat hasf1.

Module Disk.
Import Bio.

(** The operations a client makes on blocks. *)
Section ops.
Context `{KConfig} `{KLayout} `{SigEnv} `{BioEnv}.

Definition read_block (fuel : nat) (dev b : Z) : K (list Z) :=
  bp ← bread fuel dev b; ws ← bdata bp; brelse bp ;; mret ws.
Definition write_block (fuel : nat) (delayed : bool) (dev b : Z) (ws : list Z) : K unit :=
  bp ← getblk fuel dev b; set_bdata bp ws ;; if delayed then bdwrite fuel bp else bwrite fuel bp.

(** Operations on a region, in a sequence, and on a flat array of blocks. *)
Inductive op := Read (b : Z) | Write (delayed : bool) (b : Z) (ws : list Z) | Sync.
Definition exec (fuel : nat) (dev : Z) (o : op) : K (option (list Z)) :=
  match o with
  | Read b => ws ← read_block fuel dev b; mret (Some ws)
  | Write delayed b ws => write_block fuel delayed dev b ws ;; mret None
  | Sync => bflush fuel dev ;; mret None
  end.
Fixpoint run (fuel : nat) (dev : Z) (l : list op) : K (list (option (list Z))) :=
  match l with
  | [] => mret []
  | o :: l => a ← exec fuel dev o; rest ← run fuel dev l; mret (a :: rest)
  end.
End ops.
Definition flat (D : Z → list Z) (o : op) : (Z → list Z) * option (list Z) :=
  match o with
  | Read b => (D, Some (D b))
  | Write _ b ws => (<[b := ws]> D, None)
  | Sync => (D, None)
  end.
Fixpoint flat_run (D : Z → list Z) (l : list op) : (Z → list Z) * list (option (list Z)) :=
  match l with
  | [] => (D, [])
  | o :: l => let '(D1, a) := flat D o in let '(D2, rest) := flat_run D1 l in (D2, a :: rest)
  end.

(** Set in no buffer between operations. *)
Definition NEVER : Z := Z.lor (Z.lor B_ERROR B_LOCKED) (Z.lor B_PHYS B_RAMREMAP).

(** One region of the memory disk: its device, the address of its first
    block, how many blocks it has; and the cache's core blocks. *)
Record region := MkRegion { rg_dev : Z; rg_base : Z; rg_size : Z }.
Definition op_ok (rg : region) (o : op) : Prop :=
  match o with
  | Read b => 0 ≤ b < rg_size rg
  | Write _ b ws => 0 ≤ b < rg_size rg ∧ length ws = 256%nat
  | Sync => True
  end.

Section disk.
Context `{KConfig} `{KLayout} `{SigEnv} `{MdEnv} `{BioEnv}.
Variable rg : region.
Implicit Types (D : Z → list Z) (W : gset nat) (s : kstate) (st : bufs) (i j : nat).

Definition core (i : nat) : Z := bufdata_addr + DEV_BSIZE * Z.of_nat i.
Definition daddr (b : Z) : Z := rg_base rg + Z.shiftl b DEV_BSHIFT.
Definition in_range (b : Z) : Prop := 0 ≤ b < rg_size rg.

(** What the ports set up: the driver is the memory disk's, the region's blocks
    lie in memory apart from the core blocks, and it can be written. *)
Record on_md : Prop := {
  om_major : major (rg_dev rg) = MD_MAJOR;
  om_minor : minor (rg_dev rg) ≤ 2;
  om_nblkdev : (nblkdev <=? MD_MAJOR) = false;
  om_strategy : ∀ bp, d_strategy MD_MAJOR bp = Md.mdstrategy bp;
  om_tape : has (d_flags MD_MAJOR) B_TAPE = false;
  om_apart : ∀ i b, (i < NBUF)%nat → in_range b → core i ≠ daddr b;
}.

(** A block of 256 words in memory. *)
Definition block_at s (a : Z) (ws : list Z) : Prop := bufdata s !! a = Some ws ∧ length ws = 256%nat.

(** A buffer of the pool: a valid one holds a block of the region, and once
    filled or to be written, its contents. [W] are the buffers whose block is
    being changed. *)
Record buf_ok s D W (i : nat) (r : buf) : Prop := {
  bo_addr : b_addr r = core i;
  bo_core : ∃ ws, block_at s (core i) ws;
  bo_never : has (b_flags r) NEVER = false;
  bo_valid : valid r → b_dev r = rg_dev rg ∧ in_range (b_blkno r);
  bo_data : valid r → has (b_flags r) (Z.lor B_DONE B_DELWRI) = true → bufdata s !! core i = Some (D (b_blkno r));
  bo_dirty : has (b_flags r) B_DELWRI = true → valid r;
  bo_held : i ∈ W → valid r ∧ has (b_flags r) B_BUSY = true;
  bo_free : has (b_flags r) B_BUSY = false → has (b_flags r) B_ASYNC = false;
  bo_resid : b_resid r = 0;
}.

(** The cache is well formed, and no buffer is on the list of locked ones. *)
Definition well_kept st : Prop := ∃ HL FL, cache_ok st HL FL ∧ FL (FreeP BQ_LOCKED) = [].

(** [D] is what the cache and the disk together hold: block by block, the disk
    is up to date but for the blocks with a delayed write or in [W]. *)
Record coh s D W : Prop := {
  ch_base : (if Md.md_isswap (rg_dev rg) then md_swap s else fs_start) = rg_base rg;
  ch_size : Md.mdsize s (rg_dev rg) = rg_size rg;
  ch_rw : Md.md_isswap (rg_dev rg) = true ∨ md_rootrw s ≠ 0;
  ch_cache : well_kept (bstore s);
  ch_uniq : unique (bstore s);
  ch_sched : ∃ rl sq, Sched.sched_inv s rl sq;
  ch_pool : ∀ i r, (i < NBUF)%nat → bstore s !! BufP i = Some r → buf_ok s D W i r;
  ch_disk : ∀ b, in_range b → ∃ ws, block_at s (daddr b) ws ∧ length (D b) = 256%nat ∧
    (ws = D b ∨ ∃ i r, (i < NBUF)%nat ∧ bstore s !! BufP i = Some r ∧ holds r (rg_dev rg) b ∧
      (has (b_flags r) B_DELWRI = true ∨ i ∈ W));
}.

(** * One buffer changes *)

Lemma buf_ok_bare s D W i r r' : bare r' = bare r → buf_ok s D W i r → buf_ok s D W i r'.
Proof.
  intros (Ef & _ & _ & Ed & Ea & Eb & Er)%bare_fields []. unfold valid in *.
  split; unfold valid; by rewrite ?Ef, ?Ed, ?Ea, ?Eb, ?Er.
Qed.
Lemma buf_ok_mem s s' D W i r : bufdata s' = bufdata s → buf_ok s D W i r → buf_ok s' D W i r.
Proof. intros E []. unfold block_at in *. split; unfold block_at; by rewrite ?E. Qed.
Lemma buf_ok_held s D W W' i r : (i ∈ W' ↔ i ∈ W) → buf_ok s D W i r → buf_ok s D W' i r.
Proof. intros E []. split; try done. by rewrite E. Qed.
Lemma holds_bare r r' d b : bare r' = bare r → holds r d b → holds r' d b.
Proof. intros (Ef & _ & _ & Ed & _ & Eb & _)%bare_fields. unfold holds. by rewrite Ef, Ed, Eb. Qed.

(** In the pool, only buffer [j] changed state, as [f] says. *)
Definition same_pool st st' (j : nat) (f : buf → buf) : Prop :=
  ∀ i, bare <$> st' !! BufP i = bare <$> alter f (BufP j) st !! BufP i.
Lemma same_pool_lookup st st' j f i r : same_pool st st' j f → st !! BufP i = Some r →
  ∃ r', st' !! BufP i = Some r' ∧ bare r' = bare (if decide (i = j) then f r else r).
Proof.
  intros Hs Hr. apply bare_lookup with (st := alter f (BufP j) st); [|apply Hs]. case_decide as E.
  - subst. by rewrite lookup_alter_eq, Hr.
  - by rewrite lookup_alter_ne by congruence.
Qed.
Lemma same_pool_inv st st' j f i r' : same_pool st st' j f → st' !! BufP i = Some r' →
  ∃ r, st !! BufP i = Some r ∧ bare r' = bare (if decide (i = j) then f r else r).
Proof.
  intros Hs Hr. specialize (Hs i). rewrite Hr in Hs. destruct (decide (i = j)) as [->|Hij].
  - rewrite lookup_alter_eq in Hs. destruct (st !! BufP j) as [r|]; [|done]. apply (inj Some) in Hs. by exists r.
  - rewrite lookup_alter_ne in Hs by congruence. destruct (st !! BufP i) as [r|]; [|done].
    apply (inj Some) in Hs. by exists r.
Qed.
Lemma same_but_pool st st' j f : same_but st st' (BufP j) f → same_pool st st' j f.
Proof. intros Hs i. apply Hs. Qed.

Lemma coh_step s st' D W W' j f r :
  coh s D W → (j < NBUF)%nat → bstore s !! BufP j = Some r →
  same_pool (bstore s) st' j f → well_kept st' → unique st' →
  buf_ok s D W' j (f r) → (∀ i, i ≠ j → i ∈ W' ↔ i ∈ W) →
  (∀ b, in_range b → holds r (rg_dev rg) b → (has (b_flags r) B_DELWRI = true ∨ j ∈ W) →
    (holds (f r) (rg_dev rg) b ∧ (has (b_flags (f r)) B_DELWRI = true ∨ j ∈ W')) ∨ block_at s (daddr b) (D b)) →
  coh (with_b s st') D W'.
Proof.
  intros [Hb Hz Hrw _ _ Hsch Hpool Hdisk] Hj Hr Hs Hc Hu Hok HW Hex. split; [done..| | |].
  - destruct Hsch as (rl & sq & Hi). exists rl, sq. by apply sched_inv_with.
  - intros i ri' Hi Hri'. destruct (same_pool_inv _ _ _ _ _ _ Hs Hri') as (ri & Hri & Eb). case_decide as E.
    + subst i. rewrite Hr in Hri. apply (inj Some) in Hri as <-.
      apply (buf_ok_mem s); [done|]. by eapply buf_ok_bare.
    + apply (buf_ok_mem s); [done|]. eapply buf_ok_bare; [exact Eb|]. apply (buf_ok_held s D W); [by apply HW|]. by apply Hpool.
  - intros b Hin. destruct (Hdisk b Hin) as (ws & Hws & Hl & Hor). exists ws. split; [exact Hws|]. split; [done|].
    destruct Hor as [->|(i & ri & Hi & Hri & Hh & Hd)]; [by left|].
    destruct (same_pool_lookup _ _ _ _ _ _ Hs Hri) as (ri' & Hri' & Eb). case_decide as E.
    + subst i. rewrite Hr in Hri. apply (inj Some) in Hri as <-.
      destruct (Hex b Hin Hh Hd) as [[Hh' Hd']|[Hat _]].
      * right. exists j, ri'. split; [done|]. split; [done|]. split; [by eapply holds_bare|].
        apply bare_fields in Eb as (-> & _). done.
      * left. destruct Hws as [Hws _]. congruence.
    + right. exists i, ri'. split; [done|]. split; [done|]. split; [by eapply holds_bare|].
      apply bare_fields in Eb as (-> & _). by rewrite HW.
Qed.

(** Only scheduling data changed. *)
Lemma coh_frame s s' D W rl sq :
  bio_frame s s' → Sched.sched_inv s' rl sq → coh (with_b s (bstore s')) D W → coh s' D W.
Proof.
  intros F Hi [Hb Hz Hrw Hc Hu _ Hpool Hdisk].
  assert (Ed : bufdata s' = bufdata s) by (by rewrite F).
  assert (Em : md_swap s' = md_swap s ∧ md_swapend s' = md_swapend s ∧ md_rootrw s' = md_rootrw s) by (by rewrite F).
  destruct Em as (E1 & E2 & E3).
  assert (Hat : ∀ a ws, block_at s' a ws ↔ block_at s a ws) by (intros; unfold block_at; by rewrite Ed).
  split; [by rewrite E1|unfold Md.mdsize, Md.MD_SWAP_KB in *; by rewrite E1, E2|by rewrite E3|done|done| | |].
  - by exists rl, sq.
  - intros i r Hi' Hr. apply (buf_ok_mem s); [done|]. apply (buf_ok_mem (with_b s (bstore s'))); [done|]. by apply Hpool.
  - intros b Hin. destruct (Hdisk b Hin) as (ws & ? & ?). exists ws. split; [by apply Hat|done].
Qed.

(** * Memory changes *)

Definition with_d (s : kstate) (a : Z) (ws : list Z) : kstate := s <| bufdata ::= <[a := ws]> |>.
Lemma block_at_with s a ws a' ws' :
  a' ≠ a → block_at (with_d s a ws) a' ws' ↔ block_at s a' ws'.
Proof. intros. unfold block_at. simpl. by rewrite lookup_insert_ne. Qed.
Lemma block_at_same s a ws : length ws = 256%nat → block_at (with_d s a ws) a ws.
Proof. intros. split; [apply lookup_insert_eq|done]. Qed.
Lemma core_inj i j : core i = core j → i = j.
Proof. unfold core, DEV_BSIZE. lia. Qed.
Lemma daddr_inj b b' : daddr b = daddr b' → b = b'.
Proof. unfold daddr, DEV_BSHIFT. rewrite !Z.shiftl_mul_pow2 by lia. lia. Qed.

Section mem.
Hypothesis Hmd : on_md.

(** A core block is filled with what its buffer stands for, or its buffer
    stands for nothing. *)
Lemma coh_core s D W j r ws :
  coh s D W → (j < NBUF)%nat → bstore s !! BufP j = Some r → length ws = 256%nat →
  (valid r → has (b_flags r) (Z.lor B_DONE B_DELWRI) = true → ws = D (b_blkno r)) →
  coh (with_d s (core j) ws) D W.
Proof.
  intros [Hb Hz Hrw Hc Hu Hsch Hpool Hdisk] Hj Hr Hl Hw. split; [done..| | |].
  - destruct Hsch as (rl & sq & Hi). exists rl, sq. by apply (Sched.sched_inv_ext s).
  - intros i ri Hi Hri. change (bstore s !! BufP i = Some ri) in Hri. destruct (Hpool i ri Hi Hri) as [Ba (w & Bc) Bn Bv Bd Bdw Bh Bf Br].
    destruct (decide (i = j)) as [->|Hij].
    + rewrite Hr in Hri. apply (inj Some) in Hri as <-. split; try done; [by exists ws; apply block_at_same|].
      intros Hv Hd. simpl. rewrite lookup_insert_eq. f_equal. by apply Hw.
    + assert (core i ≠ core j) by (intros E; by apply core_inj in E).
      split; try done; [by exists w; apply block_at_with|]. intros. simpl. rewrite lookup_insert_ne by done. by apply Bd.
  - intros b Hin. destruct (Hdisk b Hin) as (w & Hat & Hor). exists w. split; [|done].
    apply block_at_with; [|done]. intros E. by apply (om_apart Hmd j b).
Qed.

(** A client changes a block it has a busy buffer of. *)
Lemma coh_write s D W j r b ws :
  coh s D W → (j < NBUF)%nat → bstore s !! BufP j = Some r → holds r (rg_dev rg) b → in_range b →
  rg_dev rg ≠ NODEV → has (b_flags r) B_BUSY = true → length ws = 256%nat →
  coh (with_d s (core j) ws) (<[b := ws]> D) ({[j]} ∪ W).
Proof.
  intros [Hb Hz Hrw Hc Hu Hsch Hpool Hdisk] Hj Hr (Hd & Hbl & Hinv) Hin Hnd Hbusy Hl. split; [done..| | |].
  - destruct Hsch as (rl & sq & Hi). exists rl, sq. by apply (Sched.sched_inv_ext s).
  - intros i ri Hi Hri. change (bstore s !! BufP i = Some ri) in Hri. destruct (Hpool i ri Hi Hri) as [Ba (w & Bc) Bn Bv Bd Bdw Bh Bf Br].
    destruct (decide (i = j)) as [->|Hij].
    + rewrite Hr in Hri. apply (inj Some) in Hri as <-. split; try done.
      * by exists ws; apply block_at_same.
      * intros _ _. simpl. by rewrite lookup_insert_eq, Hbl, fn_lookup_insert.
      * intros _. split; [|done]. split; [done|]. by rewrite Hd.
    + assert (core i ≠ core j) by (intros E; by apply core_inj in E). split; try done.
      * by exists w; apply block_at_with.
      * intros Hv Hf. simpl. rewrite lookup_insert_ne, (Bd Hv Hf) by done. f_equal.
        symmetry. apply fn_lookup_insert_ne. intros E. apply Hij. destruct (Bv Hv) as [Ei _].
        apply (Hu i j ri r Hi Hj Hri Hr Hv); [split; [done|by rewrite Hd]|congruence|congruence].
      * rewrite elem_of_union, elem_of_singleton. intros [?|?]; [done|by apply Bh].
  - intros b' Hin'. destruct (Hdisk b' Hin') as (w & Hat & Hl' & Hor). exists w.
    split; [apply block_at_with; [|done]; intros E; by apply (om_apart Hmd j b')|].
    destruct (decide (b' = b)) as [->|Hbb].
    + rewrite fn_lookup_insert. split; [done|]. right. exists j, r. split; [done|]. split; [done|].
      split; [done|]. right. set_solver.
    + rewrite fn_lookup_insert_ne by done. split; [done|]. destruct Hor as [->|(i & ri & ? & ? & ? & [?|?])]; [by left|..];
        right; exists i, ri; (split; [done|]); (split; [done|]); (split; [done|]); [by left|right; set_solver].
Qed.

(** The disk catches up with one block. *)
Lemma coh_disk s D W b :
  coh s D W → in_range b →
  coh (with_d s (daddr b) (D b)) D W ∧ block_at (with_d s (daddr b) (D b)) (daddr b) (D b).
Proof.
  intros [Hb Hz Hrw Hc Hu Hsch Hpool Hdisk] Hin. destruct (Hdisk b Hin) as (w0 & _ & Hlb & _).
  split; [|by apply block_at_same]. split; [done..| | |].
  - destruct Hsch as (rl & sq & Hi). exists rl, sq. by apply (Sched.sched_inv_ext s).
  - intros i ri Hi Hri. change (bstore s !! BufP i = Some ri) in Hri. destruct (Hpool i ri Hi Hri) as [Ba (w & Bc) Bn Bv Bd Bdw Bh Bf Br].
    assert (core i ≠ daddr b) by (by apply (om_apart Hmd)). split; try done.
    + exists w. by apply block_at_with.
    + intros. simpl. rewrite lookup_insert_ne by done. by apply Bd.
  - intros b' Hin'. destruct (Hdisk b' Hin') as (w & Hat & Hl & Hor). destruct (decide (b' = b)) as [->|Hne].
    + exists (D b). split; [by apply block_at_same|]. split; [done|by left].
    + exists w. split; [|done]. apply block_at_with; [|done]. intros E. by apply daddr_inj in E.
Qed.

(** * The driver *)

Lemma over_bytes_all src dst :
  length src = 256%nat → length dst = 256%nat → Md.over_bytes DEV_BSIZE src dst = src.
Proof.
  intros E1 E2. unfold Md.over_bytes, DEV_BSIZE. change (1024 mod 4 =? 0) with true. cbv iota zeta.
  change (Z.to_nat (1024 / 4)) with 256%nat. by rewrite take_ge, drop_ge, app_nil_r by lia.
Qed.
Lemma bcopy_block s a b src dst :
  block_at s a src → block_at s b dst →
  Md.bcopy (Z.to_nat (btod DEV_BSIZE)) a b DEV_BSIZE s = Done tt (with_d s b src).
Proof.
  intros [Ha Hla] [Hb Hlb]. change (Z.to_nat (btod DEV_BSIZE)) with 1%nat.
  unfold Md.bcopy. change (DEV_BSIZE <=? 0) with false. cbv iota.
  assert (Ga : getblock a s = Done src s) by (unfold getblock; m_unfold; by rewrite Ha).
  assert (Gb : getblock b s = Done dst s) by (unfold getblock; m_unfold; by rewrite Hb).
  rewrite (bind_done _ _ _ _ _ Ga). cbv beta. rewrite (bind_done _ _ _ _ _ Gb). cbv beta.
  change (Z.min DEV_BSIZE DEV_BSIZE) with DEV_BSIZE. rewrite over_bytes_all by done.
  assert (Gs : setblock b src s = Done tt (with_d s b src)).
  { unfold setblock. by rewrite (bind_done _ _ _ _ _ Gb). }
  by rewrite (bind_done _ _ _ _ _ Gs).
Qed.

Lemma strategy_md s D W j r b :
  coh s D W → (j < NBUF)%nat → bstore s !! BufP j = Some r → b_dev r = rg_dev rg → b_blkno r = b → in_range b →
  b_bcount r = DEV_BSIZE → b_addr r = core j →
  ∃ cw dw, block_at s (core j) cw ∧ block_at s (daddr b) dw ∧
    strategy (BufP j) s = biodone (BufP j)
      (if has (b_flags r) B_READ then with_d s (core j) dw else with_d s (daddr b) cw).
Proof.
  intros Hco Hj Hr Hd Hbl Hin Hcnt Ha. pose proof (ch_pool _ _ _ Hco j r Hj Hr) as [_ (cw & Hcw) _ _ _ _ _ _ _].
  destruct (ch_disk _ _ _ Hco b Hin) as (dw & Hdw & _). exists cw, dw. split; [done|]. split; [done|].
  unfold strategy. rewrite (bind_done _ _ _ _ _ (getbuf_eq _ _ _ Hr)). cbv beta.
  rewrite Hd, (om_major Hmd), (om_strategy Hmd). unfold Md.mdstrategy.
  rewrite (bind_done _ _ _ _ _ (getbuf_eq _ _ _ Hr)). cbv beta. rewrite (bind_done _ _ _ _ _ (get_s_eq _)). cbv beta zeta.
  rewrite Hd, Hbl, Hcnt, (ch_size _ _ _ Hco). change (btod DEV_BSIZE) with 1.
  assert (E1 : 2 <? minor (rg_dev rg) = false) by (apply Z.ltb_ge, (om_minor Hmd)).
  assert (E2 : b <? 0 = false) by (apply Z.ltb_ge; unfold in_range in Hin; lia).
  assert (E3 : rg_size rg <? b + 1 = false) by (apply Z.ltb_ge; unfold in_range in Hin; lia).
  rewrite E1, E2, E3. cbn [orb]. cbv iota. unfold Md.md_transfer.
  rewrite (bind_done _ _ _ _ _ (getbuf_eq _ _ _ Hr)). cbv beta. rewrite (bind_done _ _ _ _ _ (get_s_eq _)). cbv beta zeta.
  rewrite Hd, Hbl, Hcnt, Ha, (ch_base _ _ _ Hco). fold (daddr b).
  assert (E4 : negb (has (b_flags r) B_READ) && negb (Md.md_isswap (rg_dev rg)) && (md_rootrw s =? 0) = false).
  { destruct (ch_rw _ _ _ Hco) as [->|Hw]; [by rewrite andb_false_r|]. apply Z.eqb_neq in Hw. by rewrite Hw, andb_false_r. }
  rewrite E4. destruct (has (b_flags r) B_READ).
  - by rewrite (bind_done _ _ _ _ _ (bcopy_block s _ _ _ _ Hdw Hcw)).
  - by rewrite (bind_done _ _ _ _ _ (bcopy_block s _ _ _ _ Hcw Hdw)).
Qed.
End mem.
(** * Steps of one buffer *)

Lemma setbuf_alter s b f : is_Some (bstore s !! b) → setbuf b f s = Done tt (with_b s (alter f b (bstore s))).
Proof. intros Hb. pose proof (setbuf_with s (bstore s) b f Hb) as E. by rewrite with_b_id in E. Qed.

Lemma unique_ext st st' : (∀ i, bare <$> st' !! BufP i = bare <$> st !! BufP i) → unique st → unique st'.
Proof.
  intros E Hu i k ri rk Hi Hk Hri Hrk Vi Vk Ed Eb.
  destruct (bare_lookup st' st (BufP i) ri Hri) as (qi & Qi & Bi); [done|].
  destruct (bare_lookup st' st (BufP k) rk Hrk) as (qk & Qk & Bk); [done|].
  apply bare_fields in Bi as (Fi & _ & _ & Di & _ & Ni & _). apply bare_fields in Bk as (Fk & _ & _ & Dk & _ & Nk & _).
  apply (Hu i k qi qk); unfold valid in *; rewrite ?Fi, ?Fk, ?Di, ?Dk, ?Ni, ?Nk; done.
Qed.
Lemma unique_keep st st' j f r :
  unique st → (j < NBUF)%nat → st !! BufP j = Some r → same_pool st st' j f →
  (valid (f r) → valid r ∧ b_dev (f r) = b_dev r ∧ b_blkno (f r) = b_blkno r) → unique st'.
Proof.
  intros Hu Hj Hr Hs Hf. apply (unique_ext (alter f (BufP j) st)); [done|].
  eapply unique_step; [exact Hu|by intros k|done|]. intros r0 i ri Hr0 Hij Hi Hri Vi Vr Ed Eb.
  rewrite Hr in Hr0. apply (inj Some) in Hr0 as <-. destruct (Hf Vr) as (V & E1 & E2).
  apply Hij. apply (Hu i j ri r Hi Hj Hri Hr Vi V); congruence.
Qed.

(** One that keeps its place. *)
Record in_place (f : buf → buf) (r : buf) : Prop := {
  ip_links : b_forw (f r) = b_forw r ∧ b_back (f r) = b_back r ∧ av_forw (f r) = av_forw r ∧ av_back (f r) = av_back r;
  ip_busy : has (b_flags (f r)) B_BUSY = has (b_flags r) B_BUSY;
  ip_block : b_dev (f r) = b_dev r ∧ b_blkno (f r) = b_blkno r;
  ip_inval : has (b_flags (f r)) B_INVAL = has (b_flags r) B_INVAL;
}.
Lemma in_place_valid f r : in_place f r → valid (f r) ↔ valid r.
Proof. intros [_ _ [E _] Ev]. unfold valid. by rewrite E, Ev. Qed.
Lemma in_place_holds f r d b : in_place f r → holds (f r) d b ↔ holds r d b.
Proof. intros [_ _ [E1 E2] Ev]. unfold holds. by rewrite E1, E2, Ev. Qed.

Lemma coh_alter s D W W' j f r :
  coh s D W → (j < NBUF)%nat → bstore s !! BufP j = Some r → in_place f r →
  buf_ok s D W' j (f r) → (∀ i, i ≠ j → i ∈ W' ↔ i ∈ W) →
  (∀ b, in_range b → holds r (rg_dev rg) b → (has (b_flags r) B_DELWRI = true ∨ j ∈ W) →
    (has (b_flags (f r)) B_DELWRI = true ∨ j ∈ W') ∨ block_at s (daddr b) (D b)) →
  coh (with_b s (alter f (BufP j) (bstore s))) D W'.
Proof.
  intros Hco Hj Hr Hip Hok HW Hex. assert (Hs : same_pool (bstore s) (alter f (BufP j) (bstore s)) j f) by done.
  pose proof Hip as [(L1 & L2 & L3 & L4) Hb [B1 B2] Hv].
  eapply (coh_step s _ D W W' j f r); [done|done|done|done| | |done|done|].
  - destruct (ch_cache _ _ _ Hco) as (HL & FL & Hc & HF). exists HL, FL. split; [|done].
    by apply (cache_ok_alter _ _ _ j f r).
  - eapply unique_keep; [apply (ch_uniq _ _ _ Hco)|done|exact Hr|done|]. intros V. apply in_place_valid in V; [done|done].
  - intros b Hin Hh Hd. destruct (Hex b Hin Hh Hd) as [?|?]; [left|by right]. split; [by apply in_place_holds|done].
Qed.

(** The disk is up to date for a block no other buffer excuses. *)
Lemma up_to_date s D W j r b :
  coh s D W → (j < NBUF)%nat → bstore s !! BufP j = Some r → holds r (rg_dev rg) b → rg_dev rg ≠ NODEV → in_range b →
  has (b_flags r) B_DELWRI = false → j ∉ W → block_at s (daddr b) (D b).
Proof.
  intros Hco Hj Hr (Hd & Hb & Hv) Hn Hin Hdel HW. destruct (ch_disk _ _ _ Hco b Hin) as (ws & Hat & Hl & Hor).
  destruct Hor as [->|(i & ri & Hi & Hri & (Hd' & Hb' & Hv') & Hx)]; [done|]. exfalso.
  assert (i = j) as ->.
  { apply (ch_uniq _ _ _ Hco i j ri r Hi Hj Hri Hr); [split; [done|by rewrite Hd']|split; [done|by rewrite Hd]|congruence|congruence]. }
  rewrite Hr in Hri. apply (inj Some) in Hri as <-. destruct Hx; [congruence|done].
Qed.

(** * I/O completion *)

Definition done_rec (r : buf) : buf := r <| b_flags ::= λ f, clrf (setf f B_DONE) B_WANTED |>.
Lemma biodone_sync s rl sq j r :
  Sched.sched_inv s rl sq → bstore s !! BufP j = Some r →
  has (b_flags r) B_DONE = false → has (b_flags r) B_ASYNC = false →
  ∃ s' rl' sq', biodone (BufP j) s = Done tt s' ∧ bio_frame s s' ∧
    bstore s' = alter done_rec (BufP j) (bstore s) ∧ Sched.sched_inv s' rl' sq'.
Proof.
  intros Hi Hr Hd Ha. unfold biodone, set_bflags, clr_bflags.
  rewrite (bind_done _ _ _ _ _ (getbuf_eq _ _ _ Hr)). cbv beta. rewrite Hd. cbv iota.
  rewrite (bind_done _ _ _ _ _ (setbuf_alter s _ _ ltac:(by eexists))). cbv beta. rewrite Ha. cbv iota.
  set (st1 := alter _ _ _). assert (Hx1 : is_Some (bstore (with_b s st1) !! BufP j)) by (apply is_Some_alter; by eexists).
  rewrite (bind_done _ _ _ _ _ (setbuf_alter _ _ _ Hx1)). cbv beta.
  change (bstore (with_b s st1)) with st1. rewrite with_b_with. set (st2 := alter _ _ st1).
  destruct (wakeup_when true (chan (BufP j)) (with_b s st2) rl sq) as (s' & rl' & sq' & E & F & Hi' & _);
    [by apply sched_inv_with|].
  exists s', rl', sq'. split; [exact E|]. split; [|split; [|done]].
  - eapply bio_frame_trans; [apply (bio_frame_with s st2)|by apply bio_frame_sched].
  - rewrite (sched_frame_bstore _ _ F). change (bstore (with_b s st2)) with st2. unfold st2, st1.
    apply map_eq. intros k. destruct (decide (k = BufP j)) as [->|]; [|by rewrite !lookup_alter_ne].
    rewrite !lookup_alter_eq. by destruct (bstore s !! BufP j).
Qed.

(** Nothing to wait for, and no error. *)
Lemma biowait_done fuel s j r :
  bstore s !! BufP j = Some r → has (b_flags r) B_DONE = true → has (b_flags r) B_ERROR = false →
  biowait fuel (BufP j) s = Done tt s.
Proof.
  intros Hr Hd He. unfold biowait.
  assert (E : biowait_loop fuel (BufP j) s = Done tt s).
  { destruct fuel; cbn [biowait_loop]; rewrite (bind_done _ _ _ _ _ (getbuf_eq _ _ _ Hr)); cbv beta; by rewrite Hd. }
  rewrite (bind_done _ _ _ _ _ E). cbv beta. rewrite (bind_done _ _ _ _ _ (getu_eq _ _)). cbv beta.
  destruct (u_error (u s) =? 0) eqn:Eu; [|done]. cbn [when]. unfold geterror.
  rewrite bind_assoc, (bind_done _ _ _ _ _ (getbuf_eq _ _ _ Hr)). cbv beta. rewrite He.
  rewrite (bind_done _ _ _ _ _ (mret_eq _ _)), set_error_eq. f_equal. apply Z.eqb_eq in Eu.
  destruct s as [us]. unfold upd. simpl in *. f_equal. destruct us. simpl in *. by subst.
Qed.
(** Only the cache, its memory, the scheduler's data and the user area's
    accounting and error changed. *)
Definition io_frame s s' : Prop :=
  s' = s <| procs := procs s' |> <| qs := qs s' |> <| slpque := slpque s' |> <| runrun := runrun s' |>
         <| runout := runout s' |> <| bstore := bstore s' |> <| bufdata := bufdata s' |> <| u := u s' |> ∧
  u s' = u s <| u_ru := u_ru (u s') |>.
Lemma u_eta (x : user) : x = x <| u_ru := u_ru x |>.
Proof. by destruct x. Qed.
Lemma io_frame_bio s s' : bio_frame s s' → io_frame s s'.
Proof.
  intros E. assert (E1 : bufdata s' = bufdata s) by (by rewrite E). assert (E2 : u s' = u s) by (by rewrite E).
  split; rewrite ?E1, E2; [|apply u_eta]. etrans; [exact E|]. by destruct s.
Qed.
Lemma io_frame_refl s : io_frame s s.
Proof. split; [by destruct s|apply u_eta]. Qed.
Lemma io_frame_trans s1 s2 s3 : io_frame s1 s2 → io_frame s2 s3 → io_frame s1 s3.
Proof.
  intros [E1 U1] [E2 U2]. split; [rewrite E2; rewrite E1; by destruct s1|].
  rewrite U2. rewrite U1. by destruct (u s1).
Qed.
Lemma io_frame_with_d s a ws : io_frame s (with_d s a ws).
Proof. split; [by destruct s|apply u_eta]. Qed.
Lemma io_frame_with_b s st : io_frame s (with_b s st).
Proof. apply io_frame_bio, bio_frame_with. Qed.

Lemma let_go_ok r : has (b_flags r) NEVER = false →
  b_dev (let_go r) = b_dev r ∧ b_blkno (let_go r) = b_blkno r ∧ b_addr (let_go r) = b_addr r ∧
  b_flags (let_go r) = clrf (b_flags r) (Z.lor (Z.lor B_WANTED B_BUSY) (Z.lor B_ASYNC B_AGE)).
Proof. intros Hn. unfold let_go, errd. by rewrite (has_sub _ NEVER B_ERROR eq_refl Hn). Qed.

Lemma let_go_resid r : b_resid (let_go r) = b_resid r.
Proof. unfold let_go, errd. by destruct (has (b_flags r) B_ERROR), (has (b_flags r) B_LOCKED). Qed.

Lemma brelse_coh s D W j r :
  coh s D W → (j < NBUF)%nat → bstore s !! BufP j = Some r → has (b_flags r) B_BUSY = true →
  (∀ b, in_range b → holds r (rg_dev rg) b → j ∈ W →
    has (b_flags r) B_DELWRI = true ∨ block_at s (daddr b) (D b)) →
  ∃ s', brelse (BufP j) s = Done tt s' ∧ coh s' D (W ∖ {[j]}) ∧ io_frame s s' ∧ bufdata s' = bufdata s ∧
    same_pool (bstore s) (bstore s') j let_go.
Proof.
  intros Hco Hj Hr Hb Hw. destruct (ch_cache _ _ _ Hco) as (HL & FL & Hc & HF). destruct (ch_sched _ _ _ Hco) as (rl & sq & Hi).
  destruct (brelse_spec s HL FL rl sq j r Hc Hi Hj Hr Hb) as (s' & rl' & sq' & E & F & Hi' & Hc' & Hs & _).
  pose proof (ch_pool _ _ _ Hco j r Hj Hr) as [Ba Bc Bn Bv Bd Bdw Bh Bf Br].
  destruct (let_go_ok r Bn) as (E1 & E2 & E3 & E4).
  assert (Hval : valid (let_go r) ↔ valid r) by (unfold valid; rewrite E1, E4; by hasf).
  assert (Hp : same_pool (bstore s) (bstore s') j let_go).
  { intros i. rewrite (Hs (BufP i)). destruct (decide (i = j)) as [->|Hij].
    - rewrite !lookup_alter_eq. by rewrite unwant_other.
    - rewrite !lookup_alter_ne by congruence. by rewrite unwant_other. }
  exists s'. split; [done|]. split; [|split; [by apply io_frame_bio|split; [by rewrite F|done]]].
  apply (coh_frame s s' D _ rl' sq' F Hi'). eapply coh_step; [exact Hco|done|exact Hr|exact Hp| | | | |].
  - exists HL, (requeued r (BufP j) FL). split; [done|]. unfold requeued, queue_of.
    rewrite (has_sub _ NEVER B_ERROR eq_refl Bn), (has_sub _ NEVER B_LOCKED eq_refl Bn).
    repeat case_match; by rewrite fn_lookup_insert_ne.
  - eapply unique_keep; [apply (ch_uniq _ _ _ Hco)|done|exact Hr|exact Hp|]. intros V. by apply Hval in V.
  - split; rewrite ?E1, ?E2, ?E3, ?E4; try done.
    + by apply has_clrf_mono.
    + intros V. by apply Bv, Hval.
    + intros V Hf. apply Bd; [by apply Hval|]. revert Hf. by hasf.
    + intros Hf. apply Hval, Bdw. revert Hf. by hasf.
    + intros Hin. set_solver.
    + intros _. by hasf.
    + by rewrite let_go_resid.
  - intros i Hij. set_solver.
  - intros b Hin Hh Hd. assert (Hx : has (b_flags r) B_DELWRI = true ∨ block_at s (daddr b) (D b)).
    { destruct Hd as [?|?]; [by left|by apply Hw]. }
    destruct Hx as [Hx|?]; [left|by right]. unfold holds in *. rewrite E1, E2, E4. hasf. rewrite Hx. tauto.
Qed.
Lemma coh_ext s s' D W :
  bstore s' = bstore s → bufdata s' = bufdata s → md_swap s' = md_swap s → md_swapend s' = md_swapend s →
  md_rootrw s' = md_rootrw s → procs s' = procs s → qs s' = qs s → slpque s' = slpque s →
  coh s D W → coh s' D W.
Proof.
  intros E1 E2 E3 E4 E5 E6 E7 E8 [Hb Hz Hrw Hc Hu (rl & sq & Hi) Hpool Hdisk].
  split; rewrite ?E1, ?E3, ?E5; try done.
  - unfold Md.mdsize, Md.MD_SWAP_KB in *. by rewrite E3, E4.
  - exists rl, sq. by apply (Sched.sched_inv_ext s).
  - intros i r Hin Hr. apply (buf_ok_mem s); [done|]. by apply Hpool.
  - intros b Hin. destruct (Hdisk b Hin) as (ws & Hat & ?). exists ws. split; [|done]. unfold block_at in *. by rewrite E2.
Qed.

Lemma done_rec_place r : has (b_flags r) B_BUSY = true → in_place done_rec r.
Proof. intros Hb. split; [done|by hasf|done|by hasf]. Qed.
Lemma biodone_coh s D W j r :
  coh s D W → (j < NBUF)%nat → bstore s !! BufP j = Some r → has (b_flags r) B_BUSY = true →
  has (b_flags r) B_DONE = false → has (b_flags r) B_ASYNC = false →
  (valid r → bufdata s !! core j = Some (D (b_blkno r))) →
  ∃ s', biodone (BufP j) s = Done tt s' ∧ coh s' D W ∧ io_frame s s' ∧ bufdata s' = bufdata s ∧
    bstore s' = alter done_rec (BufP j) (bstore s).
Proof.
  intros Hco Hj Hr Hb Hd Ha Hdata. destruct (ch_sched _ _ _ Hco) as (rl & sq & Hi).
  destruct (biodone_sync s rl sq j r Hi Hr Hd Ha) as (s' & rl' & sq' & E & F & Eb & Hi').
  pose proof (done_rec_place r Hb) as Hip. pose proof (ch_pool _ _ _ Hco j r Hj Hr) as [Ba Bc Bn Bv Bd Bdw Bh Bf Br].
  exists s'. split; [done|]. split; [|split; [by apply io_frame_bio|split; [by rewrite F|done]]].
  apply (coh_frame s s' D W rl' sq' F Hi'). rewrite Eb. eapply (coh_alter s D W W); [done|done|exact Hr|done| |done|].
  - split; try done.
    + simpl. rewrite has_clrf_disj, has_setf by done. exact Bn.
    + intros V. apply in_place_valid in V; [|done]. by apply Bv.
    + intros V _. apply in_place_valid in V; [|done]. by apply Hdata.
    + intros Hf. apply in_place_valid; [done|]. apply Bdw. revert Hf. by hasf.
    + intros Hin. destruct (Bh Hin) as [V _]. split; [by apply in_place_valid|by rewrite (ip_busy _ _ Hip)].
    + rewrite (ip_busy _ _ Hip), Hb. done.
  - intros b _ _ Hx. left. by hasf.
Qed.

(** * Writing a block *)

Definition wr_rec (r : buf) : buf :=
  r <| b_flags ::= λ f, clrf f (Z.lor (Z.lor B_READ B_DONE) (Z.lor B_ERROR B_DELWRI)) |> <| b_bcount := DEV_BSIZE |>.
Lemma wr_rec_place r : in_place wr_rec r.
Proof. split; [done|by hasf|done|by hasf]. Qed.

Lemma write_start s D W j r b :
  coh s D W → (j < NBUF)%nat → bstore s !! BufP j = Some r → has (b_flags r) B_BUSY = true →
  holds r (rg_dev rg) b → rg_dev rg ≠ NODEV →
  coh (with_b s (alter wr_rec (BufP j) (bstore s))) D ({[j]} ∪ W).
Proof.
  intros Hco Hj Hr Hb (Hd & Hbl & Hv) Hn. pose proof (wr_rec_place r) as Hip.
  assert (V : valid r) by (split; [done|by rewrite Hd]).
  pose proof (ch_pool _ _ _ Hco j r Hj Hr) as [Ba Bc Bn Bv Bd Bdw Bh Bf Br].
  eapply (coh_alter s D W _); [done|done|exact Hr|done| |set_solver|].
  - split; try done.
    + simpl. by apply has_clrf_mono.
    + intros _. by apply Bv.
    + intros V' Hf. exfalso. revert Hf. by hasf.
    + intros Hf. exfalso. revert Hf. by hasf.
    + intros _. split; [by apply in_place_valid|by rewrite (ip_busy _ _ Hip)].
    + rewrite (ip_busy _ _ Hip), Hb. done.
  - intros b' _ _ _. left. right. set_solver.
Qed.

Section writing.
Hypothesis Hmd : on_md.
Lemma md_nodev : rg_dev rg ≠ NODEV.
Proof. intros E. pose proof (om_major Hmd) as Em. rewrite E in Em. done. Qed.

Lemma write_transfer s D W j r b :
  coh s D W → (j < NBUF)%nat → bstore s !! BufP j = Some r → holds r (rg_dev rg) b → in_range b →
  b_bcount r = DEV_BSIZE → has (b_flags r) B_READ = false → bufdata s !! core j = Some (D b) →
  strategy (BufP j) s = biodone (BufP j) (with_d s (daddr b) (D b)) ∧
  coh (with_d s (daddr b) (D b)) D W ∧ block_at (with_d s (daddr b) (D b)) (daddr b) (D b) ∧
  bufdata (with_d s (daddr b) (D b)) !! core j = Some (D b).
Proof.
  intros Hco Hj Hr (Hd & Hbl & Hv) Hin Hcnt Hrd Hcore.
  destruct (strategy_md Hmd s D W j r b Hco Hj Hr Hd Hbl Hin Hcnt (bo_addr _ _ _ _ _ (ch_pool _ _ _ Hco j r Hj Hr))) as
    (cw & dw & [Hcw _] & _ & E).
  assert (cw = D b) as -> by congruence. rewrite Hrd in E.
  destruct (coh_disk Hmd s D W b Hco Hin) as [Hco' Hat]. split; [exact E|]. split; [exact Hco'|]. split; [exact Hat|].
  simpl. rewrite lookup_insert_ne; [done|]. intros E'. by apply (om_apart Hmd j b).
Qed.

(** What remains of a buffer that was written and released. *)
Definition written (r : buf) : buf := let_go (done_rec (wr_rec r)).

Lemma bwrite_coh fuel s D W j r b :
  coh s D W → (j < NBUF)%nat → bstore s !! BufP j = Some r → has (b_flags r) B_BUSY = true →
  holds r (rg_dev rg) b → in_range b → has (b_flags r) B_ASYNC = false → bufdata s !! core j = Some (D b) →
  ∃ s', bwrite fuel (BufP j) s = Done tt s' ∧ coh s' D (W ∖ {[j]}) ∧ io_frame s s' ∧
    bufdata s' = <[daddr b := D b]> (bufdata s) ∧ same_pool (bstore s) (bstore s') j written.
Proof.
  intros Hco Hj Hr Hb Hh Hin Ha Hcore. unfold bwrite, clr_bflags.
  rewrite (bind_done _ _ _ _ _ (getbuf_eq _ _ _ Hr)). cbv beta zeta.
  rewrite (bind_done _ _ _ _ _ (setbuf_alter s _ _ ltac:(by eexists))). cbv beta.
  set (st1 := alter _ _ (bstore s)).
  assert (Hw : ∃ s1, when (negb (has (b_flags r) B_DELWRI))
      (setu (λ r, r <| u_ru ::= λ t, t <| ru_oublock ::= λ z, i32 (z + 1) |> |>)) (with_b s st1) = Done tt s1 ∧
    io_frame s s1 ∧ bufdata s1 = bufdata s ∧ bstore s1 = st1 ∧
    (∀ st D W, coh (with_b s st) D W → coh (with_b s1 st) D W)).
  { destruct (negb _); cbn [when].
    - eexists. split; [apply setu_eq|]. split; [split; [by destruct s|simpl; by destruct (u s)]|]. split; [done|].
      split; [done|]. intros st D' W' Hc. by eapply (coh_ext (with_b s st)).
    - exists (with_b s st1). split; [done|]. split; [apply io_frame_with_b|]. done. }
  destruct Hw as (s1 & E1 & F1 & M1 & B1 & C1). rewrite (bind_done _ _ _ _ _ E1). cbv beta.
  assert (Hx1 : is_Some (bstore s1 !! BufP j)) by (rewrite B1; apply is_Some_alter; by eexists).
  rewrite (bind_done _ _ _ _ _ (setbuf_alter s1 _ _ Hx1)). cbv beta. rewrite B1.
  assert (Est : alter (λ c, c <| b_bcount := DEV_BSIZE |>) (BufP j) st1 = alter wr_rec (BufP j) (bstore s)).
  { unfold st1. apply map_eq. intros k. destruct (decide (k = BufP j)) as [->|]; [|by rewrite !lookup_alter_ne].
    rewrite !lookup_alter_eq. by destruct (bstore s !! BufP j). }
  rewrite Est. set (st2 := alter wr_rec _ _). set (s2 := with_b s1 st2).
  assert (Hco2 : coh s2 D ({[j]} ∪ W)) by (apply C1; by eapply write_start, md_nodev).
  assert (Hr2 : bstore s2 !! BufP j = Some (wr_rec r)) by (simpl; unfold st2; by rewrite lookup_alter_eq, Hr).
  pose proof (wr_rec_place r) as Hip.
  destruct (write_transfer s2 D _ j (wr_rec r) b Hco2 Hj Hr2) as (E3 & Hco3 & Hat3 & Hcore3);
    [by apply in_place_holds|done|done|by hasf|simpl; by rewrite M1|].
  assert (Hw2 : has (b_flags (wr_rec r)) B_BUSY = true) by (by rewrite (ip_busy _ _ Hip)).
  assert (Hbl : b_blkno (wr_rec r) = b) by (destruct Hh as (_ & <- & _); by destruct (ip_block _ _ Hip)).
  destruct (biodone_coh _ D _ j (wr_rec r) Hco3 Hj Hr2 Hw2) as (s4 & E4 & Hco4 & F4 & M4 & B4);
    [by hasf|simpl; rewrite has_clrf_disj by done; exact Ha|intros _; by rewrite Hbl|].
  rewrite <- E3 in E4. rewrite (bind_done _ _ _ _ _ E4). cbv beta. rewrite Ha. cbn [negb].
  assert (Hr4 : bstore s4 !! BufP j = Some (done_rec (wr_rec r))).
  { rewrite B4, lookup_alter_eq. change (bstore (with_d s2 (daddr b) (D b))) with (bstore s2). by rewrite Hr2. }
  rewrite (bind_done _ _ _ _ _ (biowait_done fuel s4 j _ Hr4 ltac:(by hasf) ltac:(by hasf))). cbv beta.
  assert (Hip4 := done_rec_place _ Hw2).
  destruct (brelse_coh s4 D _ j _ Hco4 Hj Hr4) as (s5 & E5 & Hco5 & F5 & M5 & P5);
    [by rewrite (ip_busy _ _ Hip4)| |].
  { intros b' _ Hh' _. right. assert (b' = b) as ->.
    { apply (in_place_holds _ _ _ _ Hip4) in Hh'. destruct Hh' as (_ & <- & _). exact Hbl. }
    unfold block_at. by rewrite M4. }
  exists s5. split; [exact E5|]. split; [|split; [|split]].
  - replace (W ∖ {[j]}) with (({[j]} ∪ W) ∖ {[j]}) by set_solver. exact Hco5.
  - eapply io_frame_trans; [exact F1|]. eapply io_frame_trans; [apply (io_frame_with_b s1 st2)|].
    eapply io_frame_trans; [apply (io_frame_with_d s2)|]. by eapply io_frame_trans.
  - rewrite M5, M4. simpl. by rewrite M1.
  - intros i. rewrite (P5 i), B4. change (bstore (with_d s2 (daddr b) (D b))) with st2. unfold st2.
    destruct (decide (i = j)) as [->|]; [|by rewrite !lookup_alter_ne by congruence].
    rewrite !lookup_alter_eq. by destruct (bstore s !! BufP j).
Qed.
End writing.
(** * Delayed and asynchronous writes *)

Definition dirtied (r : buf) : buf := r <| b_flags ::= λ f, setf f (Z.lor B_DELWRI B_DONE) |>.
Lemma dirtied_place r : in_place dirtied r.
Proof. split; [done|by hasf|done|by hasf]. Qed.
Lemma accounted s (t : bool) :
  ∃ s1, when t (setu (λ r, r <| u_ru ::= λ x, x <| ru_oublock ::= λ z, i32 (z + 1) |> |>)) s = Done tt s1 ∧
    io_frame s s1 ∧ bufdata s1 = bufdata s ∧ bstore s1 = bstore s ∧ (∀ D W, coh s D W → coh s1 D W) ∧
    (∀ st D W, coh (with_b s st) D W → coh (with_b s1 st) D W).
Proof.
  destruct t; cbn [when].
  - eexists. split; [apply setu_eq|]. split; [split; [by destruct s|simpl; by destruct (u s)]|]. split; [done|].
    split; [done|]. split; [intros D W Hc; by eapply (coh_ext s)|intros st D W Hc; by eapply (coh_ext (with_b s st))].
  - exists s. split; [done|]. split; [apply io_frame_refl|]. done.
Qed.

Section delaying.
Hypothesis Hmd : on_md.

Lemma bdwrite_coh fuel s D W j r b :
  coh s D W → (j < NBUF)%nat → bstore s !! BufP j = Some r → has (b_flags r) B_BUSY = true →
  holds r (rg_dev rg) b → bufdata s !! core j = Some (D b) →
  ∃ s', bdwrite fuel (BufP j) s = Done tt s' ∧ coh s' D (W ∖ {[j]}) ∧ io_frame s s' ∧
    bufdata s' = bufdata s ∧ same_pool (bstore s) (bstore s') j (λ r, let_go (dirtied r)).
Proof.
  intros Hco Hj Hr Hb (Hd & Hbl & Hv) Hcore. unfold bdwrite, set_bflags.
  rewrite (bind_done _ _ _ _ _ (getbuf_eq _ _ _ Hr)). cbv beta.
  destruct (accounted s (negb (has (b_flags r) B_DELWRI))) as (s1 & E1 & F1 & M1 & B1 & C1 & _).
  rewrite (bind_done _ _ _ _ _ E1). cbv beta. rewrite Hd, (om_major Hmd), (om_tape Hmd). cbv iota.
  assert (Hr1 : bstore s1 !! BufP j = Some r) by (by rewrite B1).
  rewrite (bind_done _ _ _ _ _ (setbuf_alter s1 _ _ ltac:(by eexists))). cbv beta.
  pose proof (dirtied_place r) as Hip. set (s2 := with_b s1 (alter dirtied (BufP j) (bstore s1))).
  assert (V : valid r) by (split; [done|rewrite Hd; by apply md_nodev]).
  assert (Hco2 : coh s2 D W).
  { pose proof (ch_pool _ _ _ (C1 _ _ Hco) j r Hj Hr1) as [Ba Bc Bn Bv Bd Bdw Bh Bf Br].
    eapply (coh_alter s1 D W); [by apply C1|done|exact Hr1|done| |done|].
    - split; try done.
      + simpl. by rewrite has_setf.
      + intros _. by apply Bv.
      + intros _ _. rewrite M1. simpl. by rewrite Hbl.
      + intros _. by apply in_place_valid.
      + intros Hin. split; [by apply in_place_valid|by rewrite (ip_busy _ _ Hip)].
      + rewrite (ip_busy _ _ Hip), Hb. done.
    - intros b' _ _ _. left. left. by hasf. }
  assert (Hr2 : bstore s2 !! BufP j = Some (dirtied r)) by (simpl; by rewrite lookup_alter_eq, Hr1).
  destruct (brelse_coh s2 D W j _ Hco2 Hj Hr2) as (s3 & E3 & Hco3 & F3 & M3 & P3);
    [by rewrite (ip_busy _ _ Hip)|intros b' _ _ _; left; by hasf|].
  exists s3. split; [exact E3|]. split; [done|]. split; [|split; [by rewrite M3, <- M1|]].
  - eapply io_frame_trans; [exact F1|]. eapply io_frame_trans; [apply (io_frame_with_b s1)|exact F3].
  - intros i. rewrite (P3 i). change (bstore s2) with (alter dirtied (BufP j) (bstore s1)). rewrite B1.
    destruct (decide (i = j)) as [->|]; [|by rewrite !lookup_alter_ne by congruence].
    rewrite !lookup_alter_eq. by destruct (bstore s !! BufP j).
Qed.

(** A victim with a delayed write is written and released, for [getnewbuf]. *)
Definition asynced (r : buf) : buf := r <| b_flags ::= λ f, setf f B_ASYNC |>.
Definition doned (r : buf) : buf := r <| b_flags ::= λ f, setf f B_DONE |>.
Definition aged (r : buf) : buf := r <| b_flags ::= λ f, setf f B_AGE |>.

Lemma flag_place m r : Z.land m B_BUSY = 0 → Z.land m B_INVAL = 0 → in_place (λ r, r <| b_flags ::= λ f, setf f m |>) r.
Proof. intros E1 E2. split; [done|by apply has_setf|done|by apply has_setf]. Qed.
(** Setting a flag that says nothing about contents. *)
Lemma coh_flag s D W j r m :
  coh s D W → (j < NBUF)%nat → bstore s !! BufP j = Some r →
  Z.land m (Z.lor (Z.lor NEVER (Z.lor B_BUSY B_INVAL)) (Z.lor B_DONE B_DELWRI)) = 0 →
  (has (b_flags r) B_BUSY = true ∨ Z.land m B_ASYNC = 0) →
  coh (with_b s (alter (λ r, r <| b_flags ::= λ f, setf f m |>) (BufP j) (bstore s))) D W.
Proof.
  intros Hco Hj Hr Em Ha. pose proof (ch_pool _ _ _ Hco j r Hj Hr) as [Ba Bc Bn Bv Bd Bdw Bh Bf Br].
  assert (Hz : ∀ x, Z.land (Z.lor (Z.lor NEVER (Z.lor B_BUSY B_INVAL)) (Z.lor B_DONE B_DELWRI)) x = x → Z.land m x = 0).
  { intros x <-. by rewrite Z.land_assoc, Em. }
  pose proof (flag_place m r (Hz B_BUSY eq_refl) (Hz B_INVAL eq_refl)) as Hip.
  eapply (coh_alter s D W W); [done|done|exact Hr|done| |done|].
  - split; simpl; rewrite ?(has_setf _ m) by (by apply Hz); try done.
    + intros V. apply (in_place_valid _ _ Hip) in V. by apply Bv.
    + intros V. apply (in_place_valid _ _ Hip) in V. by apply Bd.
    + intros Hf. apply (in_place_valid _ _ Hip), (Bdw Hf).
    + intros Hin. destruct (Bh Hin). split; [by apply (in_place_valid _ _ Hip)|done].
    + destruct Ha as [Ha|Ha]; [by rewrite Ha|]. by rewrite (has_setf _ m) by done.
  - intros b _ _ Hx. left. simpl. by rewrite (has_setf _ m) by (by apply Hz).
Qed.
Lemma biodone_async s D W j r b :
  coh s D W → (j < NBUF)%nat → bstore s !! BufP j = Some r → has (b_flags r) B_BUSY = true →
  has (b_flags r) B_DONE = false → has (b_flags r) B_ASYNC = true →
  holds r (rg_dev rg) b → bufdata s !! core j = Some (D b) → block_at s (daddr b) (D b) →
  ∃ s', biodone (BufP j) s = Done tt s' ∧ coh s' D (W ∖ {[j]}) ∧ io_frame s s' ∧ bufdata s' = bufdata s ∧
    same_pool (bstore s) (bstore s') j (λ r, let_go (doned r)).
Proof.
  intros Hco Hj Hr Hb Hd Ha Hh Hcore Hat. unfold biodone, set_bflags.
  rewrite (bind_done _ _ _ _ _ (getbuf_eq _ _ _ Hr)). cbv beta. rewrite Hd. cbv iota.
  rewrite (bind_done _ _ _ _ _ (setbuf_alter s _ _ ltac:(by eexists))). cbv beta. rewrite Ha. cbv iota.
  set (s1 := with_b s (alter doned (BufP j) (bstore s))).
  pose proof (flag_place B_DONE r eq_refl eq_refl : in_place doned r) as Hip.
  pose proof (ch_pool _ _ _ Hco j r Hj Hr) as [Ba Bc Bn Bv Bd Bdw Bh Bf Br].
  assert (Hco1 : coh s1 D W).
  { eapply (coh_alter s D W W _ doned); [done|done|exact Hr|done| |done|].
    - split; try done.
      + simpl. by rewrite has_setf.
      + intros V. apply (in_place_valid _ _ Hip) in V. by apply Bv.
      + intros _ _. destruct Hh as (_ & Ebl & _). change (b_blkno (doned r)) with (b_blkno r). by rewrite Ebl.
      + intros Hf. apply (in_place_valid _ _ Hip), Bdw. revert Hf. unfold doned. by hasf.
      + intros Hin. destruct (Bh Hin). split; [by apply (in_place_valid _ _ Hip)|by rewrite (ip_busy _ _ Hip)].
      + intros Hf. unfold doned in Hf. revert Hf. hasf. by rewrite Hb.
    - intros b' _ _ Hx. left. unfold doned. by hasf. }
  assert (Hr1 : bstore s1 !! BufP j = Some (doned r)) by (simpl; by rewrite lookup_alter_eq, Hr).
  destruct (brelse_coh s1 D W j _ Hco1 Hj Hr1) as (s2 & E2 & Hco2 & F2 & M2 & P2); [by rewrite (ip_busy _ _ Hip)| |].
  { intros b' _ Hh' _. right. apply (in_place_holds _ _ _ _ Hip) in Hh'.
    assert (b' = b) as -> by (destruct Hh as (_ & <- & _), Hh' as (_ & <- & _); done). exact Hat. }
  exists s2. split; [exact E2|]. split; [done|]. split; [|split; [done|]].
  - eapply io_frame_trans; [apply (io_frame_with_b s)|exact F2].
  - intros i. rewrite (P2 i). change (bstore s1) with (alter doned (BufP j) (bstore s)).
    destruct (decide (i = j)) as [->|]; [|by rewrite !lookup_alter_ne by congruence].
    rewrite !lookup_alter_eq. by destruct (bstore s !! BufP j).
Qed.

(** [bwrite] that is not waited for; a delayed write is aged. *)
Definition unlocked (r : buf) : buf := let_go (doned (wr_rec r)).
Definition flushed (r : buf) : buf := aged (unlocked r).
Lemma bwrite_async_any fuel s D W j r b :
  coh s D W → (j < NBUF)%nat → bstore s !! BufP j = Some r → has (b_flags r) B_BUSY = true →
  has (b_flags r) B_ASYNC = true → holds r (rg_dev rg) b → in_range b → bufdata s !! core j = Some (D b) →
  ∃ s', bwrite fuel (BufP j) s = Done tt s' ∧ coh s' D (W ∖ {[j]}) ∧ io_frame s s' ∧
    same_pool (bstore s) (bstore s') j (if has (b_flags r) B_DELWRI then flushed else unlocked).
Proof.
  intros Hco Hj Hr Hb Ha Hh Hin Hcore.
  unfold bwrite, clr_bflags. rewrite (bind_done _ _ _ _ _ (getbuf_eq _ _ _ Hr)). cbv beta zeta.
  rewrite (bind_done _ _ _ _ _ (setbuf_alter s _ _ ltac:(by eexists))). cbv beta. set (st1 := alter _ _ (bstore s)).
  destruct (accounted (with_b s st1) (negb (has (b_flags r) B_DELWRI))) as (s1 & E1 & F1 & M1 & B1 & _ & C1).
  rewrite (bind_done _ _ _ _ _ E1). cbv beta. change (bstore (with_b s st1)) with st1 in B1.
  assert (Hx1 : is_Some (bstore s1 !! BufP j)) by (rewrite B1; apply is_Some_alter; by eexists).
  rewrite (bind_done _ _ _ _ _ (setbuf_alter s1 _ _ Hx1)). cbv beta. rewrite B1.
  assert (Est : alter (λ c, c <| b_bcount := DEV_BSIZE |>) (BufP j) st1 = alter wr_rec (BufP j) (bstore s)).
  { unfold st1. apply map_eq. intros k. destruct (decide (k = BufP j)) as [->|]; [|by rewrite !lookup_alter_ne].
    rewrite !lookup_alter_eq. by destruct (bstore s !! BufP j). }
  rewrite Est. set (s2 := with_b s1 _).
  assert (Hco2 : coh s2 D ({[j]} ∪ W)).
  { apply C1. rewrite with_b_with. by eapply write_start, md_nodev. }
  set (r2 := wr_rec r). assert (Hr2 : bstore s2 !! BufP j = Some r2)
    by (change (alter wr_rec (BufP j) (bstore s) !! BufP j = Some r2); by rewrite lookup_alter_eq, Hr).
  pose proof (wr_rec_place r : in_place wr_rec r) as Hip2.
  destruct (write_transfer Hmd s2 D _ j r2 b Hco2 Hj Hr2) as (E3 & Hco3 & Hat3 & Hcore3);
    [by apply (in_place_holds _ _ _ _ Hip2)|done|done|unfold r2; by hasf|simpl; by rewrite M1|].
  destruct (biodone_async _ D _ j r2 b Hco3 Hj Hr2) as (s4 & E4 & Hco4 & F4 & M4 & P4);
    [unfold r2; by rewrite (ip_busy _ _ Hip2)|unfold r2; by hasf|unfold r2; by hasf|by apply (in_place_holds _ _ _ _ Hip2)|done|done|].
  rewrite <- E3 in E4. rewrite (bind_done _ _ _ _ _ E4). cbv beta. rewrite Ha. cbn [negb].
  assert (F : io_frame s s4).
  { eapply io_frame_trans; [apply (io_frame_with_b s st1)|]. eapply io_frame_trans; [exact F1|].
    eapply io_frame_trans; [apply (io_frame_with_b s1 (alter wr_rec (BufP j) (bstore s)))|].
    by eapply io_frame_trans; [apply (io_frame_with_d s2)|]. }
  assert (P : same_pool (bstore s) (bstore s4) j unlocked).
  { intros i. rewrite (P4 i). change (bstore (with_d s2 (daddr b) (D b))) with (alter wr_rec (BufP j) (bstore s)).
    destruct (decide (i = j)) as [->|]; [|by rewrite !lookup_alter_ne by congruence].
    rewrite !lookup_alter_eq. by destruct (bstore s !! BufP j). }
  replace (({[j]} ∪ W) ∖ {[j]} : gset nat) with (W ∖ {[j]} : gset nat) in Hco4 by set_solver.
  destruct (has (b_flags r) B_DELWRI); cbn [when]; [|by exists s4].
  destruct (same_pool_lookup _ _ _ _ j r P Hr) as (r4 & Hr4 & B4). rewrite decide_True in B4 by done.
  unfold set_bflags. rewrite (setbuf_alter s4 _ _ ltac:(by eexists)). eexists. split; [done|]. split; [|split].
  - eapply coh_flag; [exact Hco4|done|exact Hr4|done|by right].
  - eapply io_frame_trans; [exact F|apply io_frame_with_b].
  - intros i. specialize (P i). simpl. destruct (decide (i = j)) as [->|]; [|by rewrite !lookup_alter_ne in * by congruence].
    rewrite !lookup_alter_eq, Hr4 in *. rewrite Hr in *. simpl in *. apply (inj Some) in P. f_equal.
    unfold flushed, aged. by apply (stateful_flags (λ f, setf f B_AGE)).
Qed.
Lemma bwrite_async fuel s D W j r :
  coh s D W → (j < NBUF)%nat → bstore s !! BufP j = Some r → has (b_flags r) B_BUSY = true →
  has (b_flags r) B_ASYNC = true → has (b_flags r) B_DELWRI = true → j ∉ W →
  ∃ s', bwrite fuel (BufP j) s = Done tt s' ∧ coh s' D W ∧ io_frame s s' ∧
    same_pool (bstore s) (bstore s') j flushed.
Proof.
  intros Hco Hj Hr Hb Ha Hdw HW. pose proof (ch_pool _ _ _ Hco j r Hj Hr) as [Ba Bc Bn Bv Bd Bdw Bh Bf Br].
  specialize (Bdw Hdw) as V. destruct (Bv V) as [Edev Hin].
  destruct (bwrite_async_any fuel s D W j r (b_blkno r) Hco Hj Hr Hb Ha) as (s' & E & Hco' & F & P);
    [by destruct V|done|apply Bd; [done|by apply (has_sup _ _ B_DELWRI)]|].
  rewrite Hdw in P. replace (W ∖ {[j]} : gset nat) with W in Hco' by set_solver. by exists s'.
Qed.
Lemma bawrite_coh fuel s D W j r :
  coh s D W → (j < NBUF)%nat → bstore s !! BufP j = Some r → has (b_flags r) B_BUSY = true →
  has (b_flags r) B_DELWRI = true → j ∉ W →
  ∃ s', bawrite fuel (BufP j) s = Done tt s' ∧ coh s' D W ∧ io_frame s s' ∧
    same_pool (bstore s) (bstore s') j (λ r, flushed (asynced r)).
Proof.
  intros Hco Hj Hr Hb Hdw HW. unfold bawrite, set_bflags at 1.
  rewrite (bind_done _ _ _ _ _ (setbuf_alter s _ _ ltac:(by eexists))). cbv beta.
  set (s1 := with_b s (alter asynced (BufP j) (bstore s))).
  assert (Hco1 : coh s1 D W) by (eapply (coh_flag s D W j r B_ASYNC); [done|done|done|done|by left]).
  assert (Hr1 : bstore s1 !! BufP j = Some (asynced r)) by (simpl; by rewrite lookup_alter_eq, Hr).
  destruct (bwrite_async fuel s1 D W j (asynced r) Hco1 Hj Hr1) as (s2 & E2 & Hco2 & F2 & P2);
    [unfold asynced; by hasf|unfold asynced; by hasf|unfold asynced; by hasf|done|].
  exists s2. split; [exact E2|]. split; [done|]. split; [eapply io_frame_trans; [apply (io_frame_with_b s)|done]|].
  intros i. rewrite (P2 i). change (bstore s1) with (alter asynced (BufP j) (bstore s)).
  destruct (decide (i = j)) as [->|]; [|by rewrite !lookup_alter_ne by congruence].
  rewrite !lookup_alter_eq. by destruct (bstore s !! BufP j).
Qed.
End delaying.
(** * Getting a buffer *)

(** Buffers may be written and released: those in use do not change, the others
    keep their block. *)
Definition evolves st st' : Prop := ∀ i ri, st !! BufP i = Some ri →
  ∃ ri', st' !! BufP i = Some ri' ∧ has (b_flags ri') B_BUSY = has (b_flags ri) B_BUSY ∧
    has (b_flags ri') B_INVAL = has (b_flags ri) B_INVAL ∧ b_dev ri' = b_dev ri ∧ b_blkno ri' = b_blkno ri ∧
    (has (b_flags ri) B_BUSY = true → bare ri' = bare ri).
Lemma evolves_refl st : evolves st st.
Proof. intros i ri Hri. exists ri. done. Qed.
Lemma evolves_trans st1 st2 st3 : evolves st1 st2 → evolves st2 st3 → evolves st1 st3.
Proof.
  intros E1 E2 i r1 H1'. destruct (E1 i r1 H1') as (r2 & H2' & B2 & V2 & D2 & N2 & K2).
  destruct (E2 i r2 H2') as (r3 & H3' & B3 & V3 & D3 & N3 & K3). exists r3. split; [done|].
  split; [congruence|]. split; [congruence|]. split; [congruence|]. split; [congruence|].
  intros Hb. rewrite K3, K2; [done|done|congruence].
Qed.

(** The released buffers that have to be written first. *)
Definition dirty_free st i : bool :=
  match st !! BufP i with Some r => has (b_flags r) B_DELWRI && negb (has (b_flags r) B_BUSY) | None => false end.
Definition ndirty st : nat := length (List.filter (dirty_free st) (seq 0 NBUF)).
Lemma filter_drops (f f' : nat → bool) l j :
  (∀ i, i ≠ j → f' i = f i) → f' j = false → f j = true → j ∈ l →
  (length (List.filter f' l) < length (List.filter f l))%nat.
Proof.
  intros He Hj' Hj.
  assert (Hle : ∀ l, (length (List.filter f' l) ≤ length (List.filter f l))%nat).
  { induction l0 as [|x l0 IH]; simpl; [done|]. destruct (decide (x = j)) as [->|Hx].
    - rewrite Hj, Hj'. simpl. lia.
    - rewrite He by done. destruct (f x); simpl; lia. }
  induction l as [|x l IH]; [by intros ?%elem_of_nil|]. intros [<-|Hin]%elem_of_cons; simpl.
  - rewrite Hj, Hj'. simpl. specialize (Hle l). lia.
  - destruct (decide (x = j)) as [->|Hx]; [rewrite Hj, Hj'; simpl; specialize (Hle l); lia|].
    rewrite He by done. specialize (IH Hin). destruct (f x); simpl; lia.
Qed.

(** A free buffer leaves its list. *)
Lemma notavail_coh s D W HL FL q l1 j l2 :
  coh s D W → cache_ok (bstore s) HL FL → FL (FreeP BQ_LOCKED) = [] → q ∈ fheads → FL q = l1 ++ BufP j :: l2 →
  ∃ st' r, notavail (BufP j) s = Done tt (with_b s st') ∧ cache_ok st' HL (<[q := l1 ++ l2]> FL) ∧
    coh (with_b s st') D W ∧ same_but (bstore s) st' (BufP j) busied ∧ (j < NBUF)%nat ∧
    bstore s !! BufP j = Some r ∧ has (b_flags r) B_BUSY = false ∧ j ∉ W.
Proof.
  intros Hco Hc HF Hq E. assert (Hxq : BufP j ∈ FL q) by (rewrite E; set_solver).
  assert (Hj : (j < NBUF)%nat) by (destruct (ck_fmem _ _ _ Hc q _ Hq Hxq) as (i & Hi & [= ->]); done).
  destruct (ck_pool _ _ _ Hc j Hj) as (r & Hr & _ & Hfree). assert (Hb : has (b_flags r) B_BUSY = false) by (apply Hfree; eauto).
  pose proof (ch_pool _ _ _ Hco j r Hj Hr) as [Ba Bc Bn Bv Bd Bdw Bh Bf Br].
  assert (HW : j ∉ W) by (intros Hin; destruct (Bh Hin); congruence).
  destruct (notavail_spec s (bstore s) HL FL q l1 j l2 Hc Hq E) as (st' & En & Hc' & Hs).
  rewrite with_b_id in En. exists st', r. split; [done|]. split; [done|]. split; [|done].
  assert (Ev : valid (busied r) ↔ valid r) by (unfold valid; simpl; by rewrite has_setf).
  eapply (coh_step s st' D W W j busied r); [done|done|done|by apply same_but_pool| | | |done|].
  - exists HL, (<[q := l1 ++ l2]> FL). split; [done|]. destruct (decide (q = FreeP BQ_LOCKED)) as [->|Hne].
    + rewrite HF in E. by destruct l1.
    + by rewrite fn_lookup_insert_ne.
  - eapply unique_keep; [apply (ch_uniq _ _ _ Hco)|done|exact Hr|by apply same_but_pool|]. intros V. by apply Ev in V.
  - split; try done.
    + simpl. by rewrite has_setf.
    + intros V. by apply Bv, Ev.
    + intros V Hf. apply Bd; [by apply Ev|]. revert Hf. by hasf.
    + intros Hf. apply Ev, Bdw. revert Hf. by hasf.
    + intros Hf. revert Hf. by hasf.
  - intros b _ Hh Hx. left. unfold holds in *. simpl. by hasf.
Qed.

Lemma pick_some HL FL st i r :
  cache_ok st HL FL → FL (FreeP BQ_LOCKED) = [] → (i < NBUF)%nat → st !! BufP i = Some r →
  has (b_flags r) B_BUSY = false →
  pick FL ≠ 0%nat ∧ ∃ j rest, FL (FreeP (pick FL)) = BufP j :: rest.
Proof.
  intros Hc HF Hi Hr Hb. destruct (ck_pool _ _ _ Hc i Hi) as (r' & Hr' & _ & Hfree).
  assert (r' = r) as -> by congruence. apply Hfree in Hb as (q & Hq & Hin).
  assert (Hp : pick FL ≠ 0%nat ∧ ∃ k rest, FL (FreeP (pick FL)) = k :: rest).
  { unfold pick. destruct (FL (FreeP BQ_AGE)) as [|k l] eqn:EA; [|rewrite EA; split; [done|eauto]].
    destruct (FL (FreeP BQ_LRU)) as [|k l] eqn:EL; [|rewrite EL; split; [done|eauto]].
    exfalso. unfold fheads in Hq. apply list_elem_of_fmap in Hq as (n & -> & Hn). apply elem_of_seq in Hn.
    unfold BQUEUES, BQ_AGE, BQ_LRU, BQ_LOCKED in *. destruct n as [|[|[|n]]]; [| | |lia]; rewrite ?HF, ?EA, ?EL in Hin; set_solver. }
  destruct Hp as (Hp & k & rest & E). split; [done|].
  destruct (ck_fmem _ _ _ Hc _ k (pick_fheads FL)) as (j & _ & ->); [rewrite E; set_solver|]. eauto.
Qed.
Lemma flushed_facts r : has (b_flags r) NEVER = false →
  b_dev (flushed r) = b_dev r ∧ b_blkno (flushed r) = b_blkno r ∧ has (b_flags (flushed r)) B_BUSY = false ∧
  has (b_flags (flushed r)) B_INVAL = has (b_flags r) B_INVAL ∧ has (b_flags (flushed r)) B_DELWRI = false.
Proof.
  intros Hn. set (x := doned (wr_rec r)).
  assert (Hx : has (b_flags x) NEVER = false) by (unfold x; simpl; rewrite has_setf by done; by apply has_clrf_mono).
  destruct (let_go_ok x Hx) as (E1 & E2 & _ & E4).
  change (b_dev (flushed r)) with (b_dev (let_go x)). change (b_blkno (flushed r)) with (b_blkno (let_go x)).
  change (b_flags (flushed r)) with (setf (b_flags (let_go x)) B_AGE). rewrite E1, E2, E4.
  split; [done|]. split; [done|]. unfold x. by hasf.
Qed.

Lemma stateful_flushed : stateful flushed.
Proof.
  intros r r' (E1 & E2 & E3 & E4 & E5 & E6 & E7)%bare_fields. unfold flushed, unlocked, aged, let_go, errd, doned, wr_rec. simpl.
  rewrite E1. repeat case_match; apply bare_eq; simpl; by rewrite ?E1.
Qed.
Lemma same_pool_trans st1 st2 st3 j f g :
  same_pool st1 st2 j f → same_pool st2 st3 j g → stateful g → same_pool st1 st3 j (λ r, g (f r)).
Proof.
  intros E1 E2 Hg i. rewrite (E2 i). specialize (E1 i). destruct (decide (i = j)) as [->|Hij].
  - rewrite !lookup_alter_eq in *. destruct (st2 !! BufP j), (st1 !! BufP j); try done.
    apply (inj Some) in E1. simpl. f_equal. by apply Hg.
  - by rewrite !lookup_alter_ne in * by congruence.
Qed.
(** A free dirty buffer was written and released. *)
Lemma evolves_flushed st st' j r f :
  same_pool st st' j (λ r, flushed (f r)) → (j < NBUF)%nat → st !! BufP j = Some r →
  has (b_flags r) B_BUSY = false → has (b_flags r) B_DELWRI = true → has (b_flags (f r)) NEVER = false →
  has (b_flags (f r)) B_INVAL = has (b_flags r) B_INVAL → b_dev (f r) = b_dev r → b_blkno (f r) = b_blkno r →
  evolves st st' ∧ (ndirty st' < ndirty st)%nat.
Proof.
  intros Hp Hj Hr Hb Hd Hn Hi Ed Eb. destruct (flushed_facts (f r) Hn) as (L1 & L2 & L3 & L4 & L5).
  assert (Hch : ∀ i ri, st !! BufP i = Some ri → ∃ ri', st' !! BufP i = Some ri' ∧
    bare ri' = bare (if decide (i = j) then flushed (f r) else ri)).
  { intros i ri Hri. destruct (same_pool_lookup _ _ _ _ _ _ Hp Hri) as (q & Q & B). exists q. split; [done|]. rewrite B.
    case_decide; [|done]. subst i. by assert (ri = r) as -> by congruence. }
  split.
  - intros i ri Hri. destruct (Hch i ri Hri) as (q & Q & B). exists q. split; [done|].
    apply bare_fields in B as B'. destruct B' as (G1 & _ & _ & G4 & _ & G6 & _). rewrite G1, G4, G6. case_decide as E; [|done].
    subst i. assert (ri = r) as -> by congruence. by rewrite L1, L2, L3, L4, Hb.
  - apply (filter_drops _ _ _ j); [| | |apply elem_of_seq; lia]; unfold dirty_free.
    + intros i Hij. destruct (st !! BufP i) as [ri|] eqn:Ei.
      * destruct (Hch i ri Ei) as (q & -> & B). rewrite decide_False in B by done. apply bare_fields in B as (-> & _). done.
      * destruct (st' !! BufP i) as [q|] eqn:Q; [|done]. exfalso.
        destruct (same_pool_inv _ _ _ _ _ _ Hp Q) as (q1 & Q1 & _). congruence.
    + destruct (Hch j r Hr) as (q & -> & B). rewrite decide_True in B by done. apply bare_fields in B as (-> & _). by rewrite L5.
    + by rewrite Hr, Hd, Hb.
Qed.

Section getting.
Hypothesis Hmd : on_md.

(** A dirty victim is written first. *)
Lemma getnewbuf_dirty fuel s D W HL FL j rest r :
  coh s D W → cache_ok (bstore s) HL FL → FL (FreeP BQ_LOCKED) = [] → pick FL ≠ 0%nat →
  FL (FreeP (pick FL)) = BufP j :: rest → bstore s !! BufP j = Some r → has (b_flags r) B_DELWRI = true →
  ∃ s1, getnewbuf (S fuel) s = getnewbuf fuel s1 ∧ coh s1 D W ∧ io_frame s s1 ∧ evolves (bstore s) (bstore s1) ∧
    (ndirty (bstore s1) < ndirty (bstore s))%nat.
Proof.
  intros Hco Hc HF Hp EF Hr Hdw.
  destruct (notavail_coh s D W HL FL _ [] j rest Hco Hc HF (pick_fheads FL) EF) as
    (st' & r' & En & _ & Hco' & Hs & Hj & Hr' & Hb & HW). assert (r' = r) as -> by congruence.
  destruct (same_but_lookup _ _ _ _ _ _ Hs Hr) as (r1 & Hr1 & Eb). rewrite decide_True in Eb by done.
  apply bare_fields in Eb as Ef. destruct Ef as (Efl & _ & _ & Edv & _ & Ebl & _). simpl in Efl.
  assert (Hb1 : has (b_flags r1) B_BUSY = true) by (rewrite Efl; by hasf).
  assert (Hd1 : has (b_flags r1) B_DELWRI = true) by (rewrite Efl, has_setf; done).
  destruct (bawrite_coh Hmd fuel (with_b s st') D W j r1 Hco' Hj Hr1 Hb1 Hd1 HW) as (s1 & Ew & Hco1 & F1 & P1).
  destruct (evolves_flushed (bstore s) (bstore s1) j r (λ r, asynced (busied r))) as [V1 N1]; try done.
  { eapply (same_pool_trans _ st' _ j (λ r, busied r) (λ r, flushed (asynced r))); [by apply same_but_pool|done|].
    intros x y E. by apply stateful_flushed, (stateful_flags (λ f, setf f B_ASYNC)). }
  { simpl. rewrite !has_setf by done. apply (bo_never _ _ _ _ _ (ch_pool _ _ _ Hco j r Hj Hr)). }
  { simpl. by rewrite !has_setf. }
  exists s1. split; [|split; [done|split; [|done]]].
  - cbn [getnewbuf]. rewrite (bind_done _ _ _ _ _ (getnewbuf_pick_spec s HL FL Hc)). cbv beta. rewrite decide_False by done.
    pose proof (rg_path _ _ _ _ (ck_free _ _ _ Hc) _ (pick_fheads FL)) as Hpq. apply path_first in Hpq. rewrite EF in Hpq.
    simpl in Hpq. apply view_get in Hpq as (d & Hd & Ed). rewrite (bind_done _ _ _ _ _ (getbuf_eq _ _ _ Hd)). cbv beta.
    bopt Ed. rewrite (bind_done _ _ _ _ _ En). cbv beta. rewrite (bind_done _ _ _ _ _ (getbuf_eq (with_b s st') _ _ Hr1)). cbv beta.
    rewrite Hd1. by rewrite (bind_done _ _ _ _ _ Ew).
  - eapply io_frame_trans; [apply (io_frame_with_b s st')|done].
Qed.

(** With a buffer to be had, all goes as if the victim were clean. *)
Lemma getnewbuf_flushes fuel s D W i0 r0 :
  coh s D W → (i0 < NBUF)%nat → bstore s !! BufP i0 = Some r0 → has (b_flags r0) B_BUSY = false →
  (ndirty (bstore s) < fuel)%nat →
  ∃ s1 k HL FL j rest r, getnewbuf fuel s = getnewbuf (S k) s1 ∧ coh s1 D W ∧ io_frame s s1 ∧
    evolves (bstore s) (bstore s1) ∧ cache_ok (bstore s1) HL FL ∧ FL (FreeP BQ_LOCKED) = [] ∧ pick FL ≠ 0%nat ∧
    FL (FreeP (pick FL)) = BufP j :: rest ∧ bstore s1 !! BufP j = Some r ∧ has (b_flags r) B_DELWRI = false.
Proof.
  revert s r0. induction fuel as [|fuel IH]; intros s r0 Hco Hi Hr Hb Hn; [lia|].
  destruct (ch_cache _ _ _ Hco) as (HL & FL & Hc & HF).
  destruct (pick_some HL FL (bstore s) i0 r0 Hc HF Hi Hr Hb) as (Hp & j & rest & EF).
  assert (Hj : (j < NBUF)%nat).
  { destruct (ck_fmem _ _ _ Hc _ (BufP j) (pick_fheads FL)) as (i & Hi' & [= ->]); [rewrite EF; set_solver|done]. }
  destruct (ck_pool _ _ _ Hc j Hj) as (r & Hrj & _). destruct (has (b_flags r) B_DELWRI) eqn:Hd.
  - destruct (getnewbuf_dirty fuel s D W HL FL j rest r Hco Hc HF Hp EF Hrj Hd) as (s1 & E1 & Hco1 & F1 & V1 & N1).
    destruct (V1 i0 r0 Hr) as (r1 & Hr1 & B1 & _).
    destruct (IH s1 r1 Hco1 Hi Hr1) as (s2 & k & HL2 & FL2 & j2 & rest2 & r2 & E2 & Hco2 & F2 & V2 & ?); [congruence|lia|].
    exists s2, k, HL2, FL2, j2, rest2, r2. split; [by rewrite E1|]. split; [done|]. split; [by eapply io_frame_trans|].
    split; [by eapply evolves_trans|done].
  - exists s, fuel, HL, FL, j, rest, r. split; [done|]. split; [done|]. split; [apply io_frame_refl|].
    split; [apply evolves_refl|done].
Qed.
End getting.

(** What [getblk] and [bread] give: buffer [j], in use for block [b]; the
    buffers in use before are as they were, the others still free. *)
Record got s s' D W (j : nat) (r : buf) (b : Z) : Prop := {
  got_coh : coh s' D W;
  got_lt : (j < NBUF)%nat;
  got_buf : bstore s' !! BufP j = Some r;
  got_holds : holds r (rg_dev rg) b;
  got_busy : has (b_flags r) B_BUSY = true;
  got_async : has (b_flags r) B_ASYNC = false;
  got_new : j ∉ W;
  got_was : ∃ r0, bstore s !! BufP j = Some r0 ∧ has (b_flags r0) B_BUSY = false;
  got_others : ∀ i ri, i ≠ j → bstore s !! BufP i = Some ri →
    ∃ ri', bstore s' !! BufP i = Some ri' ∧ has (b_flags ri') B_BUSY = has (b_flags ri) B_BUSY ∧
      (has (b_flags ri) B_BUSY = true → bare ri' = bare ri);
  got_frame : io_frame s s';
}.
(** A block is to be had: nobody uses its buffer, and there is a free one. *)
Record available s (b : Z) : Prop := {
  av_idle : ∀ i r, (i < NBUF)%nat → bstore s !! BufP i = Some r → holds r (rg_dev rg) b → has (b_flags r) B_BUSY = false;
  av_free : ∃ i r, (i < NBUF)%nat ∧ bstore s !! BufP i = Some r ∧ has (b_flags r) B_BUSY = false;
}.

Section blocks.
Hypothesis Hmd : on_md.

Lemma getblk_found fuel s D W HL FL j b :
  coh s D W → cache_ok (bstore s) HL FL → FL (FreeP BQ_LOCKED) = [] → available s b →
  List.find (matches (bstore s) (rg_dev rg) b) (HL (BUFHASH (rg_dev rg) b)) = Some (BufP j) →
  ∃ r s', getblk_loop (S fuel) (BUFHASH (rg_dev rg) b) (rg_dev rg) b s = Done (BufP j) s' ∧ got s s' D W j r b.
Proof.
  intros Hco Hc HF [Hav _] Ef. apply List.find_some in Ef as Ein. destruct Ein as [Hin Hm]. apply list_elem_of_In in Hin.
  apply matches_holds in Hm as (r & Hr & Hh).
  destruct (ck_hmem _ _ _ Hc _ _ (BUFHASH_head (rg_dev rg) b) Hin) as (j' & Hj & [= <-]).
  pose proof (Hav j r Hj Hr Hh) as Hb. destruct (ck_pool _ _ _ Hc j Hj) as (r0 & Hr0 & _ & Hfree).
  assert (r0 = r) as -> by congruence. apply Hfree in Hb as Hq. destruct Hq as (q & Hq & Hjq).
  apply list_elem_of_split in Hjq as (l1 & l2 & E).
  destruct (notavail_coh s D W HL FL q l1 j l2 Hco Hc HF Hq E) as (st' & r' & En & _ & Hco' & Hs & _ & Hr' & _ & HW).
  assert (r' = r) as -> by congruence.
  destruct (same_but_lookup _ _ _ _ _ _ Hs Hr) as (r1 & Hr1 & Eb). rewrite decide_True in Eb by done.
  apply bare_fields in Eb as (E1 & _ & _ & E4 & _ & E6 & _). simpl in E1, E4, E6.
  exists r1, (with_b s st'). split.
  { cbn [getblk_loop]. rewrite (bind_done _ _ _ _ _ (hash_search_spec _ _ _ _ _ _ Hc (BUFHASH_head _ _))). cbv beta.
    rewrite Ef. rewrite (bind_done _ _ _ _ _ (getbuf_eq _ _ _ Hr)). cbv beta. rewrite Hb. by rewrite (bind_done _ _ _ _ _ En). }
  split; [done|done|done| | | |done|by exists r| |apply io_frame_with_b].
  - unfold holds. rewrite E1, E4, E6. by hasf.
  - rewrite E1. by hasf.
  - rewrite E1. hasf. by apply (bo_free _ _ _ _ _ (ch_pool _ _ _ Hco j r Hj Hr)).
  - intros i ri Hij Hri. destruct (same_but_lookup _ _ _ _ _ _ Hs Hri) as (ri' & Hri' & Bi).
    rewrite decide_False in Bi by congruence. exists ri'. split; [done|]. split; [by apply bare_fields in Bi as (-> & _)|done].
Qed.

Lemma claimed_facts j dev b r :
  has (b_flags r) NEVER = false →
  b_flags (claimed j dev b r) = B_BUSY ∧ b_addr (claimed j dev b r) = b_addr r ∧ b_dev (claimed j dev b r) = dev ∧
  b_blkno (claimed j dev b r) = b.
Proof.
  intros Hn. unfold claimed, fresh. rewrite has_lor, (has_sub _ NEVER B_RAMREMAP eq_refl Hn), (has_sub _ NEVER B_PHYS eq_refl Hn).
  done.
Qed.

Lemma claimed_resid j dev b r : b_resid (claimed j dev b r) = b_resid r.
Proof. unfold claimed, fresh. by destruct (has (b_flags r) (Z.lor B_RAMREMAP B_PHYS)). Qed.
Lemma getblk_taken fuel s D W HL FL b :
  coh s D W → cache_ok (bstore s) HL FL → available s b → in_range b → (ndirty (bstore s) < fuel)%nat →
  List.find (matches (bstore s) (rg_dev rg) b) (HL (BUFHASH (rg_dev rg) b)) = None →
  ∃ j r s', getblk_loop (S fuel) (BUFHASH (rg_dev rg) b) (rg_dev rg) b s = Done (BufP j) s' ∧ got s s' D W j r b ∧
    b_flags r = B_BUSY.
Proof.
  intros Hco Hc [_ (i0 & r0 & Hi0 & Hr0 & Hb0)] Hin Hn Ef. pose proof (md_nodev Hmd) as Hnd.
  destruct (getnewbuf_flushes Hmd fuel s D W i0 r0 Hco Hi0 Hr0 Hb0 Hn) as
    (s1 & k & HL1 & FL1 & j & rest & r & Eg & Hco1 & F1 & V1 & Hc1 & HF1 & Hp1 & EF1 & Hr & Hd).
  destruct (getnewbuf_clean k s1 (bstore s1) HL1 FL1 j rest r Hc1 Hp1 EF1 Hr Hd) as (st1 & E1 & Hc2 & Hs1). rewrite with_b_id in E1.
  assert (Hj : (j < NBUF)%nat).
  { destruct (ck_fmem _ _ _ Hc1 _ (BufP j) (pick_fheads FL1)) as (i & Hi & [= ->]); [rewrite EF1; set_solver|done]. }
  destruct (same_but_lookup _ _ _ _ _ _ Hs1 Hr) as (r1 & Hr1 & _).
  destruct (assign_spec (mret (BufP j)) s1 st1 HL1 _ j r1 (BUFHASH (rg_dev rg) b) (rg_dev rg) b Hc2 Hj Hr1 (BUFHASH_head _ _)) as
    (st2 & HL2 & E2 & Hc3 & Hs2); [done|].
  assert (Hs : same_but (bstore s1) st2 (BufP j) (claimed j (rg_dev rg) b)).
  { refine (same_but_trans _ st1 _ _ (fresh j) _ Hs1 Hs2 _). intros x y E. apply (stateful_assign (rg_dev rg) b 0), stateful_bcount, E. }
  pose proof (ch_pool _ _ _ Hco1 j r Hj Hr) as [Ba Bc Bn Bv Bd Bdw Bh Bf Br].
  destruct (claimed_facts j (rg_dev rg) b r Bn) as (C1 & C2 & C3 & C4).
  assert (Hfree : has (b_flags r) B_BUSY = false).
  { destruct (ck_pool _ _ _ Hc1 j Hj) as (r' & Hr' & _ & Hf). assert (r' = r) as -> by congruence. apply Hf.
    exists (FreeP (pick FL1)). split; [apply pick_fheads|]. rewrite EF1. set_solver. }
  assert (HW : j ∉ W) by (intros Hx; destruct (Bh Hx); congruence).
  assert (Hnone : ∀ i ri, (i < NBUF)%nat → bstore s1 !! BufP i = Some ri → ¬ holds ri (rg_dev rg) b).
  { intros i ri Hi Hri (D1 & D2 & D3). destruct (ck_pool _ _ _ Hc i Hi) as (q & Q & _).
    destruct (V1 i q Q) as (q' & Q' & _ & I1 & I2 & I3 & _). assert (q' = ri) as -> by congruence.
    apply (find_none_holds s HL FL (rg_dev rg) b i q Hc Hnd Ef Hi Q). unfold holds. by rewrite <- I1, <- I2, <- I3. }
  destruct (same_but_lookup _ _ _ _ _ _ Hs Hr) as (r2 & Hr2 & B2). rewrite decide_True in B2 by done.
  apply bare_fields in B2 as (G1 & _ & _ & G4 & _ & G6 & _). rewrite C1 in G1. rewrite C3 in G4. rewrite C4 in G6.
  assert (Hq0 : ∃ q0, bstore s !! BufP j = Some q0 ∧ has (b_flags q0) B_BUSY = false).
  { destruct (ck_pool _ _ _ Hc j Hj) as (q & Q & _). destruct (V1 j q Q) as (q' & Q' & I0 & _).
    assert (q' = r) as -> by congruence. exists q. split; [done|congruence]. }
  exists j, r2, (with_b s1 st2). split.
  { cbn [getblk_loop]. rewrite (bind_done _ _ _ _ _ (hash_search_spec _ _ _ _ _ _ Hc (BUFHASH_head _ _))). cbv beta. rewrite Ef.
    rewrite <- Eg in E1. rewrite (bind_done _ _ _ _ _ E1). cbv beta. exact E2. }
  split; [|exact G1]. split; [|done|done| | | |done|exact Hq0| |].
  - eapply (coh_step s1 st2 D W W j _ r); [done|done|done|by apply same_but_pool| | | |done|].
    + exists HL2, (<[FreeP (pick FL1) := rest]> FL1). split; [done|]. by rewrite fn_lookup_insert_ne by (intros [= E]; by apply Hp1).
    + eapply unique_step; [apply (ch_uniq _ _ _ Hco1)|exact Hs|done|]. intros q i ri Q Hij Hi Hri Vi _ Ed Eb.
      assert (q = r) as -> by congruence. rewrite C3 in Ed. rewrite C4 in Eb. apply (Hnone i ri Hi Hri). destruct Vi as [? _]. done.
    + split; rewrite ?C1, ?C2, ?C3, ?C4; try done. by rewrite claimed_resid.
    + intros b' Hin' Hh [Hx|Hx]; [congruence|done].
  - unfold holds. by rewrite G1, G4, G6.
  - by rewrite G1.
  - by rewrite G1.
  - intros i ri Hij Hri. destruct (V1 i ri Hri) as (q & Q & I0 & _ & _ & _ & I5).
    destruct (same_but_lookup _ _ _ _ _ _ Hs Q) as (q2 & Q2 & Bq). rewrite decide_False in Bq by congruence.
    exists q2. split; [done|]. split; [apply bare_fields in Bq as (-> & _); done|]. intros Hb. rewrite Bq. by apply I5.
  - eapply io_frame_trans; [exact F1|apply io_frame_with_b].
Qed.

Lemma getblk_coh fuel s D W b :
  coh s D W → available s b → in_range b → (ndirty (bstore s) < fuel)%nat →
  ∃ j r s', getblk (S fuel) (rg_dev rg) b s = Done (BufP j) s' ∧ got s s' D W j r b.
Proof.
  intros Hco Hav Hin Hn. destruct (ch_cache _ _ _ Hco) as (HL & FL & Hc & HF). unfold getblk.
  rewrite (om_major Hmd), (om_nblkdev Hmd), andb_false_r. cbn [when]. rewrite (bind_done _ _ _ _ _ (mret_eq _ _)). cbv beta.
  change (fsbtodb b) with b.
  destruct (List.find (matches (bstore s) (rg_dev rg) b) (HL (BUFHASH (rg_dev rg) b))) as [k|] eqn:Ef.
  - assert (∃ j, k = BufP j) as [j ->].
    { apply List.find_some in Ef as [Hx _]. apply list_elem_of_In in Hx.
      destruct (ck_hmem _ _ _ Hc _ _ (BUFHASH_head (rg_dev rg) b) Hx) as (j & _ & ->). eauto. }
    destruct (getblk_found fuel s D W HL FL j b Hco Hc HF Hav Ef) as (r & s' & E & Hg). eauto.
  - destruct (getblk_taken fuel s D W HL FL b Hco Hc Hav Hin Hn Ef) as (j & r & s' & E & Hg & _). eauto.
Qed.
(** A block that is not cached: a buffer without contents. *)
Lemma getblk_fresh fuel s D W b :
  coh s D W → available s b → in_range b → (ndirty (bstore s) < fuel)%nat →
  (∀ i r, (i < NBUF)%nat → bstore s !! BufP i = Some r → ¬ holds r (rg_dev rg) b) →
  ∃ j r s', getblk (S fuel) (rg_dev rg) b s = Done (BufP j) s' ∧ got s s' D W j r b ∧ b_flags r = B_BUSY.
Proof.
  intros Hco Hav Hin Hn Hno. destruct (ch_cache _ _ _ Hco) as (HL & FL & Hc & HF). unfold getblk.
  rewrite (om_major Hmd), (om_nblkdev Hmd), andb_false_r. cbn [when]. rewrite (bind_done _ _ _ _ _ (mret_eq _ _)). cbv beta.
  change (fsbtodb b) with b. apply (getblk_taken fuel s D W HL FL b); try done.
  destruct (List.find _ _) as [k|] eqn:Ef; [|done]. exfalso. apply List.find_some in Ef as [Hx Hm]. apply list_elem_of_In in Hx.
  destruct (ck_hmem _ _ _ Hc _ _ (BUFHASH_head (rg_dev rg) b) Hx) as (j & Hj & ->).
  apply matches_holds in Hm as (r & Hr & Hh). by apply (Hno j r).
Qed.
End blocks.

(** * Reading a block *)

Definition rd_rec (m : Z) (r : buf) : buf := r <| b_flags ::= λ f, setf f m |> <| b_bcount := DEV_BSIZE |>.
Lemma rd_rec_place m r : Z.land m B_BUSY = 0 → Z.land m B_INVAL = 0 → in_place (rd_rec m) r.
Proof. intros E1 E2. split; [done|by apply has_setf|done|by apply has_setf]. Qed.

Section reading.
Hypothesis Hmd : on_md.

(** A read of a buffer without contents: the block is there when it is done. *)
Lemma read_filled {B} m (k : K B) s D W j r b :
  coh s D W → (j < NBUF)%nat → bstore s !! BufP j = Some r → holds r (rg_dev rg) b → in_range b →
  has (b_flags r) B_BUSY = true → j ∉ W → has (b_flags r) (Z.lor B_DONE B_DELWRI) = false →
  m = B_READ ∨ m = Z.lor B_READ B_ASYNC →
  ∃ s', (set_bflags (BufP j) m ;; setbuf (BufP j) (λ b, b <| b_bcount := DEV_BSIZE |>) ;; strategy (BufP j) ;; k) s =
      (biodone (BufP j) ;; k) s' ∧
    coh s' D W ∧ io_frame s s' ∧ bstore s' = alter (rd_rec m) (BufP j) (bstore s) ∧
    bufdata s' !! core j = Some (D b) ∧ block_at s' (daddr b) (D b).
Proof.
  intros Hco Hj Hr Hh Hin Hb HW Hdd Hm.
  assert (Hip : in_place (rd_rec m) r) by (destruct Hm as [-> | ->]; by apply rd_rec_place).
  assert (Hd : has (b_flags r) B_DONE = false) by (by apply (has_sub _ (Z.lor B_DONE B_DELWRI))).
  assert (Hdw : has (b_flags r) B_DELWRI = false) by (by apply (has_sub _ (Z.lor B_DONE B_DELWRI))).
  assert (Hdd' : has (b_flags (rd_rec m r)) (Z.lor B_DONE B_DELWRI) = false) by (destruct Hm as [-> | ->]; by hasf).
  assert (Hdw' : has (b_flags (rd_rec m r)) B_DELWRI = false) by (by apply (has_sub _ (Z.lor B_DONE B_DELWRI))).
  pose proof (ch_pool _ _ _ Hco j r Hj Hr) as [Ba Bc Bn Bv Bd Bdw Bh Bf Br].
  unfold set_bflags. rewrite (bind_done _ _ _ _ _ (setbuf_alter s _ _ ltac:(by eexists))). cbv beta.
  set (st1 := alter _ _ (bstore s)). assert (Hx1 : is_Some (bstore (with_b s st1) !! BufP j)) by (apply is_Some_alter; by eexists).
  rewrite (bind_done _ _ _ _ _ (setbuf_alter _ _ _ Hx1)). cbv beta. change (bstore (with_b s st1)) with st1. rewrite with_b_with.
  assert (Est : alter (λ c, c <| b_bcount := DEV_BSIZE |>) (BufP j) st1 = alter (rd_rec m) (BufP j) (bstore s)).
  { unfold st1. apply map_eq. intros k'. destruct (decide (k' = BufP j)) as [->|]; [|by rewrite !lookup_alter_ne].
    rewrite !lookup_alter_eq. by destruct (bstore s !! BufP j). }
  rewrite Est. set (s1 := with_b s (alter (rd_rec m) (BufP j) (bstore s))).
  assert (Hco1 : coh s1 D W).
  { eapply (coh_alter s D W W); [done|done|exact Hr|done| |done|].
    - split; try done.
      + destruct Hm as [-> | ->]; simpl; by rewrite has_setf.
      + intros V. apply (in_place_valid _ _ Hip) in V. by apply Bv.
      + intros V Hf. by rewrite Hdd' in Hf.
      + intros Hf. by rewrite Hdw' in Hf.
      + rewrite (ip_busy _ _ Hip), Hb. done.
    - intros b' _ _ [Hx|Hx]; [congruence|done]. }
  assert (Hr1 : bstore s1 !! BufP j = Some (rd_rec m r)) by (simpl; by rewrite lookup_alter_eq, Hr).
  assert (Hh1 : holds (rd_rec m r) (rg_dev rg) b) by (by apply (in_place_holds _ _ _ _ Hip)).
  pose proof Hh1 as (Hd1 & Hb1 & _).
  destruct (strategy_md Hmd s1 D W j (rd_rec m r) b Hco1 Hj Hr1 Hd1 Hb1 Hin eq_refl Ba) as (cw & dw & _ & [Hdw1 _] & E1).
  assert (Er : has (b_flags (rd_rec m r)) B_READ = true) by (destruct Hm as [-> | ->]; by hasf). rewrite Er in E1.
  destruct (up_to_date s1 D W j (rd_rec m r) b Hco1 Hj Hr1 Hh1 (md_nodev Hmd) Hin Hdw' HW) as [Hup Hl].
  assert (dw = D b) as -> by congruence.
  exists (with_d s1 (core j) (D b)). split; [unfold mbind, M_bind; by rewrite E1|]. split; [|split; [|split; [done|split]]].
  - eapply (coh_core Hmd); [done|done|exact Hr1|done|]. intros _ Hf. by rewrite Hdd' in Hf.
  - eapply io_frame_trans; [apply (io_frame_with_b s)|apply (io_frame_with_d s1)].
  - apply lookup_insert_eq.
  - apply block_at_with; [intros E; by apply (om_apart Hmd j b)|done].
Qed.
(** The transfer of [bread], into a buffer without contents. *)
Lemma bread_start {B} (k : K B) s D W j r b :
  coh s D W → (j < NBUF)%nat → bstore s !! BufP j = Some r → holds r (rg_dev rg) b → in_range b →
  has (b_flags r) B_BUSY = true → has (b_flags r) B_ASYNC = false → j ∉ W →
  has (b_flags r) (Z.lor B_DONE B_DELWRI) = false →
  ∃ s', (set_bflags (BufP j) B_READ ;; setbuf (BufP j) (λ b, b <| b_bcount := DEV_BSIZE |>) ;;
         strategy (BufP j) ;; pay_read ;; k) s = k s' ∧
    coh s' D W ∧ io_frame s s' ∧ bstore s' = alter (λ r, done_rec (rd_rec B_READ r)) (BufP j) (bstore s).
Proof.
  intros Hco Hj Hr Hh Hin Hb Ha HW Hdd.
  destruct (read_filled B_READ (pay_read ;; k) s D W j r b Hco Hj Hr Hh Hin Hb HW Hdd ltac:(by left)) as (s2 & E2 & Hco2 & F2 & B2 & Hc2 & _).
  rewrite E2. pose proof (rd_rec_place B_READ r eq_refl eq_refl) as Hip.
  assert (Hr2 : bstore s2 !! BufP j = Some (rd_rec B_READ r)) by (by rewrite B2, lookup_alter_eq, Hr).
  assert (Hd : has (b_flags r) B_DONE = false) by (by apply (has_sub _ (Z.lor B_DONE B_DELWRI))).
  destruct (biodone_coh s2 D W j _ Hco2 Hj Hr2) as (s3 & E3 & Hco3 & F3 & M3 & B3);
    [by rewrite (ip_busy _ _ Hip)|by hasf|by hasf|intros _; destruct Hh as (_ & <- & _); exact Hc2|].
  rewrite (bind_done _ _ _ _ _ E3). cbv beta.
  unfold pay_read. rewrite (bind_done _ _ _ _ _ (setu_eq _ _)). cbv beta. set (s4 := upd u _ s3).
  exists s4. split; [done|]. split; [by apply (coh_ext s3)|]. split.
  - eapply io_frame_trans; [exact F2|]. eapply io_frame_trans; [exact F3|]. split; [by destruct s3|simpl; by destruct (u s3)].
  - change (bstore s4) with (bstore s3). rewrite B3, B2.
    apply map_eq. intros k'. destruct (decide (k' = BufP j)) as [->|]; [|by rewrite !lookup_alter_ne].
    rewrite !lookup_alter_eq. by destruct (bstore s !! BufP j).
Qed.
(** What it leaves in the buffer. *)
Lemma bread_started fuel s D W j r b :
  coh s D W → (j < NBUF)%nat → bstore s !! BufP j = Some (done_rec (rd_rec B_READ r)) → holds r (rg_dev rg) b →
  biowait fuel (BufP j) s = Done tt s ∧ holds (done_rec (rd_rec B_READ r)) (rg_dev rg) b ∧
  bufdata s !! core j = Some (D b) ∧ has (b_flags (done_rec (rd_rec B_READ r))) B_ERROR = false.
Proof.
  intros Hco Hj Hr Hh. set (r2 := done_rec (rd_rec B_READ r)) in *.
  pose proof (ch_pool _ _ _ Hco j r2 Hj Hr) as [Ba Bc Bn Bv Bd Bdw Bh Bf Br].
  assert (He : has (b_flags r2) B_ERROR = false) by (by apply (has_sub _ NEVER B_ERROR eq_refl)).
  assert (Hh2 : holds r2 (rg_dev rg) b) by (unfold holds, r2 in *; by hasf).
  split; [apply (biowait_done fuel s j r2 Hr); [unfold r2; by hasf|done]|]. split; [done|]. split; [|done].
  destruct Hh2 as (Ed & <- & Ev). apply Bd; [split; [done|rewrite Ed; by apply md_nodev]|unfold r2; by hasf].
Qed.

(** [bread] returns the block's contents in a buffer in use. *)
Lemma bread_coh fuel s D W b :
  coh s D W → available s b → in_range b → (ndirty (bstore s) < fuel)%nat →
  ∃ j r s', bread (S fuel) (rg_dev rg) b s = Done (BufP j) s' ∧ got s s' D W j r b ∧
    bufdata s' !! core j = Some (D b) ∧ has (b_flags r) B_ERROR = false ∧
    has (b_flags r) (Z.lor B_DONE B_DELWRI) = true.
Proof.
  intros Hco Hav Hin Hn. destruct (getblk_coh Hmd fuel s D W b Hco Hav Hin Hn) as (j & r & s1 & E1 & Hg).
  pose proof Hg as [Hco1 Hj Hr Hh Hb Ha HW Hwas Hoth Hfr].
  pose proof (ch_pool _ _ _ Hco1 j r Hj Hr) as [Ba Bc Bn Bv Bd Bdw Bh Bf Br].
  unfold bread. rewrite (bind_done _ _ _ _ _ E1). cbv beta. rewrite (bind_done _ _ _ _ _ (getbuf_eq _ _ _ Hr)). cbv beta.
  assert (V : valid r) by (destruct Hh as (Ed & _ & ?); split; [done|rewrite Ed; by apply md_nodev]).
  destruct (has (b_flags r) (Z.lor B_DONE B_DELWRI)) eqn:Hdd.
  - exists j, r, s1. split; [done|]. split; [done|]. split; [|split; [by apply (has_sub _ NEVER B_ERROR eq_refl)|done]].
    destruct Hh as (_ & <- & _). by apply Bd.
  - destruct (bread_start (biowait (S fuel) (BufP j) ;; mret (BufP j)) s1 D W j r b Hco1 Hj Hr Hh Hin Hb Ha HW Hdd)
      as (s2 & E2 & Hco2 & F2 & B2).
    assert (Hr2 : bstore s2 !! BufP j = Some (done_rec (rd_rec B_READ r))) by (by rewrite B2, lookup_alter_eq, Hr).
    destruct (bread_started (S fuel) s2 D W j r b Hco2 Hj Hr2 Hh) as (E3 & Hh2 & Hc2 & He2).
    exists j, (done_rec (rd_rec B_READ r)), s2. split; [by rewrite E2, (bind_done _ _ _ _ _ E3)|].
    split; [split; try done|split; [done|split; [done|by hasf]]].
    + by hasf.
    + by hasf.
    + intros i ri Hij Hri. destruct (Hoth i ri Hij Hri) as (ri' & Hri' & ?). exists ri'.
      rewrite B2, lookup_alter_ne by congruence. done.
    + by eapply io_frame_trans.
Qed.
End reading.

(** * Flushing *)

Definition dirty_on st (d : Z) (k : bptr) : bool :=
  match st !! k with Some r => has (b_flags r) B_DELWRI && (d =? b_dev r) | None => false end.
Lemma bflush_find_spec s fuel q a l d :
  path (ffwd (bstore s)) (fbwd (bstore s)) a l q → q ∉ l → (length l <= fuel)%nat →
  bflush_find fuel q (List.hd q l) d s = Done (List.find (dirty_on (bstore s) d) l) s.
Proof.
  revert fuel a. induction l as [|x l IH]; intros fuel a Hp Hq Hf.
  - destruct fuel; cbn [bflush_find List.hd]; by rewrite decide_True.
  - rewrite elem_of_cons in Hq. destruct fuel as [|fuel]; simpl in Hf; [lia|].
    cbn [bflush_find List.hd]. rewrite decide_False by naive_solver.
    destruct Hp as (_ & _ & Hp). pose proof (path_first _ _ _ _ _ Hp) as Hx.
    apply view_get in Hx as (r & Hr & Ex). rewrite (bind_done _ _ _ _ _ (getbuf_eq _ _ _ Hr)). cbv beta.
    cbn [List.find]. unfold dirty_on at 1. rewrite Hr.
    destruct (has (b_flags r) B_DELWRI && (d =? b_dev r)); [done|]. bopt Ex. apply (IH fuel x); (done || naive_solver lia).
Qed.
Lemma bflush_lists_spec s HL FL d qs :
  cache_ok (bstore s) HL FL → (∀ q, q ∈ qs → FreeP q ∈ fheads) →
  ∃ o, bflush_lists qs d s = Done o s ∧
    match o with
    | Some k => ∃ q, q ∈ qs ∧ k ∈ FL (FreeP q) ∧ dirty_on (bstore s) d k = true
    | None => ∀ q k, q ∈ qs → k ∈ FL (FreeP q) → dirty_on (bstore s) d k = false
    end.
Proof.
  intros Hc. induction qs as [|q qs IH]; intros Hq; [exists None; split; [done|by intros ?? ?%elem_of_nil]|].
  assert (Hh : FreeP q ∈ fheads) by (apply Hq, elem_of_cons; by left).
  pose proof (rg_path _ _ _ _ (ck_free _ _ _ Hc) _ Hh) as Hp.
  pose proof (rg_nodup _ _ _ _ (ck_free _ _ _ Hc) _ Hh) as [Hn Hnd]%NoDup_cons.
  pose proof (path_first _ _ _ _ _ Hp) as Hx. apply view_get in Hx as (r & Hr & Ex).
  assert (Ef : bflush_find (size (bstore s)) (FreeP q) (List.hd (FreeP q) (FL (FreeP q))) d s =
    Done (List.find (dirty_on (bstore s) d) (FL (FreeP q))) s).
  { eapply bflush_find_spec; [done|done|]. apply nodup_size; [done|]. intros k Hk.
    destruct (ck_fmem _ _ _ Hc _ k Hh Hk) as (i & Hi & ->). destruct (ck_pool _ _ _ Hc i Hi) as (r' & Hr' & _). by exists r'. }
  cbn [bflush_lists]. rewrite (bind_done _ _ _ _ _ (get_s_eq _)). cbv beta.
  rewrite (bind_done _ _ _ _ _ (getbuf_eq _ _ _ Hr)). cbv beta. bopt Ex. rewrite (bind_done _ _ _ _ _ Ef). cbv beta.
  destruct (List.find _ _) as [k|] eqn:E.
  - exists (Some k). split; [done|]. apply List.find_some in E as [Hk Hd]. exists q.
    split; [apply elem_of_cons; by left|]. split; [by apply list_elem_of_In|done].
  - destruct IH as (o & Eo & Ho); [intros q' Hq'; apply Hq, elem_of_cons; by right|]. exists o. split; [done|].
    destruct o as [k|].
    + destruct Ho as (q' & Hq' & ?). exists q'. split; [apply elem_of_cons; by right|done].
    + intros q' k [->|Hq']%elem_of_cons Hk; [|by apply (Ho q')].
      apply (List.find_none _ _ E). by apply list_elem_of_In.
Qed.

Section flushing.
Hypothesis Hmd : on_md.

Lemma bflush_one fuel s D W HL FL q l1 j l2 r :
  coh s D W → cache_ok (bstore s) HL FL → FL (FreeP BQ_LOCKED) = [] → q ∈ fheads → FL q = l1 ++ BufP j :: l2 →
  bstore s !! BufP j = Some r → has (b_flags r) B_DELWRI = true →
  ∃ s', (set_bflags (BufP j) B_ASYNC ;; notavail (BufP j) ;; bwrite fuel (BufP j)) s = Done tt s' ∧
    coh s' D W ∧ io_frame s s' ∧ evolves (bstore s) (bstore s') ∧ (ndirty (bstore s') < ndirty (bstore s))%nat.
Proof.
  intros Hco Hc HF Hq E Hr Hdw. assert (Hxq : BufP j ∈ FL q) by (rewrite E; set_solver).
  assert (Hj : (j < NBUF)%nat) by (destruct (ck_fmem _ _ _ Hc q _ Hq Hxq) as (i & Hi & [= ->]); done).
  pose proof (ch_pool _ _ _ Hco j r Hj Hr) as [Ba Bc Bn Bv Bd Bdw Bh Bf Br].
  destruct (ck_pool _ _ _ Hc j Hj) as (r' & Hr' & _ & Hfree). assert (r' = r) as -> by congruence.
  assert (Hb : has (b_flags r) B_BUSY = false) by (apply Hfree; eauto).
  assert (HW : j ∉ W) by (intros Hin; destruct (Bh Hin); congruence).
  pose proof (flag_place B_ASYNC r eq_refl eq_refl : in_place asynced r) as Hip.
  unfold set_bflags. rewrite (bind_done _ _ _ _ _ (setbuf_alter s _ _ ltac:(by eexists))). cbv beta.
  assert (Hc1 : cache_ok (alter asynced (BufP j) (bstore s)) HL FL).
  { destruct (ip_links _ _ Hip) as (? & ? & ? & ?). eapply (cache_ok_alter _ _ _ j asynced r); try done. apply Hip. }
  destruct (notavail_spec s _ HL FL q l1 j l2 Hc1 Hq E) as (st2 & E2 & Hc2 & Hs2).
  rewrite (bind_done _ _ _ _ _ E2). cbv beta.
  set (f := λ r, busied (asynced r)).
  assert (Hs : same_but (bstore s) st2 (BufP j) f).
  { apply (same_but_trans _ _ st2 (BufP j) asynced busied ltac:(by intros k) Hs2). exact (stateful_flags (λ f, setf f B_BUSY)). }
  assert (Vf : valid (f r) ↔ valid r) by (unfold valid, f; simpl; by rewrite !has_setf).
  assert (Hb2 : has (b_flags (f r)) B_BUSY = true) by (unfold f, busied; by hasf).
  assert (Hco2 : coh (with_b s st2) D W).
  { eapply (coh_step s st2 D W W j f r); [done|done|done|by apply same_but_pool| | | |done|].
    - exists HL, (<[q := l1 ++ l2]> FL). split; [done|]. destruct (decide (q = FreeP BQ_LOCKED)) as [->|].
      + rewrite HF in E. by destruct l1.
      + by rewrite fn_lookup_insert_ne.
    - eapply unique_keep; [apply (ch_uniq _ _ _ Hco)|done|exact Hr|by apply same_but_pool|]. intros V. by apply Vf in V.
    - split; try done.
      + simpl. by rewrite !has_setf.
      + intros V. by apply Bv, Vf.
      + intros V Hf. apply Bd; [by apply Vf|]. revert Hf. unfold f, busied, asynced. by hasf.
      + intros Hf. by apply Vf, Bdw.
      + by rewrite Hb2.
    - intros b _ Hh Hx. left. unfold holds, f, busied, asynced in *. by hasf. }
  destruct (same_but_lookup _ _ _ _ _ _ Hs Hr) as (r2 & Hr2 & B2). rewrite decide_True in B2 by done.
  apply bare_fields in B2 as (G1 & _ & _ & G4 & _ & G6 & _).
  destruct (bwrite_async Hmd fuel (with_b s st2) D W j r2 Hco2 Hj Hr2) as (s3 & E3 & Hco3 & F3 & P3);
    [by rewrite G1|rewrite G1; unfold f, busied, asynced; by hasf|rewrite G1; unfold f, busied, asynced; by hasf|done|].
  destruct (evolves_flushed (bstore s) (bstore s3) j r f) as [V3 N3]; try done.
  { eapply (same_pool_trans _ st2 _ j f flushed); [by apply same_but_pool|done|apply stateful_flushed]. }
  { unfold f. simpl. by rewrite !has_setf. }
  { unfold f. simpl. by rewrite !has_setf. }
  exists s3. split; [exact E3|]. split; [done|]. split; [eapply io_frame_trans; [apply (io_frame_with_b s st2)|done]|done].
Qed.

Lemma bflush_coh fuel s D W :
  coh s D W → (ndirty (bstore s) < fuel)%nat →
  ∃ s', bflush fuel (rg_dev rg) s = Done tt s' ∧ coh s' D W ∧ io_frame s s' ∧ evolves (bstore s) (bstore s') ∧
    ∀ i r, (i < NBUF)%nat → bstore s' !! BufP i = Some r → has (b_flags r) B_BUSY = false →
      has (b_flags r) B_DELWRI = false.
Proof.
  revert s. induction fuel as [|fuel IH]; intros s Hco Hn; [lia|].
  destruct (ch_cache _ _ _ Hco) as (HL & FL & Hc & HF).
  assert (Hall : ∀ q, q ∈ seq 0 BQUEUES → FreeP q ∈ fheads) by (intros q Hq; by apply list_elem_of_fmap_2).
  destruct (bflush_lists_spec s HL FL (rg_dev rg) _ Hc Hall) as (o & Eo & Ho).
  cbn [bflush]. rewrite (bind_done _ _ _ _ _ Eo). cbv beta. destruct o as [k|].
  - destruct Ho as (q & Hq & Hk & Hdk). destruct (ck_fmem _ _ _ Hc _ _ (Hall q Hq) Hk) as (j & Hj & ->).
    unfold dirty_on in Hdk. destruct (bstore s !! BufP j) as [r|] eqn:Hr; [|done]. apply andb_true_iff in Hdk as [Hdw _].
    apply list_elem_of_split in Hk as (l1 & l2 & E).
    destruct (bflush_one fuel s D W HL FL _ l1 j l2 r Hco Hc HF (Hall q Hq) E Hr Hdw) as (s1 & E1 & Hco1 & F1 & V1 & N1).
    destruct (IH s1 Hco1) as (s2 & E2 & Hco2 & F2 & V2 & Hcl); [lia|].
    exists s2. split; [|split; [done|split; [by eapply io_frame_trans|split; [by eapply evolves_trans|done]]]].
    rewrite <- E2.
    revert E1. m_unfold. destruct (set_bflags (BufP j) B_ASYNC s) as [[] t1| | | |]; try done.
    destruct (notavail (BufP j) t1) as [[] t2| | | |]; try done. by intros ->.
  - exists s. split; [done|]. split; [done|]. split; [apply io_frame_refl|]. split; [apply evolves_refl|].
    intros i r Hi Hr Hb. apply not_true_is_false. intros Hdw.
    destruct (ck_pool _ _ _ Hc i Hi) as (r' & Hr' & _ & Hfree). assert (r' = r) as -> by congruence.
    destruct (proj2 Hfree Hb) as (h & Hh & Hin). apply list_elem_of_fmap in Hh as (q & -> & Hq).
    specialize (Ho q _ Hq Hin). unfold dirty_on in Ho. rewrite Hr, Hdw in Ho.
    destruct (bo_valid _ _ _ _ _ (ch_pool _ _ _ Hco i r Hi Hr)) as [Ed _]; [by apply (bo_dirty _ _ _ _ _ (ch_pool _ _ _ Hco i r Hi Hr))|].
    rewrite Ed, Z.eqb_refl in Ho. done.
Qed.
End flushing.

(** * Sequences of operations *)

(** Nobody works on a buffer. *)
Definition idle s : Prop := ∀ i r, (i < NBUF)%nat → bstore s !! BufP i = Some r → has (b_flags r) B_BUSY = false.

Section sequences.
Hypothesis Hmd : on_md.
Hypothesis Hbuf : (0 < NBUF)%nat.

Lemma idle_available s D W b : coh s D W → idle s → available s b.
Proof.
  intros Hco Hid. split; [by intros i r Hi Hr _; apply (Hid i)|].
  destruct (ch_cache _ _ _ Hco) as (HL & FL & Hc & _). destruct (ck_pool _ _ _ Hc 0%nat Hbuf) as (r & Hr & _).
  exists 0%nat, r. split; [done|]. split; [done|]. by apply (Hid 0%nat).
Qed.
Lemma ndirty_le st : (ndirty st ≤ NBUF)%nat.
Proof. unfold ndirty. etrans; [apply List.filter_length_le|by rewrite length_seq]. Qed.

(** The buffer taken is given back: all is idle again. *)
Lemma idle_again s s1 s2 D W j r b (f : buf → buf) :
  idle s → got s s1 D W j r b → same_pool (bstore s1) (bstore s2) j f →
  has (b_flags (f r)) B_BUSY = false → coh s D W → idle s2.
Proof.
  intros Hid Hg Hp Hf Hco i r2 Hi Hr2. destruct (same_pool_inv _ _ _ _ _ _ Hp Hr2) as (r1 & Hr1 & Eb).
  apply bare_fields in Eb as (-> & _). case_decide as E.
  - subst i. rewrite (got_buf _ _ _ _ _ _ _ Hg) in Hr1. by apply (inj Some) in Hr1 as <-.
  - destruct (ch_cache _ _ _ Hco) as (HL & FL & Hc & _). destruct (ck_pool _ _ _ Hc i Hi) as (r0 & Hr0 & _).
    destruct (got_others _ _ _ _ _ _ _ Hg i r0 E Hr0) as (r1' & Hr1' & Ebz & _).
    assert (r1' = r1) as -> by congruence. rewrite Ebz. by apply (Hid i).
Qed.

(** A block is read, looked at and released. *)
Lemma bread_release fuel s D b :
  coh s D ∅ → idle s → in_range b → (NBUF < fuel)%nat →
  ∃ j r s1 s2, bread (S fuel) (rg_dev rg) b s = Done (BufP j) s1 ∧ getbuf (BufP j) s1 = Done r s1 ∧
    has (b_flags r) B_ERROR = false ∧ b_resid r = 0 ∧ bdata (BufP j) s1 = Done (D b) s1 ∧
    io_frame s s1 ∧ brelse (BufP j) s1 = Done tt s2 ∧ coh s2 D ∅ ∧ idle s2 ∧ io_frame s s2.
Proof.
  intros Hco Hid Hin Hf. pose proof (ndirty_le (bstore s)) as Hn.
  destruct (bread_coh Hmd fuel s D ∅ b Hco (idle_available _ _ _ _ Hco Hid) Hin ltac:(lia)) as (j & r & s1 & E1 & Hg & Hd & He & _).
  pose proof Hg as [Hco1 Hj Hr _ Hb _ _ _ _ F1]. pose proof (ch_pool _ _ _ Hco1 j r Hj Hr) as Hok.
  destruct (brelse_coh s1 D ∅ j r Hco1 Hj Hr Hb) as (s2 & E2 & Hco2 & F2 & _ & P2); [set_solver|].
  exists j, r, s1, s2. split; [done|]. split; [by apply getbuf_eq|]. split; [done|]. split; [apply (bo_resid _ _ _ _ _ Hok)|].
  split; [|split; [done|split; [done|split; [by replace (∅ ∖ {[j]} : gset nat) with (∅ : gset nat) in Hco2 by set_solver|split]]]].
  - unfold bdata. rewrite (bind_done _ _ _ _ _ (getbuf_eq _ _ _ Hr)). cbv beta. rewrite (bo_addr _ _ _ _ _ Hok).
    unfold getblock. m_unfold. by rewrite Hd.
  - eapply idle_again; [done|exact Hg|exact P2| |done].
    destruct (let_go_ok r (bo_never _ _ _ _ _ Hok)) as (_ & _ & _ & ->). by hasf.
  - by eapply io_frame_trans.
Qed.
Lemma read_block_coh fuel s D b :
  coh s D ∅ → idle s → in_range b → (NBUF < fuel)%nat →
  ∃ s', read_block (S fuel) (rg_dev rg) b s = Done (D b) s' ∧ coh s' D ∅ ∧ idle s' ∧ io_frame s s'.
Proof.
  intros Hco Hid Hin Hf. destruct (bread_release fuel s D b Hco Hid Hin Hf) as (j & r & s1 & s2 & E1 & _ & _ & _ & Eb & _ & E2 & ?).
  exists s2. unfold read_block. rewrite (bind_done _ _ _ _ _ E1). cbv beta. rewrite (bind_done _ _ _ _ _ Eb). cbv beta.
  by rewrite (bind_done _ _ _ _ _ E2).
Qed.

(** A block got is filled and written. *)
Lemma finish_write fuel (delayed : bool) s D j r b ws :
  coh s D ∅ → (j < NBUF)%nat → bstore s !! BufP j = Some r → holds r (rg_dev rg) b → in_range b →
  has (b_flags r) B_BUSY = true → has (b_flags r) B_ASYNC = false → length ws = 256%nat →
  ∃ s' f, (set_bdata (BufP j) ws ;; if delayed then bdwrite fuel (BufP j) else bwrite fuel (BufP j)) s = Done tt s' ∧
    coh s' (<[b := ws]> D) ∅ ∧ io_frame s s' ∧ same_pool (bstore s) (bstore s') j f ∧ has (b_flags (f r)) B_BUSY = false.
Proof.
  intros Hco Hj Hr Hh Hin Hb Ha Hl. pose proof (ch_pool _ _ _ Hco j r Hj Hr) as Hok. set (s2 := with_d s (core j) ws).
  assert (Es : set_bdata (BufP j) ws s = Done tt s2).
  { unfold set_bdata. rewrite (bind_done _ _ _ _ _ (getbuf_eq _ _ _ Hr)). cbv beta. rewrite (bo_addr _ _ _ _ _ Hok).
    destruct (bo_core _ _ _ _ _ Hok) as (w & Hw & _). unfold setblock, getblock. m_unfold. by rewrite Hw. }
  rewrite (bind_done _ _ _ _ _ Es). cbv beta.
  assert (Hco2 : coh s2 (<[b:=ws]> D) ({[j]} ∪ ∅)) by (by apply (coh_write Hmd s D ∅ j r b ws); try done; apply md_nodev).
  assert (Hr2 : bstore s2 !! BufP j = Some r) by done.
  assert (Hcore : bufdata s2 !! core j = Some ((<[b:=ws]> D) b)) by (simpl; by rewrite lookup_insert_eq, fn_lookup_insert).
  assert (HN := bo_never _ _ _ _ _ Hok). assert (EW : (({[j]} ∪ ∅) ∖ {[j]} : gset nat) = ∅) by set_solver.
  destruct delayed.
  - destruct (bdwrite_coh Hmd fuel s2 _ _ j r b Hco2 Hj Hr2 Hb Hh Hcore) as (s3 & E3 & Hco3 & F3 & _ & P3).
    rewrite EW in Hco3. exists s3, (λ r, let_go (dirtied r)). split; [done|]. split; [done|].
    split; [by eapply io_frame_trans; [apply (io_frame_with_d s)|]|]. split; [done|].
    destruct (let_go_ok (dirtied r)) as (_ & _ & _ & ->); [simpl; by rewrite has_setf|by hasf].
  - destruct (bwrite_coh Hmd fuel s2 _ _ j r b Hco2 Hj Hr2 Hb Hh Hin Ha Hcore) as (s3 & E3 & Hco3 & F3 & _ & P3).
    rewrite EW in Hco3. exists s3, written. split; [done|]. split; [done|].
    split; [by eapply io_frame_trans; [apply (io_frame_with_d s)|]|]. split; [done|]. unfold written.
    destruct (let_go_ok (done_rec (wr_rec r))) as (_ & _ & _ & ->); [|by hasf].
    simpl. rewrite has_clrf_disj, has_setf by done. by apply has_clrf_mono.
Qed.

Lemma write_block_coh fuel (delayed : bool) s D b ws :
  coh s D ∅ → idle s → in_range b → length ws = 256%nat → (NBUF < fuel)%nat →
  ∃ s', write_block (S fuel) delayed (rg_dev rg) b ws s = Done tt s' ∧ coh s' (<[b := ws]> D) ∅ ∧ idle s' ∧ io_frame s s'.
Proof.
  intros Hco Hid Hin Hl Hf. pose proof (ndirty_le (bstore s)) as Hn.
  destruct (getblk_coh Hmd fuel s D ∅ b Hco (idle_available _ _ _ _ Hco Hid) Hin ltac:(lia)) as (j & r & s1 & E1 & Hg).
  pose proof Hg as [Hco1 Hj Hr Hh Hb Ha _ _ _ Hfr]. unfold write_block. rewrite (bind_done _ _ _ _ _ E1). cbv beta.
  destruct (finish_write (S fuel) delayed s1 D j r b ws Hco1 Hj Hr Hh Hin Hb Ha Hl) as (s2 & f & E2 & Hco2 & F2 & P2 & Hfb).
  exists s2. split; [exact E2|]. split; [done|]. split; [by eapply idle_again|by eapply io_frame_trans].
Qed.

Lemma sync_coh fuel s D :
  coh s D ∅ → idle s → (NBUF < fuel)%nat →
  ∃ s', bflush fuel (rg_dev rg) s = Done tt s' ∧ coh s' D ∅ ∧ idle s' ∧ io_frame s s' ∧
    ∀ b, in_range b → block_at s' (daddr b) (D b).
Proof.
  intros Hco Hid Hf. pose proof (ndirty_le (bstore s)) as Hn.
  destruct (bflush_coh Hmd fuel s D ∅ Hco ltac:(lia)) as (s' & E & Hco' & F & V & Hcl).
  assert (Hid' : idle s').
  { intros i r Hi Hr. destruct (ch_cache _ _ _ Hco) as (HL & FL & Hc & _). destruct (ck_pool _ _ _ Hc i Hi) as (r0 & Hr0 & _).
    destruct (V _ _ Hr0) as (r' & Hr' & Eb & _). assert (r' = r) as -> by congruence. rewrite Eb. by apply (Hid i). }
  exists s'. split; [done|]. split; [done|]. split; [done|]. split; [done|]. intros b Hin.
  destruct (ch_disk _ _ _ Hco' b Hin) as (ws & Hat & _ & [->|(i & r & Hi & Hr & _ & [Hdw|Hx])]); [done| |set_solver].
  rewrite (Hcl i r Hi Hr (Hid' i r Hi Hr)) in Hdw. done.
Qed.

(** Any sequence: what the flat array would give. *)
Lemma run_coh fuel s D l :
  coh s D ∅ → idle s → (NBUF < fuel)%nat → Forall (op_ok rg) l →
  ∃ s', run (S fuel) (rg_dev rg) l s = Done (snd (flat_run D l)) s' ∧ coh s' (fst (flat_run D l)) ∅ ∧ idle s' ∧ io_frame s s'.
Proof.
  intros Hco Hid Hf Hl. revert s D Hco Hid. induction Hl as [|o l Ho _ IH]; intros s D Hco Hid.
  - exists s. repeat (split; [done|]). apply io_frame_refl.
  - assert (Hstep : ∃ s1, exec (S fuel) (rg_dev rg) o s = Done (snd (flat D o)) s1 ∧ coh s1 (fst (flat D o)) ∅ ∧
      idle s1 ∧ io_frame s s1).
    { destruct o as [b|dl b ws|]; cbn [exec flat fst snd].
      - destruct (read_block_coh fuel s D b Hco Hid Ho Hf) as (s1 & E1 & ? & ? & ?). exists s1.
        by rewrite (bind_done _ _ _ _ _ E1).
      - destruct Ho as [Ho Hlen]. destruct (write_block_coh fuel dl s D b ws Hco Hid Ho Hlen Hf) as (s1 & E1 & ? & ? & ?).
        exists s1. by rewrite (bind_done _ _ _ _ _ E1).
      - destruct (sync_coh (S fuel) s D Hco Hid ltac:(lia)) as (s1 & E1 & ? & ? & ? & _). exists s1.
        by rewrite (bind_done _ _ _ _ _ E1). }
    destruct Hstep as (s1 & E1 & Hco1 & Hid1 & F1). destruct (IH s1 _ Hco1 Hid1) as (s2 & E2 & Hco2 & Hid2 & F2).
    cbn [run flat_run]. destruct (flat D o) as [D1 a]. simpl in *. destruct (flat_run D1 l) as [D2 as']. simpl in *.
    exists s2. rewrite (bind_done _ _ _ _ _ E1). cbv beta. rewrite (bind_done _ _ _ _ _ E2).
    repeat (split; [done|]). by eapply io_frame_trans.
Qed.

Lemma run_app fuel dev l1 l2 s s1 s2 a1 a2 :
  run fuel dev l1 s = Done a1 s1 → run fuel dev l2 s1 = Done a2 s2 → run fuel dev (l1 ++ l2) s = Done (a1 ++ a2) s2.
Proof.
  intros E1 E2. revert s a1 E1. induction l1 as [|o l1 IH]; intros s a1 E1; cbn [run app] in *.
  - injection E1 as <- <-. exact E2.
  - revert E1. m_unfold. destruct (exec fuel dev o s) as [a t| | | |]; try done. specialize (IH t).
    destruct (run fuel dev l1 t) as [b t'| | | |]; try done. intros E. injection E as <- <-.
    by rewrite (IH _ eq_refl).
Qed.

(** C1: The buffer cache is transparent: any sequence of block reads, writes,
    delayed writes and flushes through [getblk], [bread], [bwrite], [bdwrite],
    [brelse] and [bflush] over the memory disk terminates without sleeping and
    returns exactly what the same sequence on a flat array of blocks returns,
    whatever buffers it reuses and whichever delayed writes it has to start. *)
Theorem cache_transparent fuel s D l :
  coh s D ∅ → idle s → (NBUF < fuel)%nat → Forall (op_ok rg) l →
  ∃ s', run (S fuel) (rg_dev rg) l s = Done (snd (flat_run D l)) s' ∧
    coh s' (fst (flat_run D l)) ∅ ∧ idle s' ∧ io_frame s s'.
Proof. apply run_coh. Qed.

(** C2: A flush makes all earlier writes durable: after any sequence of
    operations that ends in [bflush], the memory of the disk itself holds,
    block by block, what the writes left; none is still only in a buffer. *)
Theorem cache_durable fuel s D l :
  coh s D ∅ → idle s → (NBUF < fuel)%nat → Forall (op_ok rg) l →
  ∃ out s', run (S fuel) (rg_dev rg) (l ++ [Sync]) s = Done out s' ∧
    ∀ b, in_range b → bufdata s' !! daddr b = Some (fst (flat_run D l) b).
Proof.
  intros Hco Hid Hf Hl. destruct (run_coh fuel s D l Hco Hid Hf Hl) as (s1 & E1 & Hco1 & Hid1 & _).
  destruct (sync_coh (S fuel) s1 _ Hco1 Hid1 ltac:(lia)) as (s2 & E2 & _ & _ & _ & Hd).
  eexists _, s2. split; [|intros b Hin; apply (Hd b Hin)]. eapply run_app; [exact E1|].
  cbn [run exec]. rewrite bind_assoc. by rewrite (bind_done _ _ _ _ _ E2).
Qed.
End sequences.
End disk.
End Disk.

(** * Examples *)

Module DiskExamples.
Import Disk Bio.
#[local] Existing Instances gba_cfg Sched.layout1 Sig.sig_env0.
#[local] Instance md_env0 : MdEnv :=
  {| fs_start := 0x8000; fs_end := 0x9000; swap_start := 0xa000; swap_end := 0xa000; MD_ROOT_RW := true |}.
#[local] Instance bio_env_md : BioEnv :=
  {| nblkdev := 8; d_strategy := λ _ bp, Md.mdstrategy bp; d_flags := λ _, 0; bufdata_addr := 0x3000 |}.

(** A root disk of four blocks, each filled with its number. *)
Definition rg0 : region := MkRegion 0x600 0x8000 4.
Definition D0 (b : Z) : list Z := replicate 256 b.
Definition ram : gmap Z (list Z) :=
  list_to_map (((λ i, (0x3000 + 1024 * i, D0 0)) <$> [0; 1; 2]) ++ ((λ b, (0x8000 + 1024 * b, D0 b)) <$> [0; 1; 2; 3])).
Definition start : kstate :=
  Eval vm_compute in BioExamples.run (bhinit ;; binit ;; Md.mdprobe 0) (Md.md_init BioExamples.bss <| bufdata := ram |>).

Lemma on_md0 : on_md rg0.
Proof.
  split; try done. intros i b Hi Hb E. change (0x3000 + 1024 * Z.of_nat i = 0x8000 + Z.shiftl b 10) in E.
  change (i < 3)%nat in Hi. change (0 ≤ b < 4) in Hb. rewrite Z.shiftl_mul_pow2 in E by lia. lia.
Qed.
Lemma pool0 i r : (i < NBUF)%nat → bstore start !! BufP i = Some r → buf_ok rg0 start D0 ∅ i r.
Proof.
  intros Hi Hr. destruct i as [|[|[|i]]]; [..|unfold NBUF, gba_cfg in Hi; lia];
    vm_compute in Hr; injection Hr as <-; (split; [done|by eexists|done|by intros [_ []]|by intros [_ []]|done|set_solver|done|done]).
Qed.
Lemma unique0 : unique (bstore start).
Proof.
  intros i j ri rj Hi Hj Hri Hrj [_ Vi]. exfalso. apply Vi. change (i < 3)%nat in Hi.
  destruct i as [|[|[|i]]]; [..|lia]; vm_compute in Hri; by injection Hri as <-.
Qed.
Lemma sched0 : Sched.sched_inv start [] (λ _, []).
Proof.
  split.
  - reflexivity.
  - intros h. reflexivity.
  - intros p Hp. by apply elem_of_nil in Hp.
  - intros h p Hp. by apply elem_of_nil in Hp.
  - intros p r c Hr. change (({[0%nat := proc0 <| p_stat := SRUN |> <| p_flag := SLOAD |>]} : gmap nat proc) !! p = Some r) in Hr.
    apply lookup_singleton_Some in Hr as [_ <-]. done.
Qed.
Lemma disk0 b : in_range rg0 b → block_at start (daddr rg0 b) (D0 b).
Proof.
  change (0 ≤ b < 4 → block_at start (daddr rg0 b) (D0 b)). intros Hb.
  assert (b = 0 ∨ b = 1 ∨ b = 2 ∨ b = 3) as [->|[->|[->| ->]]] by lia; by vm_compute.
Qed.
Lemma coh0 : coh rg0 start D0 ∅.
Proof.
  split; [done|done|by right| |exact unique0|exists [], (λ _, []); exact sched0|exact pool0|].
  - exists BioExamples.boot_HL, BioExamples.boot_HL. split; [|done]. apply cache_okb_ok. vm_compute. reflexivity.
  - intros b Hb. exists (D0 b). split; [by apply disk0|]. split; [apply length_replicate|by left].
Qed.
Lemma idle0 : idle start.
Proof.
  intros i r Hi Hr. change (i < 3)%nat in Hi. destruct i as [|[|[|i]]]; [..|lia]; vm_compute in Hr; by injection Hr as <-.
Qed.

(** Four blocks through three buffers. *)
Definition work : list op :=
  [Write true 0 (D0 7); Write true 1 (D0 8); Write true 2 (D0 9); Read 3; Read 0; Write false 1 (D0 5); Read 1; Read 2].
Lemma work_ok : Forall (op_ok rg0) work.
Proof. repeat constructor; simpl; lia. Qed.

Lemma cache_transparent_witness :
  ∃ s', run 5 0x600 work start = Done [None; None; None; Some (D0 3); Some (D0 7); None; Some (D0 5); Some (D0 9)] s'.
Proof.
  destruct (cache_transparent rg0 on_md0 ltac:(vm_compute; lia) 4 start D0 work coh0 idle0 ltac:(vm_compute; lia) work_ok)
    as (s' & E & _).
  exists s'. exact E.
Defined.
Lemma cache_durable_witness :
  ∃ out s', run 5 0x600 (work ++ [Sync]) start = Done out s' ∧ bufdata s' !! 0x8800 = Some (D0 9).
Proof.
  destruct (cache_durable rg0 on_md0 ltac:(vm_compute; lia) 4 start D0 work coh0 idle0 ltac:(vm_compute; lia) work_ok)
    as (out & s' & E & Hd).
  exists out, s'. split; [exact E|]. specialize (Hd 2 (conj (Zle_0_pos 2) eq_refl)). vm_compute in Hd |- *. exact Hd.
Defined.
End DiskExamples.
