(* ===== verification/Ahead.v ===== *)
(** Reading ahead, and buffers for holes: what [breada] and [geteblk] give
    over the memory disk. *)
From stdpp Require Import functions.
From S2P Require Import Prelude Buf Kernel Links Callout Sched Prot Time Sig Clock Ring Bio Fs Md Disk.

Module Ahead.
Import Bio Disk.
Section ahead.
Context `{KConfig} `{KLayout} `{SigEnv} `{MdEnv} `{BioEnv}.
Variable rg : region.
Hypothesis Hmd : on_md rg.
Implicit Types (D : Z → list Z) (s : kstate).

(** Buffers in use are as they were; no other has become so. *)
Definition undisturbed s s' : Prop := ∀ i ri, bstore s !! BufP i = Some ri →
  ∃ ri', bstore s' !! BufP i = Some ri' ∧ has (b_flags ri') B_BUSY = has (b_flags ri) B_BUSY ∧
    (has (b_flags ri) B_BUSY = true → bare ri' = bare ri).
Lemma undisturbed_refl s : undisturbed s s.
Proof. intros i ri Hri. by exists ri. Qed.
Lemma undisturbed_idle s s' D W : undisturbed s s' → coh rg s D W → idle s → idle s'.
Proof.
  intros U Hco Hid i r Hi Hr. destruct (ch_cache _ _ _ _ Hco) as (HL & FL & Hc & _).
  destruct (ck_pool _ _ _ Hc i Hi) as (r0 & Hr0 & _). destruct (U i r0 Hr0) as (r' & Hr' & E & _).
  assert (r' = r) as -> by congruence. rewrite E. by apply (Hid i).
Qed.
(** A buffer got and released again. *)
Lemma got_released s s1 s2 D W j r b f :
  got rg s s1 D W j r b → same_pool (bstore s1) (bstore s2) j f → has (b_flags (f r)) B_BUSY = false → undisturbed s s2.
Proof.
  intros Hg Hp Hf i ri Hri. destruct (decide (i = j)) as [->|Hij].
  - destruct (got_was _ _ _ _ _ _ _ _ Hg) as (r0 & Hr0 & Hb0). assert (r0 = ri) as -> by congruence.
    destruct (same_pool_lookup _ _ _ _ _ _ Hp (got_buf _ _ _ _ _ _ _ _ Hg)) as (r2 & Hr2 & B). rewrite decide_True in B by done.
    apply bare_fields in B as (E & _). exists r2. split; [done|]. rewrite E, Hf, Hb0. done.
  - destruct (got_others _ _ _ _ _ _ _ _ Hg i ri Hij Hri) as (r1 & Hr1 & Eb & B1).
    destruct (same_pool_lookup _ _ _ _ _ _ Hp Hr1) as (r2 & Hr2 & B). rewrite decide_False in B by done.
    apply bare_fields in B as Ef. destruct Ef as (E & _). exists r2. split; [done|]. rewrite E, B. done.
Qed.

Lemma incore_spec s D W b : coh rg s D W →
  ∃ c : bool, incore (rg_dev rg) b s = Done c s ∧
    if c then ∃ i r, (i < NBUF)%nat ∧ bstore s !! BufP i = Some r ∧ holds r (rg_dev rg) b
    else ∀ i r, (i < NBUF)%nat → bstore s !! BufP i = Some r → ¬ holds r (rg_dev rg) b.
Proof.
  intros Hco. destruct (ch_cache _ _ _ _ Hco) as (HL & FL & Hc & _). unfold incore.
  change (fsbtodb b) with b. rewrite (bind_done _ _ _ _ _ (hash_search_spec _ _ _ _ _ _ Hc (BUFHASH_head _ _))). cbv beta.
  destruct (List.find _ _) as [k|] eqn:Ef.
  - exists true. split; [done|]. apply List.find_some in Ef as [Hk Hm]. apply list_elem_of_In in Hk.
    apply matches_holds in Hm as (r & Hr & Hh). destruct (ck_hmem _ _ _ Hc _ _ (BUFHASH_head (rg_dev rg) b) Hk) as (i & Hi & ->). eauto.
  - exists false. split; [done|]. intros i r Hi Hr.
    by apply (find_none_holds s HL FL _ _ i r Hc (md_nodev rg Hmd) Ef).
Qed.

(** A buffer got without contents is read, not waited for, and released. *)
Lemma read_async {B} (k : K B) s0 s D j r b :
  got rg s0 s D ∅ j r b → in_range rg b → has (b_flags r) (Z.lor B_DONE B_DELWRI) = false →
  ∃ s', (set_bflags (BufP j) (Z.lor B_READ B_ASYNC) ;; setbuf (BufP j) (λ b, b <| b_bcount := DEV_BSIZE |>) ;;
         strategy (BufP j) ;; pay_read ;; k) s = k s' ∧ coh rg s' D ∅ ∧ io_frame s s' ∧ undisturbed s0 s'.
Proof.
  intros Hg Hin Hdd. pose proof Hg as [Hco Hj Hr Hh Hb Ha HW _ _ _]. set (m := Z.lor B_READ B_ASYNC).
  destruct (read_filled rg Hmd m (pay_read ;; k) s D ∅ j r b Hco Hj Hr Hh Hin Hb HW Hdd ltac:(by right)) as
    (s1 & E1 & Hco1 & F1 & B1 & Hc1 & Hat1).
  rewrite E1. pose proof (rd_rec_place m r eq_refl eq_refl) as Hip.
  assert (Hd : has (b_flags r) B_DONE = false) by (by apply (has_sub _ (Z.lor B_DONE B_DELWRI))).
  assert (Hr1 : bstore s1 !! BufP j = Some (rd_rec m r)) by (by rewrite B1, lookup_alter_eq, Hr).
  destruct (biodone_async rg s1 D ∅ j _ b Hco1 Hj Hr1) as (s2 & E2 & Hco2 & F2 & _ & P2);
    [by rewrite (ip_busy _ _ Hip)|unfold m; by hasf|unfold m; by hasf|by apply (in_place_holds _ _ _ _ Hip)|done|done|].
  rewrite (bind_done _ _ _ _ _ E2). cbv beta. unfold pay_read. rewrite (bind_done _ _ _ _ _ (setu_eq _ _)). cbv beta.
  set (s3 := upd u _ s2). exists s3. split; [done|]. replace (∅ ∖ {[j]} : gset nat) with (∅ : gset nat) in Hco2 by set_solver.
  split; [by apply (coh_ext rg s2)|]. split.
  - eapply io_frame_trans; [exact F1|]. eapply io_frame_trans; [exact F2|]. split; [by destruct s2|simpl; by destruct (u s2)].
  - eapply (got_released s0 s s3 D ∅ j r b (λ r, let_go (doned (rd_rec m r)))); [exact Hg| |].
    + intros i. change (bstore s3) with (bstore s2). rewrite (P2 i), B1.
      destruct (decide (i = j)) as [->|]; [|by rewrite !lookup_alter_ne by congruence].
      rewrite !lookup_alter_eq. by destruct (bstore s !! BufP j).
    + destruct (let_go_ok (doned (rd_rec m r))) as (_ & _ & _ & ->); [|by hasf].
      simpl. rewrite !has_setf by done. apply (bo_never _ _ _ _ _ _ (ch_pool _ _ _ _ Hco j r Hj Hr)).
Qed.

(** The block read ahead. *)
Definition ahead (fuel : nat) (dev b : Z) : K unit :=
  if b =? 0 then mret tt
  else
    c ← incore dev b;
    if c : bool then mret tt
    else
      rabp ← getblk fuel dev b;
      r ← getbuf rabp;
      if has (b_flags r) (Z.lor B_DONE B_DELWRI) then brelse rabp
      else
        set_bflags rabp (Z.lor B_READ B_ASYNC) ;; setbuf rabp (λ b, b <| b_bcount := DEV_BSIZE |>) ;;
        strategy rabp ;; pay_read.
Lemma ahead_coh fuel s D b :
  coh rg s D ∅ → (b = 0 ∨ in_range rg b) → (NBUF < fuel)%nat →
  (∃ i r, (i < NBUF)%nat ∧ bstore s !! BufP i = Some r ∧ has (b_flags r) B_BUSY = false) →
  ∃ s', ahead (S fuel) (rg_dev rg) b s = Done tt s' ∧ coh rg s' D ∅ ∧ io_frame s s' ∧ undisturbed s s'.
Proof.
  intros Hco Hb Hf Hfree. unfold ahead. destruct (b =? 0) eqn:Ez.
  { exists s. split; [done|]. split; [done|]. split; [apply io_frame_refl|apply undisturbed_refl]. }
  apply Z.eqb_neq in Ez. assert (Hin : in_range rg b) by tauto.
  destruct (incore_spec s D ∅ b Hco) as (c & Ec & Hc). rewrite (bind_done _ _ _ _ _ Ec). cbv beta. destruct c.
  { exists s. split; [done|]. split; [done|]. split; [apply io_frame_refl|apply undisturbed_refl]. }
  pose proof (ndirty_le (bstore s)) as Hn.
  destruct (getblk_coh rg Hmd fuel s D ∅ b Hco) as (j & r & s1 & E1 & Hg); [|done|lia|].
  { split; [|done]. intros i r Hi Hr Hh. by destruct (Hc i r Hi Hr). }
  rewrite (bind_done _ _ _ _ _ E1). cbv beta. pose proof Hg as [Hco1 Hj Hr Hh Hbz Ha HW Hwas Hoth F1].
  rewrite (bind_done _ _ _ _ _ (getbuf_eq _ _ _ Hr)). cbv beta.
  destruct (has (b_flags r) (Z.lor B_DONE B_DELWRI)) eqn:Hdd.
  - destruct (brelse_coh rg s1 D ∅ j r Hco1 Hj Hr Hbz) as (s2 & E2 & Hco2 & F2 & _ & P2); [set_solver|].
    replace (∅ ∖ {[j]} : gset nat) with (∅ : gset nat) in Hco2 by set_solver.
    exists s2. split; [done|]. split; [done|]. split; [by eapply io_frame_trans|].
    eapply got_released; [exact Hg|exact P2|].
    destruct (let_go_ok r (bo_never _ _ _ _ _ _ (ch_pool _ _ _ _ Hco1 j r Hj Hr))) as (_ & _ & _ & ->). by hasf.
  - destruct (read_async (mret tt) s s1 D j r b Hg Hin Hdd) as (s2 & E2 & Hco2 & F2 & U2).
    exists s2. split; [exact E2|]. split; [done|]. split; [by eapply io_frame_trans|].
    exact U2.
Qed.

(** * A buffer with the contents asked for *)

(** Buffer [j], in use, with contents [ws]; no other is in use. *)
Record filled s s' D (j : nat) (r : buf) (ws : list Z) : Prop := {
  fl_coh : coh rg s' D ∅;
  fl_lt : (j < NBUF)%nat;
  fl_buf : bstore s' !! BufP j = Some r;
  fl_busy : has (b_flags r) B_BUSY = true;
  fl_error : has (b_flags r) B_ERROR = false;
  fl_data : bufdata s' !! core j = Some ws;
  fl_others : ∀ i ri, i ≠ j → (i < NBUF)%nat → bstore s' !! BufP i = Some ri → has (b_flags ri) B_BUSY = false;
  fl_frame : io_frame s s';
}.
Lemma got_idle s s' D W j r b : idle s → coh rg s D ∅ → got rg s s' D W j r b →
  ∀ i ri, i ≠ j → (i < NBUF)%nat → bstore s' !! BufP i = Some ri → has (b_flags ri) B_BUSY = false.
Proof.
  intros Hid Hco Hg i ri Hij Hi Hri. destruct (ch_cache _ _ _ _ Hco) as (HL & FL & Hc & _).
  destruct (ck_pool _ _ _ Hc i Hi) as (r0 & Hr0 & _). destruct (got_others _ _ _ _ _ _ _ _ Hg i r0 Hij Hr0) as (r' & Hr' & E & _).
  assert (r' = ri) as -> by congruence. rewrite E. by apply (Hid i).
Qed.
Hypothesis Hbuf : (1 < NBUF)%nat.

Lemma bread_filled fuel s D b :
  coh rg s D ∅ → idle s → in_range rg b → (NBUF < fuel)%nat →
  ∃ j r s', bread (S fuel) (rg_dev rg) b s = Done (BufP j) s' ∧ filled s s' D j r (D b).
Proof.
  intros Hco Hid Hin Hf. pose proof (ndirty_le (bstore s)) as Hn.
  destruct (bread_coh rg Hmd fuel s D ∅ b Hco) as (j & r & s1 & E1 & Hg & Hd & He & _); [apply (idle_available rg ltac:(lia) s D ∅ b Hco Hid)|done|lia|].
  exists j, r, s1. split; [done|]. pose proof (got_idle s s1 D ∅ j r b Hid Hco Hg). by destruct Hg.
Qed.

(** [breada] begins: the block is in the cache, or its buffer is being filled. *)
Definition breada_first (fuel : nat) (dev b : Z) : K (option bptr) :=
  c ← incore dev b;
  if c : bool then mret None
  else
    bp ← getblk fuel dev b;
    r ← getbuf bp;
    when (negb (has (b_flags r) (Z.lor B_DONE B_DELWRI)))
      (set_bflags bp B_READ ;; setbuf bp (λ b, b <| b_bcount := DEV_BSIZE |>) ;; strategy bp ;; pay_read) ;;
    mret (Some bp).
Lemma breada_parts fuel dev b ra s :
  breada fuel dev b ra s = (o ← breada_first fuel dev b;
    ahead fuel dev ra ;; match o with None => bread fuel dev b | Some bp => biowait fuel bp ;; mret bp end) s.
Proof. symmetry. unfold breada_first. by rewrite bind_assoc. Qed.
Lemma breada_begin fuel s D b :
  coh rg s D ∅ → idle s → in_range rg b → (NBUF < fuel)%nat →
  ∃ o s', breada_first (S fuel) (rg_dev rg) b s = Done o s' ∧
    ((o = None ∧ s' = s) ∨ ∃ j r, o = Some (BufP j) ∧ holds r (rg_dev rg) b ∧
      has (b_flags r) B_DONE = true ∧ filled s s' D j r (D b)).
Proof.
  intros Hco Hid Hin Hf. destruct (incore_spec s D ∅ b Hco) as (c & Ec & Hc).
  unfold breada_first. rewrite (bind_done _ _ _ _ _ Ec). cbv beta. destruct c; [exists None, s; split; [done|by left]|].
  pose proof (ndirty_le (bstore s)) as Hn.
  destruct (getblk_fresh rg Hmd fuel s D ∅ b Hco) as (j & r & s1 & E1 & Hg & Efl);
    [apply (idle_available rg ltac:(lia) s D ∅ b Hco Hid)|done|lia|done|].
  pose proof (got_idle s s1 D ∅ j r b Hid Hco Hg) as Hoth. pose proof Hg as [Hco1 Hj Hr Hh Hb Ha HW _ _ F1].
  rewrite (bind_done _ _ _ _ _ E1). cbv beta. rewrite (bind_done _ _ _ _ _ (getbuf_eq _ _ _ Hr)). cbv beta.
  pose proof (ch_pool _ _ _ _ Hco1 j r Hj Hr) as [Ba Bc Bn Bv Bd Bdw Bh Bf Br].
  assert (Hdd : has (b_flags r) (Z.lor B_DONE B_DELWRI) = false) by (by rewrite Efl). rewrite Hdd. cbn [negb when].
  destruct (bread_start rg Hmd (mret tt) s1 D ∅ j r b Hco1 Hj Hr Hh Hin Hb Ha HW Hdd) as (s2 & E2 & Hco2 & F2 & B2).
    assert (E2' : (set_bflags (BufP j) B_READ ;; setbuf (BufP j) (λ b, b <| b_bcount := DEV_BSIZE |>) ;;
      strategy (BufP j) ;; pay_read) s1 = Done tt s2) by exact E2.
    rewrite (bind_done _ _ _ _ _ E2'). cbv beta.
    assert (Hr2 : bstore s2 !! BufP j = Some (done_rec (rd_rec B_READ r))) by (by rewrite B2, lookup_alter_eq, Hr).
    destruct (bread_started rg Hmd (S fuel) s2 D ∅ j r b Hco2 Hj Hr2 Hh) as (_ & Hh2 & Hc2 & He2).
    exists (Some (BufP j)), s2. split; [done|]. right. exists j, (done_rec (rd_rec B_READ r)). split; [done|]. split; [done|].
    split; [by hasf|]. split; try done; [by hasf| |by eapply io_frame_trans].
    intros i ri Hij Hi Hri. rewrite B2, lookup_alter_ne in Hri by congruence. by apply (Hoth i).
Qed.
Lemma breada_filled fuel s D b ra :
  coh rg s D ∅ → idle s → in_range rg b → (ra = 0 ∨ in_range rg ra) → (NBUF < fuel)%nat →
  ∃ j r s', breada (S fuel) (rg_dev rg) b ra s = Done (BufP j) s' ∧ filled s s' D j r (D b).
Proof.
  intros Hco Hid Hin Hra Hf. destruct (breada_begin fuel s D b Hco Hid Hin Hf) as (o & s1 & E1 & Ho).
  rewrite breada_parts, (bind_done _ _ _ _ _ E1). cbv beta.
  destruct Ho as [[-> ->]|(j & r & -> & Hh & Hdd & Hfl)].
  - destruct (ahead_coh fuel s D ra Hco Hra Hf) as (s2 & E2 & Hco2 & F2 & U2).
    { destruct (ch_cache _ _ _ _ Hco) as (HL & FL & Hc & _). destruct (ck_pool _ _ _ Hc 0%nat) as (r & Hr & _); [lia|].
      exists 0%nat, r. split; [lia|]. split; [done|]. by apply (Hid 0%nat); [lia|]. }
    rewrite (bind_done _ _ _ _ _ E2). cbv beta.
    destruct (bread_filled fuel s2 D b Hco2 (undisturbed_idle _ _ _ _ U2 Hco Hid) Hin Hf) as (j & r & s3 & E3 & [? ? ? ? ? ? ? F3]).
    exists j, r, s3. split; [done|]. split; try done. by eapply io_frame_trans.
  - destruct Hfl as [Hco1 Hj Hr Hb He Hd Hoth F1].
    destruct (ahead_coh fuel s1 D ra Hco1 Hra Hf) as (s2 & E2 & Hco2 & F2 & U2).
    { destruct (ch_cache _ _ _ _ Hco1) as (HL & FL & Hc & _). set (i := if decide (j = 0)%nat then 1%nat else 0%nat).
      assert (Hi : (i < NBUF)%nat ∧ i ≠ j) by (unfold i; case_decide; lia).
      destruct (ck_pool _ _ _ Hc i) as (ri & Hri & _); [lia|]. exists i, ri. split; [lia|]. split; [done|]. apply (Hoth i); (done || lia). }
    rewrite (bind_done _ _ _ _ _ E2). cbv beta. destruct (U2 j r Hr) as (r2 & Hr2 & Eb2 & B2). specialize (B2 Hb).
    apply bare_fields in B2 as Ef. destruct Ef as (G1 & _ & _ & G4 & _ & G6 & _).
    pose proof (ch_pool _ _ _ _ Hco2 j r2 Hj Hr2) as [Ba Bc Bn Bv Bd Bdw Bh Bf Br].
    assert (Hdone : has (b_flags r2) B_DONE = true) by (by rewrite G1).
    assert (He2 : has (b_flags r2) B_ERROR = false) by (by apply (has_sub _ NEVER B_ERROR eq_refl)).
    rewrite (bind_done _ _ _ _ _ (biowait_done (S fuel) s2 j r2 Hr2 Hdone He2)). cbv beta.
    exists j, r2, s2. split; [done|]. split; try done; [by rewrite G1| | |by eapply io_frame_trans].
    + destruct Hh as (Ed & Eb & Ev). rewrite <- Eb, <- G6. apply Bd; [|by apply (has_sup _ _ B_DONE)].
      split; [by rewrite G1|rewrite G4, Ed; by apply md_nodev].
    + intros i ri Hij Hi Hri. destruct (ch_cache _ _ _ _ Hco1) as (HL & FL & Hc & _).
      destruct (ck_pool _ _ _ Hc i Hi) as (r0 & Hr0 & _). destruct (U2 i r0 Hr0) as (r' & Hr' & E & _).
      assert (r' = ri) as -> by congruence. rewrite E. by apply (Hoth i).
Qed.

(** * A buffer for a hole *)

(** The list operations leave the headers' block numbers. *)
Definition same_blkno {A} (m : K A) : Prop := ∀ s a s', m s = Done a s' → ∀ x, b_blkno <$> bstore s' !! x = b_blkno <$> bstore s !! x.
Lemma blkno_bind {A B} (m : K A) (k : A → K B) : same_blkno m → (∀ a, same_blkno (k a)) → same_blkno (m ≫= k).
Proof. intros Hm Hk s b s' (a & s1 & E1 & E2)%bind_inv x. by rewrite (Hk a s1 b s' E2), (Hm s a s1 E1). Qed.
Lemma blkno_getbuf y : same_blkno (getbuf y).
Proof. intros s a s' E x. unfold getbuf in E. revert E. m_unfold. by destruct (bstore s !! y); intros [= _ <-]. Qed.
Lemma blkno_option {A} (o : option A) : same_blkno (unless_none o : K A).
Proof. intros s a s' E x. destruct o; [|done]. by injection E as _ <-. Qed.
Lemma blkno_setbuf y f : (∀ r, b_blkno (f r) = b_blkno r) → same_blkno (setbuf y f).
Proof.
  intros Hf s a s' E x. unfold setbuf, getbuf in E. revert E. m_unfold. destruct (bstore s !! y) as [r|] eqn:Hr; intros [= _ <-].
  simpl. destruct (decide (x = y)) as [->|]; [|by rewrite lookup_insert_ne]. rewrite lookup_insert_eq, Hr. simpl. by rewrite Hf.
Qed.
Lemma blkno_rehash x dp : same_blkno (bfree x ;; bremhash x ;; binshash x dp).
Proof.
  unfold bfree, bremhash, binshash.
  repeat first [apply blkno_setbuf; done | apply blkno_getbuf | apply blkno_option | apply blkno_bind; [|intros ?]].
Qed.
(** [geteblk]'s assignments are [getblk]'s with the block number it had. *)
Lemma assign_same {A} (k : K A) x dp dev s r :
  bstore s !! x = Some r →
  (bfree x ;; bremhash x ;; binshash x dp ;; setbuf x (λ c, c <| b_dev := dev |>) ;; setbuf x (λ c, c <| b_error := 0 |>) ;; k) s =
  (bfree x ;; bremhash x ;; binshash x dp ;; setbuf x (λ c, c <| b_dev := dev |>) ;;
   setbuf x (λ c, c <| b_blkno := b_blkno r |>) ;; setbuf x (λ c, c <| b_error := 0 |>) ;; k) s.
Proof.
  intros Hr. pose proof (blkno_rehash x dp s) as Hk.
  assert (Ea : ∀ m : K A, (bfree x ;; bremhash x ;; binshash x dp ;; m) s = ((bfree x ;; bremhash x ;; binshash x dp) ;; m) s).
  { intros m. unfold mbind, M_bind. destruct (bfree x s) as [? t| | | |]; try reflexivity.
    destruct (bremhash x t) as [? t'| | | |]; reflexivity. }
  rewrite !Ea. set (m := bfree x ;; bremhash x ;; binshash x dp) in *. unfold mbind at 1, M_bind at 1. symmetry. unfold mbind at 1, M_bind at 1. symmetry.
  destruct (m s) as [a s1| | | |] eqn:E; [|reflexivity..].
  specialize (Hk a s1 eq_refl x). rewrite Hr in Hk. destruct (bstore s1 !! x) as [r1|] eqn:Hr1; [|done]. apply (inj Some) in Hk.
  assert (Hx1 : is_Some (bstore s1 !! x)) by (by eexists).
  rewrite !(bind_done _ _ _ _ _ (setbuf_alter s1 x _ Hx1)). cbv beta. set (st1 := alter _ x _).
  assert (Hx2 : is_Some (bstore (with_b s1 st1) !! x)) by (apply is_Some_alter; by eexists).
  rewrite (bind_done _ _ _ _ _ (setbuf_alter (with_b s1 st1) x (λ c, c <| b_blkno := b_blkno r |>) Hx2)). cbv beta.
  assert (Es : with_b (with_b s1 st1) (alter (λ c, c <| b_blkno := b_blkno r |>) x (bstore (with_b s1 st1))) = with_b s1 st1); [|by rewrite Es].
  rewrite with_b_with. f_equal. change (bstore (with_b s1 st1)) with st1. apply map_eq. intros i.
  destruct (decide (i = x)) as [->|]; [|by rewrite lookup_alter_ne]. unfold st1. rewrite !lookup_alter_eq, Hr1. simpl.
  f_equal. rewrite <- Hk. by destruct r1.
Qed.
Definition hole (j : nat) (n : Z) (r : buf) : buf :=
  fresh j r <| b_flags ::= λ f, setf f B_INVAL |> <| b_bcount := 0 |> <| b_dev := NODEV |> <| b_blkno := n |> <| b_error := 0 |>.
Lemma hole_facts j n r : has (b_flags r) NEVER = false →
  b_flags (hole j n r) = Z.lor B_BUSY B_INVAL ∧ b_addr (hole j n r) = b_addr r ∧ b_resid (hole j n r) = b_resid r.
Proof.
  intros Hn. unfold hole, fresh. rewrite has_lor, (has_sub _ NEVER B_RAMREMAP eq_refl Hn), (has_sub _ NEVER B_PHYS eq_refl Hn).
  done.
Qed.
Lemma hole_coh s st j n r D :
  coh rg s D ∅ → (j < NBUF)%nat → bstore s !! BufP j = Some r → has (b_flags r) B_DELWRI = false →
  same_but (bstore s) st (BufP j) (hole j n) → well_kept st → coh rg (with_b s st) D ∅.
Proof.
  intros Hco Hj Hr Hd Hs Hk. pose proof (ch_pool _ _ _ _ Hco j r Hj Hr) as [Ba Bc Bn Bv Bd Bdw Bh Bf Br].
  destruct (hole_facts j n r Bn) as (C1 & C2 & C3).
  assert (Hnv : ¬ valid (hole j n r)) by (intros [_ V]; done).
  eapply (coh_step rg s st D ∅ ∅ j (hole j n) r); [done|done|done|by apply same_but_pool|done| | |done|].
  - eapply unique_step; [apply (ch_uniq _ _ _ _ Hco)|exact Hs|done|]. intros q i ri Q _ _ _ _ V _.
    assert (q = r) as -> by congruence. by destruct Hnv.
  - split; rewrite ?C1, ?C2, ?C3; try done.
  - intros b _ _ [Hx|Hx]; [congruence|set_solver].
Qed.
Lemma geteblk_hole fuel s D :
  coh rg s D ∅ → idle s → (NBUF < fuel)%nat →
  ∃ j r s1 st, geteblk fuel s = Done (BufP j) (with_b s1 st) ∧ coh rg (with_b s1 st) D ∅ ∧ io_frame s (with_b s1 st) ∧
    (j < NBUF)%nat ∧ st !! BufP j = Some r ∧ b_flags r = Z.lor B_BUSY B_INVAL ∧ b_addr r = core j ∧
    ∀ i ri, i ≠ j → (i < NBUF)%nat → st !! BufP i = Some ri → has (b_flags ri) B_BUSY = false.
Proof.
  intros Hco Hid Hf. pose proof (ndirty_le (bstore s)) as Hn.
  destruct (ch_cache _ _ _ _ Hco) as (HL & FL & Hc & _). destruct (ck_pool _ _ _ Hc 0%nat) as (r0 & Hr0 & _); [lia|].
  destruct (getnewbuf_flushes rg Hmd fuel s D ∅ 0 r0 Hco ltac:(lia) Hr0 (Hid 0%nat r0 ltac:(lia) Hr0) ltac:(lia)) as
    (s1 & k & HL1 & FL1 & j & rest & r & Eg & Hco1 & F1 & V1 & Hc1 & HF1 & Hp1 & EF1 & Hr & Hd).
  destruct (getnewbuf_clean k s1 (bstore s1) HL1 FL1 j rest r Hc1 Hp1 EF1 Hr Hd) as (st1 & E1 & Hc2 & Hs1).
  rewrite with_b_id, <- Eg in E1.
  assert (Hj : (j < NBUF)%nat).
  { destruct (ck_fmem _ _ _ Hc1 _ (BufP j) (pick_fheads FL1)) as (i & Hi & [= ->]); [rewrite EF1; set_solver|done]. }
  destruct (same_but_lookup _ _ _ _ _ _ Hs1 Hr) as (r1 & Hr1 & _).
  set (inv := λ c : buf, c <| b_flags ::= λ f, setf f B_INVAL |>). set (st2 := alter inv (BufP j) st1).
  assert (Hr2 : st2 !! BufP j = Some (inv r1)) by (unfold st2; by rewrite lookup_alter_eq, Hr1).
  assert (Hc3 : cache_ok st2 HL1 (<[FreeP (pick FL1) := rest]> FL1)).
  { apply (cache_ok_alter _ _ _ j inv r1); try done. simpl. by rewrite has_setf. }
  destruct (assign_spec (mret (BufP j)) s1 st2 HL1 _ j (inv r1) (FreeP BQ_AGE) NODEV (b_blkno r1) Hc3 Hj Hr2) as
    (st3 & HL3 & E3 & Hc4 & Hs3); [apply fheads_hheads, fhead; unfold BQ_AGE; lia|done|].
  assert (Hs : same_but (bstore s1) st3 (BufP j) (hole j (b_blkno r1))).
  { refine (same_but_trans _ st2 _ _ (λ r, inv (fresh j r)) _ _ Hs3 _).
    - apply (same_but_alter _ st1 _ inv (fresh j)); [exact Hs1|]. exact (stateful_flags (λ f, setf f B_INVAL)).
    - intros x y E. apply (stateful_assign NODEV (b_blkno r1) 0), stateful_bcount, E. }
  pose proof (ch_pool _ _ _ _ Hco1 j r Hj Hr) as Hok. destruct (hole_facts j (b_blkno r1) r (bo_never _ _ _ _ _ _ Hok)) as (C1 & C2 & C3).
  destruct (same_but_lookup _ _ _ _ _ _ Hs Hr) as (r3 & Hr3 & B3). rewrite decide_True in B3 by done.
  apply bare_fields in B3 as (G1 & _ & _ & _ & G5 & _ & _). rewrite C1 in G1. rewrite C2, (bo_addr _ _ _ _ _ _ Hok) in G5.
  exists j, r3, s1, st3. split; [|split; [|split; [|split; [done|split; [done|split; [done|split; [done|]]]]]]].
  - unfold geteblk. rewrite (bind_done _ _ _ _ _ E1). cbv beta. unfold set_bflags.
    rewrite (bind_done _ _ _ _ _ (setbuf_with s1 st1 _ _ ltac:(by eexists))). cbv beta. fold inv. fold st2.
    rewrite (assign_same _ _ _ _ (with_b s1 st2) _ Hr2). exact E3.
  - apply (hole_coh s1 st3 j (b_blkno r1) r); try done. exists HL3, (<[FreeP (pick FL1) := rest]> FL1).
    split; [done|]. by rewrite fn_lookup_insert_ne by (intros [= E]; by apply Hp1).
  - eapply io_frame_trans; [exact F1|apply io_frame_with_b].
  - intros i ri Hij Hi Hri. destruct (ck_pool _ _ _ Hc i Hi) as (q & Q & _). destruct (V1 i q Q) as (q' & Q' & E & _).
    destruct (same_but_lookup _ _ _ _ _ _ Hs Q') as (q2 & Q2 & B2). rewrite decide_False in B2 by congruence.
    apply bare_fields in B2 as (E2 & _). assert (q2 = ri) as -> by congruence. rewrite E2, E. by apply (Hid i).
Qed.
Lemma geteblk_filled fuel s D ws :
  coh rg s D ∅ → idle s → (NBUF < fuel)%nat → length ws = 256%nat →
  ∃ j r s', (bp ← geteblk fuel; set_bdata bp ws ;; mret bp) s = Done (BufP j) s' ∧ filled s s' D j r ws.
Proof.
  intros Hco Hid Hf Hl. destruct (geteblk_hole fuel s D Hco Hid Hf) as (j & r & s1 & st & E1 & Hco1 & F1 & Hj & Hr & Efl & Ea & Hoth).
  set (s2 := with_b s1 st) in *. exists j, r, (with_d s2 (core j) ws). split.
  - rewrite (bind_done _ _ _ _ _ E1). cbv beta. unfold set_bdata. rewrite bind_assoc, (bind_done _ _ _ _ _ (getbuf_eq s2 _ _ Hr)). cbv beta.
    rewrite Ea. destruct (bo_core _ _ _ _ _ _ (ch_pool _ _ _ _ Hco1 j r Hj Hr)) as (w & Hw & _).
    unfold setblock, getblock. m_unfold. by rewrite Hw.
  - split; try done.
    + apply (coh_core rg Hmd s2 D ∅ j r); try done. intros [V _]. by rewrite Efl in V.
    + by rewrite Efl.
    + by rewrite Efl.
    + apply lookup_insert_eq.
    + eapply io_frame_trans; [exact F1|apply io_frame_with_d].
Qed.
End ahead.
End Ahead.
