(* ===== verification/Alloc.v ===== *)
(** Allocation of disk blocks: balloc, free and ifree of kern/ufs_alloc.c,
    badblock and getfs of kern/ufs_subr.c. *)
From stdpp Require Import functions.
From S2P Require Import Prelude Buf Kernel Links Callout Sched Prot Time Sig Clock Ring Bio Fs.

Module Alloc.
Section alloc.
Context `{KConfig} `{KLayout} `{SigEnv} `{BioEnv}.

(** * ufs_subr.c *)

(** The comparisons are unsigned: [fs_isize] and [fs_fsize] are. *)
Definition badblock (fp : fs) (bn : Z) : bool :=
  (u32 bn <? fs_isize fp) || (fs_fsize fp <=? u32 bn).

(** The mount table slot of a device; a superblock with wild counts is
    emptied. *)
Fixpoint getfs_scan (ms : list nat) (dev : Z) : K (option nat) :=
  match ms with
  | [] => mret None
  | n :: ms =>
    mp ← getm n;
    if bool_decide (m_inodp mp = None) || negb (m_dev mp =? dev) then getfs_scan ms dev
    else
      let f := m_filsys mp in
      when ((NICFREE <? fs_nfree f) || (NICINOD <? fs_ninode f))
        (setfs n (λ f, f <| fs_ninode := 0 |>) ;; setfs n (λ f, f <| fs_nfree := 0 |>)) ;;
      mret (Some n)
  end.
Definition getfs (dev : Z) : K (option nat) :=
  s ← get_s; getfs_scan (seq 0 (length (mounts s))) dev.

(** * ufs_alloc.c *)

(** [while (fs->fs_flock) sleep (&fs->fs_flock, PINOD);] *)
Fixpoint flock_wait (fuel m : nat) : K unit :=
  f ← getfs_of m;
  if fs_flock f =? 0 then mret tt
  else
    match fuel with
    | O => nofuel
    | S fuel => _ ← Clock.sleep (c_flock m) PINOD; flock_wait fuel m
    end.
Definition flock_release (m : nat) : K unit :=
  setfs m (λ f, f <| fs_flock := 0 |>) ;; Sched.wakeup (c_flock m).

(** The next good block of the list in core; [None] where the code goes to
    [nospace]. The count goes down each time, and is at most [NICFREE]. *)
Fixpoint balloc_take (fuel m : nat) : K (option Z) :=
  f ← getfs_of m;
  if fs_nfree f <=? 0 then mret None
  else if NICFREE <? fs_nfree f then mret None
  else
    setfs m (λ f, f <| fs_nfree ::= λ z, z - 1 |>) ;;
    f ← getfs_of m;
    bno ← arr (fs_free f) (fs_nfree f);
    if bno =? 0 then mret None
    else if badblock f bno then
      match fuel with O => nofuel | S fuel => balloc_take fuel m end
    else mret (Some bno).

(** The last block of the list in core holds the next part of the list; the
    superblock is written back. *)
Definition balloc_refill (fuel m : nat) (dev bno : Z) (async : bool) : K unit :=
  setfs m (λ f, f <| fs_flock ::= λ z, z + 1 |>) ;;
  bp ← Bio.bread fuel dev bno;
  r ← getbuf bp;
  when (negb (has (b_flags r) B_ERROR) && (b_resid r =? 0))
    (ws ← bdata bp; setfs m (fblk_fs (words_fblk ws))) ;;
  Bio.brelse bp ;;
  bp ← Bio.getblk fuel dev SUPERB;
  s ← get_s;
  setfs m (λ f, f <| fs_fmod := 0 |> <| fs_time := tv_sec (time s) |>) ;;
  f ← getfs_of m;
  set_bdata bp (fs_words f) ;;
  (if async then Bio.bdwrite fuel bp else Bio.bwrite fuel bp) ;;
  flock_release m.

Fixpoint sleep_lbolt (n : nat) : K unit :=
  match n with
  | O => mret tt
  | S n => _ ← Clock.sleep Clock.c_lbolt PRIBIO; sleep_lbolt n
  end.
Definition balloc_nospace (m : nat) : K (option bptr) :=
  setfs m (λ f, f <| fs_nfree := 0 |>) ;;
  setfs m (λ f, f <| fs_tfree := 0 |>) ;;
  sleep_lbolt 5 ;;
  set_error ENOSPC ;;
  mret None.

Definition balloc (fuel : nat) (ip : inode) (flags : Z) : K (option bptr) :=
  let m := i_fs ip in
  f ← getfs_of m;
  let async := has (fs_flags f) MNT_ASYNC in
  flock_wait fuel m ;;
  o ← balloc_take (Z.to_nat NICFREE) m;
  match o with
  | None => balloc_nospace m
  | Some bno =>
    f ← getfs_of m;
    when (fs_nfree f <=? 0) (balloc_refill fuel m (i_dev ip) bno async) ;;
    f ← getfs_of m;
    if fs_nfree f <=? 0 then balloc_nospace m
    else
      bp ← Bio.getblk fuel (i_dev ip) bno;
      setbuf bp (λ b, b <| b_resid := 0 |>) ;;
      when (has flags B_CLRBUF) (set_bdata bp (replicate 256 0)) ;;
      setfs m (λ f, f <| fs_fmod := 1 |>) ;;
      setfs m (λ f, f <| fs_tfree ::= λ z, u32 (z - 1) |>) ;;
      mret (Some bp)
  end.

(** Move the whole list in core into the block that is freed. *)
Definition free_spill (fuel m : nat) (dev bno : Z) : K unit :=
  setfs m (λ f, f <| fs_flock ::= λ z, z + 1 |>) ;;
  bp ← Bio.getblk fuel dev bno;
  f ← getfs_of m;
  ws ← bdata bp;
  set_bdata bp (put_words 0 (fblk_words (fs_fblk f)) ws) ;;
  setfs m (λ f, f <| fs_nfree := 0 |>) ;;
  f ← getfs_of m;
  (if has (fs_flags f) MNT_ASYNC then Bio.bdwrite fuel bp else Bio.bwrite fuel bp) ;;
  flock_release m.

Definition free (fuel : nat) (ip : inode) (bno : Z) : K unit :=
  let m := i_fs ip in
  f ← getfs_of m;
  if badblock f bno then mret tt
  else
    flock_wait fuel m ;;
    f ← getfs_of m;
    when (fs_nfree f <=? 0)
      (setfs m (λ f, f <| fs_nfree := 1 |> <| fs_free ::= <[0%nat := 0]> |>)) ;;
    f ← getfs_of m;
    when (NICFREE <=? fs_nfree f) (free_spill fuel m (i_dev ip) bno) ;;
    f ← getfs_of m;
    _ ← arr (fs_free f) (fs_nfree f);
    setfs m (λ f, f <| fs_free ::= <[Z.to_nat (fs_nfree f) := bno]> |> <| fs_nfree ::= λ z, z + 1 |>) ;;
    setfs m (λ f, f <| fs_tfree ::= λ z, u32 (z + 1) |>) ;;
    setfs m (λ f, f <| fs_fmod := 1 |>).

Definition ifree (ip : inode) (ino : Z) : K unit :=
  let m := i_fs ip in
  setfs m (λ f, f <| fs_tinode ::= λ z, u32 (z + 1) |>) ;;
  f ← getfs_of m;
  if negb (fs_ilock f =? 0) then mret tt
  else if NICINOD <=? fs_ninode f then
    when (ino <? fs_lasti f) (setfs m (λ f, f <| fs_nbehind ::= λ z, u32 (z + 1) |>))
  else
    _ ← arr (fs_inode f) (fs_ninode f);
    setfs m (λ f, f <| fs_inode ::= <[Z.to_nat (fs_ninode f) := ino]> |> <| fs_ninode ::= λ z, z + 1 |>) ;;
    setfs m (λ f, f <| fs_fmod := 1 |>).
End alloc.
End Alloc.
