(* ===== verification/Freelist.v ===== *)
(** The free list of a file system: its first blocks in the superblock, the
    others in blocks of the disk that are themselves free. Through the buffer
    cache on the memory disk, balloc and free work it as a stack. *)
From stdpp Require Import functions.
From S2P Require Import Prelude Buf Kernel Links Callout Sched Prot Time Sig Clock Ring Bio Fs Md Disk Alloc.

Module Freelist.
Import Bio Disk.

(** * The list *)

(** Entries 1 to [n - 1], the next to be allocated last. *)
Definition inner (n : Z) (fr : list Z) : list Z := take (Z.to_nat n - 1) (drop 1 fr).

Section lists.
Variables isz fsz : Z.
(** A data block of the file system. *)
Definition good (b : Z) : Prop := isz ≤ b < fsz.

(** [flist D n fr L]: with [n] entries of [fr] in core and the disk holding
    [D], the free blocks are [L], in the order they are allocated. *)
Inductive flist (D : Z → list Z) : Z → list Z → list Z → Prop :=
| flist_none n fr : n ≤ 0 → length fr = 200%nat → flist D n fr []
| flist_last n fr :
    1 ≤ n ≤ NICFREE → length fr = 200%nat → fr !! 0%nat = Some 0 → Forall good (inner n fr) →
    flist D n fr (rev (inner n fr))
| flist_link n fr b L :
    1 ≤ n ≤ NICFREE → length fr = 200%nat → fr !! 0%nat = Some b → b ≠ 0 → good b → Forall good (inner n fr) →
    1 ≤ df_nfree (words_fblk (D b)) → flist D (df_nfree (words_fblk (D b))) (df_free (words_fblk (D b))) L →
    flist D n fr (rev (inner n fr) ++ b :: L).

Lemma flist_length D n fr L : flist D n fr L → length fr = 200%nat.
Proof. by destruct 1. Qed.
Lemma flist_le D n fr L : flist D n fr L → n ≤ NICFREE.
Proof. destruct 1; unfold NICFREE in *; lia. Qed.
Lemma flist_good D n fr L : flist D n fr L → Forall good L.
Proof.
  induction 1 as [|n fr _ _ _ Hf|n fr b L _ _ _ _ Hb Hf _ _ IH]; [done|by apply List.Forall_rev|].
  apply Forall_app. split; [by apply List.Forall_rev|by constructor].
Qed.
Lemma flist_ext D D' n fr L : flist D n fr L → (∀ b, b ∈ L → D' b = D b) → flist D' n fr L.
Proof.
  induction 1 as [| |n fr b L ?????? Hn _ IH]; intros E; [by constructor..|].
  assert (Eb : D' b = D b) by (apply E; set_solver). constructor; rewrite ?Eb; try done.
  apply IH. intros b' Hb'. apply E. set_solver.
Qed.

Lemma inner_one fr : inner 1 fr = [].
Proof. done. Qed.
Lemma inner_step n fr b : 1 ≤ n → fr !! Z.to_nat n = Some b → inner (n + 1) fr = inner n fr ++ [b].
Proof.
  intros Hn E. unfold inner. replace (Z.to_nat (n + 1) - 1)%nat with (S (Z.to_nat n - 1)) by lia.
  apply take_S_r. rewrite lookup_drop. replace (1 + (Z.to_nat n - 1))%nat with (Z.to_nat n) by lia. done.
Qed.
Lemma inner_insert n k fr b : n ≤ Z.of_nat k → inner n (<[k := b]> fr) = inner n fr.
Proof.
  intros Hk. unfold inner. destruct k as [|k]; [by destruct fr|]. destruct fr as [|x fr]; [done|]. simpl.
  rewrite !drop_0. by apply take_insert_ge; lia.
Qed.
Lemma inner_zero n fr b : inner n (<[0%nat := b]> fr) = inner n fr.
Proof. by destruct fr. Qed.

(** Taking an entry: within the entries in core, or the last of them. *)
Lemma flist_pop D n fr b L :
  flist D n fr (b :: L) →
  1 ≤ n ≤ NICFREE ∧ fr !! Z.to_nat (n - 1) = Some b ∧ good b ∧
  ((2 ≤ n ∧ flist D (n - 1) fr L) ∨
   (n = 1 ∧ b ≠ 0 ∧ 1 ≤ df_nfree (words_fblk (D b)) ∧
    flist D (df_nfree (words_fblk (D b))) (df_free (words_fblk (D b))) L)).
Proof.
  intros H. assert (Hg := flist_good _ _ _ _ H). inversion Hg as [|?? Hb _]; subst. remember (b :: L) as bL eqn:EL.
  assert (Hstep : ∀ n fr, 2 ≤ n ≤ NICFREE → length fr = 200%nat →
    ∃ x, fr !! Z.to_nat (n - 1) = Some x ∧ inner n fr = inner (n - 1) fr ++ [x]).
  { intros k l Hk Hl. unfold NICFREE in *. destruct (l !! Z.to_nat (k - 1)) as [x|] eqn:E; [|apply lookup_ge_None in E; lia].
    exists x. split; [done|]. replace k with (k - 1 + 1) at 1 by lia. by apply inner_step; [lia|]. }
  destruct H as [|n fr Hn Hl H0 Hf|n fr c L' Hn Hl H0 Hc Hgc Hf Hnb Hrest]; [done|..];
    (split; [done|]); destruct (decide (n = 1)) as [->|Hn1].
  - rewrite inner_one in EL. done.
  - destruct (Hstep n fr ltac:(lia) Hl) as (x & Ex & Ei). rewrite Ei, rev_app_distr in EL. injection EL as <- <-.
    split; [done|]. split; [done|]. left. split; [lia|]. apply flist_last; try done; [unfold NICFREE in *; lia|].
    rewrite Ei in Hf. by apply Forall_app in Hf as [? _].
  - rewrite inner_one in EL. injection EL as <- <-. split; [done|]. split; [done|]. by right.
  - destruct (Hstep n fr ltac:(lia) Hl) as (x & Ex & Ei). rewrite Ei, rev_app_distr in EL. injection EL as <- <-.
    split; [done|]. split; [done|]. left. split; [lia|]. apply flist_link; try done; [unfold NICFREE in *; lia|].
    rewrite Ei in Hf. by apply Forall_app in Hf as [? _].
Qed.

(** An empty list. *)
Lemma flist_empty D n fr : flist D n fr [] → n ≤ 0 ∨ n = 1 ∧ fr !! 0%nat = Some 0.
Proof.
  remember [] as L eqn:EL. destruct 1 as [|n fr Hn Hl Hx _|n fr b L Hn Hl Hx _ _ _ _ _]; [by left| |by destruct (rev (inner n fr))].
  right. split; [|done]. apply (f_equal length) in EL. rewrite length_rev in EL. unfold inner in EL.
  rewrite length_take, length_drop, Hl in EL. unfold NICFREE in Hn. simpl in EL. lia.
Qed.

(** Adding one, with room in core. *)
Lemma flist_push D n fr b L :
  flist D n fr L → 1 ≤ n < NICFREE → good b → flist D (n + 1) (<[Z.to_nat n := b]> fr) (b :: L).
Proof.
  intros H Hn Hb. assert (Hl := flist_length _ _ _ _ H). unfold NICFREE in *.
  assert (Ei : inner (n + 1) (<[Z.to_nat n := b]> fr) = inner n fr ++ [b]).
  { rewrite (inner_step n _ b); [|lia|apply list_lookup_insert_eq; lia]. by rewrite inner_insert by lia. }
  assert (E0 : ∀ x, fr !! 0%nat = Some x → (<[Z.to_nat n := b]> fr) !! 0%nat = Some x).
  { intros x Hx. by rewrite list_lookup_insert_ne by lia. }
  destruct H as [|n fr ? _ H0 Hf|n fr c L ? _ H0 Hc Hgc Hf Hnb Hrest]; [lia|..].
  - replace (b :: rev (inner n fr)) with (rev (inner (n + 1) (<[Z.to_nat n := b]> fr))) by (by rewrite Ei, rev_app_distr).
    apply flist_last; [unfold NICFREE; lia|by rewrite length_insert|by apply E0|].
    rewrite Ei, Forall_app. split; [done|by constructor].
  - change (b :: rev (inner n fr) ++ c :: L) with ((b :: rev (inner n fr)) ++ c :: L).
    replace (b :: rev (inner n fr)) with (rev (inner (n + 1) (<[Z.to_nat n := b]> fr))) by (by rewrite Ei, rev_app_distr).
    apply flist_link; try done; [unfold NICFREE; lia|by rewrite length_insert|by apply E0|].
    rewrite Ei, Forall_app. split; [done|by constructor].
Qed.
Lemma flist_first D fr b : length fr = 200%nat → good b → flist D 2 (<[1%nat := b]> (<[0%nat := 0]> fr)) [b].
Proof.
  intros Hl Hb. apply (flist_push D 1 (<[0%nat := 0]> fr) b []); [|unfold NICFREE; lia|done].
  apply (flist_last D 1); [unfold NICFREE; lia|by rewrite length_insert|apply list_lookup_insert_eq; lia|constructor].
Qed.

(** What [free] writes into a block is what [balloc] reads from it. *)
Lemma words_fblk_put n fr ws :
  length fr = 200%nat → words_fblk (put_words 0 (fblk_words (MkFblk n fr)) ws) = MkFblk n fr.
Proof.
  intros Hl. unfold words_fblk, put_words, fblk_words, get_words. simpl. f_equal.
  rewrite drop_0. by apply take_app_length'.
Qed.
Lemma length_put_words k ws b : (k + length ws ≤ length b)%nat → length (put_words k ws b) = length b.
Proof. intros H. unfold put_words. rewrite !length_app, length_take, length_drop, Nat.min_l by lia. lia. Qed.

(** Moving the entries in core to the freed block. *)
Lemma flist_spill D n fr b L ws :
  flist D n fr L → 1 ≤ n → good b → b ≠ 0 → b ∉ L →
  flist (<[b := put_words 0 (fblk_words (MkFblk n fr)) ws]> D) 1 (<[0%nat := b]> fr) (b :: L).
Proof.
  intros H Hn Hb Hb0 HL. assert (Hl := flist_length _ _ _ _ H).
  apply (flist_link _ 1 _ b L); rewrite ?fn_lookup_insert, ?words_fblk_put by done; try done.

  - by rewrite length_insert.
  - apply list_lookup_insert_eq. lia.
  - apply (flist_ext D); [done|]. intros b' Hb'. apply fn_lookup_insert_ne. set_solver.
Qed.
End lists.

(** * The superblock in the mount table *)

Definition with_fs (m : nat) (f : fs) (s : kstate) : kstate :=
  s <| mounts ::= alter (λ r, r <| m_filsys := f |>) m |>.
Definition at_fs (m : nat) (s : kstate) (f : fs) : Prop := ∃ r, mounts s !! m = Some r ∧ m_filsys r = f.
Lemma getfs_eq m s f : at_fs m s f → getfs_of m s = Done f s.
Proof. intros (r & Hr & <-). unfold getfs_of. by rewrite (bind_done _ _ _ _ _ (getm_eq _ _ _ Hr)). Qed.
Lemma upd_mounts s g h : g (mounts s) = h (mounts s) → s <| mounts ::= g |> = s <| mounts ::= h |>.
Proof. intros E. by unfold upd; simpl; rewrite E. Qed.
Lemma setfs_eq m s f g : at_fs m s f → setfs m g s = Done tt (with_fs m (g f) s).
Proof.
  intros (r & Hr & <-). unfold setfs. rewrite (setm_eq _ _ _ _ Hr). f_equal. apply upd_mounts.
  symmetry. change (alter (λ q, q <| m_filsys := g (m_filsys r) |>) m (mounts s) = <[m := (λ q, q <| m_filsys ::= g |>) r]> (mounts s)).
  apply list_eq. intros i. destruct (decide (i = m)) as [->|Hi].
  - rewrite list_lookup_alter_eq, list_lookup_insert_eq by (by eapply lookup_lt_Some). by rewrite Hr.
  - by rewrite list_lookup_alter_ne, list_lookup_insert_ne.
Qed.
Lemma at_with m s f f' : at_fs m s f → at_fs m (with_fs m f' s) f'.
Proof.
  intros (r & Hr & _). exists (r <| m_filsys := f' |>). split; [|done].
  change (mounts (with_fs m f' s)) with (alter (λ r, r <| m_filsys := f' |>) m (mounts s)).
  rewrite list_lookup_alter_eq, Hr.
  reflexivity.
Qed.
Lemma with_with m f f' s : with_fs m f (with_fs m f' s) = with_fs m f s.
Proof.
  unfold with_fs, upd. simpl. f_equal. apply list_eq. intros i. destruct (decide (i = m)) as [->|].
  - rewrite !list_lookup_alter_eq. by destruct (mounts s !! m).
  - by rewrite !list_lookup_alter_ne.
Qed.
Lemma with_same m s f : at_fs m s f → with_fs m f s = s.
Proof.
  intros (r & Hr & <-). unfold with_fs, upd. destruct s as [? ? ? ? ? ? ? ? ? ? ? ? ? ? ? ? ? ? ? ? ? ? ? ? ? ? ms]. simpl in *.
  f_equal. apply list_eq. intros i. destruct (decide (i = m)) as [->|].
  - rewrite list_lookup_alter_eq, Hr. by destruct r.
  - by rewrite list_lookup_alter_ne.
Qed.

(** Only the cache and the superblock [m] in core changed. *)
Definition fs_frame (m : nat) (s s' : kstate) : Prop := ∃ f, io_frame (with_fs m f s) s'.
Lemma io_frame_mounts s s' : io_frame s s' → mounts s' = mounts s.
Proof. intros [-> _]. done. Qed.
Lemma at_frame m s s' f : io_frame s s' → at_fs m s f → at_fs m s' f.
Proof. intros F (r & ? & ?). exists r. by rewrite (io_frame_mounts _ _ F). Qed.
Lemma io_frame_with_fs m f s s' : io_frame s s' → io_frame (with_fs m f s) (with_fs m f s').
Proof. intros [E1 E2]. split; [|done]. exact (f_equal (with_fs m f) E1). Qed.
Lemma fs_frame_io m s s' f : at_fs m s f → io_frame s s' → fs_frame m s s'.
Proof. intros Hf F. exists f. by rewrite (with_same _ _ _ Hf). Qed.
Lemma fs_frame_with m f s : fs_frame m s (with_fs m f s).
Proof. exists f. apply io_frame_refl. Qed.
Lemma fs_frame_trans m s1 s2 s3 : fs_frame m s1 s2 → fs_frame m s2 s3 → fs_frame m s1 s3.
Proof.
  intros [f F1] [f' F2]. exists f'. eapply io_frame_trans; [|exact F2].
  rewrite <- (with_with m f' f s1). by apply io_frame_with_fs.
Qed.

(** * The operations *)

Section ops.
Context `{KConfig} `{KLayout} `{SigEnv} `{MdEnv} `{BioEnv}.
Variables (rg : region) (m : nat) (isz fsz : Z).
Implicit Types (D : Z → list Z) (s : kstate) (f : fs).
Notation coh := (coh rg).

(** In core and on disk, the file system's free blocks are [L], in the order
    [balloc] takes them, and are counted. *)
Record rep s D f (L : list Z) : Prop := {
  rp_at : at_fs m s f;
  rp_list : flist isz fsz D (fs_nfree f) (fs_free f) L;
  rp_nodup : NoDup L;
  rp_sizes : fs_isize f = isz ∧ fs_fsize f = fsz;
  rp_words : length (fs_inode f) = 32%nat ∧ length (fs_fsmnt f) = 7%nat;
  rp_flock : fs_flock f = 0;
  rp_tfree : fs_tfree f = u32 (Z.of_nat (length L));
}.

(** What the superblock says of the region. *)
Record on_region : Prop := {
  or_md : on_md rg;
  or_buf : (0 < NBUF)%nat;
  or_isz : 0 < isz;
  or_fsz : fsz ≤ rg_size rg;
  or_max : fsz < 2 ^ 31;
}.
Hypothesis Hreg : on_region.
Let Hmd := or_md Hreg.

Lemma good_range b : good isz fsz b → in_range rg b ∧ b ≠ SUPERB ∧ u32 b = b.
Proof.
  intros Hb. pose proof (or_isz Hreg). pose proof (or_fsz Hreg). pose proof (or_max Hreg). unfold good, in_range, SUPERB in *.
  split; [lia|]. split; [lia|]. apply Z.mod_small. lia.
Qed.
Lemma superb_range b : good isz fsz b → in_range rg SUPERB.
Proof. intros Hb. pose proof (or_isz Hreg). pose proof (or_fsz Hreg). unfold good, in_range, SUPERB in *. lia. Qed.
Lemma badblock_good f b : fs_isize f = isz → fs_fsize f = fsz → good isz fsz b → Alloc.badblock f b = false.
Proof.
  intros E1 E2 Hb. destruct (good_range b Hb) as (_ & _ & E). unfold Alloc.badblock, good in *. rewrite E, E1, E2.
  apply orb_false_iff. split; [apply Z.ltb_ge|apply Z.leb_gt]; lia.
Qed.

Lemma coh_with_fs f s D W : coh s D W → coh (with_fs m f s) D W.
Proof. intros. by apply (coh_ext rg s). Qed.
Lemma coh_sched s s' D W rl sq : Sched.sched_frame s s' → Sched.sched_inv s' rl sq → coh s D W → coh s' D W.
Proof.
  intros F Hi Hco. eapply coh_frame; [by apply bio_frame_sched|exact Hi|].
  by rewrite (sched_frame_bstore _ _ F), with_b_id.
Qed.
Lemma io_frame_sched s s' : Sched.sched_frame s s' → io_frame s s'.
Proof. intros F. by apply io_frame_bio, bio_frame_sched. Qed.

Lemma flock_free fuel s f : at_fs m s f → fs_flock f = 0 → Alloc.flock_wait fuel m s = Done tt s.
Proof. intros Hf E. destruct fuel; cbn [Alloc.flock_wait]; rewrite (bind_done _ _ _ _ _ (getfs_eq _ _ _ Hf)); cbv beta; by rewrite E. Qed.

Lemma flock_release_spec s D W f :
  coh s D W → at_fs m s f →
  ∃ s', Alloc.flock_release m s = Done tt s' ∧ coh s' D W ∧ at_fs m s' (f <| fs_flock := 0 |>) ∧
    fs_frame m s s' ∧ bstore s' = bstore s.
Proof.
  intros Hco Hf. unfold Alloc.flock_release. rewrite (bind_done _ _ _ _ _ (setfs_eq _ _ _ _ Hf)). cbv beta.
  set (s1 := with_fs m _ s). assert (Hco1 : coh s1 D W) by (by apply coh_with_fs).
  destruct (ch_sched _ _ _ _ Hco1) as (rl & sq & Hi). destruct (wakeup_when true (c_flock m) s1 rl sq Hi) as (s2 & rl' & sq' & E & F & Hi' & _).
  exists s2. split; [exact E|]. split; [by eapply coh_sched|].
  split; [eapply at_frame; [by apply io_frame_sched|by eapply at_with]|].
  split; [eexists; by apply io_frame_sched|by rewrite (sched_frame_bstore _ _ F)].
Qed.

Lemma balloc_take_spec k s f b :
  at_fs m s f → fs_isize f = isz → fs_fsize f = fsz → 1 ≤ fs_nfree f ≤ NICFREE →
  fs_free f !! Z.to_nat (fs_nfree f - 1) = Some b → good isz fsz b →
  Alloc.balloc_take k m s = Done (Some b) (with_fs m (f <| fs_nfree ::= λ z, z - 1 |>) s).
Proof.
  intros Hf E1 E2 Hn Hb Hg. destruct (good_range b Hg) as (_ & Hb0 & _).
  assert (G1 : fs_nfree f <=? 0 = false) by (apply Z.leb_gt; lia).
  assert (G2 : NICFREE <? fs_nfree f = false) by (apply Z.ltb_ge; lia).
  assert (G3 : fs_nfree f - 1 <? 0 = false) by (apply Z.ltb_ge; lia).
  assert (G4 : b =? 0 = false) by (by apply Z.eqb_neq).
  destruct k; cbn [Alloc.balloc_take]; rewrite (bind_done _ _ _ _ _ (getfs_eq _ _ _ Hf)); cbv beta; rewrite G1, G2;
    rewrite (bind_done _ _ _ _ _ (setfs_eq _ _ _ _ Hf)); cbv beta;
    rewrite (bind_done _ _ _ _ _ (getfs_eq _ _ _ (at_with _ _ _ _ Hf))); cbv beta;
    unfold arr; cbn [fs_nfree fs_free upd fs_fields]; rewrite G3, Hb; cbn [unless_none];
    rewrite (bind_done _ _ _ _ _ (mret_eq _ _)); cbv beta; rewrite G4;
    by rewrite badblock_good.
Qed.

(** Words of the superblock's block. *)
Lemma length_fs_words f :
  length (fs_free f) = 200%nat → length (fs_inode f) = 32%nat → length (fs_fsmnt f) = 7%nat →
  length (fs_words f) = 256%nat.
Proof. intros E1 E2 E3. unfold fs_words. rewrite !length_app, length_fmap, E1, E2, E3. done. Qed.

(** The next part of the list comes in. *)
Lemma balloc_refill_spec k s D f b (async : bool) :
  coh s D ∅ → idle s → at_fs m s f → fs_flock f = 0 → good isz fsz b → (NBUF < k)%nat →
  length (df_free (words_fblk (D b))) = 200%nat → length (fs_inode f) = 32%nat → length (fs_fsmnt f) = 7%nat →
  ∃ s' t w, Alloc.balloc_refill (S k) m (rg_dev rg) b async s = Done tt s' ∧ coh s' (<[SUPERB := w]> D) ∅ ∧ idle s' ∧
    at_fs m s' (fblk_fs (words_fblk (D b)) f <| fs_fmod := 0 |> <| fs_time := t |> <| fs_flock := 0 |>) ∧ fs_frame m s s'.
Proof.
  intros Hco Hid Hf Hfl Hg Hk L1 L2 L3. destruct (good_range b Hg) as (Hin & _ & _). pose proof (superb_range b Hg) as Hsb.
  unfold Alloc.balloc_refill. rewrite (bind_done _ _ _ _ _ (setfs_eq _ _ _ _ Hf)). cbv beta.
  set (f1 := f <| fs_flock ::= _ |>). set (s1 := with_fs m f1 s). assert (Hf1 : at_fs m s1 f1) by (by eapply at_with).
  assert (Hco1 : coh s1 D ∅) by (by apply coh_with_fs). assert (Hid1 : idle s1) by done.
  pose proof (ndirty_le (bstore s1)) as Hn1.
  destruct (bread_coh rg Hmd k s1 D ∅ b Hco1 (idle_available rg (or_buf Hreg) _ _ _ _ Hco1 Hid1) Hin ltac:(lia)) as
    (j & r & s2 & E2 & Hg2 & Hd2 & He2 & _).
  pose proof Hg2 as [Hco2 Hj Hr Hh Hb Ha _ _ _ F2]. pose proof (ch_pool _ _ _ _ Hco2 j r Hj Hr) as Hok.
  rewrite (bind_done _ _ _ _ _ E2). cbv beta. rewrite (bind_done _ _ _ _ _ (getbuf_eq _ _ _ Hr)). cbv beta.
  rewrite He2, (bo_resid _ _ _ _ _ _ Hok). change (negb false && (0 =? 0)) with true. cbn [when].
  assert (Eb : bdata (BufP j) s2 = Done (D b) s2).
  { unfold bdata. rewrite (bind_done _ _ _ _ _ (getbuf_eq _ _ _ Hr)). cbv beta. rewrite (bo_addr _ _ _ _ _ _ Hok).
    unfold getblock. m_unfold. by rewrite Hd2. }
  rewrite bind_assoc, (bind_done _ _ _ _ _ Eb). cbv beta.
  assert (Hf2 : at_fs m s2 f1) by (by eapply at_frame).
  rewrite (bind_done _ _ _ _ _ (setfs_eq _ _ _ _ Hf2)). cbv beta.
  set (f3 := fblk_fs _ f1). set (s3 := with_fs m f3 s2). assert (Hf3 : at_fs m s3 f3) by (by eapply at_with).
  assert (Hco3 : coh s3 D ∅) by (by apply coh_with_fs). assert (Hr3 : bstore s3 !! BufP j = Some r) by done.
  destruct (brelse_coh rg s3 D ∅ j r Hco3 Hj Hr3 Hb) as (s4 & E4 & Hco4 & F4 & _ & P4); [set_solver|].
  rewrite (bind_done _ _ _ _ _ E4). cbv beta. replace (∅ ∖ {[j]} : gset nat) with (∅ : gset nat) in Hco4 by set_solver.
  assert (Hid4 : idle s4).
  { eapply (idle_again rg); [exact Hid1|exact Hg2|exact P4| |done].
    destruct (let_go_ok r (bo_never _ _ _ _ _ _ Hok)) as (_ & _ & _ & ->). by hasf. }
  pose proof (ndirty_le (bstore s4)) as Hn4.
  destruct (getblk_coh rg Hmd k s4 D ∅ SUPERB Hco4 (idle_available rg (or_buf Hreg) _ _ _ _ Hco4 Hid4) Hsb ltac:(lia)) as
    (i & q & s5 & E5 & Hg5).
  pose proof Hg5 as [Hco5 Hi Hq Hhq Hbq Haq _ _ _ F5].
  rewrite (bind_done _ _ _ _ _ E5). cbv beta. rewrite (bind_done _ _ _ _ _ (get_s_eq _)). cbv beta.
  assert (Hf5 : at_fs m s5 f3) by (eapply at_frame; [|eapply at_frame; [|exact Hf3]]; done).
  rewrite (bind_done _ _ _ _ _ (setfs_eq _ _ _ _ Hf5)). cbv beta.
  set (f6 := f3 <| fs_fmod := 0 |> <| fs_time := _ |>). set (s6 := with_fs m f6 s5).
  assert (Hf6 : at_fs m s6 f6) by (by eapply at_with). rewrite (bind_done _ _ _ _ _ (getfs_eq _ _ _ Hf6)). cbv beta.
  assert (Hco6 : coh s6 D ∅) by (by apply coh_with_fs).
  destruct (finish_write rg Hmd (or_buf Hreg) (S k) async s6 D i q SUPERB (fs_words f6) Hco6 Hi Hq Hhq Hsb Hbq Haq) as
    (s7 & g & E7 & Hco7 & F7 & P7 & Hbg); [by apply length_fs_words|].
  assert (Hf7 : at_fs m s7 f6) by (by eapply at_frame).
  destruct (flock_release_spec s7 _ ∅ f6 Hco7 Hf7) as (s8 & E8 & Hco8 & Hf8 & F8 & B8).
  exists s8, (tv_sec (time s5)), (fs_words f6). split; [|split; [done|split; [|split; [exact Hf8|]]]].
  - revert E7. m_unfold. destruct (set_bdata (BufP i) (fs_words f6) s6) as [[] t| | | |]; try done. intros E7.
    destruct async; by rewrite E7.
  - intros x y Hx. rewrite B8. revert x y Hx. by eapply (idle_again rg); [exact Hid4|exact Hg5|exact P7|..].
  - eapply fs_frame_trans; [apply (fs_frame_with m f1 s)|]. eapply fs_frame_trans; [by eapply fs_frame_io|].
    eapply fs_frame_trans; [apply (fs_frame_with m f3 s2)|]. eapply fs_frame_trans; [by eapply fs_frame_io|].
    eapply fs_frame_trans; [by eapply (fs_frame_io m s4 s5 f3); [eapply at_frame|]|].
    eapply fs_frame_trans; [apply (fs_frame_with m f6 s5)|]. eapply fs_frame_trans; [by eapply (fs_frame_io m s6)|done].
Qed.

(** A list in core that is not exhausted. *)
Lemma fs_step s s' D D' f f' L L' :
  rep s D f L → at_fs m s' f' → flist isz fsz D' (fs_nfree f') (fs_free f') L' → NoDup L' →
  fs_isize f' = fs_isize f → fs_fsize f' = fs_fsize f → fs_inode f' = fs_inode f → fs_fsmnt f' = fs_fsmnt f →
  fs_flock f' = 0 → fs_tfree f' = u32 (Z.of_nat (length L')) → rep s' D' f' L'.
Proof. intros [_ _ _ Hs Hw _ _] ???????. split; try done; congruence. Qed.

(** The first part of [balloc]: the top of the list comes off. *)
Definition balloc_first (fuel : nat) (dev : Z) (async : bool) : K (option Z) :=
  o ← Alloc.balloc_take (Z.to_nat NICFREE) m;
  match o with
  | None => mret None
  | Some bno =>
    f ← getfs_of m;
    when (fs_nfree f <=? 0) (Alloc.balloc_refill fuel m dev bno async) ;;
    mret (Some bno)
  end.
Lemma balloc_first_spec k s D f b L (async : bool) :
  coh s D ∅ → idle s → rep s D f (b :: L) → (NBUF < k)%nat →
  ∃ s' D' f', balloc_first (S k) (rg_dev rg) async s = Done (Some b) s' ∧ coh s' D' ∅ ∧ idle s' ∧ at_fs m s' f' ∧
    flist isz fsz D' (fs_nfree f') (fs_free f') L ∧ 1 ≤ fs_nfree f' ∧
    fs_isize f' = fs_isize f ∧ fs_fsize f' = fs_fsize f ∧ fs_inode f' = fs_inode f ∧ fs_fsmnt f' = fs_fsmnt f ∧
    fs_flock f' = 0 ∧ fs_tfree f' = fs_tfree f ∧ (∀ b', b' ≠ SUPERB → D' b' = D b') ∧ fs_frame m s s'.
Proof.
  intros Hco Hid [Hf Hl Hn [Z1 Z2] [W1 W2] Hk Ht] Hfu.
  destruct (flist_pop _ _ _ _ _ _ _ Hl) as (Hr & Hb & Hg & Hcase).
  unfold balloc_first. rewrite (bind_done _ _ _ _ _ (balloc_take_spec _ s f b Hf Z1 Z2 Hr Hb Hg)). cbv beta iota.
  set (f1 := f <| fs_nfree ::= _ |>). set (s1 := with_fs m f1 s). assert (Hf1 : at_fs m s1 f1) by (by eapply at_with).
  rewrite (bind_done _ _ _ _ _ (getfs_eq _ _ _ Hf1)). cbv beta. change (fs_nfree f1) with (fs_nfree f - 1).
  assert (Hco1 : coh s1 D ∅) by (by apply coh_with_fs).
  destruct Hcase as [[Hn2 Hl1]|(Hn1 & _ & Hnb & Hl1)].
  - replace (fs_nfree f - 1 <=? 0) with false by (symmetry; apply Z.leb_gt; lia). cbn [when].
    exists s1, D, f1. repeat (split; [done|]). split; [change (fs_nfree f1) with (fs_nfree f - 1); lia|].
    repeat (split; [done|]). apply fs_frame_with.
  - rewrite Hn1. cbn [when Z.sub Z.leb].
    destruct (balloc_refill_spec k s1 D f1 b async Hco1) as (s2 & t & w & E2 & Hco2 & Hid2 & Hf2 & F2);
      [done|done|done|done|done|by apply (flist_length _ _ _ _ _ _ Hl1)|done|done|].
    change (1 - 1 <=? 0) with true. cbn [when]. rewrite (bind_done _ _ _ _ _ E2). cbv beta.
    eexists s2, _, _. split; [done|]. split; [exact Hco2|]. split; [done|]. split; [exact Hf2|].
    split; [|split; [exact Hnb|repeat (split; [done|])]].
    + apply (flist_ext _ _ D); [exact Hl1|]. intros b' Hb'. apply fn_lookup_insert_ne.
      intros <-. apply flist_good in Hl1. rewrite Forall_forall in Hl1. by apply (good_range SUPERB (Hl1 _ Hb')).
    + split; [intros b' Hb'; by apply fn_lookup_insert_ne|]. eapply fs_frame_trans; [apply fs_frame_with|exact F2].
Qed.

Definition balloc_rest (fuel : nat) (dev b flags : Z) : K (option bptr) :=
  f ← getfs_of m;
  if fs_nfree f <=? 0 then Alloc.balloc_nospace m
  else
    bp ← Bio.getblk fuel dev b;
    setbuf bp (λ c, c <| b_resid := 0 |>) ;;
    when (has flags B_CLRBUF) (set_bdata bp (replicate 256 0)) ;;
    setfs m (λ f, f <| fs_fmod := 1 |>) ;;
    setfs m (λ f, f <| fs_tfree ::= λ z, u32 (z - 1) |>) ;;
    mret (Some bp).
Lemma balloc_after fuel ip flags s s' f b :
  i_fs ip = m → at_fs m s f → fs_flock f = 0 →
  balloc_first fuel (i_dev ip) (has (fs_flags f) MNT_ASYNC) s = Done (Some b) s' →
  Alloc.balloc fuel ip flags s = balloc_rest fuel (i_dev ip) b flags s'.
Proof.
  intros Em Hf Hk. unfold Alloc.balloc, balloc_first. rewrite Em, (bind_done _ _ _ _ _ (getfs_eq _ _ _ Hf)). cbv beta zeta.
  rewrite (bind_done _ _ _ _ _ (flock_free fuel s f Hf Hk)). cbv beta. fold (balloc_rest fuel (i_dev ip)).
  intros (o & t & Et & E)%bind_inv. rewrite (bind_done _ _ _ _ _ Et). cbv beta. destruct o as [bno|]; [|done].
  apply bind_inv in E as (f1 & t1 & E1 & E). rewrite (bind_done _ _ _ _ _ E1). cbv beta.
  apply bind_inv in E as ([] & t2 & E2 & E). rewrite (bind_done _ _ _ _ _ E2). by injection E as -> ->.
Qed.

Lemma bind_eq {A B} (m1 m2 : K A) (g : A → K B) s1 s2 : m1 s1 = m2 s2 → (m1 ≫= g) s1 = (m2 ≫= g) s2.
Proof. m_unfold. by intros ->. Qed.
Lemma with_b_same s b r r' : bstore s !! b = Some r → r' = r → s <| bstore ::= <[b := r']> |> = s.
Proof.
  intros Hr ->. unfold upd. destruct s. simpl in *. f_equal. by apply insert_id.
Qed.
Lemma written_free r : has (b_flags r) NEVER = false → has (b_flags (written r)) B_BUSY = false.
Proof.
  intros HN. unfold written. destruct (let_go_ok (done_rec (wr_rec r))) as (_ & _ & _ & ->); [|by hasf].
  simpl. rewrite has_clrf_disj, has_setf by done. by apply has_clrf_mono.
Qed.
Lemma set_bdata_coh s D j r b ws :
  coh s D ∅ → (j < NBUF)%nat → bstore s !! BufP j = Some r → holds r (rg_dev rg) b → in_range rg b →
  has (b_flags r) B_BUSY = true → length ws = 256%nat →
  set_bdata (BufP j) ws s = Done tt (with_d s (core j) ws) ∧ coh (with_d s (core j) ws) (<[b := ws]> D) {[j]} ∧
  bufdata (with_d s (core j) ws) !! core j = Some ((<[b := ws]> D) b).
Proof.
  intros Hco Hj Hr Hh Hin Hb Hl. pose proof (ch_pool _ _ _ _ Hco j r Hj Hr) as Hok. split; [|split].
  - unfold set_bdata. rewrite (bind_done _ _ _ _ _ (getbuf_eq _ _ _ Hr)). cbv beta. rewrite (bo_addr _ _ _ _ _ _ Hok).
    destruct (bo_core _ _ _ _ _ _ Hok) as (w & Hw & _). unfold setblock, getblock. m_unfold. by rewrite Hw.
  - replace ({[j]} : gset nat) with ({[j]} ∪ ∅ : gset nat) by set_solver.
    by apply (coh_write rg Hmd s D ∅ j r b ws); try done; apply (md_nodev rg Hmd).
  - simpl. by rewrite lookup_insert_eq, fn_lookup_insert.
Qed.

(** A client that gets a cleared block and writes it back, as itrunc and bmap
    do; and one that frees a block. *)
Definition alloc_block (fuel : nat) (ip : inode) : K (option Z) :=
  o ← Alloc.balloc fuel ip B_CLRBUF;
  match o with
  | None => mret None
  | Some bp => r ← getbuf bp; bdwrite fuel bp ;; mret (Some (b_blkno r))
  end.

Lemma alloc_block_spec k ip s D f b L :
  i_fs ip = m → i_dev ip = rg_dev rg → coh s D ∅ → idle s → rep s D f (b :: L) → (NBUF < k)%nat →
  ∃ s' D' f', alloc_block (S k) ip s = Done (Some b) s' ∧ coh s' D' ∅ ∧ idle s' ∧ rep s' D' f' L ∧
    D' b = replicate 256 0 ∧ (∀ b', b' ≠ SUPERB → b' ≠ b → D' b' = D b') ∧ fs_frame m s s'.
Proof.
  intros Em Ed Hco Hid Hrep Hfu. pose proof Hrep as [Hf Hl [HbL Hn]%NoDup_cons _ _ Hk Ht].
  destruct (flist_pop _ _ _ _ _ _ _ Hl) as (_ & _ & Hg & _). destruct (good_range b Hg) as (Hin & _ & _).
  destruct (balloc_first_spec k s D f b L (has (fs_flags f) MNT_ASYNC) Hco Hid Hrep Hfu) as
    (s1 & D1 & f1 & E1 & Hco1 & Hid1 & Hf1 & Hl1 & Hn1 & Q1 & Q2 & Q3 & Q4 & Q5 & Q6 & HD & F1).
  rewrite <- Ed in E1. unfold alloc_block.
  assert (HZ1 : fs_isize f1 = isz) by (rewrite Q1; apply (rp_sizes _ _ _ _ Hrep)).
  assert (HZ2 : fs_fsize f1 = fsz) by (rewrite Q2; apply (rp_sizes _ _ _ _ Hrep)).
  rewrite (bind_eq _ _ _ _ _ (balloc_after _ _ _ _ _ _ _ Em Hf Hk E1)).
  unfold balloc_rest. rewrite bind_assoc, (bind_done _ _ _ _ _ (getfs_eq _ _ _ Hf1)). cbv beta.
  replace (fs_nfree f1 <=? 0) with false by (symmetry; apply Z.leb_gt; lia).
  pose proof (ndirty_le (bstore s1)) as Hn2. rewrite Ed.
  destruct (getblk_coh rg Hmd k s1 D1 ∅ b Hco1 (idle_available rg (or_buf Hreg) _ _ _ _ Hco1 Hid1) Hin ltac:(lia)) as
    (j & r & s2 & E2 & Hg2).
  pose proof Hg2 as [Hco2 Hj Hr Hh Hb Ha _ _ _ F2]. pose proof (ch_pool _ _ _ _ Hco2 j r Hj Hr) as Hok.
  rewrite bind_assoc, (bind_done _ _ _ _ _ E2). cbv beta.
  assert (Er : setbuf (BufP j) (λ c, c <| b_resid := 0 |>) s2 = Done tt s2).
  { rewrite (setbuf_eq _ _ _ _ Hr). f_equal. apply (with_b_same _ _ r _ Hr). pose proof (bo_resid _ _ _ _ _ _ Hok) as R. destruct r. simpl in R. by subst. }
  rewrite bind_assoc, (bind_done _ _ _ _ _ Er). cbv beta. change (has B_CLRBUF B_CLRBUF) with true. cbn [when].
  destruct (set_bdata_coh s2 D1 j r b (replicate 256 0) Hco2 Hj Hr Hh Hin Hb eq_refl) as (E3 & Hco3 & Hcore).
  rewrite bind_assoc, (bind_done _ _ _ _ _ E3). cbv beta. set (s3 := with_d s2 (core j) (replicate 256 0)) in *.
  assert (Hf3 : at_fs m s3 f1) by (exact (at_frame m s1 s2 f1 F2 Hf1)).
  rewrite bind_assoc, (bind_done _ _ _ _ _ (setfs_eq _ _ _ _ Hf3)). cbv beta. set (f4 := f1 <| fs_fmod := 1 |>).
  assert (Hf4 : at_fs m (with_fs m f4 s3) f4) by (by eapply at_with).
  rewrite bind_assoc, (bind_done _ _ _ _ _ (setfs_eq _ _ _ _ Hf4)). cbv beta. rewrite with_with. set (f5 := f4 <| fs_tfree ::= _ |>).
  set (s5 := with_fs m f5 s3). assert (Hf5 : at_fs m s5 f5) by (by eapply at_with).
  rewrite (bind_done _ _ _ _ _ (mret_eq _ _)). cbv beta iota.
  assert (Hr5 : bstore s5 !! BufP j = Some r) by done. rewrite (bind_done _ _ _ _ _ (getbuf_eq _ _ _ Hr5)). cbv beta.
  assert (Hco5 : coh s5 (<[b := replicate 256 0]> D1) {[j]}) by (by apply coh_with_fs).
  destruct (bdwrite_coh rg Hmd (S k) s5 _ _ j r b Hco5 Hj Hr5 Hb Hh Hcore) as (s6 & E6 & Hco6 & F6 & _ & P6).
  rewrite (bind_done _ _ _ _ _ E6). replace ({[j]} ∖ {[j]} : gset nat) with (∅ : gset nat) in Hco6 by set_solver.
  destruct Hh as (_ & Ebl & _). rewrite Ebl. exists s6, (<[b := replicate 256 0]> D1), f5.
  split; [done|]. split; [done|]. split; [|split; [|split; [|split]]].
  - eapply (idle_again rg); [exact Hid1|exact Hg2|exact P6| |done].
    destruct (let_go_ok (dirtied r)) as (_ & _ & _ & ->); [simpl; rewrite has_setf by done; apply (bo_never _ _ _ _ _ _ Hok)|by hasf].
  - eapply (fs_step s); [exact Hrep|by eapply at_frame| |done..|].
    + apply (flist_ext _ _ D1); [exact Hl1|]. intros b' Hb'. apply fn_lookup_insert_ne. set_solver.
    + change (fs_tfree f5) with (u32 (fs_tfree f1 - 1)). rewrite Q6, Ht. cbn [length]. unfold u32.
      rewrite Zminus_mod_idemp_l. f_equal. lia.
  - apply fn_lookup_insert.
  - intros b' H1' H2'. rewrite fn_lookup_insert_ne by done. by apply HD.
  - eapply fs_frame_trans; [exact F1|]. eapply fs_frame_trans; [by eapply (fs_frame_io m s1 s2)|].
    eapply fs_frame_trans; [exact (fs_frame_io m s2 s3 f1 Hf3 (io_frame_with_d _ _ _))|].
    eapply fs_frame_trans; [apply (fs_frame_with m f5 s3)|]. by eapply (fs_frame_io m s5).
Qed.

(** The whole list in core goes to the freed block. *)
Lemma free_spill_spec k s D f b :
  coh s D ∅ → idle s → at_fs m s f → fs_flock f = 0 → good isz fsz b → (NBUF < k)%nat →
  length (fs_free f) = 200%nat →
  ∃ s' ws, Alloc.free_spill (S k) m (rg_dev rg) b s = Done tt s' ∧
    coh s' (<[b := put_words 0 (fblk_words (fs_fblk f)) ws]> D) ∅ ∧ idle s' ∧
    at_fs m s' (f <| fs_nfree := 0 |> <| fs_flock := 0 |>) ∧ fs_frame m s s'.
Proof.
  intros Hco Hid Hf Hfl Hg Hk L1. destruct (good_range b Hg) as (Hin & _ & _).
  unfold Alloc.free_spill. rewrite (bind_done _ _ _ _ _ (setfs_eq _ _ _ _ Hf)). cbv beta.
  set (f1 := f <| fs_flock ::= _ |>). set (s1 := with_fs m f1 s). assert (Hf1 : at_fs m s1 f1) by (by eapply at_with).
  assert (Hco1 : coh s1 D ∅) by (by apply coh_with_fs). assert (Hid1 : idle s1) by done.
  pose proof (ndirty_le (bstore s1)) as Hn1.
  destruct (getblk_coh rg Hmd k s1 D ∅ b Hco1 (idle_available rg (or_buf Hreg) _ _ _ _ Hco1 Hid1) Hin ltac:(lia)) as
    (j & r & s2 & E2 & Hg2).
  pose proof Hg2 as [Hco2 Hj Hr Hh Hb Ha _ _ _ F2]. pose proof (ch_pool _ _ _ _ Hco2 j r Hj Hr) as Hok.
  rewrite (bind_done _ _ _ _ _ E2). cbv beta. assert (Hf2 : at_fs m s2 f1) by (by eapply at_frame).
  rewrite (bind_done _ _ _ _ _ (getfs_eq _ _ _ Hf2)). cbv beta.
  destruct (bo_core _ _ _ _ _ _ Hok) as (ws & Hws & Hlw).
  assert (Eb : bdata (BufP j) s2 = Done ws s2).
  { unfold bdata. rewrite (bind_done _ _ _ _ _ (getbuf_eq _ _ _ Hr)). cbv beta. rewrite (bo_addr _ _ _ _ _ _ Hok).
    unfold getblock. m_unfold. by rewrite Hws. }
  rewrite (bind_done _ _ _ _ _ Eb). cbv beta. change (fs_fblk f1) with (fs_fblk f).
  set (w := put_words 0 _ ws).
  assert (Hlw2 : length w = 256%nat).
  { unfold w. rewrite length_put_words; [done|]. unfold fblk_words. simpl. lia. }
  destruct (set_bdata_coh s2 D j r b w Hco2 Hj Hr Hh Hin Hb Hlw2) as (E3 & Hco3 & Hcore).
  rewrite (bind_done _ _ _ _ _ E3). cbv beta. set (s3 := with_d s2 (core j) w) in *.
  assert (Hf3 : at_fs m s3 f1) by done.
  rewrite (bind_done _ _ _ _ _ (setfs_eq _ _ _ _ Hf3)). cbv beta. set (f4 := f1 <| fs_nfree := 0 |>).
  set (s4 := with_fs m f4 s3). assert (Hf4 : at_fs m s4 f4) by (by eapply at_with).
  rewrite (bind_done _ _ _ _ _ (getfs_eq _ _ _ Hf4)). cbv beta.
  assert (Hr4 : bstore s4 !! BufP j = Some r) by done.
  assert (Hco4 : coh s4 (<[b := w]> D) {[j]}) by (by apply coh_with_fs).
  assert (HN := bo_never _ _ _ _ _ _ Hok).
  assert (Hwr : ∃ s5 g, (if has (fs_flags f4) MNT_ASYNC then bdwrite (S k) (BufP j) else bwrite (S k) (BufP j)) s4 = Done tt s5 ∧
    coh s5 (<[b := w]> D) ({[j]} ∖ {[j]}) ∧ io_frame s4 s5 ∧ same_pool (bstore s4) (bstore s5) j g ∧ has (b_flags (g r)) B_BUSY = false).
  { destruct (has (fs_flags f4) MNT_ASYNC).
    - destruct (bdwrite_coh rg Hmd (S k) s4 _ _ j r b Hco4 Hj Hr4 Hb Hh Hcore) as (s5 & E5 & ? & ? & _ & ?).
      exists s5, (λ r, let_go (dirtied r)). repeat (split; [done|]).
      destruct (let_go_ok (dirtied r)) as (_ & _ & _ & ->); [simpl; by rewrite has_setf|by hasf].
    - destruct (bwrite_coh rg Hmd (S k) s4 _ _ j r b Hco4 Hj Hr4 Hb Hh Hin Ha Hcore) as (s5 & E5 & ? & ? & _ & ?).
      exists s5, written. repeat (split; [done|]). by apply written_free. }
  destruct Hwr as (s5 & g & E5 & Hco5 & F5 & P5 & Hbg). rewrite (bind_done _ _ _ _ _ E5). cbv beta.
  replace ({[j]} ∖ {[j]} : gset nat) with (∅ : gset nat) in Hco5 by set_solver.
  assert (Hf5 : at_fs m s5 f4) by (by eapply at_frame).
  destruct (flock_release_spec s5 _ ∅ f4 Hco5 Hf5) as (s6 & E6 & Hco6 & Hf6 & F6 & B6).
  exists s6, ws. split; [exact E6|]. split; [exact Hco6|]. split; [|split; [exact Hf6|]].
  - intros x y Hx. rewrite B6. revert x y Hx. by eapply (idle_again rg); [exact Hid1|exact Hg2|exact P5|..].
  - eapply fs_frame_trans; [apply (fs_frame_with m f1 s)|]. eapply fs_frame_trans; [by eapply (fs_frame_io m s1)|].
    eapply fs_frame_trans; [exact (fs_frame_io m s2 s3 f1 Hf3 (io_frame_with_d _ _ _))|].
    eapply fs_frame_trans; [apply (fs_frame_with m f4 s3)|]. eapply fs_frame_trans; [by eapply (fs_frame_io m s4)|done].
Qed.

(** Room in core for one more entry: an exhausted list is started, a full one
    spilled. *)
Lemma free_room_spec k s D f b L :
  coh s D ∅ → idle s → rep s D f L → good isz fsz b → b ∉ L → (NBUF < k)%nat →
  ∃ s1 f1 f2 s2 D2, when (fs_nfree f <=? 0)
      (setfs m (λ f, f <| fs_nfree := 1 |> <| fs_free ::= <[0%nat := 0]> |>)) s = Done tt s1 ∧ at_fs m s1 f1 ∧
    when (NICFREE <=? fs_nfree f1) (Alloc.free_spill (S k) m (rg_dev rg) b) s1 = Done tt s2 ∧ at_fs m s2 f2 ∧
    coh s2 D2 ∅ ∧ idle s2 ∧ 0 ≤ fs_nfree f2 < 200 ∧ length (fs_free f2) = 200%nat ∧
    flist isz fsz D2 (fs_nfree f2 + 1) (<[Z.to_nat (fs_nfree f2) := b]> (fs_free f2)) (b :: L) ∧
    fs_isize f2 = fs_isize f ∧ fs_fsize f2 = fs_fsize f ∧ fs_inode f2 = fs_inode f ∧ fs_fsmnt f2 = fs_fsmnt f ∧
    fs_flock f2 = 0 ∧ fs_tfree f2 = fs_tfree f ∧ (∀ b', b' ≠ b → D2 b' = D b') ∧ fs_frame m s s2.
Proof.
  intros Hco Hid Hrep Hg HbL Hk. pose proof Hrep as [Hf Hl Hn [Z1 Z2] _ Hfl Ht].
  pose proof (flist_length _ _ _ _ _ _ Hl) as Hlen. pose proof (flist_le _ _ _ _ _ _ Hl) as Hle.
  destruct (good_range b Hg) as (_ & Hb0 & _).
  destruct (decide (fs_nfree f ≤ 0)) as [Hz|Hz].
  - rewrite (proj2 (Z.leb_le _ 0) Hz). cbn [when]. set (f1 := f <| fs_nfree := 1 |> <| fs_free ::= <[0%nat := 0]> |>).
    exists (with_fs m f1 s), f1, f1, (with_fs m f1 s), D. split; [exact (setfs_eq _ _ _ _ Hf)|].
    split; [by eapply at_with|]. split; [done|]. split; [by eapply at_with|]. split; [by apply coh_with_fs|].
    split; [done|]. split; [change (fs_nfree f1) with 1; lia|]. split; [simpl; by rewrite length_insert|].
    split; [|repeat (split; [done|]); apply fs_frame_with].
    assert (L = []) as -> by (inversion Hl; subst; [done|lia..]). by apply flist_first.
  - replace (fs_nfree f <=? 0) with false by (symmetry; apply Z.leb_gt; lia). cbn [when].
    exists s, f. destruct (decide (fs_nfree f < 200)) as [Hlt|Hlt].
    + exists f, s, D. replace (NICFREE <=? fs_nfree f) with false by (symmetry; apply Z.leb_gt; unfold NICFREE; lia).
      split; [done|]. split; [done|]. split; [done|]. split; [done|]. split; [done|]. split; [done|]. split; [lia|].
      split; [done|]. split; [apply flist_push; [done|unfold NICFREE; lia|done]|]. repeat (split; [done|]).
      rewrite <- (with_same _ _ _ Hf) at 2. apply fs_frame_with.
    + replace (NICFREE <=? fs_nfree f) with true by (symmetry; apply Z.leb_le; unfold NICFREE; lia). cbn [when].
      destruct (free_spill_spec k s D f b Hco Hid Hf Hfl Hg Hk Hlen) as (s2 & ws & E2 & Hco2 & Hid2 & Hf2 & F2).
      eexists _, s2, _. split; [done|]. split; [done|]. split; [exact E2|]. split; [exact Hf2|]. split; [exact Hco2|].
      split; [done|]. split; [change (0 ≤ 0 < 200); lia|]. split; [done|].
      split; [apply (flist_spill _ _ D (fs_nfree f)); [done|lia|done..]|].
      repeat (split; [done|]). split; [|done]. intros b' Hb'. by apply fn_lookup_insert_ne.
Qed.

Lemma free_spec k ip s D f b L :
  i_fs ip = m → i_dev ip = rg_dev rg → coh s D ∅ → idle s → rep s D f L → good isz fsz b → b ∉ L → (NBUF < k)%nat →
  ∃ s' D' f', Alloc.free (S k) ip b s = Done tt s' ∧ coh s' D' ∅ ∧ idle s' ∧ rep s' D' f' (b :: L) ∧
    (∀ b', b' ≠ b → D' b' = D b') ∧ fs_frame m s s'.
Proof.
  intros Em Ed Hco Hid Hrep Hg HbL Hk. pose proof Hrep as [Hf Hl Hn [Z1 Z2] _ Hfl Ht].
  pose proof (flist_length _ _ _ _ _ _ Hl) as Hlen.
  unfold Alloc.free. rewrite Em, Ed, (bind_done _ _ _ _ _ (getfs_eq _ _ _ Hf)). cbv beta zeta.
  rewrite (badblock_good f b Z1 Z2 Hg), (bind_done _ _ _ _ _ (flock_free _ s f Hf Hfl)). cbv beta.
  rewrite (bind_done _ _ _ _ _ (getfs_eq _ _ _ Hf)). cbv beta.
  destruct (free_room_spec k s D f b L Hco Hid Hrep Hg HbL Hk) as (s1 & f1 & f2 & s2 & D2 & E1 & Hf1 & E2 & Hf2 & Hco2 & Hid2 & Hn2 & Hl2 & Hfl2 & Q1 & Q2 & Q3 & Q4 & Q5 & Q6 & HD & F2).
  rewrite (bind_done _ _ _ _ _ E1). cbv beta. rewrite (bind_done _ _ _ _ _ (getfs_eq _ _ _ Hf1)). cbv beta.
  rewrite (bind_done _ _ _ _ _ E2). cbv beta. rewrite (bind_done _ _ _ _ _ (getfs_eq _ _ _ Hf2)). cbv beta.
  destruct (lookup_lt_is_Some_2 (fs_free f2) (Z.to_nat (fs_nfree f2))) as [x Hx]; [lia|].
  assert (Ea : arr (fs_free f2) (fs_nfree f2) s2 = Done x s2).
  { unfold arr. replace (fs_nfree f2 <? 0) with false by (symmetry; apply Z.ltb_ge; lia). by rewrite Hx. }
  rewrite (bind_done _ _ _ _ _ Ea). cbv beta.
  rewrite (bind_done _ _ _ _ _ (setfs_eq _ _ _ _ Hf2)). cbv beta. set (f3 := _ <| fs_nfree ::= _ |>).
  rewrite (bind_done _ _ _ _ _ (setfs_eq _ _ _ _ (at_with _ _ _ f3 Hf2))). cbv beta. rewrite with_with. set (f4 := f3 <| fs_tfree ::= _ |>).
  rewrite (setfs_eq _ _ _ _ (at_with _ _ _ f4 Hf2)), with_with. set (f5 := f4 <| fs_fmod := 1 |>).
  exists (with_fs m f5 s2), D2, f5. split; [done|]. split; [by apply coh_with_fs|]. split; [done|].
  split; [|split; [done|eapply fs_frame_trans; [exact F2|apply fs_frame_with]]].
  eapply (fs_step s); [exact Hrep|by eapply at_with|exact Hfl2|by constructor|done..|].
  change (fs_tfree f5) with (u32 (fs_tfree f2 + 1)). rewrite Q6, Ht. cbn [length]. unfold u32.
  rewrite Zplus_mod_idemp_l. f_equal. lia.
Qed.

(** * Sequences of operations *)

Inductive fop := Alloc | Free (b : Z).
Fixpoint frun (fuel : nat) (ip : inode) (l : list fop) : K (list (option Z)) :=
  match l with
  | [] => mret []
  | Alloc :: l => o ← alloc_block fuel ip; rest ← frun fuel ip l; mret (o :: rest)
  | Free b :: l => Alloc.free fuel ip b ;; rest ← frun fuel ip l; mret (None :: rest)
  end.
(** The same on a stack: allocating from one that is not empty, freeing data
    blocks that are not free already. *)
Inductive stack_run : list Z → list fop → list (option Z) → list Z → Prop :=
| stack_nil L : stack_run L [] [] L
| stack_alloc b L l out L' : stack_run L l out L' → stack_run (b :: L) (Alloc :: l) (Some b :: out) L'
| stack_free b L l out L' :
    good isz fsz b → b ∉ L → stack_run (b :: L) l out L' → stack_run L (Free b :: l) (None :: out) L'.

(** C5: The free list of a file system is a stack of blocks: any sequence of
    [balloc]s and [free]s returns the blocks a stack would, last freed first,
    whether they lie in the superblock's array or in the chain of blocks on the
    disk, across every refill and spill through the buffer cache; no block is
    lost, handed out twice or miscounted, and apart from the superblock only
    blocks that were free or are freed change. *)
Theorem freelist_is_stack k ip s D f L l out L' :
  i_fs ip = m → i_dev ip = rg_dev rg → (NBUF < k)%nat → coh s D ∅ → idle s → rep s D f L →
  stack_run L l out L' →
  ∃ s' D' f', frun (S k) ip l s = Done out s' ∧ coh s' D' ∅ ∧ idle s' ∧ rep s' D' f' L' ∧ fs_frame m s s' ∧
    ∀ b, b ≠ SUPERB → b ∉ L → Free b ∉ l → D' b = D b.
Proof.
  intros Em Ed Hk Hco Hid Hrep Hrun. revert s D f Hco Hid Hrep.
  induction Hrun as [L|b L l out L' _ IH|b L l out L' Hg HbL _ IH]; intros s D f Hco Hid Hrep.
  - exists s, D, f. repeat (split; [done|]). split; [|done]. by eapply fs_frame_io, io_frame_refl; destruct Hrep.
  - destruct (alloc_block_spec k ip s D f b L Em Ed Hco Hid Hrep Hk) as (s1 & D1 & f1 & E1 & Hco1 & Hid1 & Hr1 & _ & HD1 & F1).
    destruct (IH s1 D1 f1 Hco1 Hid1 Hr1) as (s2 & D2 & f2 & E2 & Hco2 & Hid2 & Hr2 & F2 & HD2).
    exists s2, D2, f2. cbn [frun]. rewrite (bind_done _ _ _ _ _ E1). cbv beta. rewrite (bind_done _ _ _ _ _ E2).
    repeat (split; [done|]). split; [by eapply fs_frame_trans|]. intros b' Hs HL Hl.
    rewrite HD2; [apply HD1; set_solver|done|set_solver|set_solver].
  - destruct (free_spec k ip s D f b L Em Ed Hco Hid Hrep Hg HbL Hk) as (s1 & D1 & f1 & E1 & Hco1 & Hid1 & Hr1 & HD1 & F1).
    destruct (IH s1 D1 f1 Hco1 Hid1 Hr1) as (s2 & D2 & f2 & E2 & Hco2 & Hid2 & Hr2 & F2 & HD2).
    exists s2, D2, f2. cbn [frun]. rewrite (bind_done _ _ _ _ _ E1). cbv beta. rewrite (bind_done _ _ _ _ _ E2).
    repeat (split; [done|]). split; [by eapply fs_frame_trans|]. intros b' Hs HL Hl.
    assert (b' ≠ b) by set_solver. rewrite HD2; [by apply HD1|done|set_solver|set_solver].
Qed.

Lemma balloc_take_none k s D f :
  rep s D f [] → ∃ f', Alloc.balloc_take (S k) m s = Done None (with_fs m f' s) ∧ fs_nfree f' ≤ 0 ∧ fs_free f' = fs_free f.
Proof.
  intros [Hf Hl _ _ _ _ _]. cbn [Alloc.balloc_take]. rewrite (bind_done _ _ _ _ _ (getfs_eq _ _ _ Hf)). cbv beta.
  destruct (flist_empty _ _ _ _ _ Hl) as [Hz|[Hn Hx]].
  - rewrite (proj2 (Z.leb_le _ 0) Hz). exists f. by rewrite (with_same _ _ _ Hf).
  - rewrite Hn. change (1 <=? 0) with false. change (NICFREE <? 1) with false. cbv iota.
    rewrite (bind_done _ _ _ _ _ (setfs_eq _ _ _ _ Hf)). cbv beta.
    rewrite (bind_done _ _ _ _ _ (getfs_eq _ _ _ (at_with _ _ _ _ Hf))). cbv beta. unfold arr.
    cbn [fs_nfree fs_free upd fs_fields]. rewrite Hn. change (1 - 1 <? 0) with false. change (Z.to_nat (1 - 1)) with 0%nat.
    rewrite Hx. cbn [unless_none]. rewrite (bind_done _ _ _ _ _ (mret_eq _ _)). cbv beta. change (0 =? 0) with true. cbv iota.
    exists (f <| fs_nfree ::= λ z, z - 1 |>). split; [done|]. split; [simpl; lia|done].
Qed.

End ops.
End Freelist.

(** * Examples *)

Module FreelistExamples.
Import Bio Disk DiskExamples Freelist.
#[local] Existing Instances gba_cfg Sched.layout1 Sig.sig_env0 md_env0 bio_env_md.

(** Blocks 2 and 3 are free: the superblock names 2, which holds the rest. *)
Definition f0 : fs :=
  MkFs 2 4 1 (2 :: replicate 199 0) 0 (replicate 32 0) 0 0 0 0 0 2 0 0 0 0 FSMAGIC1 0 (replicate 7 0) FSMAGIC2.
Definition part2 : list Z := 2 :: 0 :: 3 :: replicate 253 0.
Definition mounted (s : kstate) : kstate := s <| mounts := [MkMount 0x600 f0 None] |>.
Definition start1 : kstate := Eval vm_compute in mounted (BioExamples.run (write_block 5 false 0x600 2 part2) start).
Definition ip0 : inode := MkInode 0 1 0x600 3 0 (replicate 7 0) 0 1 0 0 0 0 0 0 0 None None 0 0 None None 0 0 None None.
Lemma on_region0 : on_region rg0 2 4.
Proof. split; [exact on_md0|vm_compute; lia|done|done|done]. Qed.
Lemma start1_ready : coh rg0 start1 (<[2 := part2]> D0) ∅ ∧ idle start1.
Proof.
  destruct (write_block_coh rg0 on_md0 ltac:(vm_compute; lia) 4 false start D0 2 part2 coh0 idle0) as (s & E & Hco & Hid & _);
    [done|done|vm_compute; lia|].
  assert (Es : write_block 5 false 0x600 2 part2 start = Done tt (BioExamples.run (write_block 5 false 0x600 2 part2) start))
    by (vm_compute; reflexivity).
  change (rg_dev rg0) with 0x600 in E. rewrite Es in E. injection E as E.
  assert (E1 : start1 = mounted s) by (rewrite <- E; vm_compute; reflexivity). rewrite E1.
  split; [|exact Hid]. by apply (coh_ext rg0 s).
Qed.
Lemma rep0 : rep 0 2 4 start1 (<[2 := part2]> D0) f0 [2; 3].
Proof.
  split; try done; [by eexists| |].
  - apply (flist_link _ _ _ 1 _ 2 [3]); try done.
    apply (flist_last _ _ _ 2 (0 :: 3 :: replicate 198 0)); try done. repeat constructor; done.
  - apply NoDup_cons. split; [set_solver|apply NoDup_singleton].
Qed.
Lemma stack0 : stack_run 2 4 [2; 3] [Alloc; Alloc; Free 2; Alloc] [Some 2; Some 3; None; Some 2] [].
Proof. do 2 constructor. constructor; [done|set_solver|]. do 2 constructor. Qed.

Lemma freelist_is_stack_witness :
  ∃ s', frun 5 ip0 [Alloc; Alloc; Free 2; Alloc] start1 = Done [Some 2; Some 3; None; Some 2] s'.
Proof.
  destruct (freelist_is_stack rg0 0 2 4 on_region0 4 ip0 start1 (<[2 := part2]> D0) f0 _ _ _ _ eq_refl eq_refl
    ltac:(vm_compute; lia) (proj1 start1_ready) (proj2 start1_ready) rep0 stack0) as (s' & D' & f' & E & _).
  exists s'. exact E.
Defined.
Lemma rep_empty : rep 0 2 4 (mounted start <| mounts := [MkMount 0x600 (f0 <| fs_free := replicate 200 0 |> <| fs_tfree := 0 |>) None] |>)
  D0 (f0 <| fs_free := replicate 200 0 |> <| fs_tfree := 0 |>) [].
Proof. split; try done; [by eexists|apply (flist_last _ _ _ 1 (replicate 200 0)); done|constructor]. Qed.
End FreelistExamples.
