(* ===== verification/Bmap.v ===== *)
(** The block map of a file (kern/ufs_bmap.c), and what it finds when it does
    not allocate. *)
From stdpp Require Import functions.
From S2P Require Import Prelude Buf Kernel Links Callout Sched Prot Time Sig Clock Ring Bio Fs Md Disk Alloc.

Module Bmap.
Section bmap.
Context `{KConfig} `{KLayout} `{SigEnv} `{BioEnv}.

Definition set_rablock (v : Z) : K unit := modify (λ s, s <| rablock := v |>).

(** How many levels of indirection: the walk over [j], with [sh] and [nb]
    before the step; [j = 0] where the file would be too big. *)
Fixpoint bmap_levels (j : nat) (sh nb bn : Z) : nat * Z * Z :=
  match j with
  | O => (O, sh, bn)
  | S j' =>
    let sh := sh + NSHIFT in
    let nb := Z.shiftl nb NSHIFT in
    if bn <? nb then (j, sh, bn) else bmap_levels j' sh nb (bn - nb)
  end.

(** A direct block. *)
Definition bmap_direct (fuel n : nat) (bn rwflg flags : Z) : K Z :=
  ip ← geti n;
  let nb := nth (Z.to_nat bn) (i_addr ip) 0 in
  o ← (if negb (nb =? 0) then mret (Some nb)
       else if rwflg =? B_READ then mret None
       else
         o ← Alloc.balloc fuel ip flags;
         match o with
         | None => mret None
         | Some bp =>
           r ← getbuf bp;
           let nb := dbtofsb (b_blkno r) in
           (if has flags B_SYNC then Bio.bwrite fuel bp else Bio.bdwrite fuel bp) ;;
           seti n (λ i, i <| i_addr ::= <[Z.to_nat bn := nb]> |>) ;;
           seti n (λ i, i <| i_flag ::= λ f, setf f (Z.lor IUPD ICHG) |>) ;;
           mret (Some nb)
         end);
  match o with
  | None => mret (-1)
  | Some nb =>
    ip ← geti n;
    when (bn <? NADDR - 4) (set_rablock (nth (Z.to_nat (bn + 1)) (i_addr ip) 0)) ;;
    mret nb
  end.

(** The first indirect block, allocated where the file has none. *)
Definition bmap_root (fuel n : nat) (j : nat) (async : bool) (rwflg flags : Z) : K (option Z) :=
  ip ← geti n;
  let i := (Z.to_nat NADDR - j)%nat in
  let nb := nth i (i_addr ip) 0 in
  if negb (nb =? 0) then mret (Some nb)
  else if rwflg =? B_READ then mret None
  else
    o ← Alloc.balloc fuel ip (Z.lor flags B_CLRBUF);
    match o with
    | None => mret None
    | Some bp =>
      r ← getbuf bp;
      let nb := dbtofsb (b_blkno r) in
      (if async then Bio.bdwrite fuel bp else Bio.bwrite fuel bp) ;;
      seti n (λ i', i' <| i_addr ::= <[i := nb]> |>) ;;
      seti n (λ i', i' <| i_flag ::= λ f, setf f (Z.lor IUPD ICHG) |>) ;;
      mret (Some nb)
    end.

(** Through the indirect blocks: [k] levels are left ([k = 4 - j]). *)
Fixpoint bmap_walk (fuel k n : nat) (async : bool) (sh bn nb ra rwflg flags : Z) : K Z :=
  match k with
  | O => set_rablock ra ;; mret nb
  | S k =>
    ip ← geti n;
    bp ← Bio.bread fuel (i_dev ip) nb;
    r ← getbuf bp;
    if has (b_flags r) B_ERROR || negb (b_resid r =? 0) then Bio.brelse bp ;; mret 0
    else
      bap ← bdata bp;
      let sh := sh - NSHIFT in
      let i := Z.land (Z.shiftr bn sh) NMASK in
      let nb := nth (Z.to_nat i) bap 0 in
      let ra := if i <? NINDIR - 1 then nth (Z.to_nat (i + 1)) bap 0 else ra in
      if negb (nb =? 0) then Bio.brelse bp ;; bmap_walk fuel k n async sh bn nb ra rwflg flags
      else if rwflg =? B_READ then Bio.brelse bp ;; mret (-1)
      else
        ip ← geti n;
        o ← Alloc.balloc fuel ip (Z.lor flags B_CLRBUF);
        match o with
        | None => Bio.brelse bp ;; mret (-1)
        | Some nbp =>
          r ← getbuf nbp;
          let nb := dbtofsb (b_blkno r) in
          (if negb async && ((0 <? k)%nat || has flags B_SYNC) then Bio.bwrite fuel nbp
           else Bio.bdwrite fuel nbp) ;;
          bap ← bdata bp;
          set_bdata bp (<[Z.to_nat i := nb]> bap) ;;
          Bio.bdwrite fuel bp ;;
          bmap_walk fuel k n async sh bn nb ra rwflg flags
        end
  end.

Definition bmap (fuel n : nat) (bn rwflg flags : Z) : K Z :=
  ip ← geti n;
  f ← getfs_of (i_fs ip);
  let async := has (fs_flags f) MNT_ASYNC in
  if bn <? 0 then set_error EFBIG ;; mret 0
  else
    set_rablock 0 ;;
    if bn <? NADDR - 3 then bmap_direct fuel n bn rwflg flags
    else
      let '(j, sh, bn) := bmap_levels 3 0 1 (bn - (NADDR - 3)) in
      if (j =? 0)%nat then set_error EFBIG ;; mret 0
      else
        o ← bmap_root fuel n j async rwflg flags;
        match o with
        | None => mret (-1)
        | Some nb => bmap_walk fuel (4 - j) n async sh bn nb 0 rwflg flags
        end.
End bmap.

(** * Looking a block up *)

(** The address in the file's tree: [k] levels of blocks of 256 addresses from
    block [nb], the digits of [bn] in base 256 the way; a 0 is a hole. *)
Fixpoint follow (D : Z → list Z) (k : nat) (bn nb : Z) : option Z :=
  match k with
  | O => Some nb
  | S k =>
    let nb' := nth (Z.to_nat ((bn / 256 ^ Z.of_nat k) `mod` 256)) (D nb) 0 in
    if nb' =? 0 then None else follow D k bn nb'
  end.
(** Every block on the way lies in the region. *)
Fixpoint follow_ok (rg : Disk.region) (D : Z → list Z) (k : nat) (bn nb : Z) : Prop :=
  match k with
  | O => True
  | S k =>
    let nb' := nth (Z.to_nat ((bn / 256 ^ Z.of_nat k) `mod` 256)) (D nb) 0 in
    Disk.in_range rg nb ∧ (nb' ≠ 0 → follow_ok rg D k bn nb')
  end.
(** Every address in the blocks below [nb] is 0 or lies in the region. *)
Fixpoint tree_ok (rg : Disk.region) (D : Z → list Z) (k : nat) (nb : Z) : Prop :=
  match k with
  | O => True
  | S k => ∀ i, let nb' := nth i (D nb) 0 in nb' = 0 ∨ (Disk.in_range rg nb' ∧ tree_ok rg D k nb')
  end.
Lemma tree_follow rg D k bn nb : Disk.in_range rg nb → tree_ok rg D k nb →
  follow_ok rg D k bn nb ∧ ∀ b, follow D k bn nb = Some b → Disk.in_range rg b.
Proof.
  revert nb. induction k as [|k IH]; intros nb Hin Ht; cbn [follow_ok follow] in *; [split; [done|by intros b [= <-]]|].
  destruct (Ht (Z.to_nat ((bn / 256 ^ Z.of_nat k) `mod` 256))) as [->|[Hin' Ht']]; [done|].
  destruct (IH _ Hin' Ht') as [IH1 IH2]. split; [done|]. by case_match.
Qed.
(** Which of the inode's addresses is the root, how many levels lie below it
    and the number of the block among its blocks. *)
Definition root_of (bn : Z) : option (nat * nat * Z) :=
  if bn <? 4 then Some (Z.to_nat bn, 0%nat, 0)
  else if bn <? 4 + 256 then Some (4%nat, 1%nat, bn - 4)
  else if bn <? 4 + 256 + 256 ^ 2 then Some (5%nat, 2%nat, bn - 4 - 256)
  else if bn <? 4 + 256 + 256 ^ 2 + 256 ^ 3 then Some (6%nat, 3%nat, bn - 4 - 256 - 256 ^ 2)
  else None.
Definition block_of (D : Z → list Z) (addr : list Z) (bn : Z) : option Z :=
  match root_of bn with
  | Some (i, k, q) => let nb := nth i addr 0 in if nb =? 0 then None else follow D k q nb
  | None => None
  end.

(** The walk over the levels finds the root. *)
Lemma bmap_levels_root bn : 4 ≤ bn →
  match root_of bn with
  | Some (i, k, q) => ∃ j, bmap_levels 3 0 1 (bn - 4) = (j, NSHIFT * Z.of_nat k, q) ∧ j ≠ 0%nat ∧
      i = (7 - j)%nat ∧ k = (4 - j)%nat ∧ 0 ≤ q
  | None => ∃ sh q, bmap_levels 3 0 1 (bn - 4) = (0%nat, sh, q)
  end.
Proof.
  intros Hb. unfold root_of. cbn [bmap_levels]. change (Z.shiftl 1 NSHIFT) with 256.
  change (Z.shiftl 256 NSHIFT) with (256 ^ 2). change (Z.shiftl (256 ^ 2) NSHIFT) with (256 ^ 3).
  replace (bn <? 4) with false by (symmetry; apply Z.ltb_ge; lia).
  destruct (bn <? 4 + 256) eqn:E1.
  { replace (bn - 4 <? 256) with true by (symmetry; apply Z.ltb_lt; apply Z.ltb_lt in E1; lia).
    exists 3%nat. repeat (split; [done|]). lia. }
  apply Z.ltb_ge in E1. replace (bn - 4 <? 256) with false by (symmetry; apply Z.ltb_ge; lia).
  destruct (bn <? 4 + 256 + 256 ^ 2) eqn:E2.
  { apply Z.ltb_lt in E2. replace (bn - 4 - 256 <? 256 ^ 2) with true by (symmetry; apply Z.ltb_lt; lia).
    exists 2%nat. repeat (split; [done|]). lia. }
  apply Z.ltb_ge in E2. replace (bn - 4 - 256 <? 256 ^ 2) with false by (symmetry; apply Z.ltb_ge; lia).
  destruct (bn <? 4 + 256 + 256 ^ 2 + 256 ^ 3) eqn:E3.
  { apply Z.ltb_lt in E3. replace (bn - 4 - 256 - 256 ^ 2 <? 256 ^ 3) with true by (symmetry; apply Z.ltb_lt; lia).
    exists 1%nat. repeat (split; [done|]). lia. }
  apply Z.ltb_ge in E3. replace (bn - 4 - 256 - 256 ^ 2 <? 256 ^ 3) with false by (symmetry; apply Z.ltb_ge; lia). eauto.
Qed.

Section lookup.
Context `{KConfig} `{KLayout} `{SigEnv} `{MdEnv} `{BioEnv}.
Import Bio Disk.
Variable rg : region.
Hypothesis Hmd : on_md rg.
Hypothesis Hbuf : (0 < NBUF)%nat.
Implicit Types (D : Z → list Z) (s : kstate).

(** Only the cache and the read-ahead block changed. *)
Definition look_frame s s' : Prop := io_frame (s <| rablock := rablock s' |>) s'.
Lemma look_frame_io s s' : io_frame s s' → look_frame s s'.
Proof. intros F. unfold look_frame. assert (E : rablock s' = rablock s) by (by destruct F as [-> _]). rewrite E. by destruct s. Qed.

Lemma io_frame_rablock v s s' : io_frame s s' → io_frame (s <| rablock := v |>) (s' <| rablock := v |>).
Proof. intros [E1 E2]. split; [|done]. exact (f_equal (λ s, s <| rablock := v |>) E1). Qed.
Lemma look_frame_trans s1 s2 s3 : look_frame s1 s2 → look_frame s2 s3 → look_frame s1 s3.
Proof. intros F1 F2. eapply io_frame_trans; [|exact F2]. apply (io_frame_rablock (rablock s3) _ _ F1). Qed.

Lemma digit bn (k : nat) : 0 ≤ bn → Z.land (Z.shiftr bn (NSHIFT * Z.of_nat k)) NMASK = (bn / 256 ^ Z.of_nat k) `mod` 256.
Proof.
  intros Hb. unfold NSHIFT, NMASK. rewrite Z.shiftr_div_pow2 by lia. change 255 with (Z.ones 8). rewrite Z.land_ones by lia.
  by rewrite Z.pow_mul_r by lia.
Qed.

(** A look-up that does not allocate: for reading, or of a block that is there. *)
Definition no_alloc (rwflg : Z) (o : option Z) : Prop := rwflg = B_READ ∨ is_Some o.
(** What it may leave for reading ahead. *)
Definition ra_ok (b : Z) : Prop := b = 0 ∨ in_range rg b.
Lemma bmap_walk_looks fuel k n async bn nb ra rwflg flags s D ip :
  coh rg s D ∅ → idle s → inodes s !! n = Some ip → i_dev ip = rg_dev rg → 0 ≤ bn → nb ≠ 0 →
  follow_ok rg D k bn nb → (NBUF < fuel)%nat → no_alloc rwflg (follow D k bn nb) →
  ∃ s', bmap_walk (S fuel) k n async (NSHIFT * Z.of_nat k) bn nb ra rwflg flags s =
      Done (default (-1) (follow D k bn nb)) s' ∧ coh rg s' D ∅ ∧ idle s' ∧ look_frame s s' ∧
    (tree_ok rg D k nb → ra_ok ra → ra_ok (rablock s) → ra_ok (rablock s')).
Proof.
  intros Hco Hid Hip Hdev Hbn. revert nb ra s Hco Hid Hip.
  induction k as [|k IH]; intros nb ra s Hco Hid Hip Hnb Hok Hf Hna.
  - exists (s <| rablock := ra |>). split; [done|]. split; [by apply (coh_ext rg s)|]. split; [done|]. split; [apply io_frame_refl|done].
  - destruct Hok as [Hin Hok]. destruct (bread_release rg Hmd Hbuf fuel s D nb Hco Hid Hin Hf) as
      (j & r & s1 & s2 & E1 & E2 & He & Hr & Eb & F1 & E3 & Hco2 & Hid2 & F2).
    cbn [bmap_walk]. rewrite (bind_done _ _ _ _ _ (geti_eq _ _ _ Hip)). cbv beta. rewrite Hdev, (bind_done _ _ _ _ _ E1). cbv beta.
    rewrite (bind_done _ _ _ _ _ E2). cbv beta. rewrite He, Hr. change (false || negb (0 =? 0)) with false. cbv iota.
    rewrite (bind_done _ _ _ _ _ Eb). cbv beta zeta.
    replace (NSHIFT * Z.of_nat (S k) - NSHIFT) with (NSHIFT * Z.of_nat k) by (unfold NSHIFT; lia). rewrite digit by done.
    assert (Era : rablock s2 = rablock s) by (by destruct F2 as [-> _]).
    cbn [follow tree_ok] in *. set (nb' := nth _ (D nb) 0) in *. destruct (nb' =? 0) eqn:Ez; cbn [negb].
    + destruct Hna as [->|[b Hb]]; [|discriminate]. change (B_READ =? B_READ) with true. cbv iota. rewrite (bind_done _ _ _ _ _ E3). exists s2.
      split; [done|]. split; [done|]. split; [done|]. split; [by apply look_frame_io|]. intros _ _. by rewrite Era.
    + rewrite (bind_done _ _ _ _ _ E3). cbv beta. apply Z.eqb_neq in Ez.
      set (ra' := if (bn / 256 ^ Z.of_nat k) `mod` 256 <? NINDIR - 1 then _ else ra).
      destruct (IH nb' ra' s2 Hco2 Hid2) as (s3 & E4 & Hco3 & Hid3 & F3 & R3);
        [destruct F2 as [-> _]; exact Hip|exact Ez|by apply Hok|done|done|].
      exists s3. split; [exact E4|]. split; [done|]. split; [done|]. split; [by eapply look_frame_trans; [apply look_frame_io|]|].
      intros Ht Hra Hs. apply R3; [by destruct (Ht (Z.to_nat ((bn / 256 ^ Z.of_nat k) `mod` 256))) as [?|[_ ?]]| |by rewrite Era].
      unfold ra'. destruct (_ <? NINDIR - 1); [|done]. destruct (Ht (Z.to_nat ((bn / 256 ^ Z.of_nat k) `mod` 256 + 1))) as [->|[? _]]; [by left|by right].
Qed.
(** The addresses of an inode, and all below. *)
Definition file_ok D (addr : list Z) : Prop := ∀ i, (i < 7)%nat →
  let nb := nth i addr 0 in nb = 0 ∨ (in_range rg nb ∧ tree_ok rg D (i - 3) nb).

Lemma bmap_looks fuel n bn rwflg flags s D ip r i k q :
  coh rg s D ∅ → idle s → (NBUF < fuel)%nat → inodes s !! n = Some ip → i_dev ip = rg_dev rg →
  mounts s !! i_fs ip = Some r → 0 ≤ bn → root_of bn = Some (i, k, q) →
  (nth i (i_addr ip) 0 ≠ 0 → follow_ok rg D k q (nth i (i_addr ip) 0)) → no_alloc rwflg (block_of D (i_addr ip) bn) →
  ∃ s', bmap (S fuel) n bn rwflg flags s = Done (default (-1) (block_of D (i_addr ip) bn)) s' ∧
    coh rg s' D ∅ ∧ idle s' ∧ look_frame s s' ∧ (file_ok D (i_addr ip) → ra_ok (rablock s')).
Proof.
  intros Hco Hid Hf Hip Hdev Hr Hbn Hroot Hok Hna. unfold bmap. unfold block_of in *. rewrite Hroot in *.
  rewrite (bind_done _ _ _ _ _ (geti_eq _ _ _ Hip)). cbv beta. unfold getfs_of.
  rewrite bind_assoc, (bind_done _ _ _ _ _ (getm_eq _ _ _ Hr)). cbv beta. rewrite (bind_done _ _ _ _ _ (mret_eq _ _)). cbv beta zeta.
  replace (bn <? 0) with false by (symmetry; apply Z.ltb_ge; lia).
  set (s1 := s <| rablock := 0 |>). assert (E1 : set_rablock 0 s = Done tt s1) by done. rewrite (bind_done _ _ _ _ _ E1). cbv beta.
  assert (Hip1 : inodes s1 !! n = Some ip) by done. assert (Hco1 : coh rg s1 D ∅) by (by apply (coh_ext rg s)).
  assert (F1 : look_frame s s1) by apply io_frame_refl. assert (R1 : ra_ok (rablock s1)) by (by left).
  change (NADDR - 3) with 4. destruct (decide (bn < 4)) as [Hlt|Hge].
  - rewrite (proj2 (Z.ltb_lt _ _) Hlt). unfold root_of in Hroot. rewrite (proj2 (Z.ltb_lt _ _) Hlt) in Hroot.
    injection Hroot as <- <- <-. unfold bmap_direct. rewrite (bind_done _ _ _ _ _ (geti_eq _ _ _ Hip1)). cbv beta zeta.
    set (nb := nth (Z.to_nat bn) (i_addr ip) 0) in *. destruct (nb =? 0) eqn:Ez; cbn [negb].
    + destruct Hna as [->|[? ?]]; [|discriminate]. by exists s1.
    + rewrite (bind_done _ _ _ _ _ (mret_eq _ _)). cbv beta iota. rewrite (bind_done _ _ _ _ _ (geti_eq _ _ _ Hip1)). cbv beta.
      destruct (bn <? NADDR - 4) eqn:E3; cbn [when]; [|by exists s1].
      eexists. split; [done|]. split; [by apply (coh_ext rg s)|]. split; [done|]. split; [apply io_frame_refl|].
      intros Hfo. apply Z.ltb_lt in E3. change (NADDR - 4) with 3 in E3.
      destruct (Hfo (Z.to_nat (bn + 1)) ltac:(lia)) as [E0|[? _]]; [left; exact E0|by right].
  - replace (bn <? 4) with false by (symmetry; apply Z.ltb_ge; lia).
    pose proof (bmap_levels_root bn ltac:(lia)) as Hl. rewrite Hroot in Hl. destruct Hl as (j & El & Hj & -> & -> & Hq).
    rewrite El. replace (j =? 0)%nat with false by (symmetry; by apply Nat.eqb_neq). unfold bmap_root.
    rewrite bind_assoc, (bind_done _ _ _ _ _ (geti_eq _ _ _ Hip1)). cbv beta zeta. change (Z.to_nat NADDR) with 7%nat.
    set (nb := nth (7 - j)%nat (i_addr ip) 0) in *. destruct (nb =? 0) eqn:Ez; cbn [negb].
    + destruct Hna as [->|[? ?]]; [|discriminate]. by exists s1.
    + rewrite (bind_done _ _ _ _ _ (mret_eq _ _)). cbv beta iota. apply Z.eqb_neq in Ez.
      destruct (bmap_walk_looks fuel (4 - j) n (has (fs_flags (m_filsys r)) MNT_ASYNC) q nb 0 rwflg flags s1 D ip Hco1 Hid Hip1 Hdev Hq Ez (Hok Ez) Hf Hna)
        as (s2 & E2 & Hco2 & Hid2 & F2 & R2).
      exists s2. split; [exact E2|]. split; [done|]. split; [done|]. split; [exact (look_frame_trans _ _ _ F1 F2)|].
      intros Hfo. apply R2; [|by left|done]. destruct (Hfo (7 - j)%nat ltac:(lia)) as [?|[_ Ht]]; [done|].
      by replace (7 - j - 3)%nat with (4 - j)%nat in Ht by lia.
Qed.

(** C10: Without allocating, [bmap] finds the block that the file's tree of
    indirect blocks holds for any block number up to the last that three levels
    reach, and -1 in a hole; it changes no block, and leaves the cache ready. *)
Theorem bmap_finds fuel n bn flags s D ip r i k q :
  coh rg s D ∅ → idle s → (NBUF < fuel)%nat → inodes s !! n = Some ip → i_dev ip = rg_dev rg →
  mounts s !! i_fs ip = Some r → 0 ≤ bn → root_of bn = Some (i, k, q) →
  (nth i (i_addr ip) 0 ≠ 0 → follow_ok rg D k q (nth i (i_addr ip) 0)) →
  ∃ s', bmap (S fuel) n bn B_READ flags s = Done (default (-1) (block_of D (i_addr ip) bn)) s' ∧
    coh rg s' D ∅ ∧ idle s' ∧ look_frame s s'.
Proof.
  intros Hco Hid Hf Hip Hdev Hr Hbn Hroot Hok.
  destruct (bmap_looks fuel n bn B_READ flags s D ip r i k q Hco Hid Hf Hip Hdev Hr Hbn Hroot Hok ltac:(by left)) as (s' & ? & ? & ? & ? & _).
  by exists s'.
Qed.

(** C40: Beyond the last block that three levels of indirection reach, and below
    0, [bmap] fails with EFBIG, whatever it is asked for. *)
Theorem bmap_too_big fuel n bn rwflg flags s ip r :
  inodes s !! n = Some ip → mounts s !! i_fs ip = Some r → bn < 0 ∨ root_of bn = None →
  ∃ s', bmap fuel n bn rwflg flags s = Done 0 s' ∧ u_error (u s') = EFBIG ∧
    s' = s <| rablock := rablock s' |> <| u ::= λ x, x <| u_error := EFBIG |> |>.
Proof.
  clear Hbuf. intros Hip Hr Hb. unfold bmap. rewrite (bind_done _ _ _ _ _ (geti_eq _ _ _ Hip)). cbv beta. unfold getfs_of.
  rewrite bind_assoc, (bind_done _ _ _ _ _ (getm_eq _ _ _ Hr)). cbv beta. rewrite (bind_done _ _ _ _ _ (mret_eq _ _)). cbv beta zeta.
  destruct (bn <? 0) eqn:En.
  { rewrite (bind_done _ _ _ _ _ (set_error_eq _ _)). eexists. split; [done|]. split; [reflexivity|destruct s; reflexivity]. }
  apply Z.ltb_ge in En. destruct Hb as [?|Hb]; [lia|].
  assert (E1 : set_rablock 0 s = Done tt (s <| rablock := 0 |>)) by done. rewrite (bind_done _ _ _ _ _ E1). cbv beta.
  change (NADDR - 3) with 4. destruct (bn <? 4) eqn:E4; [unfold root_of in Hb; by rewrite E4 in Hb|]. apply Z.ltb_ge in E4.
  pose proof (bmap_levels_root bn E4) as Hl. rewrite Hb in Hl. destruct Hl as (sh & q & ->). cbn [Nat.eqb].
  rewrite (bind_done _ _ _ _ _ (set_error_eq _ _)). eexists. split; [done|]. split; [reflexivity|destruct s; reflexivity].
Qed.
End lookup.
End Bmap.

(** * Examples *)

Module BmapExamples.
Import Bio Disk DiskExamples Bmap.
#[local] Existing Instances gba_cfg Sched.layout1 Sig.sig_env0 md_env0 bio_env_md.

(** A file with one indirect block, block 3, full of the number 3. *)
Definition ip1 : inode := MkInode 0 1 0x600 3 0 [0; 0; 0; 0; 3; 0; 0] 0 1 0 0 0 0 0 0 0 None None 0 0 None None 0 0 None None.
Definition fs1 : fs := MkFs 2 4 0 (replicate 200 0) 0 (replicate 32 0) 0 0 0 0 0 0 0 0 0 0 0 0 (replicate 7 0) 0.
Definition opened : kstate := start <| inodes := {[ 0%nat := ip1 ]} |> <| mounts := [MkMount 0x600 fs1 None] |>.
Lemma opened_ready : coh rg0 opened D0 ∅ ∧ idle opened.
Proof. split; [by apply (coh_ext rg0 start), coh0|exact idle0]. Qed.

Lemma bmap_finds_witness : ∃ s', bmap 5 0 11 B_READ 0 opened = Done 3 s'.
Proof.
  destruct (bmap_finds rg0 on_md0 ltac:(vm_compute; lia) 4 0 11 0 opened D0 ip1 (MkMount 0x600 fs1 None) 4 1 7
    (proj1 opened_ready) (proj2 opened_ready) ltac:(vm_compute; lia) eq_refl eq_refl eq_refl ltac:(lia) eq_refl) as (s' & E & _).
  - intros _. split; [split; vm_compute; congruence|done].
  - exists s'. exact E.
Defined.
Lemma bmap_too_big_witness : ∃ s', bmap 5 0 (4 + 256 + 256 ^ 2 + 256 ^ 3) B_WRITE 0 opened = Done 0 s' ∧ u_error (u s') = EFBIG.
Proof.
  destruct (bmap_too_big 5 0 (4 + 256 + 256 ^ 2 + 256 ^ 3) B_WRITE 0 opened ip1 (MkMount 0x600 fs1 None) eq_refl eq_refl (or_intror eq_refl))
    as (s' & E & Eu & _).
  exists s'. split; [exact E|exact Eu].
Defined.
End BmapExamples.
