(* ===== verification/Inode.v ===== *)
(** The inode table: kern/ufs_inode.c, the macros of sys/inode.h and the
    queue primitives of the ports' machdep.c. *)
From stdpp Require Import functions.
From S2P Require Import Prelude Buf Kernel Links Callout Sched Prot Time Sig Clock Ring Bio Fs Alloc Bmap.

(** The name cache is told when the ids of inodes wrap around. *)
Class FsEnv := { cinvalall : K unit }.

Module Inode.
Definition INOHSZ : nat := 16.
Definition INOHASH (dev ino : Z) : nat := Z.to_nat (Z.land (dev + ino) (Z.of_nat INOHSZ - 1)).

(** * Queues through the first two words of an object *)

(** [insque] and [remque], for any kind of object that begins with the links. *)
Section queue.
Context {P : Type} (links : P → K (option P * option P)) (set_next set_prev : P → P → K unit).
Definition insque (e prev : P) : K unit :=
  set_prev e prev ;;
  l ← links prev; nxt ← unless_none l.1; set_next e nxt ;;
  l ← links prev; nxt ← unless_none l.1; set_prev nxt e ;;
  set_next prev e.
Definition remque (e : P) : K unit :=
  l ← links e; prev ← unless_none l.2; nxt ← unless_none l.1; set_next prev nxt ;;
  l ← links e; prev ← unless_none l.2; nxt ← unless_none l.1; set_prev nxt prev.
End queue.

Definition qlinks (p : iptr) : K (option iptr * option iptr) :=
  match p with
  | InoP n => i ← geti n; mret (i_forw i, i_back i)
  | IHead h => s ← get_s; '(f, b) ← unless_none (ihead s !! h); mret (Some f, Some b)
  end.
Definition set_qnext (p : iptr) (q : iptr) : K unit :=
  match p with
  | InoP n => seti n (λ i, i <| i_forw := Some q |>)
  | IHead h => s ← get_s; '(f, b) ← unless_none (ihead s !! h);
      modify (λ s, s <| ihead ::= <[h := (q, b)]> |>)
  end.
Definition set_qprev (p : iptr) (q : iptr) : K unit :=
  match p with
  | InoP n => seti n (λ i, i <| i_back := Some q |>)
  | IHead h => s ← get_s; '(f, b) ← unless_none (ihead s !! h);
      modify (λ s, s <| ihead ::= <[h := (f, q)]> |>)
  end.
#[local] Notation iinsque := (insque qlinks set_qnext set_qprev).
#[local] Notation iremque := (remque qlinks set_qnext set_qprev).

(** * The free list *)

(** [*pp = ip]. *)
Definition set_islot (pp : islot) (ip : option nat) : K unit :=
  match pp with
  | IFreeH => modify (λ s, s <| ifreeh := ip |>)
  | FreefOf n => seti n (λ i, i <| i_freef := ip |>)
  end.
(** Take an unused inode off the list; its links are cleared, and with them
    [i_lastr], which overlays one. *)
Definition unfree (n : nat) : K unit :=
  ip ← geti n;
  (match i_freef ip with
   | Some iq => seti iq (λ i, i <| i_freeb := i_freeb ip |>)
   | None => b ← unless_none (i_freeb ip); modify (λ s, s <| ifreet := b |>)
   end) ;;
  b ← unless_none (i_freeb ip);
  set_islot b (i_freef ip) ;;
  seti n (λ i, i <| i_freef := None |> <| i_lastr := 0 |>) ;;
  seti n (λ i, i <| i_freeb := None |>).

(** The rest of [ihinit]'s free list, [ip] being its last inode so far. *)
Fixpoint ihinit_loop (ids : list nat) (ip : nat) : K nat :=
  match ids with
  | [] => mret ip
  | n :: ids =>
    seti n (λ i, i <| i_forw := Some (InoP n) |>) ;;
    seti n (λ i, i <| i_back := Some (InoP n) |>) ;;
    s ← get_s;
    set_islot (ifreet s) (Some n) ;;
    seti n (λ i, i <| i_freeb := Some (ifreet s) |>) ;;
    modify (λ s, s <| ifreet := FreefOf n |>) ;;
    ihinit_loop ids n
  end.
Fixpoint ihinit_heads (hs : list nat) : K unit :=
  match hs with
  | [] => mret tt
  | h :: hs => modify (λ s, s <| ihead ::= <[h := (IHead h, IHead h)]> |>) ;; ihinit_heads hs
  end.
Definition ihinit `{KConfig} : K unit :=
  ihinit_heads (seq 0 INOHSZ) ;;
  modify (λ s, s <| ifreeh := Some 0%nat |>) ;;
  modify (λ s, s <| ifreet := FreefOf 0 |>) ;;
  seti 0 (λ i, i <| i_freeb := Some IFreeH |>) ;;
  seti 0 (λ i, i <| i_forw := Some (InoP 0) |>) ;;
  seti 0 (λ i, i <| i_back := Some (InoP 0) |>) ;;
  ip ← ihinit_loop (seq 1 (NINODE - 1)) 0;
  seti ip (λ i, i <| i_freef := None |>).

(** * Finding *)

(** A hash chain from [p], up to its head. *)
Fixpoint ifind_chain (fuel : nat) (ih p : iptr) (dev ino : Z) : K (option nat) :=
  if decide (p = ih) then mret None
  else
    match fuel, p with
    | S fuel, InoP n =>
      ip ← geti n;
      if (ino =? i_number ip) && (dev =? i_dev ip) then mret (Some n)
      else nxt ← unless_none (i_forw ip); ifind_chain fuel ih nxt dev ino
    | S _, IHead _ => fault
    | O, _ => nofuel
    end.
Definition ifind (dev ino : Z) : K (option nat) :=
  let ih := IHead (INOHASH dev ino) in
  s ← get_s;
  l ← qlinks ih; p ← unless_none l.1;
  ifind_chain (size (inodes s)) ih p dev ino.

Section inode.
Context `{KConfig} `{KLayout} `{SigEnv} `{BioEnv} `{FsEnv}.

Definition set_iflag (n : nat) (m : Z) : K unit := seti n (λ i, i <| i_flag ::= λ f, setf f m |>).
Definition clr_iflag (n : nat) (m : Z) : K unit := seti n (λ i, i <| i_flag ::= λ f, clrf f m |>).

(** * Locks and times (sys/inode.h) *)

Fixpoint ILOCK_wait (fuel n : nat) : K unit :=
  ip ← geti n;
  if has (i_flag ip) ILOCKED then
    match fuel with
    | O => nofuel
    | S fuel => set_iflag n IWANT ;; _ ← Clock.sleep (c_inode n) PINOD; ILOCK_wait fuel n
    end
  else mret tt.
Definition ILOCK (fuel n : nat) : K unit := ILOCK_wait fuel n ;; set_iflag n ILOCKED.
Definition IUNLOCK (n : nat) : K unit :=
  clr_iflag n ILOCKED ;;
  ip ← geti n;
  when (has (i_flag ip) IWANT) (clr_iflag n IWANT ;; Sched.wakeup (c_inode n)).
Definition ilock (fuel n : nat) : K unit := ILOCK fuel n.
Definition iunlock (n : nat) : K unit := IUNLOCK n.

Definition touch (n : nat) (ta tm : kstate → timeval) : K unit :=
  s ← get_s;
  ip ← geti n;
  when (has (i_flag ip) IACC) (seti n (λ i, i <| i_atime := tv_sec (ta s) |>)) ;;
  when (has (i_flag ip) IUPD) (seti n (λ i, i <| i_mtime := tv_sec (tm s) |>)) ;;
  when (has (i_flag ip) ICHG) (seti n (λ i, i <| i_ctime := tv_sec (time s) |>)).
Definition ITIMES (n : nat) (ta tm : kstate → timeval) : K unit :=
  ip ← geti n;
  when (has (i_flag ip) (Z.lor IUPD (Z.lor IACC ICHG)))
    (set_iflag n IMOD ;; touch n ta tm ;; clr_iflag n (Z.lor IACC (Z.lor IUPD ICHG))).

(** * Writing an inode to its block *)

(** The flags that say an inode differs from its copy on disk. *)
Definition IDIRTY : Z := Z.lor IUPD (Z.lor IACC (Z.lor ICHG IMOD)).
(** [ta] and [tm] point at times: mostly at the kernel's [time]. *)
Definition iupdat (fuel n : nat) (ta tm : kstate → timeval) (waitfor : bool) : K unit :=
  ip ← geti n;
  if negb (has (i_flag ip) IDIRTY) then mret tt
  else
    f ← getfs_of (i_fs ip);
    if negb (fs_ronly f =? 0) then mret tt
    else
      bp ← Bio.bread fuel (i_dev ip) (itod (i_number ip));
      r ← getbuf bp;
      if has (b_flags r) B_ERROR then Bio.brelse bp
      else
        touch n ta tm ;;
        clr_iflag n IDIRTY ;;
        ip ← geti n;
        ws ← bdata bp;
        set_bdata bp (put_dinode (16 * Z.to_nat (itoo (i_number ip))) ip ws) ;;
        f ← getfs_of (i_fs ip);
        if waitfor && negb (has (fs_flags f) MNT_ASYNC) then Bio.bwrite fuel bp else Bio.bdwrite fuel bp.
Definition IUPDAT (fuel n : nat) (ta tm : kstate → timeval) (waitfor : bool) : K unit :=
  ip ← geti n; when (has (i_flag ip) IDIRTY) (iupdat fuel n ta tm waitfor).

(** * Truncation *)

(** The entries of an indirect block after [last], last first; the pointer
    into the block was taken before the loop. *)
Fixpoint trsingle_loop (fuel : nat) (ip : inode) (a last : Z) (k : nat) : K unit :=
  if Z.of_nat k <=? last then mret tt
  else
    blarray ← getblock a;
    let b := nth k blarray 0 in
    when (negb (b =? 0)) (Alloc.free fuel ip b) ;;
    match k with O => mret tt | S k => trsingle_loop fuel ip a last k end.
Definition trsingle (fuel : nat) (ip : inode) (bp : bptr) (last : Z) : K unit :=
  r ← getbuf bp; trsingle_loop fuel ip (b_addr r) last (Z.to_nat NINDIR - 1).

(** The same for a block of indirect blocks, [rec] truncating one of them. *)
Fixpoint indirtrunc_loop (fuel : nat) (rec : Z → K unit) (ip : inode) (a last : Z) (k : nat) : K unit :=
  if Z.of_nat k <=? last then mret tt
  else
    bstart ← getblock a;
    let nb := nth k bstart 0 in
    when (negb (nb =? 0)) (rec nb ;; Alloc.free fuel ip nb) ;;
    match k with O => mret tt | S k => indirtrunc_loop fuel rec ip a last k end.

(** Read the block of pointers [bn], and update it on disk without the
    entries after [last]; a copy of what it was is returned. *)
Definition indirtrunc_copy (fuel : nat) (ip : inode) (bn last aflags : Z) : K (option bptr) :=
  bp ← Bio.bread fuel (i_dev ip) bn;
  r ← getbuf bp;
  if has (b_flags r) B_ERROR then Bio.brelse bp ;; mret None
  else
    cpy ← Bio.geteblk fuel;
    ws ← bdata bp;
    set_bdata cpy ws ;;
    let k := Z.to_nat (last + 1) in
    ws ← bdata bp;
    set_bdata bp (put_words k (replicate (Z.to_nat NINDIR - k) 0) ws) ;;
    (if has aflags B_SYNC then Bio.bwrite fuel bp else Bio.bawrite fuel bp) ;;
    mret (Some cpy).

Fixpoint indirtrunc (fuel : nat) (ip : inode) (bn lastbn : Z) (level : nat) (aflags : Z) : K unit :=
  let factor := NINDIR ^ Z.of_nat level in
  let last := if 0 <? lastbn then Z.quot lastbn factor else lastbn in
  o ← indirtrunc_copy fuel ip bn last aflags;
  match o with
  | None => mret tt
  | Some bp =>
    match level with
    | O => trsingle fuel ip bp last
    | S level =>
      r ← getbuf bp;
      indirtrunc_loop fuel (λ nb, indirtrunc fuel ip nb (-1) level aflags) ip (b_addr r) last
        (Z.to_nat NINDIR - 1) ;;
      when (0 <=? lastbn)
        (bstart ← getblock (b_addr r);
         let nb := nth (Z.to_nat last) bstart 0 in
         when (negb (nb =? 0)) (indirtrunc fuel ip nb (Z.rem lastbn factor) level aflags))
    end ;;
    Bio.brelse bp
  end.

(** The bytes of a block from [offset] on become 0 (words are little-endian). *)
Definition zero_from (offset : Z) (ws : list Z) : list Z :=
  let q := Z.to_nat (offset / 4) in
  take q ws ++ [Z.land (nth q ws 0) (2 ^ (8 * (offset mod 4)) - 1)]
    ++ replicate (Z.to_nat NINDIR - S q) 0.

Definition SINGLE : nat := 0.
Definition DOUBLE : nat := 1.
Definition TRIPLE : nat := 2.
Definition idb : nat → nat := λ i, i.
Definition iib : nat → nat := λ level, (Z.to_nat NDADDR + level)%nat.

(** The last block to keep, and its place in the tree of each indirect block. *)
Definition last_block (length : Z) : Z := i32 (lblkno (u32 (length + DEV_BSIZE - 1)) - 1).
Definition last_iblock (lastblock : Z) (level : nat) : Z :=
  let single := i32 (lastblock - NDADDR) in
  let double := i32 (single - NINDIR) in
  match level with
  | O => single
  | 1%nat => double
  | _ => i32 (double - NINDIR * NINDIR)
  end.
(** The pointers that are cleared, indirect and direct. *)
Definition clear_ib (lib : nat → Z) (addr : list Z) : list Z :=
  foldl (λ a level, if lib level <? 0 then <[iib level := 0]> a else a) addr [TRIPLE; DOUBLE; SINGLE].
Definition clear_db (lastblock : Z) (addr : list Z) : list Z :=
  foldl (λ a i, if lastblock <? Z.of_nat i then <[idb i := 0]> a else a) addr [3; 2; 1; 0]%nat.

(** Free what the indirect blocks hold; [true] where the code goes to [done]. *)
Fixpoint itrunc_indirect (fuel : nat) (levels : list nat) (tip : inode) (lib : nat → Z)
    (aflags : Z) : K (inode * bool) :=
  match levels with
  | [] => mret (tip, false)
  | level :: levels =>
    let bn := nth (iib level) (i_addr tip) 0 in
    tip ← (if bn =? 0 then mret tip
           else
             indirtrunc fuel tip bn (lib level) level aflags ;;
             if lib level <? 0 then
               let tip := tip <| i_addr ::= <[iib level := 0]> |> in
               Alloc.free fuel tip bn ;; mret tip
             else mret tip);
    if 0 <=? lib level then mret (tip, true)
    else itrunc_indirect fuel levels tip lib aflags
  end.
(** All whole direct blocks. *)
Fixpoint itrunc_direct (fuel : nat) (ids : list nat) (tip : inode) (lastblock : Z) : K inode :=
  match ids with
  | [] => mret tip
  | i :: ids =>
    if Z.of_nat i <=? lastblock then mret tip
    else
      let bn := nth (idb i) (i_addr tip) 0 in
      if bn =? 0 then itrunc_direct fuel ids tip lastblock
      else
        let tip := tip <| i_addr ::= <[idb i := 0]> |> in
        Alloc.free fuel tip bn ;; itrunc_direct fuel ids tip lastblock
  end.
Definition itrunc_paranoia (n : nat) (tip : inode) : K unit :=
  if DIAGNOSTIC then
    oip ← geti n;
    let differ i := negb (nth i (i_addr tip) 0 =? nth i (i_addr oip) 0) in
    if existsb (λ level, differ (iib level)) [SINGLE; DOUBLE; TRIPLE] then panic "itrunc1"
    else when (existsb (λ i, differ (idb i)) [0; 1; 2; 3]%nat) (panic "itrunc2")
  else mret tt.

Definition itrunc_update (fuel n : nat) : K unit :=
  set_iflag n (Z.lor ICHG IUPD) ;; iupdat fuel n time time true.

(** Zero the rest of the last block, where it is kept in part; [false] where
    the code returns. *)
Definition itrunc_tail (fuel n : nat) (length aflags : Z) : K bool :=
  let offset := blkoff length in
  if offset =? 0 then mret true
  else
    bn ← Bmap.bmap fuel n (lblkno length) B_WRITE aflags;
    e ← getu u_error;
    if negb (e =? 0) || (bn <? 0) then mret false
    else
      oip ← geti n;
      bp ← Bio.bread fuel (i_dev oip) bn;
      r ← getbuf bp;
      if has (b_flags r) B_ERROR then set_error EIO ;; Bio.brelse bp ;; mret false
      else ws ← bdata bp; set_bdata bp (zero_from offset ws) ;; Bio.bdwrite fuel bp ;; mret true.

Definition itrunc_shrink (fuel n : nat) (length aflags : Z) : K unit :=
  let lastblock := last_block length in
  ok ← itrunc_tail fuel n length aflags;
  if negb ok then mret tt
  else
    tip ← geti n;
    seti n (λ i, i <| i_size := i32 length |>) ;;
    let lib level := let l := last_iblock lastblock level in if l <? 0 then -1 else l in
    seti n (λ i, i <| i_addr ::= clear_ib lib |>) ;;
    seti n (λ i, i <| i_addr ::= clear_db lastblock |>) ;;
    '(tip, done) ← itrunc_indirect fuel [TRIPLE; DOUBLE; SINGLE] tip lib aflags;
    tip ← (if (done : bool) then mret tip
           else itrunc_direct fuel [3; 2; 1; 0]%nat tip lastblock);
    itrunc_paranoia n tip ;;
    itrunc_update fuel n.

Definition itrunc (fuel n : nat) (length ioflags : Z) : K unit :=
  let aflags := if has ioflags IO_SYNC then Z.lor B_CLRBUF B_SYNC else B_CLRBUF in
  oip ← geti n;
  let pipe := has (i_flag oip) IPIPE in
  when pipe (seti n (λ i, i <| i_size := MAXPIPSIZ |>)) ;;
  if negb pipe && (u32 (i_size oip) =? length) then itrunc_update fuel n
  else
    oip ← geti n;
    if u32 (i_size oip) <? length then
      bn ← Bmap.bmap fuel n (lblkno (u32 (length - 1))) B_WRITE aflags;
      e ← getu u_error;
      if negb (e =? 0) || (bn <? 0) then mret tt
      else seti n (λ i, i <| i_size := i32 length |>) ;; itrunc_update fuel n
    else itrunc_shrink fuel n length aflags.

(** * References *)

(** Put an inode on the end of the free list. *)
Definition tofree (n : nat) : K unit :=
  s ← get_s;
  (match ifreeh s with
   | Some _ =>
     set_islot (ifreet s) (Some n) ;;
     seti n (λ i, i <| i_freeb := Some (ifreet s) |>)
   | None =>
     modify (λ s, s <| ifreeh := Some n |>) ;;
     seti n (λ i, i <| i_freeb := Some IFreeH |>)
   end) ;;
  seti n (λ i, i <| i_freef := None |> <| i_lastr := 0 |>) ;;
  modify (λ s, s <| ifreet := FreefOf n |>).

(** The last reference is dropped. *)
Definition irele_last (fuel n : nat) : K unit :=
  set_iflag n ILOCKED ;;
  ip ← geti n;
  f ← getfs_of (i_fs ip);
  when ((i_nlink ip <=? 0) && (fs_ronly f =? 0))
    (itrunc fuel n 0 0 ;;
     seti n (λ i, i <| i_mode := 0 |>) ;;
     seti n (λ i, i <| i_addr ::= <[1%nat := 0]> |>) ;;
     set_iflag n (Z.lor IUPD ICHG) ;;
     ip ← geti n; Alloc.ifree ip (i_number ip)) ;;
  IUPDAT fuel n time time false ;;
  IUNLOCK n ;;
  seti n (λ i, i <| i_flag := 0 |>) ;;
  tofree n.
Definition irele (fuel n : nat) : K unit :=
  ip ← geti n;
  (if i_count ip =? 1 then irele_last fuel n
   else when (negb (has (i_flag ip) ILOCKED)) (ITIMES n time time)) ;;
  seti n (λ i, i <| i_count ::= λ c, u32 (c - 1) |>).
Definition iput (fuel n : nat) : K unit := IUNLOCK n ;; irele fuel n.

(** * Getting an inode *)

(** [cacheinval (ip)]. *)
Definition cacheinval (n : nat) : K unit :=
  modify (λ s, s <| nextinodeid ::= λ z, u32 (z + 1) |>) ;;
  s ← get_s;
  seti n (λ i, i <| i_id := nextinodeid s |>) ;;
  when (nextinodeid s =? 0) cinvalall.

Definition take_ref (n : nat) : K unit :=
  ip ← geti n;
  when (i_count ip =? 0) (unfree n) ;;
  seti n (λ i, i <| i_count ::= λ c, u32 (c + 1) |>) ;;
  set_iflag n ILOCKED.
Definition igrab (fuel n : nat) : K unit := ILOCK_wait fuel n ;; take_ref n.

(** The mount table slot mounted on an inode. *)
Definition mounted_on (n : nat) : K (option nat) :=
  s ← get_s;
  mret (fst <$> list_find (λ mp, m_inodp mp = Some n) (mounts s)).

(** An inode that is not in core: take the first free slot and read it in. *)
Definition iget_read (fuel : nat) (dev : Z) (m : nat) (ino : Z) : K (option nat) :=
  s ← get_s;
  match ifreeh s with
  | None => set_error ENFILE ;; mret None
  | Some n =>
    ip ← geti n;
    when (negb (i_count ip =? 0)) (panic "free inode isn't") ;;
    when (bool_decide (is_Some (i_freef ip)))
      (iq ← unless_none (i_freef ip); seti iq (λ i, i <| i_freeb := Some IFreeH |>)) ;;
    modify (λ s, s <| ifreeh := i_freef ip |>) ;;
    seti n (λ i, i <| i_freef := None |> <| i_lastr := 0 |>) ;;
    seti n (λ i, i <| i_freeb := None |>) ;;
    iremque (InoP n) ;;
    iinsque (InoP n) (IHead (INOHASH dev ino)) ;;
    seti n (λ i, i <| i_dev := dev |>) ;;
    seti n (λ i, i <| i_fs := m |>) ;;
    seti n (λ i, i <| i_number := ino |>) ;;
    cacheinval n ;;
    seti n (λ i, i <| i_flag := ILOCKED |>) ;;
    seti n (λ i, i <| i_count ::= λ c, u32 (c + 1) |>) ;;
    seti n (λ i, i <| i_lastr := 0 |> <| i_freef := None |>) ;;
    bp ← Bio.bread fuel dev (itod ino);
    r ← getbuf bp;
    if has (b_flags r) B_ERROR then
      Bio.brelse bp ;;
      iremque (InoP n) ;;
      seti n (λ i, i <| i_forw := Some (InoP n) |>) ;;
      seti n (λ i, i <| i_back := Some (InoP n) |>) ;;
      seti n (λ i, i <| i_number := 0 |>) ;;
      iput fuel n ;;
      mret None
    else
      ws ← bdata bp;
      seti n (get_dinode (16 * Z.to_nat (itoo ino)) ws) ;;
      Bio.brelse bp ;;
      mret (Some n)
  end.

Fixpoint iget (fuel : nat) (dev : Z) (m : nat) (ino : Z) : K (option nat) :=
  match fuel with
  | O => nofuel
  | S fuel =>
    o ← ifind dev ino;
    match o with
    | None => iget_read fuel dev m ino
    | Some n =>
      ip ← geti n;
      if has (i_flag ip) ILOCKED then
        set_iflag n IWANT ;; _ ← Clock.sleep (c_inode n) PINOD; iget fuel dev m ino
      else if has (i_flag ip) IMOUNT then
        o ← mounted_on n;
        match o with
        | Some m' => mp ← getm m'; iget fuel (m_dev mp) m' ROOTINO
        | None => panic "no imt"
        end
      else take_ref n ;; mret (Some n)
    end
  end.

(** * Leaving a device *)

(** Take the unused inodes of a device off their chains; [None] where one is in
    use, else how many block devices in use are this device. *)
Fixpoint iflush_loop (ids : list nat) (dev open : Z) : K Z :=
  match ids with
  | [] => mret open
  | n :: ids =>
    ip ← geti n;
    if i_dev ip =? dev then
      if negb (i_count ip =? 0) then mret (-1)
      else
        iremque (InoP n) ;;
        seti n (λ i, i <| i_forw := Some (InoP n) |>) ;;
        seti n (λ i, i <| i_back := Some (InoP n) |>) ;;
        iflush_loop ids dev open
    else if negb (i_count ip =? 0) && (Z.land (i_mode ip) IFMT =? IFBLK) && (nth 1 (i_addr ip) 0 =? dev)
    then iflush_loop ids dev (open + 1)
    else iflush_loop ids dev open
  end.
Definition iflush (dev : Z) : K Z := iflush_loop (seq 0 NINODE) dev 0.
End inode.
End Inode.
