(* ===== verification/Dinode.v ===== *)
(** Inodes on the disk: what iupdat writes is what iget reads, and the other
    inodes of the block stay. *)
From stdpp Require Import functions.
From S2P Require Import Prelude Buf Kernel Links Callout Sched Prot Time Sig Clock Ring Bio Fs Md Disk Alloc Bmap Inode.

Module Dinode.
Import Bio Disk.

(** * Words *)

Lemma nth_put_words k ws b j :
  (k + length ws ≤ length b)%nat →
  nth j (put_words k ws b) 0 = if decide (k ≤ j < k + length ws)%nat then nth (j - k) ws 0 else nth j b 0.
Proof.
  intros Hl. unfold put_words. assert (Hk : length (take k b) = k) by (rewrite length_take; lia).
  case_decide as Hj.
  - rewrite app_nth2, Hk by lia. rewrite app_nth1 by lia. done.
  - destruct (decide (j < k)%nat).
    + rewrite app_nth1 by lia. rewrite <- (take_drop k b) at 2. by rewrite app_nth1 by lia.
    + rewrite app_nth2, Hk, app_nth2 by lia. rewrite <- (take_drop (k + length ws) b) at 2.
      rewrite (app_nth2 (take _ b)), length_take by (rewrite length_take; lia). f_equal. lia.
Qed.
Lemma length_put k ws b : (k + length ws ≤ length b)%nat → length (put_words k ws b) = length b.
Proof. intros Hl. unfold put_words. rewrite !length_app, length_take, length_drop. lia. Qed.
Lemma get_words_nth k n b : (k + n ≤ length b)%nat → get_words k n b = (λ i, nth (k + i) b 0) <$> seq 0 n.
Proof.
  intros Hl. unfold get_words. apply list_eq_same_length with (n := n); [by rewrite length_fmap, length_seq| |].
  - rewrite length_take, length_drop. lia.
  - intros i x y Hi Hx Hy. rewrite lookup_take_Some, lookup_drop in Hx. destruct Hx as [Hx _].
    rewrite list_lookup_fmap, lookup_seq_lt in Hy by done. injection Hy as <-. symmetry.
    apply nth_lookup_Some. exact Hx.
Qed.

(** * Inodes in a block *)

(** The fields that are on the disk, from [i] into [i0]. *)
Definition copy_dinode (i i0 : inode) : inode :=
  i0 <| i_mode := i_mode i |> <| i_nlink := i_nlink i |> <| i_uid := i_uid i |> <| i_gid := i_gid i |>
    <| i_size := i_size i |> <| i_flags := i_flags i |> <| i_atime := i_atime i |> <| i_mtime := i_mtime i |>
    <| i_ctime := i_ctime i |> <| i_addr := i_addr i |>.
(** Fields within their C types. *)
Record typed (i : inode) : Prop := {
  ty_mode : 0 ≤ i_mode i < 2 ^ 16; ty_nlink : 0 ≤ i_nlink i < 2 ^ 16;
  ty_uid : 0 ≤ i_uid i < 2 ^ 32; ty_gid : 0 ≤ i_gid i < 2 ^ 32; ty_flags : 0 ≤ i_flags i < 2 ^ 32;
  ty_addr : length (i_addr i) = 7%nat;
}.

Lemma put_dinode_length dp i b : (dp + 16 ≤ length b)%nat → length (i_addr i) = 7%nat → length (put_dinode dp i b) = length b.
Proof.
  intros Hl Ha. unfold put_dinode. repeat (rewrite length_put; [|repeat (rewrite length_put); simpl; lia]). done.
Qed.

Ltac put_len := rewrite ?length_put by (rewrite ?length_put by (rewrite ?length_put by (simpl; lia); simpl; lia); simpl; lia); simpl; lia.
Lemma nth_put_dinode_other dp i b j :
  (dp + 16 ≤ length b)%nat → length (i_addr i) = 7%nat → ¬ (dp ≤ j < dp + 16)%nat →
  nth j (put_dinode dp i b) 0 = nth j b 0.
Proof.
  intros Hl Ha Hj. unfold put_dinode. rewrite !nth_put_words by put_len. simpl length. rewrite Ha.
  repeat (rewrite decide_False by lia). done.
Qed.
Lemma nth_put_dinode dp i b j :
  (dp + 16 ≤ length b)%nat → length (i_addr i) = 7%nat → (j < 16)%nat →
  nth (dp + j) (put_dinode dp i b) 0 =
    if decide (4 ≤ j < 11)%nat then nth (j - 4) (i_addr i) 0
    else if decide (j < 4)%nat then nth j (ic1_words i) 0
    else if decide (j = 12)%nat then i32 (i_flags i)
    else if decide (13 ≤ j)%nat then nth (j - 13) (ic2_words i) 0 else nth (dp + j) b 0.
Proof.
  intros Hl Ha Hj. unfold put_dinode. rewrite !nth_put_words by put_len. simpl length. rewrite Ha.
  destruct (decide (4 ≤ j < 11)%nat) as [H1|H1]; [rewrite decide_True by lia; f_equal; lia|rewrite decide_False by lia].
  destruct (decide (13 ≤ j)%nat) as [H2|H2].
  { rewrite decide_True, !decide_False by lia. f_equal. lia. }
  rewrite (decide_False (P := (dp + 13 ≤ dp + j < dp + 13 + 3)%nat)) by lia.
  destruct (decide (j = 12)%nat) as [->|H3].
  { rewrite (decide_True (P := (dp + 12 ≤ dp + 12 < dp + 12 + 1)%nat)) by lia. rewrite decide_False by lia.
    by replace (dp + 12 - (dp + 12))%nat with 0%nat by lia. }
  rewrite (decide_False (P := (dp + 12 ≤ dp + j < dp + 12 + 1)%nat)) by lia.
  destruct (decide (j < 4)%nat) as [H4|H4]; [rewrite decide_True by lia; f_equal; lia|by rewrite decide_False by lia].
Qed.

(** Only the words of the inode matter. *)
Lemma get_dinode_nth dp b b' i0 :
  (dp + 16 ≤ length b)%nat → (dp + 16 ≤ length b')%nat → (∀ j, (j < 16)%nat → nth (dp + j) b' 0 = nth (dp + j) b 0) →
  get_dinode dp b' i0 = get_dinode dp b i0.
Proof.
  intros L1 L2 E. unfold get_dinode. rewrite !(E _) by lia. rewrite !get_words_nth by (unfold NADDR, NDADDR, NIADDR; lia).
  assert (Ew : (λ k, nth (dp + 4 + k) b' 0) <$> seq 0 (Z.to_nat NADDR) = (λ k, nth (dp + 4 + k) b 0) <$> seq 0 (Z.to_nat NADDR)).
  { apply list_fmap_ext. intros k x Hk. apply lookup_seq in Hk as [-> Hk]. change (Z.to_nat NADDR) with 7%nat in Hk.
    replace (dp + 4 + (0 + k))%nat with (dp + (4 + k))%nat by lia. apply E. lia. }
  by rewrite Ew.
Qed.
Lemma get_put_other dp dp' i b i0 :
  (dp + 16 ≤ length b)%nat → (dp' + 16 ≤ length b)%nat → length (i_addr i) = 7%nat → (dp + 16 ≤ dp' ∨ dp' + 16 ≤ dp)%nat →
  get_dinode dp' (put_dinode dp i b) i0 = get_dinode dp' b i0.
Proof.
  intros L1 L2 Ha Hd. apply get_dinode_nth; [done|by rewrite put_dinode_length|].
  intros j Hj. apply nth_put_dinode_other; [done|done|lia].
Qed.
Lemma mode_word m n : 0 ≤ m < 2 ^ 16 → 0 ≤ n < 2 ^ 16 →
  let w := i32 (Z.lor (u16 m) (Z.shiftl (u16 n) 16)) in u16 w = m ∧ u16 (Z.shiftr w 16) = n.
Proof.
  intros Hm Hn. assert (Em : u16 m = m) by (by apply Z.mod_small). assert (En : u16 n = n) by (by apply Z.mod_small).
  rewrite Em, En, Z.shiftl_mul_pow2 by lia. cbv zeta. clear Em En. unfold u16.
  assert (El : Z.lor m (n * 2 ^ 16) = m + n * 2 ^ 16).
  { pose proof (Z.add_lor_land m (n * 2 ^ 16)) as E. assert (Z.land m (n * 2 ^ 16) = 0); [|lia].
    rewrite <- (Z.mod_small m (2 ^ 16)), <- Z.land_ones, <- Z.land_assoc, (Z.land_comm (Z.ones 16)), Z.land_ones by lia.
    by rewrite Z.mod_mul, Z.land_0_r by lia. }
  rewrite El. set (w := m + n * 2 ^ 16). unfold i32.
  assert (E1 : ((w + 2 ^ 31) `mod` 2 ^ 32 - 2 ^ 31) = w ∨ ((w + 2 ^ 31) `mod` 2 ^ 32 - 2 ^ 31) = w - 2 ^ 32).
  { unfold w. destruct (Z.lt_ge_cases (m + n * 2 ^ 16 + 2 ^ 31) (2 ^ 32)).
    - left. rewrite Z.mod_small by lia. lia.
    - right. rewrite <- (Z.mod_unique (m + n * 2 ^ 16 + 2 ^ 31) (2 ^ 32) 1 (m + n * 2 ^ 16 + 2 ^ 31 - 2 ^ 32)) by lia. lia. }
  rewrite Z.shiftr_div_pow2 by lia. unfold w in *.
  destruct E1 as [->| ->]; split.
  - rewrite Z.mod_add by lia. by apply Z.mod_small.
  - rewrite Z.div_add, Z.div_small by lia. by apply Z.mod_small.
  - replace (m + n * 2 ^ 16 - 2 ^ 32) with (m + (n - 2 ^ 16) * 2 ^ 16) by lia. rewrite Z.mod_add by lia. by apply Z.mod_small.
  - replace (m + n * 2 ^ 16 - 2 ^ 32) with (m + (n - 2 ^ 16) * 2 ^ 16) by lia. rewrite Z.div_add, Z.div_small by lia.
    replace (0 + (n - 2 ^ 16)) with (n + (-1) * 2 ^ 16) by lia. rewrite Z.mod_add by lia. by apply Z.mod_small.
Qed.
Lemma get_put_same dp i b i0 :
  (dp + 16 ≤ length b)%nat → typed i → get_dinode dp (put_dinode dp i b) i0 = copy_dinode i i0.
Proof.
  intros Hl [Hm Hn Hu Hg Hf Ha].
  assert (W : ∀ j, (j < 16)%nat → _) by (intros j Hj; exact (nth_put_dinode dp i b j Hl Ha Hj)).
  unfold get_dinode.
  rewrite get_words_nth by (rewrite put_dinode_length by done; unfold NADDR, NDADDR, NIADDR; lia).
  assert (Ew : (λ j, nth (dp + 4 + j) (put_dinode dp i b) 0) <$> seq 0 (Z.to_nat NADDR) = i_addr i).
  { apply list_eq_same_length with (n := 7%nat); [done|by rewrite length_fmap, length_seq|].
    intros k x y Hk Hx Hy. rewrite list_lookup_fmap, lookup_seq_lt in Hx by done. injection Hx as <-.
    replace (dp + 4 + k)%nat with (dp + (4 + k))%nat by lia. rewrite W by lia.
    rewrite decide_True by lia. replace (4 + k - 4)%nat with k by lia. by apply nth_lookup_Some. }
  rewrite Ew. destruct (mode_word _ _ Hm Hn) as [E1 E2].
  cbv zeta in E1, E2.
  set (b' := put_dinode dp i b) in *.
  assert (W0 : nth (dp + 0) b' 0 = i32 (Z.lor (u16 (i_mode i)) (Z.shiftl (u16 (i_nlink i)) 16))) by exact (W 0%nat ltac:(lia)).
  assert (W1 : nth (dp + 1) b' 0 = i32 (i_uid i)) by exact (W 1%nat ltac:(lia)).
  assert (W2 : nth (dp + 2) b' 0 = i32 (i_gid i)) by exact (W 2%nat ltac:(lia)).
  assert (W3 : nth (dp + 3) b' 0 = i_size i) by exact (W 3%nat ltac:(lia)).
  assert (W12 : nth (dp + 12) b' 0 = i32 (i_flags i)) by exact (W 12%nat ltac:(lia)).
  assert (W13 : nth (dp + 13) b' 0 = i_atime i) by exact (W 13%nat ltac:(lia)).
  assert (W14 : nth (dp + 14) b' 0 = i_mtime i) by exact (W 14%nat ltac:(lia)).
  assert (W15 : nth (dp + 15) b' 0 = i_ctime i) by exact (W 15%nat ltac:(lia)).
  by rewrite W0, W1, W2, W3, W12, W13, W14, W15, E1, E2, !Prot.u32_i32.
Qed.

(** * The superblock *)

(** The fields of a superblock within their C types, and its arrays whole. *)
Record typed_fs (f : fs) : Prop := {
  tf_words : Forall (λ x, 0 ≤ x < 2 ^ 32) [fs_magic1 f; fs_isize f; fs_fsize f; fs_swapsz f; fs_tfree f; fs_tinode f;
    fs_lasti f; fs_nbehind f; fs_flags f; fs_magic2 f];
  tf_inode : Forall (λ x, 0 ≤ x < 2 ^ 32) (fs_inode f);
  tf_free : length (fs_free f) = 200%nat;
  tf_ninode : length (fs_inode f) = 32%nat;
  tf_fsmnt : length (fs_fsmnt f) = 7%nat;
}.
Lemma nth_past (l1 l2 : list Z) k j : length l1 = k → nth (k + j) (l1 ++ l2) 0 = nth j l2 0.
Proof. intros <-. rewrite app_nth2_plus. done. Qed.
Lemma get_past (l1 l2 : list Z) k j n : length l1 = k → get_words (k + j) n (l1 ++ l2) = get_words j n l2.
Proof. intros <-. unfold get_words. by rewrite <- drop_drop, drop_app_length. Qed.
Lemma get_here (l1 l2 : list Z) n : length l1 = n → get_words 0 n (l1 ++ l2) = l1.
Proof. intros <-. unfold get_words. by rewrite drop_0, take_app_length. Qed.

(** A superblock written to its block, as mounting, [balloc] and [ufs_sync]
    write it, is read back the same; it fills the block. *)
Theorem superblock_roundtrip f : typed_fs f → words_fs (fs_words f) = f ∧ length (fs_words f) = 256%nat.
Proof.
  intros [Hw Hi L1 L2 L3]. split; [|unfold fs_words; by rewrite !length_app, length_fmap, L1, L2, L3].
  destruct f as [isize fsize nfree fr ninode ino flock fmod ilock ronly tm tfree tinode lasti nbehind flags magic1 swapsz fsmnt magic2].
  cbn [fs_isize fs_fsize fs_nfree fs_free fs_ninode fs_inode fs_flock fs_fmod fs_ilock fs_ronly fs_time fs_tfree fs_tinode
    fs_lasti fs_nbehind fs_flags fs_magic1 fs_swapsz fs_fsmnt fs_magic2] in *.
  repeat (apply Forall_cons in Hw as [? Hw]). unfold fs_words, words_fs. cbv zeta.
  cbn [fs_isize fs_fsize fs_nfree fs_free fs_ninode fs_inode fs_flock fs_fmod fs_ilock fs_ronly fs_time fs_tfree fs_tinode
    fs_lasti fs_nbehind fs_flags fs_magic1 fs_swapsz fs_fsmnt fs_magic2].
  set (head := [i32 magic1; i32 isize; i32 fsize; i32 swapsz; nfree]).
  set (mid := [flock; fmod; ilock; ronly; tm; i32 tfree; i32 tinode]). set (tail := [i32 lasti; i32 nbehind; i32 flags; i32 magic2]).
  assert (L4 : length (i32 <$> ino) = 32%nat) by (by rewrite length_fmap).
  assert (E : ∀ m n, m = (205 + n)%nat → nth m (head ++ fr ++ [ninode] ++ (i32 <$> ino) ++ mid ++ fsmnt ++ tail) 0 =
    nth n ([ninode] ++ (i32 <$> ino) ++ mid ++ fsmnt ++ tail) 0).
  { intros m n ->. rewrite (nth_past head _ 5 (200 + n)) by done. by rewrite nth_past. }
  assert (E1 : ∀ m n, m = (238 + n)%nat → nth m (head ++ fr ++ [ninode] ++ (i32 <$> ino) ++ mid ++ fsmnt ++ tail) 0 = nth n (mid ++ fsmnt ++ tail) 0).
  { intros m n ->. rewrite (E _ (33 + n)%nat) by done. rewrite (nth_past [ninode] _ 1 (32 + n)) by done. by rewrite nth_past. }
  assert (E2 : ∀ m n, m = (252 + n)%nat → nth m (head ++ fr ++ [ninode] ++ (i32 <$> ino) ++ mid ++ fsmnt ++ tail) 0 = nth n tail 0).
  { intros m n ->. rewrite (E1 _ (14 + n)%nat) by done. rewrite (nth_past mid _ 7 (7 + n)) by done. by rewrite nth_past. }
  rewrite (E 205 0)%nat, (E1 238 0)%nat, (E1 239 1)%nat, (E1 240 2)%nat, (E1 241 3)%nat, (E1 242 4)%nat, (E1 243 5)%nat,
    (E1 244 6)%nat, (E2 252 0)%nat, (E2 253 1)%nat, (E2 254 2)%nat, (E2 255 3)%nat by done.
  rewrite (get_past head _ 5 0) by done. change (Z.to_nat NICFREE) with 200%nat. rewrite get_here by done.
  rewrite (get_past head _ 5 201), (get_past fr _ 200 1), (get_past [ninode] _ 1 0) by done.
  change (Z.to_nat NICINOD) with 32%nat. rewrite get_here by done.
  rewrite (get_past head _ 5 240), (get_past fr _ 200 40), (get_past [ninode] _ 1 39), (get_past _ _ 32 7), (get_past mid _ 7 0) by done.
  rewrite get_here by done. unfold head, mid, tail. cbn [app nth]. rewrite !Prot.u32_i32 by done. f_equal.
  etransitivity; [symmetry; apply (list_fmap_compose i32 u32 ino)|]. rewrite <- (list_fmap_id ino) at 2.
  apply list_fmap_ext. intros k x Hx. apply Prot.u32_i32. by eapply (Forall_lookup_1 _ _ _ _ Hi).
Qed.

(** * iupdat *)

Definition with_i (n : nat) (i : inode) (s : kstate) : kstate := s <| inodes ::= <[n := i]> |>.
Definition stamp (b : bool) (f : inode → inode) (i : inode) : inode := if b then f i else i.
(** The times that are due, and no more flags. *)
Definition timed (t : Z) (i : inode) : inode :=
  stamp (has (i_flag i) ICHG) (λ i, i <| i_ctime := t |>)
    (stamp (has (i_flag i) IUPD) (λ i, i <| i_mtime := t |>)
       (stamp (has (i_flag i) IACC) (λ i, i <| i_atime := t |>) i)) <| i_flag ::= λ f, clrf f Inode.IDIRTY |>.

Lemma when_with_i (b : bool) s n i f :
  inodes s !! n = Some i → when b (seti n f) s = Done tt (with_i n (stamp b f i) s).
Proof.
  intros Hi. destruct b; cbn [when stamp].
  - by rewrite (seti_eq _ _ _ _ Hi).
  - unfold with_i. rewrite mret_eq. f_equal. unfold upd. destruct s. simpl in *. f_equal. symmetry. by apply insert_id.
Qed.
Lemma with_i_i n i i' s : with_i n i (with_i n i' s) = with_i n i s.
Proof. unfold with_i, upd. simpl. f_equal. apply insert_insert_eq. Qed.
Lemma with_i_at n i s : inodes (with_i n i s) !! n = Some i.
Proof. apply lookup_insert_eq. Qed.
Lemma touched n s i :
  inodes s !! n = Some i →
  (Inode.touch n time time ;; Inode.clr_iflag n Inode.IDIRTY) s = Done tt (with_i n (timed (tv_sec (time s)) i) s).
Proof.
  intros Hi. unfold Inode.touch, Inode.clr_iflag.
  rewrite bind_assoc, (bind_done _ _ _ _ _ (get_s_eq _)). cbv beta.
  rewrite bind_assoc, (bind_done _ _ _ _ _ (geti_eq _ _ _ Hi)). cbv beta.
  rewrite bind_assoc, (bind_done _ _ _ _ _ (when_with_i _ _ _ _ _ Hi)). cbv beta.
  rewrite bind_assoc, (bind_done _ _ _ _ _ (when_with_i _ _ _ _ _ (with_i_at _ _ _))). cbv beta. rewrite with_i_i.
  rewrite (bind_done _ _ _ _ _ (when_with_i _ _ _ _ _ (with_i_at _ _ _))). cbv beta. rewrite with_i_i.
  rewrite (seti_eq _ _ _ _ (with_i_at _ _ _)). f_equal. unfold with_i, upd, timed. simpl. f_equal. apply insert_insert_eq.
Qed.

Lemma bind_step {A} (m1 m2 : K unit) (g : K A) s s' : (m1 ;; m2) s = Done tt s' → (m1 ;; m2 ;; g) s = g s'.
Proof. intros ([] & s1 & E1 & E2)%bind_inv. rewrite (bind_done _ _ _ _ _ E1). by rewrite (bind_done _ _ _ _ _ E2). Qed.
Lemma set_bdata_mounts bp ws s s' : set_bdata bp ws s = Done tt s' → mounts s' = mounts s.
Proof.
  unfold set_bdata, setblock, getblock, getbuf. m_unfold. destruct (bstore s !! bp) as [r|]; [|done]. simpl.
  destruct (bufdata s !! b_addr r); [|done]. intros E. injection E as <-. done.
Qed.

Section update.
Context `{KConfig} `{KLayout} `{SigEnv} `{MdEnv} `{BioEnv} `{FsEnv}.
Variable rg : region.
Hypothesis Hmd : on_md rg.
Hypothesis Hbuf : (0 < NBUF)%nat.

Definition slot (i : inode) : nat := 16 * Z.to_nat (itoo (i_number i)).
Lemma slot_bound i : (slot i + 16 ≤ 256)%nat.
Proof.
  unfold slot, itoo. pose proof (Z.mod_pos_bound (u32 (i_number i + INOPB - 1)) INOPB ltac:(done)). unfold INOPB in *. lia.
Qed.
Lemma timed_place t i : i_number (timed t i) = i_number i ∧ i_dev (timed t i) = i_dev i ∧ i_fs (timed t i) = i_fs i.
Proof. unfold timed, stamp. by destruct (has _ ICHG), (has _ IUPD), (has _ IACC). Qed.
Lemma timed_typed t i : typed i → typed (timed t i).
Proof. intros []. unfold timed, stamp. by destruct (has _ ICHG), (has _ IUPD), (has _ IACC). Qed.

(** C11: [iupdat] writes an inode that changed into its slot of its block, with
    the times that are due; read back, it is the inode in core, and the other
    inodes of the block and all other blocks are as they were. *)
Theorem iupdat_writes_back fuel n waitfor s D ip r :
  coh rg s D ∅ → idle s → (NBUF < fuel)%nat → inodes s !! n = Some ip → typed ip → i_dev ip = rg_dev rg →
  has (i_flag ip) Inode.IDIRTY = true → mounts s !! i_fs ip = Some r → fs_ronly (m_filsys r) = 0 →
  in_range rg (itod (i_number ip)) →
  let ip' := timed (tv_sec (time s)) ip in
  ∃ s' D', Inode.iupdat (S fuel) n time time waitfor s = Done tt s' ∧ coh rg s' D' ∅ ∧ idle s' ∧
    inodes s' = <[n := ip']> (inodes s) ∧ (∀ b, b ≠ itod (i_number ip) → D' b = D b) ∧
    (∀ i0, get_dinode (slot ip) (D' (itod (i_number ip))) i0 = copy_dinode ip' i0) ∧
    (∀ k i0, (k < 16)%nat → 16 * k ≠ slot ip →
      get_dinode (16 * k) (D' (itod (i_number ip))) i0 = get_dinode (16 * k) (D (itod (i_number ip))) i0)%nat.
Proof.
  intros Hco Hid Hf Hip Hty Hdev Hdirty Hr Hro Hin ip'. set (blk := itod (i_number ip)) in *. unfold Inode.iupdat.
  rewrite (bind_done _ _ _ _ _ (geti_eq _ _ _ Hip)). cbv beta. rewrite Hdirty. cbn [negb]. unfold getfs_of.
  rewrite bind_assoc, (bind_done _ _ _ _ _ (getm_eq _ _ _ Hr)). cbv beta. rewrite (bind_done _ _ _ _ _ (mret_eq _ _)). cbv beta.
  rewrite Hro. change (negb (0 =? 0)) with false. cbv iota. rewrite Hdev. fold blk. pose proof (ndirty_le (bstore s)) as Hn.
  destruct (bread_coh rg Hmd fuel s D ∅ blk Hco (idle_available rg Hbuf _ _ _ _ Hco Hid) Hin ltac:(lia)) as
    (j & q & s1 & E1 & Hg & Hd & He & _).
  pose proof Hg as [Hco1 Hj Hq Hh Hb Ha _ _ _ F1]. pose proof (ch_pool _ _ _ _ Hco1 j q Hj Hq) as Hok.
  rewrite (bind_done _ _ _ _ _ E1). cbv beta. rewrite (bind_done _ _ _ _ _ (getbuf_eq _ _ _ Hq)). cbv beta. rewrite He. cbv iota.
  assert (Ei1 : inodes s1 = inodes s) by (by destruct F1 as [-> _]). assert (Et1 : time s1 = time s) by (by destruct F1 as [-> _]).
  assert (Em1 : mounts s1 = mounts s) by (by destruct F1 as [-> _]).
  assert (Hip1 : inodes s1 !! n = Some ip) by (by rewrite Ei1).
  rewrite (bind_step _ _ _ _ _ (touched n s1 ip Hip1)). cbv beta. rewrite Et1. fold ip'. set (s2 := with_i n ip' s1).
  rewrite (bind_done _ _ _ _ _ (geti_eq s2 _ _ (with_i_at _ _ _))). cbv beta.
  assert (Hco2 : coh rg s2 D ∅) by (by apply (coh_ext rg s1)). assert (Hq2 : bstore s2 !! BufP j = Some q) by done.
  assert (Eb : bdata (BufP j) s2 = Done (D blk) s2).
  { unfold bdata. rewrite (bind_done _ _ _ _ _ (getbuf_eq _ _ _ Hq2)). cbv beta. rewrite (bo_addr _ _ _ _ _ _ Hok).
    unfold getblock. m_unfold. change (bufdata s2) with (bufdata s1). by rewrite Hd. }
  rewrite (bind_done _ _ _ _ _ Eb). cbv beta. destruct (timed_place (tv_sec (time s)) ip) as (P1 & P2 & P3).
  fold ip' in P1, P2, P3. rewrite P1, P3. fold (slot ip). set (w := put_dinode (slot ip) ip' (D blk)).
  assert (Hl : length (D blk) = 256%nat) by (destruct (ch_disk _ _ _ _ Hco blk Hin) as (? & _ & ? & _); done).
  pose proof (slot_bound ip) as Hsl. assert (Hty' : typed ip') by (by apply timed_typed).
  assert (Hlw : length w = 256%nat) by (unfold w; rewrite put_dinode_length; [done|lia|apply Hty']).
  set (delayed := negb (waitfor && negb (has (fs_flags (m_filsys r)) MNT_ASYNC))).
  destruct (finish_write rg Hmd Hbuf (S fuel) delayed s2 D j q blk w Hco2 Hj Hq2 Hh Hin Hb Ha Hlw) as
    (s3 & g & E3 & Hco3 & F3 & P & Hgb).
  exists s3, (<[blk := w]> D). split; [|split; [done|split; [|split; [|split; [|split]]]]].
  - apply bind_inv in E3 as ([] & s2' & E2 & E3). rewrite (bind_done _ _ _ _ _ E2). cbv beta.
    assert (Hm' : mounts s2' !! i_fs ip = Some r) by (rewrite (set_bdata_mounts _ _ _ _ E2); change (mounts s2) with (mounts s1); by rewrite Em1).
    rewrite bind_assoc, (bind_done _ _ _ _ _ (getm_eq _ _ _ Hm')). cbv beta. rewrite (bind_done _ _ _ _ _ (mret_eq _ _)). cbv beta.
    revert E3. unfold delayed. by destruct (waitfor && _).
  - by eapply (idle_again rg); [exact Hid|exact Hg|exact P|..].
  - destruct F3 as [-> _]. change (inodes s2 = <[n := ip']> (inodes s)). unfold s2, with_i. simpl. by rewrite Ei1.
  - intros b Hne. by apply fn_lookup_insert_ne.
  - intros i0. rewrite fn_lookup_insert. apply get_put_same; [lia|done].
  - intros k i0 Hk Hne. rewrite fn_lookup_insert. apply get_put_other; [lia..|apply Hty'|]. unfold slot in *. lia.
Qed.
End update.
End Dinode.

(** * Examples *)

Module DinodeExamples.
Import Bio Disk DiskExamples Dinode.
#[local] Existing Instances gba_cfg Sched.layout1 Sig.sig_env0 md_env0 bio_env_md.
#[local] Instance fs_env0 : FsEnv := {| cinvalall := mret tt |}.

(** Inode 3 lies in block 1; it was written to. *)
Definition ip3 : inode := MkInode IUPD 1 0x600 3 0 [2; 3; 0; 0; 0; 0; 0] 0x81a4 1 100 10 1500 0 5 6 7 None None 0 0 None None 0 0 None None.
Definition updated : kstate :=
  start <| inodes := {[ 0%nat := ip3 ]} |> <| mounts := [MkMount 0x600 BmapExamples.fs1 None] |> <| time := MkTv 1234 0 |>.
Lemma updated_ready : coh rg0 updated D0 ∅ ∧ idle updated.
Proof. split; [by apply (coh_ext rg0 start), coh0|exact idle0]. Qed.
Lemma typed3 : typed ip3.
Proof. by split. Qed.

Lemma iupdat_writes_back_witness : ∃ s' D', Inode.iupdat 5 0 time time true updated = Done tt s' ∧
  get_dinode 32 (D' 1) ip3 = ip3 <| i_mtime := 1234 |>.
Proof.
  destruct (iupdat_writes_back rg0 on_md0 ltac:(vm_compute; lia) 4 0 true updated D0 ip3 (MkMount 0x600 BmapExamples.fs1 None)
    (proj1 updated_ready) (proj2 updated_ready) ltac:(vm_compute; lia) eq_refl typed3 eq_refl eq_refl eq_refl eq_refl
    ltac:(split; vm_compute; congruence)) as (s' & D' & E & _ & _ & _ & _ & Hd & _).
  exists s', D'. split; [exact E|]. change (slot ip3) with 32%nat in Hd. change (itod (i_number ip3)) with 1 in Hd. rewrite Hd. reflexivity.
Defined.
Lemma superblock_roundtrip_witness : words_fs (fs_words BmapExamples.fs1) = BmapExamples.fs1.
Proof.
  apply (superblock_roundtrip BmapExamples.fs1). split; [repeat constructor; simpl; lia|by repeat constructor|done..].
Defined.
End DinodeExamples.
