(* ===== verification/Ufs.v ===== *)
(** Whole file systems: ialloc (kern/ufs_alloc.c), sync and syncip
    (kern/ufs_subr.c), ufs_sync (kern/ufs_syscalls2.c), mounting and
    unmounting (kern/ufs_mount.c). *)
From stdpp Require Import functions.
From S2P Require Import Prelude Buf Kernel Links Callout Sched Prot Time Sig Clock Ring Bio Fs Alloc Bmap Inode.

(** The drivers' open and close, the name cache, and the device that a path
    names ([namei]): a device or an error. *)
Class MountEnv := {
  d_open : Z → Z → K Z;
  d_close : Z → Z → K unit;
  nchinval : Z → K unit;
  getmdev : Z → K (Z + Z);
}.

Definition FREAD : Z := 0x1.
Definition FWRITE : Z := 0x2.

Module Ufs.
Section ufs.
Context `{KConfig} `{KLayout} `{SigEnv} `{BioEnv} `{FsEnv}.

(** * ialloc *)

Fixpoint ilock_wait (fuel m : nat) : K unit :=
  f ← getfs_of m;
  if fs_ilock f =? 0 then mret tt
  else
    match fuel with
    | O => nofuel
    | S fuel => _ ← Clock.sleep (c_ilock m) PINOD; ilock_wait fuel m
    end.

(** The unused inodes of one block, whose data is at [a]; the number reached. *)
Fixpoint ialloc_slots (slots : list nat) (m : nat) (dev a ino : Z) : K Z :=
  match slots with
  | [] => mret ino
  | i :: slots =>
    ws ← getblock a;
    let cont := ialloc_slots slots m dev a (u32 (ino + 1)) in
    if negb (u16 (nth (16 * i) ws 0) =? 0) then cont
    else
      o ← Inode.ifind dev ino;
      match o with
      | Some _ => cont
      | None =>
        f ← getfs_of m;
        _ ← arr (fs_inode f) (fs_ninode f);
        setfs m (λ f, f <| fs_inode ::= <[Z.to_nat (fs_ninode f) := ino]> |> <| fs_ninode ::= λ z, z + 1 |>) ;;
        f ← getfs_of m;
        if NICINOD <=? fs_ninode f then mret ino else cont
      end
  end.
(** The blocks of inodes from [adr] on, [blks] at most; the number of the first
    inode of the last block looked at. *)
Fixpoint ialloc_blocks (fuel blks m : nat) (dev adr ino inobas : Z) : K Z :=
  f ← getfs_of m;
  if fs_isize f <=? u32 adr then mret inobas
  else
    match blks with
    | O => nofuel
    | S blks =>
      let inobas := ino in
      bp ← Bio.bread fuel dev adr;
      r ← getbuf bp;
      if has (b_flags r) B_ERROR || negb (b_resid r =? 0) then
        Bio.brelse bp ;; ialloc_blocks fuel blks m dev (adr + 1) (u32 (ino + INOPB)) inobas
      else
        ino ← ialloc_slots (seq 0 (Z.to_nat INOPB)) m dev (b_addr r) ino;
        Bio.brelse bp ;;
        f ← getfs_of m;
        if NICINOD <=? fs_ninode f then mret inobas
        else ialloc_blocks fuel blks m dev (adr + 1) ino inobas
    end.
Definition ialloc_fromtop (fuel m : nat) (dev : Z) : K Z :=
  setfs m (λ f, f <| fs_nbehind := 0 |>) ;;
  f ← getfs_of m;
  ialloc_blocks fuel (Z.to_nat (fs_isize f)) m dev (SUPERB + 1) 1 0.
(** Refill the superblock's list of unused inodes. *)
Definition ialloc_search (fuel m : nat) (dev : Z) : K unit :=
  setfs m (λ f, f <| fs_ilock ::= λ z, z + 1 |>) ;;
  f ← getfs_of m;
  inobas ←
    (if fs_nbehind f <? 4 * NICINOD then
       let ino := fs_lasti f in
       when (DIAGNOSTIC && negb (itoo ino =? 0)) (panic "ialloc") ;;
       inobas ← ialloc_blocks fuel (Z.to_nat (fs_isize f)) m dev (itod ino) ino 0;
       f ← getfs_of m;
       if fs_ninode f <? NICINOD then ialloc_fromtop fuel m dev else mret inobas
     else ialloc_fromtop fuel m dev);
  setfs m (λ f, f <| fs_lasti := inobas |>) ;;
  setfs m (λ f, f <| fs_ilock := 0 |>) ;;
  Sched.wakeup (c_ilock m).
Fixpoint ialloc_loop (fuel : nat) (pip : inode) : K (option nat) :=
  match fuel with
  | O => nofuel
  | S fuel =>
    let m := i_fs pip in
    f ← getfs_of m;
    if 0 <? fs_ninode f then
      setfs m (λ f, f <| fs_ninode ::= λ z, z - 1 |>) ;;
      f ← getfs_of m;
      ino ← arr (fs_inode f) (fs_ninode f);
      if ino <=? ROOTINO then ialloc_loop fuel pip
      else
        o ← Inode.iget fuel (i_dev pip) m ino;
        match o with
        | None => mret None
        | Some n =>
          ip ← geti n;
          if i_mode ip =? 0 then
            seti n (λ i, i <| i_addr := replicate (Z.to_nat NADDR) 0 |>) ;;
            seti n (λ i, i <| i_flags := 0 |>) ;;
            setfs m (λ f, f <| fs_fmod := 1 |>) ;;
            setfs m (λ f, f <| fs_tinode ::= λ z, u32 (z - 1) |>) ;;
            mret (Some n)
          else Inode.iput fuel n ;; ialloc_loop fuel pip
        end
    else
      ialloc_search fuel m (i_dev pip) ;;
      f ← getfs_of m;
      if 0 <? fs_ninode f then ialloc_loop fuel pip
      else set_error ENOSPC ;; mret None
  end.
Definition ialloc (fuel : nat) (pip : inode) : K (option nat) :=
  ilock_wait fuel (i_fs pip) ;; ialloc_loop fuel pip.

(** * Writing back *)

Fixpoint syncinodes_loop (fuel : nat) (ids : list nat) (m : nat) : K unit :=
  match ids with
  | [] => mret tt
  | n :: ids =>
    ip ← geti n;
    when (bool_decide (i_fs ip = m))
      (when (negb (has (i_flag ip) ILOCKED) && negb (i_count ip =? 0)
             && has (i_flag ip) (Z.lor IMOD (Z.lor IACC (Z.lor IUPD ICHG))))
         (Inode.set_iflag n ILOCKED ;;
          seti n (λ i, i <| i_count ::= λ c, u32 (c + 1) |>) ;;
          Inode.iupdat fuel n time time false ;;
          Inode.iput fuel n)) ;;
    syncinodes_loop fuel ids m
  end.
Definition syncinodes (fuel m : nat) : K unit := syncinodes_loop fuel (seq 0 NINODE) m.

Definition ufs_sync (fuel m : nat) : K Z :=
  mp ← getm m;
  when (negb (fs_fmod (m_filsys mp) =? 0) && has (fs_flags (m_filsys mp)) MNT_RDONLY)
    (panic "sync: rofs") ;;
  syncinodes fuel m ;;
  Bio.bflush fuel (m_dev mp) ;;
  f ← getfs_of m;
  if fs_fmod f =? 0 then mret 0
  else
    mp ← getm m;
    bp ← Bio.getblk fuel (m_dev mp) SUPERB;
    s ← get_s;
    setfs m (λ f, f <| fs_fmod := 0 |> <| fs_time := tv_sec (time s) |>) ;;
    f ← getfs_of m;
    set_bdata bp (fs_words f) ;;
    Bio.bwrite fuel bp ;;
    Bio.geterror bp.

Fixpoint sync_loop (fuel : nat) (ms : list nat) : K unit :=
  match ms with
  | [] => mret tt
  | m :: ms =>
    mp ← getm m;
    let f := m_filsys mp in
    when (negb (bool_decide (m_inodp mp = None) || (m_dev mp =? NODEV))
          && negb ((fs_fmod f =? 0) || negb (fs_ilock f =? 0) || negb (fs_flock f =? 0)))
      (let async := Z.land (fs_flags f) MNT_ASYNC in
       setfs m (λ f, f <| fs_flags ::= λ z, clrf z MNT_ASYNC |>) ;;
       _ ← ufs_sync fuel m;
       setfs m (λ f, f <| fs_flags ::= λ z, setf z async |>)) ;;
    sync_loop fuel ms
  end.
Definition sync (fuel : nat) : K unit :=
  s ← get_s;
  if negb (updlock s =? 0) then mret tt
  else
    modify (λ s, s <| updlock ::= λ z, z + 1 |>) ;;
    sync_loop fuel (seq 0 (length (mounts s))) ;;
    modify (λ s, s <| updlock := 0 |>).

Fixpoint syncip_small (fuel : nat) (lbns : list nat) (n : nat) : K unit :=
  match lbns with
  | [] => mret tt
  | lbn :: lbns =>
    b ← Bmap.bmap fuel n (Z.of_nat lbn) B_READ 0;
    ip ← geti n;
    Bio.blkflush fuel (i_dev ip) (fsbtodb b) ;;
    syncip_small fuel lbns n
  end.
(** A buffer of the pool, until it is not busy. *)
Fixpoint syncip_buf (fuel : nat) (bp : bptr) (n : nat) : K unit :=
  r ← getbuf bp;
  ip ← geti n;
  if negb (b_dev r =? i_dev ip) || negb (has (b_flags r) B_DELWRI) then mret tt
  else if has (b_flags r) B_BUSY then
    match fuel with
    | O => nofuel
    | S fuel =>
      Bio.set_bflags bp B_WANTED ;;
      _ ← Clock.sleep (Bio.chan bp) (PRIBIO + 1);
      syncip_buf fuel bp n
    end
  else Bio.notavail bp ;; Bio.bwrite fuel bp.
Fixpoint syncip_large (fuel : nat) (bs : list nat) (n : nat) : K unit :=
  match bs with
  | [] => mret tt
  | b :: bs => syncip_buf fuel (BufP b) n ;; syncip_large fuel bs n
  end.
Definition syncip (fuel n : nat) : K unit :=
  ip ← geti n;
  let lastlbn := Z.quot (i32 (i_size ip + (DEV_BSIZE - 1))) DEV_BSIZE in
  (if lastlbn <? Z.of_nat (NBUF / 2) then syncip_small fuel (seq 0 (Z.to_nat lastlbn)) n
   else syncip_large fuel (seq 0 NBUF) n) ;;
  Inode.set_iflag n ICHG ;;
  Inode.iupdat fuel n time time true.
End ufs.

(** * Mounting *)

Section mount.
Context `{KConfig} `{KLayout} `{SigEnv} `{BioEnv} `{FsEnv} `{MountEnv}.

(** [out:]: undo, report the error. *)
Definition mountfs_out (fuel : nat) (dev error : Z) (ronly : bool) (ip mp : option nat)
    (tp : option bptr) (needclose : bool) : K (option nat) :=
  let error := if error =? 0 then EIO else error in
  (match ip with Some n => Inode.iput fuel n | None => mret tt end) ;;
  (match mp with Some m => setm m (λ r, r <| m_inodp := None |>) | None => mret tt end) ;;
  (match tp with Some bp => Bio.brelse bp | None => mret tt end) ;;
  when needclose (d_close dev (if ronly then FREAD else Z.lor FREAD FWRITE) ;; Bio.binval dev) ;;
  set_error error ;;
  mret None.

Definition mountfs (fuel : nat) (dev flags : Z) (ip : option nat) : K (option nat) :=
  let ronly := has flags MNT_RDONLY in
  error ← d_open dev (if ronly then FREAD else Z.lor FREAD FWRITE);
  if negb (error =? 0) then mountfs_out fuel dev error ronly ip None None false
  else
    tp ← Bio.bread fuel dev SUPERB;
    r ← getbuf tp;
    if has (b_flags r) B_ERROR then mountfs_out fuel dev 0 ronly ip None (Some tp) true
    else
      s ← get_s;
      if existsb (λ mp, bool_decide (is_Some (m_inodp mp)) && (dev =? m_dev mp)) (mounts s) then
        mountfs_out fuel dev EBUSY ronly ip None (Some tp) false
      else
        match list_find (λ mp, m_inodp mp = None) (mounts s) with
        | None => mountfs_out fuel dev EMFILE ronly ip None (Some tp) true
        | Some (m, _) =>
          setm m (λ r, r <| m_inodp := ip |>) ;;
          setm m (λ r, r <| m_dev := dev |>) ;;
          ws ← bdata tp;
          setfs m (λ _, words_fs ws) ;;
          Bio.brelse tp ;;
          f ← getfs_of m;
          if negb (fs_magic1 f =? FSMAGIC1) || negb (fs_magic2 f =? FSMAGIC2) then
            mountfs_out fuel dev EINVAL ronly ip (Some m) None true
          else
            setfs m (λ f, f <| fs_ronly := b2z ronly |>) ;;
            when (negb ronly) (setfs m (λ f, f <| fs_fmod := 1 |>)) ;;
            setfs m (λ f, f <| fs_ilock := 0 |> <| fs_flock := 0 |> <| fs_nbehind := 0 |>
                            <| fs_lasti := 1 |> <| fs_flags := u32 flags |>) ;;
            (match ip with
             | Some n => Inode.set_iflag n IMOUNT ;; Inode.cacheinval n ;; Inode.IUNLOCK n
             | None => mret tt
             end) ;;
            mret (Some m)
        end.

Definition unmount1 (fuel : nat) (fname : Z) : K Z :=
  d ← getmdev fname;
  match d with
  | inr error => mret error
  | inl dev =>
    s ← get_s;
    match list_find (λ mp, is_Some (m_inodp mp) ∧ dev = m_dev mp) (mounts s) with
    | None => mret EINVAL
    | Some (m, mp) =>
      nchinval dev ;;
      f ← getfs_of m;
      let aflag := Z.land (fs_flags f) MNT_ASYNC in
      setfs m (λ f, f <| fs_flags ::= λ z, clrf z MNT_ASYNC |>) ;;
      _ ← ufs_sync fuel m;
      open ← Inode.iflush dev;
      if open <? 0 then setfs m (λ f, f <| fs_flags ::= λ z, setf z aflag |>) ;; mret EBUSY
      else
        mp ← getm m;
        n ← unless_none (m_inodp mp);
        Inode.clr_iflag n IMOUNT ;;
        Inode.irele fuel n ;;
        setm m (λ r, r <| m_inodp := None |>) ;;
        setm m (λ r, r <| m_dev := 0 |>) ;;
        d_close dev 0 ;;
        Bio.binval dev ;;
        mret 0
    end
  end.
Definition umount (fuel : nat) : K unit :=
  fspec ← uap 0; e ← unmount1 fuel fspec; set_error e.
End mount.
End Ufs.
