(* ===== verification/Descrip.v ===== *)
(** Descriptors and advisory locks: kern/kern_descrip.c, and ino_lock,
    ino_unlock and ino_stat of kern/sys_inode.c. *)
From S2P Require Import Prelude Buf Kernel Links Callout Sched Prot Time Sig Clock Ring Bio Fs Md.

Definition FREAD : Z := 0x1.
Definition FWRITE : Z := 0x2.
Definition FNONBLOCK : Z := 0x4.
Definition FAPPEND : Z := 0x8.
Definition FSHLOCK : Z := 0x10.
Definition FEXLOCK : Z := 0x20.
Definition FASYNC : Z := 0x40.
Definition FFSYNC : Z := 0x80.
Definition FCNTLFLAGS : Z := Z.lor FAPPEND (Z.lor FASYNC (Z.lor FFSYNC FNONBLOCK)).
Definition FFLAGS (oflags : Z) : Z := i32 (oflags + 1).
Definition OFLAGS (fflags : Z) : Z := i32 (fflags - 1).
Definition F_DUPFD : Z := 0.
Definition F_GETFD : Z := 1.
Definition F_SETFD : Z := 2.
Definition F_GETFL : Z := 3.
Definition F_SETFL : Z := 4.
Definition F_GETOWN : Z := 5.
Definition F_SETOWN : Z := 6.
Definition LOCK_SH : Z := 1.
Definition LOCK_EX : Z := 2.
Definition LOCK_NB : Z := 4.
Definition LOCK_UN : Z := 8.
Definition DTYPE_INODE : Z := 1.
Definition DTYPE_PIPE : Z := 3.
Definition UF_EXCLOSE : Z := 1.
Definition FIONBIO : Z := 0x80046660.
Definition FIOASYNC : Z := 0x8004665f.
Definition TIOCSPGRP : Z := 0x80047476.
Definition TIOCGPGRP : Z := 0x40047477.
Definition PLOCK : Z := 35.
Definition ISHLOCK : Z := 0x80.
Definition IEXLOCK : Z := 0x100.
Definition ILWAIT : Z := 0x200.
Definition MAXBSIZE : Z := 1024.

(** The routines in a file's operations table ([Fops]): ioctl, given the value
    that its argument points at, with the error and the value left there; and
    close. *)
Class FileEnv := {
  fo_ioctl : nat → Z → Z → K (Z * Z);
  fo_close : nat → K Z;
}.

(** Sleep channel: [&ip->i_shlockc]. *)
Definition c_shlockc (n : nat) : wchan := WChan "i_shlockc" (Z.of_nat n).

(** * Advisory locks (sys_inode.c) *)

Module Flock.
Section flock.
Context `{KConfig} `{KLayout} `{SigEnv}.

Definition set_fflag (fp : nat) (m : Z) : K unit := setfile fp (λ f, f <| f_flag ::= λ x, setf x m |>).
Definition clr_fflag (fp : nat) (m : Z) : K unit := setfile fp (λ f, f <| f_flag ::= λ x, clrf x m |>).

Definition unlock_shared (fp n : nat) (flags : Z) : K unit :=
  seti n (λ i, i <| i_shlockc ::= λ c, u16 (c - 1) |>) ;;
  ip ← geti n;
  when (i_shlockc ip =? 0)
    (seti n (λ i, i <| i_flag ::= λ f, clrf f ISHLOCK |>) ;;
     when (has flags ILWAIT) (Sched.wakeup (c_shlockc n))) ;;
  clr_fflag fp FSHLOCK.
Definition unlock_exclusive (fp n : nat) (flags : Z) : K unit :=
  seti n (λ i, i <| i_exlockc ::= λ c, u16 (c - 1) |>) ;;
  ip ← geti n;
  when (i_exlockc ip =? 0)
    (seti n (λ i, i <| i_flag ::= λ f, clrf f (Z.lor IEXLOCK ILWAIT) |>) ;;
     when (has flags ILWAIT) (Sched.wakeup (c_shlockc n))) ;;
  clr_fflag fp FEXLOCK.
Definition ino_unlock (fp : nat) (kind : Z) : K unit :=
  f ← getfile fp;
  let kind := Z.land kind (f_flag f) in
  match f_data f with
  | None => mret tt
  | Some n =>
    if kind =? 0 then mret tt
    else
      ip ← geti n;
      when (has kind FSHLOCK) (unlock_shared fp n (i_flag ip)) ;;
      when (has kind FEXLOCK) (unlock_exclusive fp n (i_flag ip))
  end.

(** Until the lock can be granted; 0, or the error. *)
Fixpoint ino_lock_wait (fuel fp n : nat) (cmd priority : Z) : K Z :=
  match fuel with
  | O => nofuel
  | S fuel =>
    ip ← geti n;
    f ← getfile fp;
    if has (i_flag ip) IEXLOCK then
      if has (f_flag f) FEXLOCK then ino_unlock fp FEXLOCK ;; ino_lock_wait fuel fp n cmd priority
      else if has cmd LOCK_NB then mret EWOULDBLOCK
      else
        seti n (λ i, i <| i_flag ::= λ x, setf x ILWAIT |>) ;;
        error ← Clock.tsleep (c_shlockc n) (Z.lor priority PCATCH) 0;
        if negb (error =? 0) then mret error else ino_lock_wait fuel fp n cmd priority
    else if has cmd LOCK_EX && has (i_flag ip) ISHLOCK then
      if has (f_flag f) FSHLOCK then ino_unlock fp FSHLOCK ;; ino_lock_wait fuel fp n cmd priority
      else if has cmd LOCK_NB then mret EWOULDBLOCK
      else
        seti n (λ i, i <| i_flag ::= λ x, setf x ILWAIT |>) ;;
        error ← Clock.tsleep (c_shlockc n) (Z.lor PLOCK PCATCH) 0;
        if negb (error =? 0) then mret error else ino_lock_wait fuel fp n cmd priority
    else mret 0
  end.
Definition ino_lock_grant (fp n : nat) (cmd : Z) : K unit :=
  when (has cmd LOCK_EX)
    (seti n (λ i, i <| i_exlockc ::= λ c, u16 (c + 1) |>) ;;
     seti n (λ i, i <| i_flag ::= λ x, setf x IEXLOCK |>) ;;
     set_fflag fp FEXLOCK) ;;
  let cmd := if has cmd LOCK_EX then clrf cmd LOCK_SH else cmd in
  f ← getfile fp;
  when (has cmd LOCK_SH && negb (has (f_flag f) FSHLOCK))
    (seti n (λ i, i <| i_shlockc ::= λ c, u16 (c + 1) |>) ;;
     seti n (λ i, i <| i_flag ::= λ x, setf x ISHLOCK |>) ;;
     set_fflag fp FSHLOCK).
Definition ino_lock (fuel fp : nat) (cmd : Z) : K Z :=
  f ← getfile fp;
  n ← unless_none (f_data f);
  let priority := if has cmd LOCK_EX then PLOCK else PLOCK + 4 in
  e ← ino_lock_wait fuel fp n cmd priority;
  if negb (e =? 0) then mret e else ino_lock_grant fp n cmd ;; mret 0.
End flock.
End Flock.

(** * Descriptors (kern_descrip.c) *)

Module Descrip.
Section descrip.
Context `{KConfig} `{KLayout} `{SigEnv} `{FileEnv}.

(** The first of the descriptors [l] that is free. *)
Fixpoint ufalloc_scan (l : list nat) : K Z :=
  match l with
  | [] => set_error EMFILE ;; mret (-1)
  | i :: l =>
    o ← getu u_ofile;
    if bool_decide (nth i o None = None) then
      set_rval (Z.of_nat i) ;;
      setu (λ r, r <| u_pofile ::= <[i := 0]> |>) ;;
      setu (λ r, r <| u_lastfile ::= λ n, Z.max n (Z.of_nat i) |>) ;;
      mret (Z.of_nat i)
    else ufalloc_scan l
  end.
Definition ufalloc (i : Z) : K Z := ufalloc_scan (seq (Z.to_nat i) (NOFILE - Z.to_nat i)).

Definition getdtablesize : K unit := set_rval (Z.of_nat NOFILE).

(** [getf], and the macro GETF. *)
Definition getf (f : Z) : K (option nat) :=
  o ← getu u_ofile;
  match (if u32 f <? Z.of_nat NOFILE then nth (Z.to_nat (u32 f)) o None else None) with
  | Some fp => mret (Some fp)
  | None => set_error EBADF ;; mret None
  end.

(** [Fops[fp->f_type]]; there are no operations of type 0. *)
Definition fops (fp : nat) : K unit :=
  f ← getfile fp; if (1 <=? f_type f) && (f_type f <=? 3) then mret tt else fault.
Definition fioctl (fp : nat) (cmd value : Z) : K (Z * Z) := fops fp ;; fo_ioctl fp cmd value.
Definition fset (fp : nat) (bit value : Z) : K Z :=
  (if negb (value =? 0) then setfile fp (λ f, f <| f_flag ::= λ x, setf x bit |>)
   else setfile fp (λ f, f <| f_flag ::= λ x, clrf x bit |>)) ;;
  r ← fioctl fp (if bit =? FNONBLOCK then FIONBIO else FIOASYNC) value; mret r.1.
(** The error and [*valuep]. *)
Definition fgetown (fp : nat) (value : Z) : K (Z * Z) :=
  r ← fioctl fp TIOCGPGRP value; mret (r.1, i32 (- r.2)).
Definition fsetown (fp : nat) (value : Z) : K Z :=
  o ← (if 0 <? value then
         p ← Sched.pfind value;
         match p with None => mret None | Some p => r ← getp p; mret (Some (p_pgrp r)) end
       else mret (Some (i32 (- value))));
  match o with
  | None => mret ESRCH
  | Some value => r ← fioctl fp TIOCSPGRP value; mret r.1
  end.

Definition closef (o : option nat) : K Z :=
  match o with
  | None => mret 0
  | Some fp =>
    f ← getfile fp;
    if 1 <? f_count f then setfile fp (λ f, f <| f_count ::= λ c, c - 1 |>) ;; mret 0
    else
      when (has (f_flag f) (Z.lor FSHLOCK FEXLOCK) && (f_type f =? DTYPE_INODE))
        (Flock.ino_unlock fp (Z.lor FSHLOCK FEXLOCK)) ;;
      fops fp ;;
      error ← fo_close fp;
      setfile fp (λ f, f <| f_count := 0 |>) ;;
      mret error
  end.

Definition dupit (fd : nat) (fp : nat) (flags : Z) : K unit :=
  setu (λ r, r <| u_ofile ::= <[fd := Some fp]> |>) ;;
  setu (λ r, r <| u_pofile ::= <[fd := cchar flags]> |>) ;;
  setfile fp (λ f, f <| f_count ::= λ c, u32 (c + 1) |>) ;;
  setu (λ r, r <| u_lastfile ::= λ l, Z.max l (Z.of_nat fd) |>).

Definition dup2 : K unit :=
  i ← uap 0; j ← uap 1;
  o ← getf i;
  match o with
  | None => mret tt
  | Some fp =>
    if (j <? 0) || (Z.of_nat NOFILE <=? j) then set_error EBADF
    else
      set_rval j ;;
      if i =? j then mret tt
      else
        ofile ← getu u_ofile;
        let old := nth (Z.to_nat j) ofile None in
        (match old with Some _ => _ ← closef old; mret tt | None => mret tt end) ;;
        pofile ← getu u_pofile;
        dupit (Z.to_nat j) fp (Z.ldiff (nth (Z.to_nat i) pofile 0) UF_EXCLOSE)
  end.
Definition dup : K unit :=
  i ← uap 0;
  if negb (Z.ldiff i 63 =? 0) then set_uap 0 (Z.land i 63) ;; dup2
  else
    o ← getf i;
    match o with
    | None => mret tt
    | Some fp =>
      j ← ufalloc 0;
      if j <? 0 then mret tt
      else
        pofile ← getu u_pofile;
        dupit (Z.to_nat j) fp (Z.ldiff (nth (Z.to_nat i) pofile 0) UF_EXCLOSE)
    end.

Definition setfl (fp : nat) (arg : Z) : K unit :=
  setfile fp (λ f, f <| f_flag ::= λ x, clrf x FCNTLFLAGS |>) ;;
  setfile fp (λ f, f <| f_flag ::= λ x, Z.lor x (Z.land (FFLAGS arg) FCNTLFLAGS) |>) ;;
  f ← getfile fp;
  e ← fset fp FNONBLOCK (Z.land (f_flag f) FNONBLOCK);
  set_error e ;;
  if negb (e =? 0) then mret tt
  else
    f ← getfile fp;
    e ← fset fp FASYNC (Z.land (f_flag f) FASYNC);
    set_error e ;;
    if negb (e =? 0) then _ ← fset fp FNONBLOCK 0; mret tt else mret tt.
Definition fcntl : K unit :=
  fdes ← uap 0; cmd ← uap 1; arg ← uap 2;
  o ← getf fdes;
  match o with
  | None => mret tt
  | Some fp =>
    pofile ← getu u_pofile;
    let pop := nth (Z.to_nat fdes) pofile 0 in
    if cmd =? F_DUPFD then
      if (arg <? 0) || (Z.of_nat NOFILE <=? arg) then set_error EINVAL
      else
        i ← ufalloc arg;
        if i <? 0 then mret tt
        else pofile ← getu u_pofile; dupit (Z.to_nat i) fp (Z.ldiff (nth (Z.to_nat fdes) pofile 0) UF_EXCLOSE)
    else if cmd =? F_GETFD then set_rval (Z.land pop 1)
    else if cmd =? F_SETFD then
      setu (λ r, r <| u_pofile ::= <[Z.to_nat fdes := cchar (Z.lor (Z.ldiff pop 1) (Z.land arg 1))]> |>)
    else if cmd =? F_GETFL then f ← getfile fp; set_rval (OFLAGS (f_flag f))
    else if cmd =? F_SETFL then setfl fp arg
    else if cmd =? F_GETOWN then
      v ← getu u_rval; r ← fgetown fp v; set_rval r.2 ;; set_error r.1
    else if cmd =? F_SETOWN then e ← fsetown fp arg; set_error e
    else set_error EINVAL
  end.

(** [while (u.u_lastfile >= 0 && u.u_ofile[u.u_lastfile] == NULL)]; [k] is
    [u_lastfile + 1]. *)
Fixpoint last_open (o : list (option nat)) (k : nat) : Z :=
  match k with
  | O => -1
  | S k => if bool_decide (nth k o None = None) then last_open o k else Z.of_nat k
  end.
Definition close : K unit :=
  i ← uap 0;
  o ← getf i;
  match o with
  | None => mret tt
  | Some fp =>
    setu (λ r, r <| u_ofile ::= <[Z.to_nat i := None]> |>) ;;
    setu (λ r, r <| u_lastfile := last_open (u_ofile r) (Z.to_nat (u_lastfile r + 1)) |>) ;;
    e ← closef (Some fp);
    set_error e
  end.

(** A file table slot that is not in use. *)
Fixpoint file_scan (fs : list nat) : K (option nat) :=
  match fs with
  | [] => mret None
  | fp :: fs => f ← getfile fp; if f_count f =? 0 then mret (Some fp) else file_scan fs
  end.
Definition falloc : K (option nat) :=
  i ← ufalloc 0;
  if i <? 0 then mret None
  else
    s ← get_s;
    let l := default 0%nat (lastf s) in
    modify (λ s, s <| lastf := Some l |>) ;;
    o ← file_scan (seq l (NFILE - l));
    o ← match o with Some fp => mret (Some fp) | None => file_scan (seq 0 l) end;
    match o with
    | None => set_error ENFILE ;; mret None
    | Some fp =>
      setu (λ r, r <| u_ofile ::= <[Z.to_nat i := Some fp]> |>) ;;
      setfile fp (λ f, f <| f_count := 1 |>) ;;
      setfile fp (λ f, f <| f_data := None |>) ;;
      setfile fp (λ f, f <| f_offset := 0 |>) ;;
      modify (λ s, s <| lastf := Some (S fp) |>) ;;
      mret (Some fp)
    end.

Definition flock (fuel : nat) : K unit :=
  fd ← uap 0; how ← uap 1;
  o ← getf fd;
  match o with
  | None => mret tt
  | Some fp =>
    f ← getfile fp;
    if negb (f_type f =? DTYPE_INODE) then set_error EOPNOTSUPP
    else if has how LOCK_UN then Flock.ino_unlock fp (Z.lor FSHLOCK FEXLOCK)
    else if Z.land how (Z.lor LOCK_SH LOCK_EX) =? 0 then mret tt
    else
      let how := if has how LOCK_EX then clrf how LOCK_SH else how in
      when (has how LOCK_EX) (set_uap 1 how) ;;
      if has (f_flag f) FEXLOCK && has how LOCK_EX then mret tt
      else if has (f_flag f) FSHLOCK && has how LOCK_SH then mret tt
      else e ← Flock.ino_lock fuel fp how; set_error e
  end.

(** [minor (dev)]. *)
Definition fdopen (dev : Z) : K Z := setu (λ r, r <| u_dupfd := Z.land dev 255 |>) ;; mret ENODEV.
(** [indx] and [dfd] index the table of descriptors. *)
Definition dupfdopen (indx dfd mode error : Z) : K Z :=
  o ← getu u_ofile;
  let fp := nth (Z.to_nat indx) o None in
  if Z.of_nat NOFILE <=? dfd then mret EBADF
  else
    match nth (Z.to_nat dfd) o None with
    | None => mret EBADF
    | Some wfp =>
      if bool_decide (fp = Some wfp) then mret EBADF
      else if error =? ENODEV then
        w ← getfile wfp;
        if negb (Z.lor (Z.land mode (Z.lor FREAD FWRITE)) (f_flag w) =? f_flag w) then mret EACCES
        else
          setu (λ r, r <| u_ofile ::= <[Z.to_nat indx := Some wfp]> |>) ;;
          setu (λ r, r <| u_pofile ::= <[Z.to_nat indx := nth (Z.to_nat dfd) (u_pofile r) 0]> |>) ;;
          setfile wfp (λ f, f <| f_count ::= λ c, u32 (c + 1) |>) ;;
          setu (λ r, r <| u_lastfile ::= λ l, Z.max l indx |>) ;;
          mret 0
      else mret error
    end.

(** A special file's device overlays its second address. *)
Definition i_rdev (i : inode) : Z := nth 1 (i_addr i) 0.
(** [ino_stat]: the words of [struct stat]; times that are due are set. *)
Definition ino_stat (n : nat) : K (list Z) :=
  s ← get_s;
  ip ← geti n;
  when (has (i_flag ip) (Z.lor IUPD (Z.lor IACC ICHG)))
    (seti n (λ i, i <| i_flag ::= λ f, setf f IMOD |>) ;;
     when (has (i_flag ip) IACC) (seti n (λ i, i <| i_atime := tv_sec (time s) |>)) ;;
     when (has (i_flag ip) IUPD) (seti n (λ i, i <| i_mtime := tv_sec (time s) |>)) ;;
     when (has (i_flag ip) ICHG) (seti n (λ i, i <| i_ctime := tv_sec (time s) |>)) ;;
     seti n (λ i, i <| i_flag ::= λ f, clrf f (Z.lor IUPD (Z.lor IACC ICHG)) |>)) ;;
  i ← geti n;
  mret [i_dev i; i_number i; i_mode i; i_nlink i; i_uid i; i_gid i; i_rdev i; i_size i;
        i_atime i; i_mtime i; i_ctime i; MAXBSIZE; Z.shiftr (i32 (i_size i + DEV_BSIZE - 1)) DEV_BSHIFT; i_flags i].

Definition ST_SIZE : nat := 7.
Definition fstat : K unit :=
  fdes ← uap 0; sb ← uap 1;
  o ← getf fdes;
  match o with
  | None => mret tt
  | Some fp =>
    f ← getfile fp;
    if (f_type f =? DTYPE_PIPE) || (f_type f =? DTYPE_INODE) then
      n ← unless_none (f_data f);
      ub ← ino_stat n;
      set_error 0 ;;
      let ub := if f_type f =? DTYPE_PIPE then <[ST_SIZE := i32 (nth ST_SIZE ub 0 - f_offset f)]> ub else ub in
      e ← copyout_words ub sb; set_error e
    else set_error EINVAL
  end.
End descrip.
End Descrip.
