(* ===== verification/Refcount.v ===== *)
(** The descriptor table and the file table's reference counts: every call of
    kern_descrip.c keeps each file's count at the number of references to it. *)
From S2P Require Import Prelude Buf Kernel Links Callout Sched Prot Time Sig Clock Ring Bio Descrip.

Module Refcount.
Import Descrip.

(** * References *)

(** How many of the descriptors [o] are of file [fp]. *)
Definition refs (fp : nat) (o : list (option nat)) : Z := Z.of_nat (length (filter (λ x, x = Some fp) o)).
Definition is_ref (fp : nat) (x : option nat) : Z := if decide (x = Some fp) then 1 else 0.
Lemma refs_nil fp : refs fp [] = 0.
Proof. done. Qed.
Lemma refs_cons fp x o : refs fp (x :: o) = is_ref fp x + refs fp o.
Proof. unfold refs, is_ref. rewrite filter_cons. case_decide; simpl; lia. Qed.
Lemma refs_insert fp o i x y :
  o !! i = Some x → refs fp (<[i := y]> o) = refs fp o - is_ref fp x + is_ref fp y.
Proof.
  revert i. induction o as [|z o IH]; intros i Hi; [done|]. destruct i as [|i]; simpl in *.
  - injection Hi as ->. rewrite !refs_cons. lia.
  - rewrite !refs_cons, (IH i Hi). lia.
Qed.
Lemma refs_nonneg fp o : 0 ≤ refs fp o.
Proof. unfold refs. lia. Qed.
Lemma refs_le fp o : refs fp o ≤ Z.of_nat (length o).
Proof. unfold refs. pose proof (length_filter (λ x, x = Some fp) o). lia. Qed.
Lemma refs_in fp o i : o !! i = Some (Some fp) → 1 ≤ refs fp o.
Proof.
  intros Hi. pose proof (refs_insert fp o i (Some fp) None Hi) as E. pose proof (refs_nonneg fp (<[i := None]> o)).
  assert (is_ref fp (Some fp) = 1) by (unfold is_ref; by rewrite decide_True).
  assert (is_ref fp None = 0) by done. lia.
Qed.
Lemma is_ref_nonneg fp x : 0 ≤ is_ref fp x ≤ 1.
Proof. unfold is_ref. case_decide; lia. Qed.

Section keeping.
Context `{KConfig} `{KLayout} `{SigEnv}.

(** * Steps that leave the tables alone *)

(** The queues and chains that closing and looking up processes walk. *)
Record side (s : kstate) : Prop := {
  sd_sched : ∃ rl sq, Sched.sched_inv s rl sq;
  sd_hash : ∃ hq, Sched.hash_inv s hq;
  sd_ino : ∀ fp r n, files s !! fp = Some r → f_data r = Some n → is_Some (inodes s !! n);
}.
Definition counted (r : file) : Z * Z := (f_count r, f_type r).
Record keeps (s s' : kstate) : Prop := {
  kp_ofile : u_ofile (u s') = u_ofile (u s);
  kp_pofile : length (u_pofile (u s')) = length (u_pofile (u s));
  kp_last : u_lastfile (u s') = u_lastfile (u s);
  kp_arg : u_arg (u s') = u_arg (u s);
  kp_files : ∀ fp, counted <$> files s' !! fp = counted <$> files s !! fp;
  kp_lastf : lastf s' = lastf s;
  kp_side : side s → side s';
}.
Lemma keeps_refl s : keeps s s.
Proof. by split. Qed.
Lemma keeps_trans s1 s2 s3 : keeps s1 s2 → keeps s2 s3 → keeps s1 s3.
Proof.
  intros [A1 A2 A3 A4 A5 A6 A7] [B1 B2 B3 B4 B5 B6 B7]. split; [congruence..| |congruence|].
  - intros fp. by rewrite B5.
  - intros Hs. by apply B7, A7.
Qed.
Lemma keeps_lookup s s' fp r : keeps s s' → files s !! fp = Some r →
  ∃ r', files s' !! fp = Some r' ∧ f_count r' = f_count r ∧ f_type r' = f_type r.
Proof.
  intros K Hr. pose proof (kp_files _ _ K fp) as E. rewrite Hr in E. destruct (files s' !! fp) as [r'|]; [|done].
  simpl in E. apply (inj Some) in E. injection E as E1 E2. by exists r'.
Qed.
Lemma keeps_back s s' fp r' : keeps s s' → files s' !! fp = Some r' →
  ∃ r, files s !! fp = Some r ∧ f_count r' = f_count r ∧ f_type r' = f_type r.
Proof.
  intros K Hr. pose proof (kp_files _ _ K fp) as E. rewrite Hr in E. destruct (files s !! fp) as [r|]; [|done].
  simpl in E. apply (inj Some) in E. injection E as E1 E2. by exists r.
Qed.

Lemma side_ext s s' :
  procs s' = procs s → qs s' = qs s → slpque s' = slpque s → pidhash s' = pidhash s →
  (∀ fp r', files s' !! fp = Some r' → ∃ r, files s !! fp = Some r ∧ (f_data r' = f_data r ∨ f_data r' = None)) →
  (∀ n, is_Some (inodes s !! n) → is_Some (inodes s' !! n)) → side s → side s'.
Proof.
  intros E1 E2 E3 E4 Hf Hn [(rl & sq & Hi) (hq & Hh) Hd]. split.
  - exists rl, sq. by apply (Sched.sched_inv_ext s).
  - exists hq. destruct Hh. by split; rewrite ?E1, ?E4.
  - intros fp r' n Hr Hdn. destruct (Hf fp r' Hr) as (r & Hr' & [E|E]); [|congruence].
    apply Hn. apply (Hd fp r); [done|congruence].
Qed.
Lemma keeps_setu s g :
  u_ofile (g (u s)) = u_ofile (u s) → length (u_pofile (g (u s))) = length (u_pofile (u s)) →
  u_lastfile (g (u s)) = u_lastfile (u s) → u_arg (g (u s)) = u_arg (u s) → keeps s (s <| u ::= g |>).
Proof. intros. split; try done. apply side_ext; eauto. Qed.
Lemma keeps_setfile s fp g r :
  files s !! fp = Some r → counted (g r) = counted r → f_data (g r) = f_data r →
  keeps s (s <| files ::= <[fp := g r]> |>).
Proof.
  intros Hr Hc Hd. split; try done.
  - intros k. simpl. destruct (decide (k = fp)) as [->|]; [|by rewrite lookup_insert_ne].
    rewrite lookup_insert_eq, Hr. simpl. by rewrite Hc.
  - apply side_ext; try done. intros k r'. simpl. destruct (decide (k = fp)) as [->|].
    + rewrite lookup_insert_eq. intros [= <-]. exists r. split; [done|by left].
    + rewrite lookup_insert_ne by done. intros Hk. exists r'. split; [done|by left].
Qed.
Lemma keeps_seti s n g i : inodes s !! n = Some i → keeps s (s <| inodes ::= <[n := g i]> |>).
Proof.
  intros Hi. split; try done. apply side_ext; try done; [eauto|].
  intros k Hk. simpl. destruct (decide (k = n)) as [->|]; [by rewrite lookup_insert_eq|by rewrite lookup_insert_ne].
Qed.
Lemma woke_view (D : nat → Prop) s s' p :
  Sched.woke D s s' → (λ r, (p_hash r, p_pid r)) <$> procs s' !! p = (λ r, (p_hash r, p_pid r)) <$> procs s !! p.
Proof.
  intros (_ & Hn & Hw). destruct (procs s !! p) as [r|] eqn:Hr; [|by rewrite Hn].
  destruct (Hw p r Hr) as (l & [[_ ->]|[_ ->]]); [|done]. simpl. unfold Sched.wake_rec.
  by destruct (p_stat r =? SSLEEP), (1 <? p_slptime r).
Qed.
Lemma hash_inv_view s s' hq :
  pidhash s' = pidhash s →
  (∀ p, (λ r, (p_hash r, p_pid r)) <$> procs s' !! p = (λ r, (p_hash r, p_pid r)) <$> procs s !! p) →
  Sched.hash_inv s hq → Sched.hash_inv s' hq.
Proof.
  intros Eh Hv [Hc Hp Hu].
  assert (Hb : ∀ p r', procs s' !! p = Some r' → ∃ r, procs s !! p = Some r ∧ p_pid r' = p_pid r).
  { intros p r' Hr. specialize (Hv p). rewrite Hr in Hv. destruct (procs s !! p) as [r|]; [|done].
    apply (inj Some) in Hv. injection Hv as _ E. by exists r. }
  split.
  - intros h. rewrite Eh. eapply chain_agree; [|apply Hc]. intros n _. specialize (Hv n).
    destruct (procs s' !! n), (procs s !! n); try done. apply (inj Some) in Hv. injection Hv as E _. simpl. by rewrite E.
  - intros h p r' Hh Hr. destruct (Hb p r' Hr) as (r & Hr' & ->). eauto.
  - intros h p q rp rq Hp1 Hq1 Hrp Hrq Hpid. destruct (Hb p rp Hrp) as (r1 & ? & E1). destruct (Hb q rq Hrq) as (r2 & ? & E2).
    eapply Hu; [done|done|done|done|congruence].
Qed.
Lemma keeps_wakeup c s : side s → ∃ s', Sched.wakeup c s = Done tt s' ∧ keeps s s' ∧ inodes s' = inodes s ∧ files s' = files s.
Proof.
  intros [(rl & sq & Hi) (hq & Hh) Hd]. destruct (Sched.wakeup_spec c s rl sq Hi) as (s' & E & Hw & _ & w & sq' & Hi' & _).
  pose proof Hw as (F & _ & _).
  assert (Eu : u s' = u s ∧ files s' = files s ∧ lastf s' = lastf s ∧ inodes s' = inodes s ∧ pidhash s' = pidhash s) by (by rewrite F).
  destruct Eu as (E1 & E2 & E3 & E4 & E5). exists s'. split; [exact E|]. split; [|done].
  split; rewrite ?E1, ?E2; try done. intros _. split; [eauto| |].
  - exists hq. eapply hash_inv_view; [done| |done]. intros p. by eapply woke_view.
  - intros fp r n. rewrite E2, E4. apply Hd.
Qed.

(** * The invariant *)

(** [ext fp] references to file [fp] are held elsewhere: by other processes'
    descriptors, by the kernel. [adj] is what a call has still to settle. *)
Record dt (ext adj : nat → Z) (s : kstate) : Prop := {
  dt_len : length (u_ofile (u s)) = NOFILE ∧ length (u_pofile (u s)) = NOFILE;
  dt_last : -1 ≤ u_lastfile (u s) < Z.of_nat NOFILE;
  dt_above : ∀ i fp, u_ofile (u s) !! i = Some (Some fp) → Z.of_nat i ≤ u_lastfile (u s);
  dt_slots : ∀ fp, (fp < NFILE)%nat → is_Some (files s !! fp);
  dt_open : ∀ i fp, u_ofile (u s) !! i = Some (Some fp) → ∃ r, files s !! fp = Some r ∧ 1 ≤ f_type r ≤ 3;
  dt_count : ∀ fp r, files s !! fp = Some r → f_count r = ext fp + refs fp (u_ofile (u s)) + adj fp;
  dt_ext : ∀ fp, 0 ≤ ext fp < 2 ^ 31;
  dt_lastf : ∀ l, lastf s = Some l → (l ≤ NFILE)%nat;
  dt_side : side s;
}.
Definition none_due : nat → Z := λ _, 0.

Lemma keeps_dt ext adj s s' : keeps s s' → dt ext adj s → dt ext adj s'.
Proof.
  intros K [[L1 L2] Hl Ha Hs Ho Hc He Hf Hsd]. pose proof K as [E1 E2 E3 _ Ek E5 E6].
  split; rewrite ?E1, ?E2, ?E3, ?E5; try done; [| | |by apply E6].
  - intros fp Hlt. destruct (Hs fp Hlt) as [r Hr]. destruct (keeps_lookup _ _ _ _ K Hr) as (r' & ? & _). eauto.
  - intros i fp Hi. destruct (Ho i fp Hi) as (r & Hr & ?). destruct (keeps_lookup _ _ _ _ K Hr) as (r' & ? & _ & E). exists r'. by rewrite E.
  - intros fp r' Hr'. destruct (keeps_back _ _ _ _ K Hr') as (r & Hr & -> & _). by apply Hc.
Qed.
Lemma dt_ext_adj ext adj adj' s : (∀ fp, adj' fp = adj fp) → dt ext adj s → dt ext adj' s.
Proof. intros E []. split; try done. intros fp r Hr. rewrite E. eauto. Qed.

(** * The parts of the calls *)

Definition int (z : Z) : Prop := - 2 ^ 31 ≤ z < 2 ^ 31.
Lemma keeps_error s e : keeps s (s <| u ::= λ r, r <| u_error := e |> |>).
Proof. by apply keeps_setu. Qed.
Lemma getf_spec ext adj s f :
  dt ext adj s → int f →
  (∃ fp r, getf f s = Done (Some fp) s ∧ 0 ≤ f < Z.of_nat NOFILE ∧ u_ofile (u s) !! Z.to_nat f = Some (Some fp) ∧
     files s !! fp = Some r ∧ 1 ≤ f_type r ≤ 3) ∨
  (∃ s', getf f s = Done None s' ∧ keeps s s').
Proof.
  intros Hd Hf. unfold getf. rewrite (bind_done _ _ _ _ _ (getu_eq _ _)). cbv beta.
  destruct (u32 f <? Z.of_nat NOFILE) eqn:El.
  2:{ right. rewrite (bind_done _ _ _ _ _ (set_error_eq _ _)). eexists. split; [done|apply keeps_error]. }
  apply Z.ltb_lt in El. assert (0 ≤ f < Z.of_nat NOFILE ∧ u32 f = f) as [Hr ->].
  { unfold int in Hf. destruct (decide (0 ≤ f)); [rewrite u32_small in * by lia; lia|].
    exfalso. unfold u32 in El. rewrite <- (Z.mod_add f 1), Z.mod_small in El by lia. unfold NOFILE in El. lia. }
  destruct (nth _ _ None) as [fp|] eqn:En.
  - left. destruct (lookup_lt_is_Some_2 (u_ofile (u s)) (Z.to_nat f)) as [x Hx]; [destruct (dt_len _ _ _ Hd); lia|].
    rewrite (nth_lookup_Some _ _ _ _ Hx) in En. subst x. destruct (dt_open _ _ _ Hd _ _ Hx) as (r & ? & ?). by exists fp, r.
  - right. rewrite (bind_done _ _ _ _ _ (set_error_eq _ _)). eexists. split; [done|apply keeps_error].
Qed.

(** A free descriptor is found, or EMFILE reported. *)
Lemma ufalloc_scan_spec ext adj l s :
  dt ext adj s → Forall (λ i, (i < NOFILE)%nat) l →
  (∃ i s', ufalloc_scan l s = Done (Z.of_nat i) s' ∧ (i < NOFILE)%nat ∧ u_ofile (u s') !! i = Some None ∧ dt ext adj s' ∧
     u_ofile (u s') = u_ofile (u s) ∧ u_arg (u s') = u_arg (u s) ∧ files s' = files s ∧ lastf s' = lastf s ∧ Z.of_nat i ≤ u_lastfile (u s')) ∨
  (∃ s', ufalloc_scan l s = Done (-1) s' ∧ keeps s s').
Proof.
  intros Hd. induction 1 as [|i l Hi _ IH]; cbn [ufalloc_scan].
  - right. rewrite (bind_done _ _ _ _ _ (set_error_eq _ _)). eexists. split; [done|apply keeps_error].
  - rewrite (bind_done _ _ _ _ _ (getu_eq _ _)). cbv beta. case_bool_decide as En; [|apply IH]. left.
    destruct (lookup_lt_is_Some_2 (u_ofile (u s)) i) as [x Hx]; [destruct (dt_len _ _ _ Hd); lia|].
    rewrite (nth_lookup_Some _ _ _ _ Hx) in En. subst x. unfold set_rval.
    rewrite (bind_done _ _ _ _ _ (setu_eq _ _)). cbv beta. rewrite (bind_done _ _ _ _ _ (setu_eq _ _)). cbv beta.
    rewrite (bind_done _ _ _ _ _ (setu_eq _ _)). cbv beta. eexists i, _. split; [done|]. split; [done|].
    split; [exact Hx|]. split; [|repeat (split; [done|]); simpl; lia].
    destruct Hd as [[L1 L2] Hl Ha Hs Ho Hc He Hf Hsd]. split; try done.
    + split; [done|]. simpl. by rewrite length_insert.
    + simpl. lia.
    + intros k fp Hk. simpl. specialize (Ha k fp Hk). lia.
    + by eapply side_ext; [..|exact Hsd]; eauto.
Qed.
Lemma ufalloc_spec ext adj i0 s :
  dt ext adj s → 0 ≤ i0 < Z.of_nat NOFILE →
  (∃ i s', ufalloc i0 s = Done (Z.of_nat i) s' ∧ (i < NOFILE)%nat ∧ u_ofile (u s') !! i = Some None ∧ dt ext adj s' ∧
     u_ofile (u s') = u_ofile (u s) ∧ u_arg (u s') = u_arg (u s) ∧ files s' = files s ∧ lastf s' = lastf s ∧ Z.of_nat i ≤ u_lastfile (u s')) ∨
  (∃ s', ufalloc i0 s = Done (-1) s' ∧ keeps s s').
Proof.
  intros Hd Hi. apply ufalloc_scan_spec; [done|]. apply Forall_forall. intros k Hk. apply elem_of_seq in Hk. lia.
Qed.

(** A descriptor gets a reference to a file, over what it referred to. *)
Lemma dupit_spec ext adj s fd fp flags old r :
  dt ext adj s → (fd < NOFILE)%nat → u_ofile (u s) !! fd = Some old → files s !! fp = Some r → 1 ≤ f_type r ≤ 3 →
  -1 ≤ adj fp ≤ 1 →
  ∃ s', dupit fd fp flags s = Done tt s' ∧ dt ext (λ x, adj x + is_ref x old) s'.
Proof.
  intros [[L1 L2] Hl Ha Hs Ho Hc He Hf Hsd] Hfd Hold Hr Ht Hadj. unfold dupit.
  rewrite (bind_done _ _ _ _ _ (setu_eq _ _)). cbv beta. rewrite (bind_done _ _ _ _ _ (setu_eq _ _)). cbv beta.
  match goal with |- context [(setfile _ _ ≫= _) ?st] => assert (Hr1 : files st !! fp = Some r) by exact Hr end.
  rewrite (bind_done _ _ _ _ _ (setfile_eq _ _ _ _ Hr1)). cbv beta. rewrite setu_eq. eexists. split; [done|]. clear Hr1.
  assert (Eu : u32 (f_count r + 1) = f_count r + 1).
  { apply u32_small. rewrite (Hc fp r Hr). pose proof (refs_nonneg fp (u_ofile (u s))). pose proof (refs_le fp (u_ofile (u s))).
    specialize (He fp). rewrite L1 in *. unfold NOFILE in *. lia. }
  set (g := λ c : file, c <| f_count ::= λ z, u32 (z + 1) |>).
  assert (Hlk : ∀ k q, <[fp := g r]> (files s) !! k = Some q → ∃ q0, files s !! k = Some q0 ∧
    f_count q = f_count q0 + is_ref k (Some fp) ∧ f_type q = f_type q0 ∧ f_data q = f_data q0).
  { intros k q. destruct (decide (k = fp)) as [->|Hk].
    - rewrite lookup_insert_eq. intros [= <-]. exists r. split; [done|]. split; [|done]. unfold is_ref. rewrite decide_True by done. exact Eu.
    - rewrite lookup_insert_ne by done. intros Hq. exists q. split; [done|]. split; [|done]. unfold is_ref.
      rewrite decide_False by congruence. lia. }
  split.
  - split; simpl; by rewrite length_insert.
  - simpl. lia.
  - intros i x. simpl. destruct (decide (i = fd)) as [->|Hi].
    + intros _. lia.
    + rewrite list_lookup_insert_ne by done. intros Hx. specialize (Ha i x Hx). lia.
  - intros k Hk. simpl. destruct (decide (k = fp)) as [->|]; [by rewrite lookup_insert_eq|rewrite lookup_insert_ne by done; by apply Hs].
  - intros i x. simpl. intros Hx. assert (Hx' : ∃ q, files s !! x = Some q ∧ 1 ≤ f_type q ≤ 3).
    { destruct (decide (i = fd)) as [->|Hi]; [|rewrite list_lookup_insert_ne in Hx by done; by apply (Ho i)].
      rewrite list_lookup_insert_eq in Hx by lia. injection Hx as <-. by exists r. }
    destruct Hx' as (q & Hq & Hqt). destruct (decide (x = fp)) as [->|].
    + rewrite lookup_insert_eq. by exists (g r).
    + rewrite lookup_insert_ne by done. by exists q.
  - intros k q Hq. destruct (Hlk k q Hq) as (q0 & Hq0 & -> & _). simpl. rewrite (Hc k q0 Hq0), (refs_insert k _ fd old _ Hold). lia.
  - done.
  - done.
  - eapply side_ext; [..|exact Hsd]; try done. intros k q Hq. destruct (Hlk k q Hq) as (q0 & ? & _ & _ & ->). exists q0.
    split; [done|by left].
Qed.

(** A count goes down by one. *)
Lemma dt_setcount ext adj s fp g r :
  dt ext adj s → files s !! fp = Some r → f_count (g r) = f_count r - 1 → f_type (g r) = f_type r → f_data (g r) = f_data r →
  dt ext (λ x, adj x - is_ref x (Some fp)) (s <| files ::= <[fp := g r]> |>).
Proof.
  intros [L Hl Ha Hs Ho Hc He Hf Hsd] Hr E1 E2 E3. split; try done.
  - intros k Hk. simpl. destruct (decide (k = fp)) as [->|]; [by rewrite lookup_insert_eq|rewrite lookup_insert_ne by done; by apply Hs].
  - intros i x Hx. destruct (Ho i x Hx) as (q & Hq & Hqt). simpl. destruct (decide (x = fp)) as [->|].
    + rewrite lookup_insert_eq. exists (g r). split; [done|]. rewrite E2. by assert (q = r) as -> by congruence.
    + rewrite lookup_insert_ne by done. by exists q.
  - intros k q. simpl. unfold is_ref. destruct (decide (k = fp)) as [->|Hk].
    + rewrite lookup_insert_eq. intros [= <-]. rewrite decide_True, E1, (Hc fp r Hr) by done. lia.
    + rewrite lookup_insert_ne by done. intros Hq. rewrite decide_False, (Hc k q Hq) by congruence. lia.
  - eapply side_ext; [..|exact Hsd]; try done. intros k q. simpl. destruct (decide (k = fp)) as [->|].
    + rewrite lookup_insert_eq. intros [= <-]. exists r. split; [done|by left].
    + rewrite lookup_insert_ne by done. intros Hq. exists q. split; [done|by left].
Qed.

(** [ino_unlock] touches no count. *)
Lemma keeps_clr s fp m r : files s !! fp = Some r → ∃ s', Flock.clr_fflag fp m s = Done tt s' ∧ keeps s s' ∧ inodes s' = inodes s.
Proof.
  intros Hr. unfold Flock.clr_fflag. rewrite (setfile_eq _ _ _ _ Hr). eexists. split; [done|]. split; [|done].
  by apply (keeps_setfile s fp _ r).
Qed.
Lemma unlock_one fp n (f g : inode → inode) (c : inode → Z) (fl : bool) m s :
  side s → is_Some (files s !! fp) → is_Some (inodes s !! n) →
  ∃ s', (seti n f ;; ip ← geti n; when (c ip =? 0) (seti n g ;; when fl (Sched.wakeup (c_shlockc n))) ;; Flock.clr_fflag fp m) s =
    Done tt s' ∧ keeps s s' ∧ is_Some (files s' !! fp) ∧ is_Some (inodes s' !! n).
Proof.
  intros Hsd [r Hr] [i Hi]. rewrite (bind_done _ _ _ _ _ (seti_eq _ _ _ _ Hi)). cbv beta.
  set (s1 := s <| inodes ::= _ |>). assert (K1 : keeps s s1) by (by apply (keeps_seti s n f i)).
  assert (Hi1 : inodes s1 !! n = Some (f i)) by apply lookup_insert_eq.
  rewrite (bind_done _ _ _ _ _ (geti_eq _ _ _ Hi1)). cbv beta.
  assert (Hw : ∃ s2, when (c (f i) =? 0) (seti n g ;; when fl (Sched.wakeup (c_shlockc n))) s1 = Done tt s2 ∧ keeps s1 s2 ∧
    files s2 = files s1 ∧ is_Some (inodes s2 !! n)).
  { destruct (c (f i) =? 0); cbn [when]; [|exists s1; split; [done|]; split; [apply keeps_refl|]; split; [done|by eexists]].
    rewrite (bind_done _ _ _ _ _ (seti_eq _ _ _ _ Hi1)). cbv beta. set (s2 := s1 <| inodes ::= _ |>).
    assert (K2 : keeps s1 s2) by (by apply (keeps_seti s1 n g (f i))).
    assert (Hi2 : is_Some (inodes s2 !! n)) by (eexists; apply lookup_insert_eq).
    destruct fl; cbn [when]; [|by exists s2].
    destruct (keeps_wakeup (c_shlockc n) s2) as (s3 & E & K3 & E1 & E2); [by apply K2, K1|].
    exists s3. split; [done|]. split; [by eapply keeps_trans|]. split; [by rewrite E2|by rewrite E1]. }
  destruct Hw as (s2 & E2 & K2 & Ef & Hi2). rewrite (bind_done _ _ _ _ _ E2). cbv beta.
  assert (Hr2 : files s2 !! fp = Some r) by (rewrite Ef; exact Hr).
  destruct (keeps_clr s2 fp m r Hr2) as (s3 & E3 & K3 & Ei). exists s3. split; [done|].
  assert (K : keeps s s3) by (eapply keeps_trans; [exact K1|]; by eapply keeps_trans). split; [done|].
  destruct (keeps_lookup _ _ _ _ K Hr) as (r3 & -> & _). split; [done|by rewrite Ei].
Qed.
Lemma ino_unlock_keeps s fp kind r :
  side s → files s !! fp = Some r → ∃ s', Flock.ino_unlock fp kind s = Done tt s' ∧ keeps s s'.
Proof.
  intros Hsd Hr. unfold Flock.ino_unlock. rewrite (bind_done _ _ _ _ _ (getfile_eq _ _ _ Hr)). cbv beta zeta.
  destruct (f_data r) as [n|] eqn:Ed; [|exists s; split; [done|apply keeps_refl]].
  destruct (_ =? 0); [exists s; split; [done|apply keeps_refl]|].
  destruct (sd_ino _ Hsd fp r n Hr Ed) as [i Hi]. rewrite (bind_done _ _ _ _ _ (geti_eq _ _ _ Hi)). cbv beta.
  set (k := Z.land kind (f_flag r)).
  assert (Hsh : ∃ s1, when (has k FSHLOCK) (Flock.unlock_shared fp n (i_flag i)) s = Done tt s1 ∧ keeps s s1 ∧
    is_Some (files s1 !! fp) ∧ is_Some (inodes s1 !! n)).
  { destruct (has k FSHLOCK); cbn [when]; [|exists s; split; [done|]; split; [apply keeps_refl|]; split; by eexists].
    apply unlock_one; [done|by eexists..]. }
  destruct Hsh as (s1 & E1 & K1 & Hf1 & Hi1). rewrite (bind_done _ _ _ _ _ E1). cbv beta.
  destruct (has k FEXLOCK); cbn [when]; [|by exists s1].
  destruct (unlock_one fp n (λ i, i <| i_exlockc ::= λ c, u16 (c - 1) |>) (λ i, i <| i_flag ::= λ f, clrf f (Z.lor IEXLOCK ILWAIT) |>)
    i_exlockc (has (i_flag i) ILWAIT) FEXLOCK s1) as (s2 & E2 & K2 & _); [by apply K1|done|done|].
  exists s2. split; [exact E2|by eapply keeps_trans].
Qed.

(** * The calls *)

Context `{FileEnv}.
(** What a file's operations promise: they return, and leave descriptors and
    counts alone. *)
Record ops_ok : Prop := {
  oo_close : ∀ fp s, side s → ∃ e s', fo_close fp s = Done e s' ∧ keeps s s';
  oo_ioctl : ∀ fp cmd v s, side s → ∃ r s', fo_ioctl fp cmd v s = Done r s' ∧ keeps s s';
}.
Hypothesis Hops : ops_ok.

Lemma fops_ok s fp r : files s !! fp = Some r → 1 ≤ f_type r ≤ 3 → fops fp s = Done tt s.
Proof.
  intros Hr Ht. unfold fops. rewrite (bind_done _ _ _ _ _ (getfile_eq _ _ _ Hr)). cbv beta.
  replace (1 <=? f_type r) with true by (symmetry; apply Z.leb_le; lia).
  by replace (f_type r <=? 3) with true by (symmetry; apply Z.leb_le; lia).
Qed.
Lemma fioctl_keeps s fp cmd v r :
  side s → files s !! fp = Some r → 1 ≤ f_type r ≤ 3 → ∃ a s', fioctl fp cmd v s = Done a s' ∧ keeps s s'.
Proof.
  intros Hsd Hr Ht. unfold fioctl. rewrite (bind_done _ _ _ _ _ (fops_ok _ _ _ Hr Ht)). cbv beta. by apply (oo_ioctl Hops).
Qed.

(** One reference less. *)
Lemma closef_spec ext adj s fp r :
  dt ext adj s → files s !! fp = Some r → 1 ≤ f_type r ≤ 3 → 1 ≤ f_count r →
  ∃ e s', closef (Some fp) s = Done e s' ∧ dt ext (λ x, adj x - is_ref x (Some fp)) s' ∧
    u_ofile (u s') = u_ofile (u s) ∧ u_arg (u s') = u_arg (u s).
Proof.
  intros Hd Hr Ht Hc. unfold closef. rewrite (bind_done _ _ _ _ _ (getfile_eq _ _ _ Hr)). cbv beta.
  destruct (1 <? f_count r) eqn:E1.
  - rewrite (bind_done _ _ _ _ _ (setfile_eq _ _ _ _ Hr)). eexists 0, _. split; [done|]. split; [|done].
    apply (dt_setcount ext adj s fp (λ f, f <| f_count ::= λ c, c - 1 |>) r); done.
  - apply Z.ltb_ge in E1.
    assert (Hl : ∃ s1, when (has (f_flag r) (Z.lor FSHLOCK FEXLOCK) && (f_type r =? DTYPE_INODE))
      (Flock.ino_unlock fp (Z.lor FSHLOCK FEXLOCK)) s = Done tt s1 ∧ keeps s s1).
    { destruct (_ && _); cbn [when]; [by eapply ino_unlock_keeps; [apply Hd|]|exists s; split; [done|apply keeps_refl]]. }
    destruct Hl as (s1 & E2 & K1). rewrite (bind_done _ _ _ _ _ E2). cbv beta.
    destruct (keeps_lookup _ _ _ _ K1 Hr) as (r1 & Hr1 & Hc1 & Ht1).
    rewrite (bind_done _ _ _ _ _ (fops_ok s1 fp r1 Hr1 ltac:(lia))). cbv beta.
    destruct (oo_close Hops fp s1) as (e & s2 & E3 & K2); [by apply K1, Hd|]. rewrite (bind_done _ _ _ _ _ E3). cbv beta.
    destruct (keeps_lookup _ _ _ _ K2 Hr1) as (r2 & Hr2 & Hc2 & Ht2).
    rewrite (bind_done _ _ _ _ _ (setfile_eq _ _ _ _ Hr2)). eexists e, _. split; [done|].
    assert (K : keeps s s2) by (by eapply keeps_trans). split; [|split; apply K].
    apply (dt_setcount ext adj s2 fp (λ f, f <| f_count := 0 |>) r2); try done; [by eapply keeps_dt|]. simpl. lia.
Qed.

Lemma keeps_then ext adj s s' : dt ext adj s → keeps s s' → dt ext adj s'.
Proof. intros Hd K. by eapply keeps_dt. Qed.
Lemma uap_int s n v : u_arg (u s) !! n = Some v → uap n s = Done v s.
Proof. apply uap_eq. Qed.
Definition kept (ext : nat → Z) (m : K unit) (s : kstate) : Prop := ∃ s', m s = Done tt s' ∧ dt ext none_due s'.

(** Over a free descriptor. *)
Lemma dupit_free ext s fd fp flags r :
  dt ext none_due s → (fd < NOFILE)%nat → u_ofile (u s) !! fd = Some None → files s !! fp = Some r → 1 ≤ f_type r ≤ 3 →
  kept ext (dupit fd fp flags) s.
Proof.
  intros Hd Hfd Ho Hr Ht. destruct (dupit_spec ext none_due s fd fp flags None r Hd Hfd Ho Hr Ht) as (s' & E & Hd'); [done|].
  exists s'. split; [done|]. eapply dt_ext_adj; [|exact Hd']. done.
Qed.
Lemma dup_at ext s fd fp (flags : list Z → nat → Z) r i0 :
  dt ext none_due s → 0 ≤ i0 < Z.of_nat NOFILE → files s !! fp = Some r → 1 ≤ f_type r ≤ 3 →
  kept ext (i ← ufalloc i0; if i <? 0 then mret tt else pofile ← getu u_pofile; dupit (Z.to_nat i) fp (flags pofile fd)) s.
Proof.
  intros Hd Hi Hr Ht. destruct (ufalloc_spec ext none_due i0 s Hd Hi) as [(i & s1 & E & Hlt & Hfree & Hd1 & _ & _ & Ef & _)|(s1 & E & K)].
  - unfold kept. rewrite (bind_done _ _ _ _ _ E). cbv beta. replace (Z.of_nat i <? 0) with false by (symmetry; apply Z.ltb_ge; lia).
    rewrite (bind_done _ _ _ _ _ (getu_eq _ _)). cbv beta. rewrite Nat2Z.id. apply (dupit_free ext s1 i fp _ r); try done. by rewrite Ef.
  - unfold kept. rewrite (bind_done _ _ _ _ _ E). cbv beta. exists s1. split; [done|by eapply keeps_then].
Qed.
Lemma kept_keeps ext s s' (m : K unit) : dt ext none_due s → m s = Done tt s' → keeps s s' → kept ext m s.
Proof. intros Hd E K. exists s'. split; [done|]. by eapply keeps_then. Qed.

Lemma dup2_kept ext s i j :
  dt ext none_due s → u_arg (u s) !! 0%nat = Some i → u_arg (u s) !! 1%nat = Some j → int i → kept ext dup2 s.
Proof.
  intros Hd Hi Hj Ii. unfold kept, dup2. rewrite (bind_done _ _ _ _ _ (uap_eq _ _ _ Hi)). cbv beta.
  rewrite (bind_done _ _ _ _ _ (uap_eq _ _ _ Hj)). cbv beta.
  destruct (getf_spec ext none_due s i Hd Ii) as [(fp & r & E & Hr & Hx & Hf & Ht)|(s1 & E & K)];
    rewrite (bind_done _ _ _ _ _ E); cbv beta iota; [|exists s1; split; [done|by eapply keeps_then]].
  destruct ((j <? 0) || (Z.of_nat NOFILE <=? j)) eqn:Ej.
  { rewrite set_error_eq. eexists. split; [done|]. eapply keeps_then; [done|apply keeps_error]. }
  apply orb_false_iff in Ej as [E1%Z.ltb_ge E2%Z.leb_gt]. unfold set_rval. rewrite (bind_done _ _ _ _ _ (setu_eq _ _)). cbv beta.
  set (s1 := s <| u ::= _ |>). assert (K1 : keeps s s1) by (by apply keeps_setu).
  assert (Hd1 : dt ext none_due s1) by (by eapply keeps_then).
  destruct (i =? j) eqn:Eij; [by exists s1|]. apply Z.eqb_neq in Eij.
  rewrite (bind_done _ _ _ _ _ (getu_eq _ _)). cbv beta.
  destruct (lookup_lt_is_Some_2 (u_ofile (u s)) (Z.to_nat j)) as [old Hold]; [destruct (dt_len _ _ _ Hd); lia|].
  change (u_ofile (u s1)) with (u_ofile (u s)). rewrite (nth_lookup_Some _ _ _ _ Hold).
  assert (Hclose : ∃ s2, (match old with Some _ => _ ← closef old; mret tt | None => mret tt end) s1 = Done tt s2 ∧
    dt ext (λ x, none_due x - is_ref x old) s2 ∧ u_ofile (u s2) = u_ofile (u s) ∧ ∃ r2, files s2 !! fp = Some r2 ∧ 1 ≤ f_type r2 ≤ 3).
  { destruct old as [fo|].
    - destruct (dt_open _ _ _ Hd1 _ _ Hold) as (ro & Hro & Hto).
      destruct (closef_spec ext none_due s1 fo ro Hd1 Hro Hto) as (e & s2 & Ec & Hd2 & Eo & _).
      { rewrite (dt_count _ _ _ Hd1 fo ro Hro). pose proof (refs_in fo _ _ Hold). pose proof (dt_ext _ _ _ Hd fo).
        unfold none_due. change (u_ofile (u s1)) with (u_ofile (u s)). lia. }
      exists s2. rewrite (bind_done _ _ _ _ _ Ec). split; [done|]. split; [done|]. split; [done|].
      apply (dt_open _ _ _ Hd2 (Z.to_nat i)). by rewrite Eo.
    - exists s1. split; [done|]. split; [by eapply dt_ext_adj|]. split; [done|by exists r]. }
  destruct Hclose as (s2 & E3 & Hd2 & Eo & r2 & Hr2 & Ht2). rewrite (bind_done _ _ _ _ _ E3). cbv beta.
  rewrite (bind_done _ _ _ _ _ (getu_eq _ _)). cbv beta.
  destruct (dupit_spec ext (λ x, none_due x - is_ref x old) s2 (Z.to_nat j) fp (Z.ldiff (nth (Z.to_nat i) (u_pofile (u s2)) 0) UF_EXCLOSE) old r2)
    as (s3 & E4 & Hd3); [exact Hd2|lia|by rewrite Eo|done|done| |].
  { pose proof (is_ref_nonneg fp old). unfold none_due. lia. }
  exists s3. split; [exact E4|]. eapply dt_ext_adj; [|exact Hd3]. intros x. unfold none_due. simpl. lia.
Qed.

Lemma dup_kept ext s i j :
  dt ext none_due s → u_arg (u s) !! 0%nat = Some i → u_arg (u s) !! 1%nat = Some j → int i → kept ext dup s.
Proof.
  intros Hd Hi Hj Ii. unfold kept, dup. rewrite (bind_done _ _ _ _ _ (uap_eq _ _ _ Hi)). cbv beta.
  destruct (negb (Z.ldiff i 63 =? 0)).
  - unfold set_uap. rewrite (bind_done _ _ _ _ _ (setu_eq _ _)). cbv beta.
    apply (dup2_kept ext _ (Z.land i 63) j); [|by apply list_lookup_insert_eq, (lookup_lt_Some _ _ i)|by etrans; [apply list_lookup_insert_ne|]|].
    + destruct Hd as [? ? ? ? ? ? ? ? Hsd]. split; try done. eapply side_ext; [..|exact Hsd]; eauto.
    + unfold int. pose proof (Z.land_nonneg i 63) as [_ Hp]. specialize (Hp ltac:(right; lia)).
      assert (Z.land i 63 < 64); [|lia]. change 63 with (Z.ones 6). rewrite Z.land_ones by lia. apply Z.mod_pos_bound. lia.
  - destruct (getf_spec ext none_due s i Hd Ii) as [(fp & r & E & Hr & Hx & Hf & Ht)|(s1 & E & K)];
      rewrite (bind_done _ _ _ _ _ E); cbv beta iota; [|exists s1; split; [done|by eapply keeps_then]].
    apply (dup_at ext s (Z.to_nat i) fp (λ p k, Z.ldiff (nth k p 0) UF_EXCLOSE) r 0); try done.
Qed.

(** ** fcntl *)

Lemma fset_keeps s fp bit v r :
  side s → files s !! fp = Some r → 1 ≤ f_type r ≤ 3 → ∃ e s', fset fp bit v s = Done e s' ∧ keeps s s'.
Proof.
  intros Hsd Hr Ht. unfold fset.
  assert (Hset : ∃ g, (if negb (v =? 0) then setfile fp (λ f, f <| f_flag ::= λ x, setf x bit |>)
    else setfile fp (λ f, f <| f_flag ::= λ x, clrf x bit |>)) s = Done tt (s <| files ::= <[fp := g r]> |>) ∧
    counted (g r) = counted r ∧ f_data (g r) = f_data r).
  { destruct (negb _); [exists (λ f, f <| f_flag ::= λ x, setf x bit |>)|exists (λ f, f <| f_flag ::= λ x, clrf x bit |>)];
      (split; [exact (setfile_eq _ _ _ _ Hr)|done]). }
  destruct Hset as (g & E & Ec & Ed). rewrite (bind_done _ _ _ _ _ E). cbv beta.
  assert (K : keeps s (s <| files ::= <[fp := g r]> |>)) by (by apply (keeps_setfile s fp g r)).
  destruct (keeps_lookup _ _ _ _ K Hr) as (r1 & Hr1 & _ & Ht1).
  destruct (fioctl_keeps _ fp (if bit =? FNONBLOCK then FIONBIO else FIOASYNC) v r1 (kp_side _ _ K Hsd) Hr1) as (a & s2 & E2 & K2); [by rewrite Ht1|].
  rewrite (bind_done _ _ _ _ _ E2). exists a.1, s2. split; [done|by eapply keeps_trans].
Qed.
Lemma setfile_keeps s fp g r :
  files s !! fp = Some r → counted (g r) = counted r → f_data (g r) = f_data r →
  ∃ s', setfile fp g s = Done tt s' ∧ keeps s s' ∧ files s' !! fp = Some (g r).
Proof.
  intros Hr Hc Hd. rewrite (setfile_eq _ _ _ _ Hr). eexists. split; [done|].
  split; [by apply (keeps_setfile s fp g r)|apply lookup_insert_eq].
Qed.
Lemma error_keeps s e : ∃ s', set_error e s = Done tt s' ∧ keeps s s'.
Proof. rewrite set_error_eq. eexists. split; [done|apply keeps_error]. Qed.
(** What a call keeps, its parts keep one after the other. *)
Definition still (fp : nat) (s s' : kstate) : Prop :=
  keeps s s' ∧ side s' ∧ ∃ r, files s' !! fp = Some r ∧ 1 ≤ f_type r ≤ 3.
Lemma still_keeps fp s0 s s' : still fp s0 s → keeps s s' → still fp s0 s'.
Proof.
  intros (K0 & Hsd & r & Hr & Ht) K. split; [by eapply keeps_trans|]. split; [by apply K|].
  destruct (keeps_lookup _ _ _ _ K Hr) as (r' & Hr' & _ & E). exists r'. by rewrite E.
Qed.
Lemma still_fset fp s0 s bit v : still fp s0 s → ∃ e s', fset fp bit v s = Done e s' ∧ still fp s0 s'.
Proof.
  intros Hst. pose proof Hst as (_ & Hsd & r & Hr & Ht). destruct (fset_keeps s fp bit v r Hsd Hr Ht) as (e & s' & E & K).
  exists e, s'. split; [done|by eapply still_keeps].
Qed.
Lemma still_setfl fp s0 s arg : still fp s0 s → ∃ s', setfl fp arg s = Done tt s' ∧ still fp s0 s'.
Proof.
  intros Hst. unfold setfl. pose proof Hst as (_ & _ & r & Hr & _).
  destruct (setfile_keeps s fp (λ f, f <| f_flag ::= λ x, clrf x FCNTLFLAGS |>) r Hr) as (s1 & E1 & K1 & Hr1); [done..|].
  rewrite (bind_done _ _ _ _ _ E1). cbv beta. pose proof (still_keeps _ _ _ _ Hst K1) as Hst1.
  destruct (setfile_keeps s1 fp (λ f, f <| f_flag ::= λ x, Z.lor x (Z.land (FFLAGS arg) FCNTLFLAGS) |>) _ Hr1) as (s2 & E2 & K2 & Hr2); [done..|].
  rewrite (bind_done _ _ _ _ _ E2). cbv beta. pose proof (still_keeps _ _ _ _ Hst1 K2) as Hst2.
  rewrite (bind_done _ _ _ _ _ (getfile_eq _ _ _ Hr2)). cbv beta.
  edestruct (still_fset fp s0 s2) as (e & s3 & E3 & Hst3); [done|]. rewrite (bind_done _ _ _ _ _ E3). cbv beta.
  destruct (error_keeps s3 e) as (s4 & E4 & K4). rewrite (bind_done _ _ _ _ _ E4). cbv beta.
  pose proof (still_keeps _ _ _ _ Hst3 K4) as Hst4. destruct (negb (e =? 0)); [by exists s4|].
  pose proof Hst4 as (_ & _ & r4 & Hr4 & _). rewrite (bind_done _ _ _ _ _ (getfile_eq _ _ _ Hr4)). cbv beta.
  edestruct (still_fset fp s0 s4) as (e5 & s5 & E5 & Hst5); [done|]. rewrite (bind_done _ _ _ _ _ E5). cbv beta.
  destruct (error_keeps s5 e5) as (s6 & E6 & K6). rewrite (bind_done _ _ _ _ _ E6). cbv beta.
  pose proof (still_keeps _ _ _ _ Hst5 K6) as Hst6. destruct (negb (e5 =? 0)); [|by exists s6].
  edestruct (still_fset fp s0 s6) as (e7 & s7 & E7 & Hst7); [done|]. rewrite (bind_done _ _ _ _ _ E7). by exists s7.
Qed.
Lemma still_fioctl fp s0 s cmd v : still fp s0 s → ∃ a s', fioctl fp cmd v s = Done a s' ∧ still fp s0 s'.
Proof.
  intros Hst. pose proof Hst as (_ & Hsd & r & Hr & Ht). destruct (fioctl_keeps s fp cmd v r Hsd Hr Ht) as (a & s' & E & K).
  exists a, s'. split; [done|by eapply still_keeps].
Qed.
Lemma still_fsetown fp s0 s v : still fp s0 s → ∃ e s', fsetown fp v s = Done e s' ∧ still fp s0 s'.
Proof.
  intros Hst. unfold fsetown. pose proof Hst as (_ & Hsd & _).
  assert (Ho : ∃ o, (if 0 <? v then p ← Sched.pfind v; match p with None => mret None | Some p => r ← getp p; mret (Some (p_pgrp r)) end
    else mret (Some (i32 (- v)))) s = Done o s).
  { destruct (0 <? v); [|by eexists]. destruct (sd_hash _ Hsd) as [hq Hh].
    destruct (Sched.pfind_finds s hq v Hh) as (o & E & Ho). rewrite (bind_done _ _ _ _ _ E). cbv beta.
    destruct o as [p|]; [|by eexists]. destruct (proj1 (Ho p) eq_refl) as (r & _ & Hr & _).
    rewrite (bind_done _ _ _ _ _ (getp_eq _ _ _ Hr)). by eexists. }
  destruct Ho as (o & E). rewrite (bind_done _ _ _ _ _ E). cbv beta. destruct o as [v'|]; [|by exists ESRCH, s].
  destruct (still_fioctl fp s0 s TIOCSPGRP v' Hst) as (a & s1 & E1 & Hst1). rewrite (bind_done _ _ _ _ _ E1). by exists a.1, s1.
Qed.
Lemma still_kept ext fp s s' : dt ext none_due s → still fp s s' → dt ext none_due s'.
Proof. intros Hd (K & _). by eapply keeps_then. Qed.
Lemma keeps_rval s v : keeps s (s <| u ::= λ r, r <| u_rval := v |> |>).
Proof. by apply keeps_setu. Qed.
Lemma fcntl_kept ext s fd cmd arg :
  dt ext none_due s → u_arg (u s) = [fd; cmd; arg] → int fd → kept ext fcntl s.
Proof.
  intros Hd Ea If. unfold kept, fcntl. do 3 (erewrite bind_done; [|by apply uap_eq; rewrite Ea]; cbv beta).
  destruct (getf_spec ext none_due s fd Hd If) as [(fp & r & E & Hr & Hx & Hf & Ht)|(s1 & E & K)];
    rewrite (bind_done _ _ _ _ _ E); cbv beta iota; [|exists s1; split; [done|by eapply keeps_then]].
  rewrite (bind_done _ _ _ _ _ (getu_eq _ _)). cbv beta zeta.
  assert (Hst : still fp s s) by (split; [apply keeps_refl|]; split; [apply Hd|by exists r]).
  destruct (cmd =? F_DUPFD).
  { destruct ((arg <? 0) || (Z.of_nat NOFILE <=? arg)) eqn:Eg.
    - destruct (error_keeps s EINVAL) as (s1 & E1 & K1). exists s1. split; [done|by eapply keeps_then].
    - apply orb_false_iff in Eg as [E1%Z.ltb_ge E2%Z.leb_gt].
      by apply (dup_at ext s (Z.to_nat fd) fp (λ p k, Z.ldiff (nth k p 0) UF_EXCLOSE) r arg). }
  destruct (cmd =? F_GETFD).
  { unfold set_rval. rewrite setu_eq. eexists. split; [done|]. eapply keeps_then; [done|apply keeps_rval]. }
  destruct (cmd =? F_SETFD).
  { rewrite setu_eq. eexists. split; [done|]. eapply keeps_then; [done|]. apply keeps_setu; try done. apply length_insert. }
  destruct (cmd =? F_GETFL).
  { rewrite (bind_done _ _ _ _ _ (getfile_eq _ _ _ Hf)). unfold set_rval. rewrite setu_eq. eexists. split; [done|].
    eapply keeps_then; [done|apply keeps_rval]. }
  destruct (cmd =? F_SETFL).
  { destruct (still_setfl fp s s arg Hst) as (s1 & E1 & Hst1). exists s1. split; [done|by eapply still_kept]. }
  destruct (cmd =? F_GETOWN).
  { rewrite (bind_done _ _ _ _ _ (getu_eq _ _)). cbv beta. unfold fgetown, set_rval. rewrite bind_assoc.
    edestruct (still_fioctl fp s s TIOCGPGRP) as (a & s1 & E1 & Hst1); [done|].
    rewrite (bind_done _ _ _ _ _ E1). cbv beta.
    eexists. split; [exact eq_refl|].
    eapply keeps_then; [by eapply still_kept|]. eapply keeps_trans; [apply keeps_rval|apply keeps_error]. }
  destruct (cmd =? F_SETOWN).
  { destruct (still_fsetown fp s s arg Hst) as (e & s1 & E1 & Hst1). rewrite (bind_done _ _ _ _ _ E1). cbv beta.
    rewrite set_error_eq. eexists. split; [done|]. eapply keeps_then; [by eapply still_kept|apply keeps_error]. }
  destruct (error_keeps s EINVAL) as (s1 & E1 & K1). exists s1. split; [done|by eapply keeps_then].
Qed.

(** ** close *)

Lemma last_open_spec o k : (k ≤ length o)%nat →
  -1 ≤ last_open o k < Z.of_nat k ∧ ∀ i fp, (i < k)%nat → o !! i = Some (Some fp) → Z.of_nat i ≤ last_open o k.
Proof.
  induction k as [|k IH]; intros Hk; cbn [last_open]; [split; lia|].
  destruct IH as [IH1 IH2]; [lia|]. case_bool_decide as En.
  - split; [lia|]. intros i fp Hi Ho. destruct (decide (i = k)) as [->|]; [|apply (IH2 i fp); [lia|done]].
    by rewrite (nth_lookup_Some _ _ _ _ Ho) in En.
  - split; [lia|]. intros i fp Hi _. lia.
Qed.
Lemma dt_drop ext s i fp :
  dt ext none_due s → u_ofile (u s) !! i = Some (Some fp) →
  dt ext (λ x, is_ref x (Some fp)) (s <| u ::= λ r, r <| u_ofile ::= <[i := None]> |> |>
    <| u ::= λ r, r <| u_lastfile := last_open (u_ofile r) (Z.to_nat (u_lastfile r + 1)) |> |>).
Proof.
  intros [[L1 L2] Hl Ha Hs Ho Hc He Hf Hsd] Hi. pose proof (lookup_lt_Some _ _ _ Hi) as Hlt.
  assert (Hsub : ∀ k x, <[i := None]> (u_ofile (u s)) !! k = Some (Some x) → u_ofile (u s) !! k = Some (Some x)).
  { intros k x. destruct (decide (k = i)) as [->|]; [by rewrite list_lookup_insert_eq by lia|by rewrite list_lookup_insert_ne]. }
  destruct (last_open_spec (<[i := None]> (u_ofile (u s))) (Z.to_nat (u_lastfile (u s) + 1))) as [B1 B2];
    [rewrite length_insert; lia|].
  split; try done.
  - split; [simpl; by rewrite length_insert|done].
  - simpl. lia.
  - intros k x. simpl. intros Hk. apply (B2 k x); [|done]. specialize (Ha k x (Hsub k x Hk)). lia.
  - intros k x. simpl. intros Hk. by apply (Ho k), Hsub.
  - intros x q Hq. simpl. rewrite (Hc x q Hq), (refs_insert x _ i _ None Hi). unfold none_due, is_ref at 2. simpl. lia.
  - eapply side_ext; [..|exact Hsd]; eauto.
Qed.
Lemma close_kept ext s fd : dt ext none_due s → u_arg (u s) = [fd] → int fd → kept ext close s.
Proof.
  intros Hd Ea If. unfold kept, close. erewrite bind_done; [|by apply uap_eq; rewrite Ea]. cbv beta.
  destruct (getf_spec ext none_due s fd Hd If) as [(fp & r & E & Hr & Hx & Hf & Ht)|(s1 & E & K)];
    rewrite (bind_done _ _ _ _ _ E); cbv beta iota; [|exists s1; split; [done|by eapply keeps_then]].
  rewrite (bind_done _ _ _ _ _ (setu_eq _ _)). cbv beta. rewrite (bind_done _ _ _ _ _ (setu_eq _ _)). cbv beta.
  pose proof (dt_drop ext s _ _ Hd Hx) as Hd1.
  match goal with Hd : dt _ (λ x, is_ref x _) ?y |- _ => set (s1 := y) in * end.
  destruct (closef_spec ext (λ x, is_ref x (Some fp)) s1 fp r Hd1 Hf Ht) as (e & s2 & E2 & Hd2 & _).
  { rewrite (dt_count _ _ _ Hd fp r Hf). pose proof (refs_in fp _ _ Hx). pose proof (dt_ext _ _ _ Hd fp). unfold none_due. lia. }
  rewrite (bind_done _ _ _ _ _ E2). cbv beta. rewrite set_error_eq. eexists. split; [done|].
  eapply keeps_then; [|apply keeps_error]. eapply dt_ext_adj; [|exact Hd2]. intros x. unfold none_due. lia.
Qed.

(** ** falloc *)

Lemma file_scan_spec s l :
  (∀ fp, (fp < NFILE)%nat → is_Some (files s !! fp)) → Forall (λ fp, (fp < NFILE)%nat) l →
  ∃ o, file_scan l s = Done o s ∧ ∀ fp, o = Some fp → ∃ r, (fp < NFILE)%nat ∧ files s !! fp = Some r ∧ f_count r = 0.
Proof.
  intros Hs. induction 1 as [|fp l Hfp _ IH]; cbn [file_scan]; [by exists None|].
  destruct (Hs fp Hfp) as [r Hr]. rewrite (bind_done _ _ _ _ _ (getfile_eq _ _ _ Hr)). cbv beta.
  destruct (Z.eqb_spec (f_count r) 0) as [E|]; [|done]. exists (Some fp). split; [done|]. intros ? [= <-]. by exists r.
Qed.
Lemma dt_take ext s s' i fp r r' :
  dt ext none_due s → u_ofile (u s) !! i = Some None → Z.of_nat i ≤ u_lastfile (u s) →
  (fp < NFILE)%nat → files s !! fp = Some r → f_count r = 0 →
  u_ofile (u s') = <[i := Some fp]> (u_ofile (u s)) → u_pofile (u s') = u_pofile (u s) → u_lastfile (u s') = u_lastfile (u s) →
  (∀ k, files s' !! k = if decide (k = fp) then Some r' else files s !! k) → lastf s' = Some (S fp) →
  procs s' = procs s → qs s' = qs s → slpque s' = slpque s → pidhash s' = pidhash s → inodes s' = inodes s →
  f_count r' = 1 → f_data r' = None → 1 ≤ f_type r' ≤ 3 → dt ext none_due s'.
Proof.
  intros [[L1 L2] Hl Ha Hs Ho Hc He Hf Hsd] Hi Hle Hfp Hr Hc0 E1 E2 E3 E4 E5 E6 E7 E8 E9 E10 Hc' Hd' Ht'.
  split; rewrite ?E1, ?E2, ?E3, ?length_insert; try done.
  - intros k x. destruct (decide (k = i)) as [->|]; [done|]. rewrite list_lookup_insert_ne by done. apply Ha.
  - intros k Hk. rewrite E4. case_decide; [by eexists|by apply Hs].
  - intros k x Hx. rewrite E4. case_decide as E; [by exists r'|]. apply (Ho k). revert Hx.
    destruct (decide (k = i)) as [->|]; [|by rewrite list_lookup_insert_ne].
    rewrite list_lookup_insert_eq by (by eapply lookup_lt_Some). congruence.
  - intros x q. rewrite E4, (refs_insert x _ i None (Some fp) Hi). unfold is_ref, none_due.
    rewrite (decide_False (P := (None : option nat) = Some x)) by done. case_decide as E.
    + subst x. intros [= <-]. rewrite decide_True, Hc' by done. pose proof (Hc fp r Hr) as Hz. unfold none_due in Hz. lia.
    + intros Hq. rewrite decide_False by congruence. rewrite (Hc x q Hq). unfold none_due. lia.
  - rewrite E5. intros l [= <-]. lia.
  - eapply side_ext; [done|done|done|done| | |exact Hsd]; [|by rewrite E10].
    intros k q. rewrite E4. case_decide as E; [|intros Hq; exists q; split; [done|by left]].
    intros [= <-]. exists r. rewrite E. split; [done|by right].
Qed.

(** [falloc], and the type that its caller gives the new file. *)
Definition new_file (t : Z) : K unit :=
  o ← falloc; match o with None => mret tt | Some fp => setfile fp (λ f, f <| f_type := t |>) end.
Lemma new_file_kept ext s t : dt ext none_due s → 1 ≤ t ≤ 3 → kept ext (new_file t) s.
Proof.
  intros Hd Ht. unfold kept, new_file, falloc. rewrite bind_assoc.
  destruct (ufalloc_spec ext none_due 0 s Hd) as [(i & s1 & E & Hlt & Hfree & Hd1 & _ & _ & Ef & El & Hle)|(s1 & E & K)];
    [done| |rewrite (bind_done _ _ _ _ _ E); exists s1; split; [done|by eapply keeps_then]].
  rewrite (bind_done _ _ _ _ _ E). cbv beta. replace (Z.of_nat i <? 0) with false by (symmetry; apply Z.ltb_ge; lia).
  rewrite bind_assoc, (bind_done _ _ _ _ _ (get_s_eq _)). cbv beta zeta. rewrite bind_assoc.
  set (l := default 0%nat (lastf s1)). assert (Hl : (l ≤ NFILE)%nat).
  { unfold l. destruct (lastf s1) as [l0|] eqn:E0; simpl; [by apply (dt_lastf _ _ _ Hd1)|lia]. }
  set (s2 := s1 <| lastf := Some l |>).
  assert (E2 : modify (λ s, s <| lastf := Some l |>) s1 = Done tt s2) by done. rewrite (bind_done _ _ _ _ _ E2). cbv beta. clear E2.
  assert (Hs2 : ∀ fp, (fp < NFILE)%nat → is_Some (files s2 !! fp)) by apply (dt_slots _ _ _ Hd1).
  rewrite bind_assoc. destruct (file_scan_spec s2 (seq l (NFILE - l)) Hs2) as (o1 & E1 & Ho1).
  { apply Forall_forall. intros k Hk%elem_of_seq. lia. }
  rewrite (bind_done _ _ _ _ _ E1). cbv beta. rewrite bind_assoc.
  assert (Hscan : ∃ o, match o1 with Some fp => mret (Some fp) | None => file_scan (seq 0 l) end s2 = Done o s2 ∧
    ∀ fp, o = Some fp → ∃ r, (fp < NFILE)%nat ∧ files s2 !! fp = Some r ∧ f_count r = 0).
  { destruct o1 as [fp|]; [by exists (Some fp)|]. apply file_scan_spec; [done|].
    apply Forall_forall. intros k Hk%elem_of_seq. lia. }
  destruct Hscan as (o & E3 & Ho). rewrite (bind_done _ _ _ _ _ E3). cbv beta. destruct o as [fp|].
  2:{ eexists. split; [exact eq_refl|]. destruct Hd1 as [? ? ? ? ? ? ? ? Hsd]. split; try done.
      - intros ? [= <-]. done.
      - eapply side_ext; [..|exact Hsd]; eauto. }
  destruct (Ho fp eq_refl) as (r & Hfp & Hr & Hc0). change (files s2) with (files s1) in Hr. rewrite Nat2Z.id.
  rewrite bind_assoc, (bind_done _ _ _ _ _ (setu_eq _ _)). cbv beta. rewrite bind_assoc.
  do 3 (erewrite bind_done; [|apply setfile_eq; first [exact Hr|apply lookup_insert_eq]]; cbv beta; rewrite bind_assoc).
  erewrite bind_done; [|exact eq_refl]. cbv beta. erewrite bind_done; [|exact eq_refl]. cbv beta.
  cbv beta iota. erewrite setfile_eq; [|apply lookup_insert_eq]. eexists. split; [done|].
  eapply (dt_take ext s1 _ i fp r _ Hd1 Hfree Hle Hfp Hr Hc0); try reflexivity.
  1: { intros k. simpl. case_decide as Ek; [subst k; apply lookup_insert_eq|by rewrite !lookup_insert_ne by done]. }
  all: first [reflexivity|exact Ht].
Qed.

(** * Sequences of calls *)

Inductive call :=
  | CDup (i j : Z) | CDup2 (i j : Z) | CFcntl (fd cmd arg : Z) | CClose (fd : Z)
  | CNew (t : Z). (* open, pipe: a new file of type [t] *)
Definition args (c : call) : list Z :=
  match c with CDup i j | CDup2 i j => [i; j] | CFcntl fd cmd arg => [fd; cmd; arg] | CClose fd => [fd] | CNew _ => [] end.
Definition handler (c : call) : K unit :=
  match c with CDup _ _ => dup | CDup2 _ _ => dup2 | CFcntl _ _ _ => fcntl | CClose _ => close | CNew t => new_file t end.
Definition call_ok (c : call) : Prop :=
  match c with CDup i _ | CDup2 i _ | CFcntl i _ _ | CClose i => int i | CNew t => 1 ≤ t ≤ 3 end.
Definition do_call (c : call) : K unit := setu (λ r, r <| u_arg := args c |>) ;; handler c.
Fixpoint do_calls (cs : list call) : K unit := match cs with [] => mret tt | c :: cs => do_call c ;; do_calls cs end.

Lemma call_kept ext c s : dt ext none_due s → call_ok c → kept ext (do_call c) s.
Proof.
  intros Hd Hc. unfold kept, do_call. rewrite (bind_done _ _ _ _ _ (setu_eq _ _)). cbv beta. set (s1 := s <| u ::= _ |>).
  assert (Hd1 : dt ext none_due s1).
  { destruct Hd as [? ? ? ? ? ? ? ? Hsd]. split; try done. eapply side_ext; [..|exact Hsd]; eauto. }
  destruct c as [i j|i j|fd cmd arg|fd|t]; cbn [handler call_ok] in *.
  - by apply (dup_kept ext s1 i j).
  - by apply (dup2_kept ext s1 i j).
  - by apply (fcntl_kept ext s1 fd cmd arg).
  - by apply (close_kept ext s1 fd).
  - by apply new_file_kept.
Qed.

End keeping.
End Refcount.

Module RefcountExamples.
Import Refcount.
#[local] Existing Instances stm32_cfg Sched.layout1 Sig.sig_env0.
#[local] Instance file_env0 : FileEnv := {| fo_ioctl := λ _ _ v, mret (0, v); fo_close := λ _, mret 0 |}.

(** No file is open. *)
Definition file0 : file := MkFile 0 0 0 None 0.
Definition start : kstate :=
  kstate0 <| u ::= λ r, r <| u_lastfile := -1 |> |> <| files := list_to_map ((λ i, (i, file0)) <$> seq 0 NFILE) |>.
Definition nowhere : nat → Z := λ _, 0.

Lemma start_files fp r : files start !! fp = Some r → r = file0.
Proof.
  intros H. apply elem_of_list_to_map_2 in H. apply list_elem_of_fmap in H as (i & [= _ E] & _). by rewrite E.
Qed.
Lemma start_closed : u_ofile (u start) = replicate NOFILE None.
Proof. reflexivity. Qed.
Lemma start_none i x : u_ofile (u start) !! i = Some x → x = None.
Proof. rewrite start_closed. by intros [-> _]%lookup_replicate. Qed.
Lemma refs_none fp n : refs fp (replicate n None) = 0.
Proof. induction n as [|n IH]; [done|]. cbn [replicate]. by rewrite refs_cons, IH. Qed.
Lemma start_side : side start.
Proof.
  split.
  - exists [], (λ _, []). split.
    + reflexivity.
    + intros h. reflexivity.
    + intros p Hp. by apply elem_of_nil in Hp.
    + intros h p Hp. by apply elem_of_nil in Hp.
    + intros p r c Hp. change (procs start) with (∅ : gmap nat proc) in Hp. by rewrite lookup_empty in Hp.
  - exists (λ _, []). split.
    + intros h. reflexivity.
    + intros h p r Hp. by apply elem_of_nil in Hp.
    + intros h p q rp rq Hp. by apply elem_of_nil in Hp.
  - intros fp r n Hr. rewrite (start_files fp r Hr). discriminate.
Qed.
Lemma start_counted : dt nowhere none_due start.
Proof.
  split.
  - rewrite start_closed, length_replicate. split; reflexivity.
  - change (-1 ≤ -1 < Z.of_nat NOFILE). unfold NOFILE. lia.
  - intros i fp Hi. by apply start_none in Hi.
  - intros fp Hfp. apply elem_of_dom. change (files start) with (list_to_map ((λ i, (i, file0)) <$> seq 0 NFILE) : gmap nat file).
    rewrite dom_list_to_map. apply elem_of_list_to_set. rewrite <- list_fmap_compose.
    apply list_elem_of_fmap. exists fp. split; [reflexivity|]. apply elem_of_seq. lia.
  - intros i fp Hi. by apply start_none in Hi.
  - intros fp r Hr. rewrite (start_files fp r Hr), start_closed, refs_none. reflexivity.
  - intros fp. unfold nowhere. lia.
  - intros l Hl. discriminate Hl.
  - exact start_side.
Qed.
Lemma ops0 : ops_ok.
Proof. split; [intros fp s _; exists 0, s|intros fp cmd v s _; exists (0, v), s]; (split; [done|apply keeps_refl]). Qed.

(** Two files, four descriptors of the first, one closed again. *)
Definition session : list call := [CNew 1; CDup 0 0; CNew 1; CDup2 0 7; CFcntl 7 0 5; CFcntl 0 4 4; CClose 1; CDup2 (-1) 3; CClose 40].
Lemma session_counts :
  (λ r : unit * kstate, (f_count <$> files r.2 !! 0%nat, f_count <$> files r.2 !! 1%nat, take 8 (u_ofile (u r.2)), u_error (u r.2))) <$>
    (match do_calls session start with Done _ s => Some (tt, s) | _ => None end) =
  Some (Some 3, Some 1, [Some 0; None; Some 1; None; None; Some 0; None; Some 0]%nat, EBADF).
Proof. vm_compute. reflexivity. Qed.
End RefcountExamples.
