(* ===== verification/Rw.v ===== *)
(** Reading and writing: kern/kern_subr.c and the operations of a file that is
    an inode (kern/sys_inode.c, kern/vfs_vnops.c). *)
From S2P Require Import Prelude Buf Kernel Links Callout Sched Prot Time Sig Clock Ring Bio Fs Md Alloc Bmap Inode Ufs Descrip.

Definition IO_UNIT : Z := 0x01.
Definition IO_APPEND : Z := 0x02.
Definition IO_NDELAY : Z := 0x10.
Definition APPEND : Z := Z.lor 0x0004 0x0400.
Definition IFREG : Z := 0x8000.
Definition IFLNK : Z := 0xa000.
Definition MNT_SYNCHRONOUS : Z := 0x0002.
Definition MNT_NOATIME : Z := 0x0080.
Definition RLIMIT_FSIZE : nat := 1.
Definition SIGXFSZ : Z := 25.
Definition IOC_VOID : Z := 0x20000000.
Definition IOC_OUT : Z := 0x40000000.
Definition IOC_IN : Z := 0x80000000.
Definition IOC_INOUT : Z := Z.lor IOC_IN IOC_OUT.
Definition FIOCLEX : Z := 0x20006601.
Definition FIONCLEX : Z := 0x20006602.
Definition FIONREAD : Z := 0x40046661.
Definition FIOSETOWN : Z := 0x8004665e.
Definition FIOGETOWN : Z := 0x4004665d.
Definition ENOTTY : Z := 25.
Definition MNT_NODEV : Z := 0x0010.

(** * Requests (sys/uio.h) *)

Record iovec := MkIov { iov_base : Z; iov_len : Z }.
#[export] Instance iovec_fields : Fields iovec := λ v, MkIov (iov_base v) (iov_len v).
Inductive uio_dir := UIO_READ | UIO_WRITE.
#[export] Instance uio_dir_eq_dec : EqDecision uio_dir.
Proof. solve_decision. Defined.
(** [uio_iov] is what is left of the array of pieces. *)
Record uio := MkUio {
  uio_iov : list iovec; uio_iovcnt : Z; uio_offset : Z; uio_resid : Z; uio_rw : uio_dir;
}.
#[export] Instance uio_fields : Fields uio := λ r,
  MkUio (uio_iov r) (uio_iovcnt r) (uio_offset r) (uio_resid r) (uio_rw r).

(** Where the argument of an ioctl is: in a word of the kernel, which holds [v],
    or at a user address. *)
Inductive ioarg := Kern (v : Z) | User (a : Z).

(** The device tables and conf.c of the ports: the devices' routines by major
    number, with [None] where the routine is left by [longjmp]. *)
Class DevEnv := {
  nchrdev : Z;
  cd_open : Z → Z → Z → Z → K Z;
  cd_close : Z → Z → Z → Z → K (option Z);
  cd_read : Z → Z → uio → Z → K (uio * option Z);
  cd_write : Z → Z → uio → Z → K (uio * option Z);
  cd_ioctl : Z → Z → Z → ioarg → Z → K (option Z * ioarg);
  cd_select : Z → Z → Z → K bool;
  bd_open : Z → Z → Z → Z → K Z;
  bd_close : Z → Z → Z → Z → K (option Z);
  bd_ioctl : Z → Z → Z → ioarg → Z → K (option Z * ioarg);
  isdisk : Z → Z → bool;
  chrtoblk : Z → Z;
  iskmemdev : Z → bool;
}.

(** * Moving data (kern_subr.c) *)

Module Subr.

(** The bytes of a block; words are little-endian. *)
Definition block_bytes (ws : list Z) : list Z := ws ≫= word_bytes.
(** [n] bytes at [on] in the block of memory at [a], read and written. *)
Definition kbytes (a on n : Z) : K (list Z) :=
  ws ← getblock a;
  let bs := block_bytes ws in
  if (0 <=? on) && (on + n <=? Z.of_nat (length bs)) then mret (take (Z.to_nat n) (drop (Z.to_nat on) bs)) else fault.
Definition kstore (a on : Z) (new : list Z) : K unit :=
  ws ← getblock a;
  let bs := block_bytes ws in
  if (0 <=? on) && (on + Z.of_nat (length new) <=? Z.of_nat (length bs)) then
    setblock a (bytes_words (take (Z.to_nat on) bs ++ new ++ drop (Z.to_nat on + length new) bs))
  else fault.

(** One piece: [cnt] bytes between the block and user memory. *)
Definition move (a on cnt : Z) (rw : uio_dir) (base : Z) : K unit :=
  match rw with
  | UIO_READ => bs ← kbytes a on cnt; modify (λ s, s <| umem ::= λ m, ustore m base bs |>)
  | UIO_WRITE => s ← get_s; kstore a on (ubytes (umem s) base (Z.to_nat cnt))
  end.
Definition advance (iov : iovec) (rest : list iovec) (cnt : Z) (ui : uio) : uio :=
  ui <| uio_iov := MkIov (u32 (iov_base iov + cnt)) (iov_len iov - cnt) :: rest |>
     <| uio_resid ::= λ r, u32 (r - cnt) |> <| uio_offset ::= λ o, i32 (o + cnt) |>.
Definition next_iov (rest : list iovec) (ui : uio) : uio :=
  ui <| uio_iov := rest |> <| uio_iovcnt ::= λ c, i32 (c - 1) |>.
(** [cp] is [a + on]. *)
Fixpoint uiomove_loop (fuel : nat) (a on n : Z) (ui : uio) : K uio :=
  if (n <=? 0) || (uio_resid ui =? 0) then mret ui
  else
    match fuel with
    | O => nofuel
    | S fuel =>
      match uio_iov ui with
      | [] => fault
      | iov :: rest =>
        if iov_len iov =? 0 then uiomove_loop fuel a on n (next_iov rest ui)
        else
          let cnt := Z.min (iov_len iov) n in
          move a on cnt (uio_rw ui) (iov_base iov) ;;
          uiomove_loop fuel a (on + cnt) (n - cnt) (advance iov rest cnt ui)
      end
    end.
Definition uiomove (a on n : Z) (ui : uio) : K uio := uiomove_loop (2 * length (uio_iov ui)) a on n ui.

Definition step_one (iov : iovec) (rest : list iovec) (ui : uio) : uio :=
  ui <| uio_iov := MkIov (u32 (iov_base iov + 1)) (iov_len iov - 1) :: rest |>
     <| uio_resid ::= λ r, u32 (r - 1) |> <| uio_offset ::= λ o, i32 (o + 1) |>.
(** [again:]; the array of pieces is the list. *)
Fixpoint ureadc_loop (c : Z) (iovs : list iovec) (ui : uio) : K uio :=
  if uio_iovcnt ui =? 0 then panic "ureadc"
  else
    match iovs with
    | [] => fault
    | iov :: rest =>
      if (iov_len iov =? 0) || (uio_resid ui =? 0) then ureadc_loop c rest (next_iov rest ui)
      else
        modify (λ s, s <| umem ::= <[iov_base iov := u8 c]> |>) ;;
        mret (step_one iov rest ui)
    end.
Definition ureadc (c : Z) (ui : uio) : K uio := ureadc_loop c (uio_iov ui) ui.

(** The character, or -1. *)
Fixpoint uwritec_loop (iovs : list iovec) (ui : uio) : K (uio * Z) :=
  if uio_iovcnt ui <=? 0 then panic "uwritec"
  else
    match iovs with
    | [] => fault
    | iov :: rest =>
      if iov_len iov =? 0 then
        let ui := next_iov rest ui in
        if uio_iovcnt ui =? 0 then mret (ui, -1) else uwritec_loop rest ui
      else
        s ← get_s;
        mret (step_one iov rest ui, Z.land (u8 (default 0 (umem s !! iov_base iov))) 255)
    end.
Definition uwritec (ui : uio) : K (uio * Z) :=
  if uio_resid ui =? 0 then mret (ui, -1) else uwritec_loop (uio_iov ui) ui.

Definition uiofmove (a on n : Z) (rw : uio_dir) (iov : iovec) : K Z :=
  move a on n rw (iov_base iov) ;; mret 0.
End Subr.

(** * Inodes (sys_inode.c) *)

Module Rw.
Import Subr.
Section rw.
Context `{KConfig} `{KLayout} `{SigEnv} `{BioEnv} `{FsEnv} `{DevEnv}.

Definition isz (ui : uio) (d : uio_dir) : bool := bool_decide (uio_rw ui = d).
Definition set_accessed (n : nat) : K unit :=
  ip ← geti n; f ← getfs_of (i_fs ip); when (negb (has (fs_flags f) MNT_NOATIME)) (Inode.set_iflag n IACC).

(** Before the transfer: an error, or the request and flags to go on with. *)
Definition rwip_prepare (n : nat) (type : Z) (ui : uio) (ioflag : Z) : K (Z + uio * Z) :=
  ip ← geti n;
  match uio_rw ui with
  | UIO_READ => set_accessed n ;; mret (inr (ui, ioflag))
  | UIO_WRITE =>
    if type =? IFREG then
      let ui := if has ioflag IO_APPEND then ui <| uio_offset := i_size ip |> else ui in
      if has (i_flags ip) APPEND && negb (uio_offset ui =? i_size ip) then mret (inl EPERM)
      else mret (inr (ui, ioflag))
    else if type =? IFDIR then mret (inr (ui, if has ioflag IO_SYNC then ioflag else setf ioflag IO_SYNC))
    else if (type =? IFLNK) || (type =? IFBLK) || (type =? IFCHR) then mret (inr (ui, ioflag))
    else mret (inl EFTYPE)
  end.
Definition rwip_sync (n : nat) (type ioflag : Z) : K Z :=
  ip ← geti n;
  (if type =? IFREG then mret (clrf ioflag IO_SYNC)
   else if type =? IFDIR then
     f ← getfs_of (i_fs ip);
     mret (if has (fs_flags f) MNT_ASYNC then clrf ioflag IO_SYNC else ioflag)
   else mret ioflag).
Definition rwip_chr (n : nat) (dev ioflag : Z) (ui : uio) : K (uio * option Z) :=
  match uio_rw ui with
  | UIO_READ => set_accessed n ;; cd_read (Bio.major dev) dev ui ioflag
  | UIO_WRITE => Inode.set_iflag n (Z.lor IUPD ICHG) ;; cd_write (Bio.major dev) dev ui ioflag
  end.

(** Where the transfer stops: [Return e] leaves at once, [Break e] and
    [Again k] reach the end of the loop, [k] bytes having been asked for. *)
Inductive stop := Return (e : Z) | Break (e : Z) | Again (k : Z).

(** The block of the disk: an end, or the block and the bytes of it. *)
Definition rwip_map (fuel n : nat) (type flags lbn k : Z) (ui : uio) : K (stop + Z * Z) :=
  ip ← geti n;
  if type =? IFBLK then modify (λ s, s <| rablock := i32 (lbn + 1) |>) ;; mret (inr (lbn, k))
  else if isz ui UIO_READ && (i32 (i_size ip - uio_offset ui) <=? 0) then mret (inl (Return 0))
  else
    let k := if isz ui UIO_READ then Z.min k (i32 (i_size ip - uio_offset ui)) else k in
    bn ← (if isz ui UIO_READ then Bmap.bmap fuel n lbn B_READ flags
          else Bmap.bmap fuel n lbn B_WRITE (if k =? DEV_BSIZE then flags else Z.lor flags B_CLRBUF));
    e ← getu u_error;
    if negb (e =? 0) || (isz ui UIO_WRITE && (bn <? 0)) then mret (inl (Return e))
    else
      ip ← geti n;
      when (isz ui UIO_WRITE && (i_size ip <? i32 (uio_offset ui + k)) && ((type =? IFDIR) || (type =? IFREG) || (type =? IFLNK)))
        (seti n (λ i, i <| i_size := i32 (uio_offset ui + k) |>)) ;;
      mret (inr (bn, k)).
(** The buffer. *)
Definition rwip_read_buf (fuel n : nat) (dev lbn bn : Z) : K bptr :=
  ip ← geti n;
  s ← get_s;
  bp ← (if bn <? 0 then bp ← Bio.geteblk fuel; set_bdata bp (replicate 256 0) ;; mret bp
        else if i32 (i_lastr ip + 1) =? lbn then Bio.breada fuel dev bn (rablock s)
        else Bio.bread fuel dev bn);
  seti n (λ i, i <| i_lastr := lbn |>) ;; mret bp.
Definition rwip_write_buf (fuel : nat) (dev bn k : Z) : K bptr :=
  bp ← (if k =? DEV_BSIZE then Bio.getblk fuel dev bn else Bio.bread fuel dev bn);
  r ← getbuf bp;
  when (b_resid r =? DEV_BSIZE)
    (setbuf bp (λ b, b <| b_resid := 0 |>) ;; set_bdata bp (replicate 256 0)) ;;
  mret bp.
(** The buffer is let go. *)
Definition rwip_read_done (n : nat) (bp : bptr) (on k : Z) (ui : uio) : K unit :=
  ip ← geti n;
  when ((k + on =? DEV_BSIZE) || (uio_offset ui =? i_size ip))
    (Bio.set_bflags bp B_AGE ;; when (has (i_flag ip) IPIPE) (Bio.clr_bflags bp B_DELWRI)) ;;
  Bio.brelse bp.
Definition rwip_write_done (fuel n : nat) (bp : bptr) (on k ioflag : Z) : K unit :=
  ip ← geti n;
  (if has ioflag IO_SYNC then Bio.bwrite fuel bp
   else if (k + on =? DEV_BSIZE) && negb (has (i_flag ip) IPIPE) then
     Bio.set_bflags bp B_AGE ;; Bio.bawrite fuel bp
   else Bio.bdwrite fuel bp) ;;
  Inode.set_iflag n (Z.lor IUPD ICHG) ;;
  ruid ← getu u_ruid;
  when (negb (ruid =? 0)) (seti n (λ i, i <| i_mode ::= λ m, clrf m (Z.lor ISUID ISGID) |>)).
Definition rwip_step (fuel n : nat) (type dev ioflag flags : Z) (ui : uio) : K (uio * stop) :=
  let lbn := lblkno (uio_offset ui) in
  let on := blkoff (uio_offset ui) in
  m ← rwip_map fuel n type flags lbn (Z.min (DEV_BSIZE - on) (uio_resid ui)) ui;
  match m with
  | inl o => mret (ui, o)
  | inr (bn, k) =>
    bp ← (if isz ui UIO_READ then rwip_read_buf fuel n dev lbn bn else rwip_write_buf fuel dev bn k);
    r ← getbuf bp;
    let k := Z.min k (u32 (DEV_BSIZE - b_resid r)) in
    if has (b_flags r) B_ERROR then Bio.brelse bp ;; mret (ui, Break EIO)
    else
      ui ← uiomove (b_addr r) on k ui;
      set_error 0 ;;
      (if isz ui UIO_READ then rwip_read_done n bp on k ui else rwip_write_done fuel n bp on k ioflag) ;;
      mret (ui, Again k)
  end.
(** [rounds] bounds the turns of the loop; [inl] is a [return] in it, [inr]
    the error after it. *)
Fixpoint rwip_loop (rounds fuel n : nat) (type dev ioflag flags : Z) (ui : uio) : K (uio * (Z + Z)) :=
  match rounds with
  | O => nofuel
  | S rounds =>
    '(ui, o) ← rwip_step fuel n type dev ioflag flags ui;
    match o with
    | Return e => mret (ui, inl e)
    | Break e => mret (ui, inr e)
    | Again k =>
      e ← getu u_error;
      if (e =? 0) && negb (uio_resid ui =? 0) && negb (k =? 0) then rwip_loop rounds fuel n type dev ioflag flags ui
      else mret (ui, inr 0)
    end
  end.
Definition rwip_undo (fuel n : nat) (type ioflag osize resid error : Z) (ui : uio) : K uio :=
  if negb (error =? 0) && isz ui UIO_WRITE && has ioflag IO_UNIT && negb (type =? IFBLK) then
    Inode.itrunc fuel n (u32 osize) (Z.land ioflag IO_SYNC) ;;
    mret (ui <| uio_offset ::= λ o, i32 (o - u32 (resid - uio_resid ui)) |> <| uio_resid := u32 resid |>)
  else mret ui.
Definition over_limit (ui : uio) : K bool :=
  l ← getu u_rlimit;
  r ← unless_none (l !! RLIMIT_FSIZE);
  mret (u32 (rlim_cur r) <? u32 (uio_offset ui + uio_resid ui)).
Definition rwip (rounds fuel n : nat) (ui : uio) (ioflag : Z) : K (uio * option Z) :=
  ip ← geti n;
  let type := Z.land (i_mode ip) IFMT in
  let dev := Descrip.i_rdev ip in
  p ← rwip_prepare n type ui ioflag;
  match p with
  | inl e => mret (ui, Some e)
  | inr (ui, ioflag) =>
    ioflag ← rwip_sync n type ioflag;
    if type =? IFCHR then rwip_chr n dev ioflag ui
    else if uio_resid ui =? 0 then mret (ui, Some 0)
    else
      over ← (if isz ui UIO_WRITE && (type =? IFREG) then over_limit ui else mret false);
      if over : bool then
        p ← getu u_procp; Sig.psignal p SIGXFSZ ;; mret (ui, Some EFBIG)
      else
        ip ← geti n;
        let dev := if type =? IFBLK then dev else i_dev ip in
        let resid := uio_resid ui in
        '(ui, r) ← rwip_loop rounds fuel n type dev ioflag (if has ioflag IO_SYNC then B_SYNC else 0) ui;
        match r with
        | inl e => mret (ui, Some e)
        | inr error =>
          e ← getu u_error;
          let error := if error =? 0 then e else error in
          ui ← rwip_undo fuel n type ioflag (i_size ip) resid error ui;
          mret (ui, Some error)
        end
  end.

(** [aresid], where the caller passes it, gets what was not moved. *)
Definition rdwri (rounds fuel : nat) (rw : uio_dir) (n : nat) (base len offset ioflg : Z) (aresid : bool) : K (option Z * Z) :=
  '(ui, r) ← rwip rounds fuel n (MkUio [MkIov base (u32 len)] 1 offset (u32 len) rw) ioflg;
  mret ((λ e, if aresid || (uio_resid ui =? 0) then e else EIO) <$> r, uio_resid ui).

Definition unless_chr (n : nat) (m : K unit) : K unit :=
  ip ← geti n; when (negb (Z.land (i_mode ip) IFMT =? IFCHR)) m.
Definition ino_rw_flags (n : nat) (f : file) : K Z :=
  ip ← geti n;
  fs ← (if has (f_flag f) FFSYNC then mret false else f ← getfs_of (i_fs ip); mret (has (fs_flags f) MNT_SYNCHRONOUS));
  mret (Z.lor (if (Z.land (i_mode ip) IFMT =? IFREG) && has (f_flag f) FAPPEND then IO_APPEND else 0)
         (Z.lor (if has (f_flag f) FNONBLOCK then IO_NDELAY else 0)
                (if has (f_flag f) FFSYNC || fs then IO_SYNC else 0))).
Definition ino_rw (rounds fuel fp : nat) (ui : uio) : K (uio * option Z) :=
  f ← getfile fp;
  n ← unless_none (f_data f);
  unless_chr n (Inode.ILOCK fuel n) ;;
  f ← getfile fp;
  let ui := ui <| uio_offset := f_offset f |> in
  let count := uio_resid ui in
  ioflag ← (match uio_rw ui with
            | UIO_READ => mret (if has (f_flag f) FNONBLOCK then IO_NDELAY else 0)
            | UIO_WRITE => ino_rw_flags n f end);
  '(ui, r) ← rwip rounds fuel n ui ioflag;
  match r with
  | None => mret (ui, None)
  | Some e =>
    (if has ioflag IO_APPEND then setfile fp (λ f, f <| f_offset := uio_offset ui |>)
     else setfile fp (λ f, f <| f_offset ::= λ o, i32 (o + u32 (count - uio_resid ui)) |>)) ;;
    unless_chr n (Inode.IUNLOCK n) ;;
    mret (ui, Some e)
  end.

(** What an ioctl leaves in its argument; a word of user memory. *)
Definition put_arg (data : ioarg) (v : Z) : K ioarg :=
  match data with
  | Kern _ => mret (Kern v)
  | User a => modify (λ s, s <| umem ::= λ m, ustore m a (word_bytes v) |>) ;; mret data
  end.
(** A device's ioctl, between [setjmp] and the driver. *)
Definition dev_ioctl (d : Z → Z → Z → ioarg → Z → K (option Z * ioarg)) (fp n : nat) (com : Z) (data : ioarg) : K (Z * ioarg) :=
  ip ← geti n;
  let dev := Descrip.i_rdev ip in
  setu (λ r, r <| u_rval := 0 |>) ;;
  f ← getfile fp;
  '(o, data) ← d (Bio.major dev) dev com data (f_flag f);
  match o with
  | Some e => mret (e, data)
  | None => e ← getu u_error; mret (e, data)
  end.
Definition ino_ioctl (fp : nat) (com : Z) (data : ioarg) : K (Z * ioarg) :=
  f ← getfile fp;
  n ← unless_none (f_data f);
  ip ← geti n;
  let type := Z.land (i_mode ip) IFMT in
  if type =? IFCHR then dev_ioctl cd_ioctl fp n com data
  else if type =? IFBLK then dev_ioctl bd_ioctl fp n com data
  else if (type =? IFREG) || (type =? IFDIR) then
    if com =? FIONREAD then
      data ← put_arg data (if (f_type f =? DTYPE_PIPE) && negb (has (f_flag f) FREAD) then 0 else i32 (i_size ip - f_offset f));
      mret (0, data)
    else if (com =? FIONBIO) || (com =? FIOASYNC) then mret (0, data)
    else mret (ENOTTY, data)
  else mret (ENOTTY, data).

Definition ino_select (fp : nat) (which : Z) : K bool :=
  f ← getfile fp;
  n ← unless_none (f_data f);
  ip ← geti n;
  if Z.land (i_mode ip) IFMT =? IFCHR then cd_select (Bio.major (Descrip.i_rdev ip)) (Descrip.i_rdev ip) which else mret true.

(** Is the device mounted; is a file of it open? *)
Definition mounted_dev (ms : list mount) (dev : Z) : bool :=
  existsb (λ m, bool_decide (m_inodp m ≠ None) && (m_dev m =? dev)) ms.
Definition ufs_mountedon (dev : Z) : K Z :=
  s ← get_s; mret (if mounted_dev (mounts s) dev then EBUSY else 0).
Fixpoint open_alias (fps : list nat) (dev mode : Z) : K bool :=
  match fps with
  | [] => mret false
  | fp :: fps =>
    f ← getfile fp;
    if negb (f_type f =? DTYPE_INODE) || (f_count f =? 0) then open_alias fps dev mode
    else
      match f_data f with
      | None => open_alias fps dev mode
      | Some n =>
        ip ← geti n;
        if (Descrip.i_rdev ip =? dev) && (Z.land (i_mode ip) IFMT =? mode) then mret true else open_alias fps dev mode
      end
  end.
Definition closei (fuel n : nat) (flag : Z) : K Z :=
  ip ← geti n;
  s ← get_s;
  let mode := Z.land (i_mode ip) IFMT in
  let dev := Descrip.i_rdev ip in
  if negb ((mode =? IFCHR) || (mode =? IFBLK)) then mret 0
  else if (mode =? IFBLK) && mounted_dev (mounts s) dev then mret 0
  else
    a ← open_alias (seq 0 NFILE) dev mode;
    if a : bool then mret 0
    else
      when (mode =? IFBLK) (Bio.bflush fuel dev ;; Bio.binval dev) ;;
      r ← (if mode =? IFCHR then cd_close (Bio.major dev) dev flag mode else bd_close (Bio.major dev) dev flag mode);
      match r with
      | Some error => mret error
      | None => e ← getu u_error; mret (if e =? 0 then EINTR else e)
      end.
(** The guards of [openi] for a character device opened to write. *)
Definition chr_secure (dev : Z) : K Z :=
  s ← get_s;
  if (2 <=? securelevel s) && isdisk dev IFCHR then mret EPERM
  else if 1 <=? securelevel s then
    let bdev := chrtoblk dev in
    error ← (if bdev =? NODEV then mret 0 else ufs_mountedon bdev);
    mret (if negb (error =? 0) then error else if iskmemdev dev then EPERM else 0)
  else mret 0.
Definition openi (n : nat) (mode : Z) : K Z :=
  ip ← geti n;
  let dev := Descrip.i_rdev ip in
  let maj := Bio.major dev in
  let type := Z.land (i_mode ip) IFMT in
  if type =? IFCHR then
    f ← getfs_of (i_fs ip);
    if has (fs_flags f) MNT_NODEV || (nchrdev <=? maj) then mret ENXIO
    else
      e ← (if has mode FWRITE then chr_secure dev else mret 0);
      if negb (e =? 0) then mret e else cd_open maj dev mode IFCHR
  else if type =? IFBLK then
    f ← getfs_of (i_fs ip);
    if has (fs_flags f) MNT_NODEV || (nblkdev <=? maj) then mret ENXIO
    else
      s ← get_s;
      if (2 <=? securelevel s) && has mode FWRITE && isdisk dev IFBLK then mret EPERM
      else
        e ← (if 0 <? securelevel s then ufs_mountedon dev else mret 0);
        if negb (e =? 0) then mret e else bd_open maj dev mode IFBLK
  else mret 0.
Fixpoint forceclose_loop (fps : list nat) (dev : Z) : K unit :=
  match fps with
  | [] => mret tt
  | fp :: fps =>
    f ← getfile fp;
    (if (f_count f =? 0) || negb (f_type f =? DTYPE_INODE) then mret tt
     else
       match f_data f with
       | None => mret tt
       | Some n =>
         ip ← geti n;
         when ((Z.land (i_mode ip) IFMT =? IFCHR) && (Descrip.i_rdev ip =? dev))
           (setfile fp (λ f, f <| f_flag ::= λ x, clrf x (Z.lor FREAD FWRITE) |>))
       end) ;;
    forceclose_loop fps dev
  end.
Definition forceclose (dev : Z) : K unit := forceclose_loop (seq 0 NFILE) dev.
(** [vn_close] and [vn_closefile] (vfs_vnops.c). *)
Definition vn_close (fuel n : nat) (flags : Z) : K Z :=
  error ← closei fuel n flags; Inode.irele fuel n ;; mret error.
Definition vn_closefile (fuel fp : nat) : K Z :=
  f ← getfile fp;
  n ← unless_none (f_data f);
  setfile fp (λ f, f <| f_data := None |>) ;;
  Inode.irele fuel n ;;
  f ← getfile fp;
  closei fuel n (f_flag f).

End rw.
End Rw.
