(* ===== verification/Reading.v ===== *)
(** Reading a file: [rwip] brings the bytes that the file's blocks hold to the
    user, over the block map, the buffer cache and the memory disk. *)
From stdpp Require Import functions.
From S2P Require Import Prelude Buf Kernel Links Callout Sched Prot Time Sig Clock Ring Bio Fs Md Disk Ahead Alloc Bmap Inode Dinode Ufs Descrip Rw.

Module Reading.
Import Bio Disk Ahead Bmap Subr Rw.

(** * What a file holds *)

(** A block of the file; a hole reads as zeros. *)
Definition file_block (D : Z → list Z) (addr : list Z) (lbn : Z) : list Z :=
  match block_of D addr lbn with Some b => D b | None => replicate 256 0 end.
Definition file_byte (D : Z → list Z) (addr : list Z) (p : Z) : Z :=
  nth (Z.to_nat (p `mod` 1024)) (block_bytes (file_block D addr (p / 1024))) 0.
Definition file_bytes (D : Z → list Z) (addr : list Z) (off : Z) (n : nat) : list Z :=
  (λ i, file_byte D addr (off + Z.of_nat i)) <$> seq 0 n.

Lemma length_file_bytes D addr off n : length (file_bytes D addr off n) = n.
Proof. unfold file_bytes. by rewrite length_fmap, length_seq. Qed.
Lemma file_bytes_app D addr off a b :
  file_bytes D addr off (a + b) = file_bytes D addr off a ++ file_bytes D addr (off + Z.of_nat a) b.
Proof.
  unfold file_bytes. rewrite seq_app, fmap_app. f_equal. simpl. rewrite <- (fmap_add_seq 0 a b), Nat.add_0_r || idtac.
  apply list_eq. intros i. rewrite !list_lookup_fmap.
  destruct (decide (i < b)%nat) as [Hi|Hi].
  - rewrite !lookup_seq_lt by done. simpl. do 2 f_equal. lia.
  - rewrite !lookup_seq_ge by lia. done.
Qed.
Lemma length_block_bytes ws : length (block_bytes ws) = (4 * length ws)%nat.
Proof. apply length_words. Qed.
(** The part of one block. *)
Lemma file_bytes_block D addr off (n : nat) :
  0 ≤ off → off `mod` 1024 + Z.of_nat n ≤ 1024 → length (file_block D addr (off / 1024)) = 256%nat →
  file_bytes D addr off n = take n (drop (Z.to_nat (off `mod` 1024)) (block_bytes (file_block D addr (off / 1024)))).
Proof.
  intros Ho Hn Hl. pose proof (Z.mod_pos_bound off 1024 ltac:(lia)) as Hm. set (bs := block_bytes _).
  assert (Hb : length bs = 1024%nat) by (unfold bs; rewrite length_block_bytes, Hl; done).
  apply list_eq. intros i. unfold file_bytes. rewrite list_lookup_fmap. destruct (decide (i < n)%nat) as [Hi|Hi].
  - rewrite lookup_seq_lt by done. rewrite lookup_take_lt, lookup_drop by done. simpl.
    assert (Ed : (off + Z.of_nat i) / 1024 = off / 1024 ∧ (off + Z.of_nat i) `mod` 1024 = off `mod` 1024 + Z.of_nat i).
    { pose proof (Z.div_mod off 1024 ltac:(lia)).
      split; symmetry; [apply (Z.div_unique_pos _ _ _ (off `mod` 1024 + Z.of_nat i))|apply (Z.mod_unique_pos _ _ (off / 1024))]; lia. }
    unfold file_byte. destruct Ed as [-> ->]. fold bs.
    destruct (lookup_lt_is_Some_2 bs (Z.to_nat (off `mod` 1024) + i)) as [x Hx]; [lia|]. rewrite Hx. simpl. f_equal.
    replace (Z.to_nat (off `mod` 1024 + Z.of_nat i)) with (Z.to_nat (off `mod` 1024) + i)%nat by lia. by apply nth_lookup_Some.
  - rewrite lookup_seq_ge by lia. simpl. symmetry. apply lookup_ge_None_2. rewrite length_take. lia.
Qed.
Lemma ustore_app m a xs ys : ustore (ustore m a xs) (a + Z.of_nat (length xs)) ys = ustore m a (xs ++ ys).
Proof.
  revert m a. induction xs as [|x xs IH]; intros m a; simpl; [by rewrite Z.add_0_r|].
  rewrite <- IH. f_equal. lia.
Qed.

(** * Moving to one piece of user memory *)

Definition one (base len off : Z) (rw : uio_dir) : uio := MkUio [MkIov base len] 1 off len rw.
Lemma kbytes_eq s a on n ws :
  bufdata s !! a = Some ws → length ws = 256%nat → 0 ≤ on → 0 ≤ n → on + n ≤ 1024 →
  kbytes a on n s = Done (take (Z.to_nat n) (drop (Z.to_nat on) (block_bytes ws))) s.
Proof.
  intros Ha Hl Ho Hn Hs. unfold kbytes, getblock. rewrite bind_assoc, (bind_done _ _ _ _ _ (get_s_eq _)). cbv beta.
  rewrite Ha. cbn [unless_none]. rewrite (bind_done _ _ _ _ _ (mret_eq _ _)). cbv beta zeta.
  rewrite length_block_bytes, Hl. rewrite (proj2 (Z.leb_le _ _) Ho). by rewrite (proj2 (Z.leb_le _ _)) by lia.
Qed.
Lemma uiomove_out s a on k ws base len off :
  bufdata s !! a = Some ws → length ws = 256%nat → 0 ≤ on → 0 < k → on + k ≤ 1024 → k ≤ len →
  0 ≤ base → base + len < 2 ^ 32 → 0 ≤ off → off + len < 2 ^ 31 →
  uiomove a on k (one base len off UIO_READ) s =
    Done (one (base + k) (len - k) (off + k) UIO_READ)
      (s <| umem ::= λ m, ustore m base (take (Z.to_nat k) (drop (Z.to_nat on) (block_bytes ws))) |>).
Proof.
  intros Ha Hl Ho Hk Hs Hlen Hb Hbl Hoff Hol. unfold uiomove, one. cbn [length uio_iov Nat.mul Nat.add uiomove_loop].
  replace (k <=? 0) with false by (symmetry; apply Z.leb_gt; lia). cbn [orb uio_resid].
  replace (len =? 0) with false by (symmetry; apply Z.eqb_neq; lia). cbn [uio_iov iov_len uio_rw iov_base].
  replace (len =? 0) with false by (symmetry; apply Z.eqb_neq; lia). rewrite Z.min_r by lia. unfold move.
  rewrite bind_assoc, (bind_done _ _ _ _ _ (kbytes_eq s a on k ws Ha Hl Ho ltac:(lia) Hs)). cbv beta.
  rewrite (bind_done _ _ _ _ _ (modify_eq _ _)). cbv beta. rewrite Z.sub_diag. cbn [Z.leb Z.compare orb].
  change (advance (MkIov base len) [] k (MkUio [MkIov base len] 1 off len UIO_READ)) with
    (MkUio [MkIov (u32 (base + k)) (len - k)] 1 (i32 (off + k)) (u32 (len - k)) UIO_READ).
  rewrite !u32_small, i32_small by lia. reflexivity.
Qed.

(** * One turn of the loop *)

Lemma lblkno_div off : 0 ≤ off < 2 ^ 31 → lblkno off = off / 1024.
Proof. intros Ho. unfold lblkno, DEV_BSHIFT. rewrite u32_small, Z.shiftr_div_pow2 by lia. done. Qed.
Lemma blkoff_mod off : blkoff off = off `mod` 1024.
Proof. unfold blkoff, DEV_BMASK. change 0x3ff with (Z.ones 10). by rewrite Z.land_ones by lia. Qed.
Lemma root_of_small bn : 0 ≤ bn < 2 ^ 21 →
  ∃ i k q, root_of bn = Some (i, k, q) ∧ (i < 7)%nat ∧ k = (i - 3)%nat ∧ 0 ≤ q.
Proof.
  intros Hb. unfold root_of. destruct (bn <? 4) eqn:E1; [|destruct (bn <? 4 + 256) eqn:E2; [|destruct (bn <? 4 + 256 + 256 ^ 2) eqn:E3]];
    rewrite ?Z.ltb_lt, ?Z.ltb_ge in *.
  - eexists _, _, _. split; [done|]. lia.
  - eexists _, _, _. split; [done|]. lia.
  - eexists _, _, _. split; [done|]. lia.
  - replace (bn <? 4 + 256 + 256 ^ 2 + 256 ^ 3) with true by (symmetry; apply Z.ltb_lt; lia).
    eexists _, _, _. split; [done|]. lia.
Qed.

Section reading.
Context `{KConfig} `{KLayout} `{SigEnv} `{MdEnv} `{BioEnv} `{FsEnv} `{DevEnv}.
Variable rg : region.
Hypothesis Hmd : on_md rg.
Hypothesis Hbuf : (1 < NBUF)%nat.
Implicit Types (D : Z → list Z) (s : kstate).

(** A file whose addresses lie in the region, and a state in which it can be
    worked on: the cache is ready and no error is pending. *)
Record plain D (ip : inode) : Prop := {
  pl_dev : i_dev ip = rg_dev rg;
  pl_pipe : has (i_flag ip) IPIPE = false;
  pl_size : 0 ≤ i_size ip < 2 ^ 31;
  pl_file : file_ok rg D (i_addr ip);
}.
Record ready (n : nat) (ip : inode) D s : Prop := {
  rd_coh : coh rg s D ∅;
  rd_idle : idle s;
  rd_ip : inodes s !! n = Some ip;
  rd_fs : is_Some (mounts s !! i_fs ip);
  rd_error : u_error (u s) = 0;
}.
Lemma look_fields s s' : look_frame s s' →
  inodes s' = inodes s ∧ mounts s' = mounts s ∧ umem s' = umem s ∧ u_error (u s') = u_error (u s) ∧
  u_ruid (u s') = u_ruid (u s).
Proof. intros [E1 E2]. split; [by rewrite E1|]. split; [by rewrite E1|]. split; [by rewrite E1|]. by rewrite E2. Qed.
Lemma io_fields s s' : io_frame s s' →
  inodes s' = inodes s ∧ mounts s' = mounts s ∧ umem s' = umem s ∧ u_error (u s') = u_error (u s) ∧
  u_ruid (u s') = u_ruid (u s).
Proof. intros F. by apply look_fields, look_frame_io. Qed.
Lemma ready_look n ip D s s' : ready n ip D s → look_frame s s' → coh rg s' D ∅ → idle s' → ready n ip D s'.
Proof. intros [_ _ ? ? ?] (E1 & E2 & _ & E4 & _)%look_fields ? ?. split; rewrite ?E1, ?E2, ?E4; done. Qed.

Lemma block_in D addr bn b : file_ok rg D addr → 0 ≤ bn < 2 ^ 21 → block_of D addr bn = Some b → in_range rg b.
Proof.
  intros Hf Hb. destruct (root_of_small bn Hb) as (i & k & q & Er & Hi & -> & Hq). unfold block_of. rewrite Er.
  destruct (Hf i Hi) as [->|[Hin Ht]]; [done|]. destruct (tree_follow rg D _ q _ Hin Ht) as [_ Hb'].
  case_match; [done|]. apply Hb'.
Qed.
Lemma file_block_length n ip D s lbn : ready n ip D s → plain D ip → 0 ≤ lbn < 2 ^ 21 →
  length (file_block D (i_addr ip) lbn) = 256%nat.
Proof.
  intros Hrd Hpl Hb. unfold file_block. destruct (block_of D (i_addr ip) lbn) as [b|] eqn:Eb; [|done].
  destruct (ch_disk _ _ _ _ (rd_coh _ _ _ _ Hrd) b (block_in _ _ _ _ (pl_file _ _ Hpl) Hb Eb)) as (ws & _ & E & _). exact E.
Qed.

(** The block map gives the block. *)
Lemma bmap_ready fuel n ip D s bn rwflg flags :
  ready n ip D s → plain D ip → 0 ≤ bn < 2 ^ 21 → (NBUF < fuel)%nat → no_alloc rwflg (block_of D (i_addr ip) bn) →
  ∃ s', bmap (S fuel) n bn rwflg flags s = Done (default (-1) (block_of D (i_addr ip) bn)) s' ∧ ready n ip D s' ∧
    look_frame s s' ∧ ra_ok rg (rablock s').
Proof.
  intros Hrd Hpl Hb Hf Hna. pose proof Hrd as [Hco Hid Hip [r Hr] He]. destruct (root_of_small bn Hb) as (i & k & q & Er & Hi & -> & Hq).
  destruct (bmap_looks rg Hmd ltac:(lia) fuel n bn rwflg flags s D ip r i (i - 3) q Hco Hid Hf Hip (pl_dev _ _ Hpl) Hr ltac:(lia) Er)
    as (s' & E & Hco' & Hid' & F & R); [|done|].
  - intros Hz. destruct (pl_file _ _ Hpl i Hi) as [?|[Hin Ht]]; [done|]. by apply tree_follow.
  - exists s'. split; [done|]. split; [by eapply ready_look|]. split; [done|]. by apply R, (pl_file _ _ Hpl).
Qed.
Lemma map_reads fuel n ip D s type flags base len off :
  ready n ip D s → plain D ip → type ≠ IFBLK → 0 ≤ off < i_size ip → 0 ≤ len → (NBUF < fuel)%nat →
  ∃ s', rwip_map (S fuel) n type flags (off / 1024) (Z.min (1024 - off `mod` 1024) len) (one base len off UIO_READ) s =
      Done (inr (default (-1) (block_of D (i_addr ip) (off / 1024)), Z.min (Z.min (1024 - off `mod` 1024) len) (i_size ip - off))) s' ∧
    ready n ip D s' ∧ look_frame s s' ∧ ra_ok rg (rablock s').
Proof.
  intros Hrd Hpl Ht Ho Hlen Hf. pose proof (pl_size _ _ Hpl) as Hsz. pose proof (Z.mod_pos_bound off 1024 ltac:(lia)) as Hm.
  assert (Hbn : 0 ≤ off / 1024 < 2 ^ 21) by (split; [apply Z.div_pos; lia|apply Z.div_lt_upper_bound; lia]).
  unfold rwip_map. rewrite (bind_done _ _ _ _ _ (geti_eq _ _ _ (rd_ip _ _ _ _ Hrd))). cbv beta.
  rewrite (proj2 (Z.eqb_neq _ _) Ht). change (isz (one base len off UIO_READ) UIO_READ) with true.
  change (isz (one base len off UIO_READ) UIO_WRITE) with false. change (uio_offset (one base len off UIO_READ)) with off.
  rewrite i32_small by lia. replace (i_size ip - off <=? 0) with false by (symmetry; apply Z.leb_gt; lia). cbn [andb]. cbv zeta.
  destruct (bmap_ready fuel n ip D s (off / 1024) B_READ flags Hrd Hpl Hbn Hf ltac:(by left)) as (s1 & E1 & Hrd1 & F1 & R1).
  rewrite (bind_done _ _ _ _ _ E1). cbv beta. rewrite (bind_done _ _ _ _ _ (getu_eq _ _)). cbv beta.
  rewrite (rd_error _ _ _ _ Hrd1). cbn [Z.eqb negb orb].
  rewrite (bind_done _ _ _ _ _ (geti_eq _ _ _ (rd_ip _ _ _ _ Hrd1))). cbn [andb when]. by exists s1.
Qed.

(** The buffer. *)
Definition seen (lbn : Z) (ip : inode) : inode := ip <| i_lastr := lbn |>.
Lemma read_buf_filled fuel n ip D s lbn :
  ready n ip D s → plain D ip → 0 ≤ lbn < 2 ^ 21 → ra_ok rg (rablock s) → (NBUF < fuel)%nat →
  ∃ j r s', rwip_read_buf (S fuel) n (i_dev ip) lbn (default (-1) (block_of D (i_addr ip) lbn)) s =
      Done (BufP j) (s' <| inodes ::= <[n := seen lbn ip]> |>) ∧
    filled rg s s' D j r (file_block D (i_addr ip) lbn).
Proof.
  intros Hrd Hpl Hl Hra Hf. pose proof Hrd as [Hco Hid Hip Hfs He]. unfold rwip_read_buf, file_block.
  rewrite (bind_done _ _ _ _ _ (geti_eq _ _ _ Hip)). cbv beta. rewrite (bind_done _ _ _ _ _ (get_s_eq _)). cbv beta.
  assert (Hb : ∃ j r s', (if default (-1) (block_of D (i_addr ip) lbn) <? 0
      then bp ← geteblk (S fuel); set_bdata bp (replicate 256 0) ;; mret bp
      else if i32 (i_lastr ip + 1) =? lbn then breada (S fuel) (i_dev ip) (default (-1) (block_of D (i_addr ip) lbn)) (rablock s)
      else bread (S fuel) (i_dev ip) (default (-1) (block_of D (i_addr ip) lbn))) s = Done (BufP j) s' ∧
    filled rg s s' D j r (match block_of D (i_addr ip) lbn with Some b => D b | None => replicate 256 0 end)).
  { destruct (block_of D (i_addr ip) lbn) as [b|] eqn:Eb; cbn [default].
    - pose proof (block_in _ _ _ _ (pl_file _ _ Hpl) Hl Eb) as Hin. rewrite (pl_dev _ _ Hpl). unfold id.
      replace (b <? 0) with false by (symmetry; apply Z.ltb_ge; by destruct Hin).
      destruct (_ =? lbn); [by apply breada_filled|by apply bread_filled].
    - apply geteblk_filled; (done || lia). }
  destruct Hb as (j & r & s1 & E1 & Hfl). exists j, r, s1. split; [|done].
  rewrite (bind_done _ _ _ _ _ E1). cbv beta. destruct (io_fields _ _ (fl_frame _ _ _ _ _ _ _ Hfl)) as (Ei & _).
  rewrite (bind_done _ _ _ _ _ (seti_eq s1 n _ ip ltac:(by rewrite Ei))). done.
Qed.

(** The buffer in use is given back: all is idle. *)
Lemma release_idle s s' D j r (f : buf → buf) :
  coh rg s D ∅ → (j < NBUF)%nat → bstore s !! BufP j = Some r → has (b_flags r) B_BUSY = true →
  (∀ i ri, i ≠ j → (i < NBUF)%nat → bstore s !! BufP i = Some ri → has (b_flags ri) B_BUSY = false) →
  same_pool (bstore s) (bstore s') j f → has (b_flags (f r)) B_BUSY = false → idle s'.
Proof.
  intros Hco Hj Hr Hb Hoth Hp Hf i ri Hi Hri. destruct (same_pool_inv _ _ _ _ _ _ Hp Hri) as (r1 & Hr1 & B).
  apply bare_fields in B as (-> & _). case_decide as E; [subst i; by assert (r1 = r) as -> by congruence|]. by apply (Hoth i).
Qed.
Lemma brelse_idle s D j r :
  coh rg s D ∅ → (j < NBUF)%nat → bstore s !! BufP j = Some r → has (b_flags r) B_BUSY = true →
  (∀ i ri, i ≠ j → (i < NBUF)%nat → bstore s !! BufP i = Some ri → has (b_flags ri) B_BUSY = false) →
  ∃ s', brelse (BufP j) s = Done tt s' ∧ coh rg s' D ∅ ∧ idle s' ∧ io_frame s s'.
Proof.
  intros Hco Hj Hr Hb Hoth. destruct (brelse_coh rg s D ∅ j r Hco Hj Hr Hb) as (s1 & E1 & Hco1 & F1 & _ & P1); [set_solver|].
  replace (∅ ∖ {[j]} : gset nat) with (∅ : gset nat) in Hco1 by set_solver.
  exists s1. split; [done|]. split; [done|]. split; [|done]. eapply release_idle; [exact Hco|done|exact Hr|done|done|exact P1|].
  destruct (let_go_ok r (bo_never _ _ _ _ _ _ (ch_pool _ _ _ _ Hco j r Hj Hr))) as (_ & _ & _ & ->). by hasf.
Qed.
Lemma read_done n ip D s j r on k ui :
  coh rg s D ∅ → (j < NBUF)%nat → bstore s !! BufP j = Some r → has (b_flags r) B_BUSY = true →
  (∀ i ri, i ≠ j → (i < NBUF)%nat → bstore s !! BufP i = Some ri → has (b_flags ri) B_BUSY = false) →
  inodes s !! n = Some ip → has (i_flag ip) IPIPE = false →
  ∃ s', rwip_read_done n (BufP j) on k ui s = Done tt s' ∧ coh rg s' D ∅ ∧ idle s' ∧ io_frame s s'.
Proof.
  intros Hco Hj Hr Hb Hoth Hip Hpipe. unfold rwip_read_done. rewrite (bind_done _ _ _ _ _ (geti_eq _ _ _ Hip)). cbv beta. rewrite Hpipe.
  cbn [when]. destruct (_ || _); cbn [when].
  - unfold set_bflags. rewrite bind_assoc, (bind_done _ _ _ _ _ (setbuf_alter s _ _ ltac:(by eexists))). cbv beta.
    rewrite (bind_done _ _ _ _ _ (mret_eq _ _)). cbv beta. set (s1 := with_b s (alter aged (BufP j) (bstore s))).
    assert (Hco1 : coh rg s1 D ∅) by (eapply (coh_flag rg s D ∅ j r B_AGE); [done|done|done|done|by left]).
    assert (Hr1 : bstore s1 !! BufP j = Some (aged r)) by (simpl; by rewrite lookup_alter_eq, Hr).
    destruct (brelse_idle s1 D j (aged r) Hco1 Hj Hr1) as (s2 & E2 & Hco2 & Hid2 & F2).
    + unfold aged. by hasf.
    + intros i ri Hij Hi Hri. simpl in Hri. rewrite lookup_alter_ne in Hri by congruence. by apply (Hoth i).
    + exists s2. split; [exact E2|]. split; [done|]. split; [done|]. by eapply io_frame_trans; [apply (io_frame_with_b s)|].
  - rewrite (bind_done _ _ _ _ _ (mret_eq _ _)). cbv beta. by apply (brelse_idle s D j r).
Qed.

(** One block, or what is wanted of it, reaches the user. *)
Lemma step_reads fuel n ip D s type ioflag flags base len off :
  ready n ip D s → plain D ip → type ≠ IFBLK → 0 ≤ off < i_size ip → 0 < len → off + len < 2 ^ 31 →
  0 ≤ base → base + len < 2 ^ 32 → (NBUF < fuel)%nat →
  let k := Z.min (Z.min (1024 - off `mod` 1024) len) (i_size ip - off) in
  ∃ s', rwip_step (S fuel) n type (i_dev ip) ioflag flags (one base len off UIO_READ) s =
      Done (one (base + k) (len - k) (off + k) UIO_READ, Again k) s' ∧
    ready n (seen (off / 1024) ip) D s' ∧
    umem s' = ustore (umem s) base (file_bytes D (i_addr ip) off (Z.to_nat k)).
Proof.
  intros Hrd Hpl Ht Ho Hlen Hol Hb Hbl Hf k. pose proof (pl_size _ _ Hpl) as Hsz. pose proof (Z.mod_pos_bound off 1024 ltac:(lia)) as Hm.
  assert (Hbn : 0 ≤ off / 1024 < 2 ^ 21) by (split; [apply Z.div_pos; lia|apply Z.div_lt_upper_bound; lia]).
  assert (Hk : 0 < k ≤ 1024 - off `mod` 1024 ∧ k ≤ len) by lia.
  destruct (map_reads fuel n ip D s type flags base len off Hrd Hpl Ht Ho ltac:(lia) Hf) as (s1 & E1 & Hrd1 & F1 & R1).
  destruct (read_buf_filled fuel n ip D s1 (off / 1024) Hrd1 Hpl Hbn R1 Hf) as (j & r & s2 & E2 & Hfl).
  pose proof (file_block_length n ip D s1 (off / 1024) Hrd1 Hpl Hbn) as Hl.
  pose proof Hfl as [Hco2 Hj Hr Hbz He Hd Hoth F2]. set (s3 := s2 <| inodes ::= _ |>) in *.
  pose proof (ch_pool _ _ _ _ Hco2 j r Hj Hr) as [Ba Bc Bn Bv Bd Bdw Bh Bf Br].
  unfold rwip_step. cbv zeta. change (uio_offset (one base len off UIO_READ)) with off. change (uio_resid (one base len off UIO_READ)) with len.
  rewrite lblkno_div, blkoff_mod by lia. change DEV_BSIZE with 1024. rewrite (bind_done _ _ _ _ _ E1). cbv beta iota.
  change (isz (one base len off UIO_READ) UIO_READ) with true. cbv iota. rewrite (bind_done _ _ _ _ _ E2). cbv beta.
  rewrite (bind_done _ _ _ _ _ (getbuf_eq s3 _ _ Hr)). cbv beta. rewrite Br, He. cbv iota.
  change (u32 (1024 - 0)) with 1024. fold k. rewrite (Z.min_l k 1024) by lia. rewrite Ba.
  rewrite (bind_done _ _ _ _ _ (uiomove_out s3 (core j) (off `mod` 1024) k _ base len off Hd Hl ltac:(lia) ltac:(lia) ltac:(lia) ltac:(lia) Hb Hbl ltac:(lia) Hol)).
  cbv beta. rewrite (bind_done _ _ _ _ _ (set_error_eq _ _)). cbv beta. set (s4 := upd u _ _).
  change (isz (one (base + k) (len - k) (off + k) UIO_READ) UIO_READ) with true. cbv iota.
  assert (Hip4 : inodes s4 !! n = Some (seen (off / 1024) ip)) by apply lookup_insert_eq.
  destruct (read_done n (seen (off / 1024) ip) D s4 j r (off `mod` 1024) k (one (base + k) (len - k) (off + k) UIO_READ)) as (s5 & E5 & Hco5 & Hid5 & F5);
    [by apply (coh_ext rg s2)|done|exact Hr|done|exact Hoth|exact Hip4|apply (pl_pipe _ _ Hpl)|].
  rewrite (bind_done _ _ _ _ _ E5). exists s5. split; [done|].
  destruct (look_fields _ _ F1) as (A1 & A2 & A3 & A4 & _). destruct (io_fields _ _ F2) as (B1 & B2 & B3 & B4 & _).
  destruct (io_fields _ _ F5) as (C1 & C2 & C3 & C4 & _). split; [split; try done|].
  - by rewrite C1.
  - rewrite C2. change (mounts s4) with (mounts s2). rewrite B2, A2. exact (rd_fs _ _ _ _ Hrd).
  - rewrite C3. unfold s4, s3. simpl. rewrite B3, A3. f_equal. symmetry. apply file_bytes_block; [lia|rewrite Z2Nat.id by lia; lia|done].
Qed.

(** * The whole request *)

(** What is left of the file at [off], at most [len]. *)
Definition left_of (ip : inode) (off len : Z) : Z := Z.max 0 (Z.min len (i_size ip - off)).
Lemma step_ends fuel n ip D s type ioflag flags base len off :
  ready n ip D s → plain D ip → type ≠ IFBLK → 0 ≤ off < 2 ^ 31 → i_size ip ≤ off →
  rwip_step (S fuel) n type (i_dev ip) ioflag flags (one base len off UIO_READ) s = Done (one base len off UIO_READ, Return 0) s.
Proof.
  intros Hrd Hpl Ht Ho Hs. pose proof (pl_size _ _ Hpl) as Hsz. unfold rwip_step, rwip_map.
  change (isz (one base len off UIO_READ) UIO_READ) with true. change (isz (one base len off UIO_READ) UIO_WRITE) with false.
  rewrite bind_assoc, (bind_done _ _ _ _ _ (geti_eq _ _ _ (rd_ip _ _ _ _ Hrd))). cbv beta zeta.
  rewrite (proj2 (Z.eqb_neq _ _) Ht). change (uio_offset (one base len off UIO_READ)) with off. rewrite i32_small by lia.
  by replace (i_size ip - off <=? 0) with true by (symmetry; apply Z.leb_le; lia).
Qed.
Lemma plain_seen D ip l : plain D ip → plain D (seen l ip).
Proof. by intros []. Qed.
Lemma loop_reads rounds fuel n ip D s type ioflag flags base len off :
  ready n ip D s → plain D ip → type ≠ IFBLK → 0 ≤ off → 0 < len → off + len < 2 ^ 31 →
  0 ≤ base → base + len < 2 ^ 32 → (NBUF < fuel)%nat → (1 ≤ rounds)%nat →
  (left_of ip off len = 0 ∨ off `mod` 1024 + left_of ip off len ≤ 1024 * (Z.of_nat rounds - 1)) →
  let k := left_of ip off len in
  ∃ s' l o, rwip_loop rounds (S fuel) n type (i_dev ip) ioflag flags (one base len off UIO_READ) s =
      Done (one (base + k) (len - k) (off + k) UIO_READ, o) s' ∧ (o = inl 0 ∨ o = inr 0) ∧
    ready n (seen l ip) D s' ∧ umem s' = ustore (umem s) base (file_bytes D (i_addr ip) off (Z.to_nat k)).
Proof.
  intros Hrd Hpl Ht. revert ip s base len off Hrd Hpl.
  induction rounds as [|rounds IH]; intros ip s base len off Hrd Hpl Ho Hlen Hol Hb Hbl Hf Hr Hrn k; [lia|].
  cbn [rwip_loop]. destruct (decide (i_size ip ≤ off)) as [Hend|Hin].
  - rewrite (bind_done _ _ _ _ _ (step_ends fuel n ip D s type ioflag flags base len off Hrd Hpl Ht ltac:(lia) Hend)). cbv beta iota.
    assert (k = 0) as -> by (unfold k, left_of; lia). rewrite Z.sub_0_r, !Z.add_0_r. exists s, (i_lastr ip), (inl 0). split; [done|].
    split; [by left|]. split; [|done]. assert (seen (i_lastr ip) ip = ip) as -> by (by destruct ip). done.
  - assert (Hoff : 0 ≤ off < i_size ip) by lia. pose proof (Z.mod_pos_bound off 1024 ltac:(lia)) as Hm.
    destruct (step_reads fuel n ip D s type ioflag flags base len off Hrd Hpl Ht Hoff Hlen Hol Hb Hbl Hf) as (s1 & E1 & Hrd1 & U1).
    set (k1 := Z.min (Z.min (1024 - off `mod` 1024) len) (i_size ip - off)) in *.
    assert (Hk1 : 0 < k1 ≤ k ∧ k ≤ len ∧ k = Z.min len (i_size ip - off)) by (unfold k, left_of, k1; lia).
    rewrite (bind_done _ _ _ _ _ E1). cbv beta iota. rewrite (bind_done _ _ _ _ _ (getu_eq _ _)). cbv beta.
    rewrite (rd_error _ _ _ _ Hrd1). change (uio_resid (one (base + k1) (len - k1) (off + k1) UIO_READ)) with (len - k1).
    replace (k1 =? 0) with false by (symmetry; apply Z.eqb_neq; lia). destruct (decide (len = k1)) as [El|El].
    + rewrite El, Z.sub_diag. cbn [Z.eqb negb andb]. assert (k = k1) as -> by lia. exists s1, (off / 1024), (inr 0).
      rewrite Z.sub_diag. split; [done|]. split; [by right|done].
    + replace (len - k1 =? 0) with false by (symmetry; apply Z.eqb_neq; lia). cbn [Z.eqb negb andb].
      set (ip1 := seen (off / 1024) ip) in *. assert (Elo : left_of ip1 (off + k1) (len - k1) = k - k1).
      { unfold left_of. change (i_size ip1) with (i_size ip). lia. }
      destruct (IH ip1 s1 (base + k1) (len - k1) (off + k1) Hrd1 (plain_seen _ _ _ Hpl)) as (s2 & l & o & E2 & Eo & Hrd2 & U2); try lia.
      { destruct (decide (k1 = 1024 - off `mod` 1024)) as [Ek|Ek]; [right|left; rewrite Elo; unfold k1 in *; lia].
        assert (Em : (off + k1) `mod` 1024 = 0).
        { rewrite Ek. pose proof (Z.div_mod off 1024 ltac:(lia)). symmetry. apply (Z.mod_unique_pos _ _ (off / 1024 + 1)); lia. }
        rewrite Em, Elo. unfold k in *. lia. }
      exists s2, l, o. rewrite Elo in E2, U2. change (i_dev ip1) with (i_dev ip) in E2. rewrite E2.
      replace (base + k1 + (k - k1)) with (base + k) by lia. replace (len - k1 - (k - k1)) with (len - k) by lia.
      replace (off + k1 + (k - k1)) with (off + k) by lia. split; [done|]. split; [done|]. split; [exact Hrd2|].
      rewrite U2, U1. change (i_addr ip1) with (i_addr ip). replace (Z.to_nat k) with (Z.to_nat k1 + Z.to_nat (k - k1))%nat by lia.
      rewrite file_bytes_app, <- ustore_app, length_file_bytes. by rewrite !Z2Nat.id by lia.
Qed.

(** The access time is due. *)
Definition noted (b : bool) (ip : inode) : inode := if b then ip <| i_flag ::= λ f, setf f IACC |> else ip.
(** C3: Reading [len] bytes at offset [off] of a file or directory brings the user
    exactly the bytes that the file's blocks hold there, zeros in holes, up to
    the end of the file, with read-ahead and without; it reports no error and
    how much is left of the request, changes no block and nothing of the inode
    but the access mark and the last block read, and ends within as many turns
    as blocks are touched and one. *)
Theorem rwip_reads rounds fuel n ip D s ioflag base len off r :
  ready n ip D s → plain D ip → mounts s !! i_fs ip = Some r →
  Z.land (i_mode ip) IFMT ≠ IFBLK → Z.land (i_mode ip) IFMT ≠ IFCHR →
  0 ≤ off → 0 ≤ len → off + len < 2 ^ 31 → 0 ≤ base → base + len < 2 ^ 32 →
  (NBUF < fuel)%nat → off `mod` 1024 + len ≤ 1024 * (Z.of_nat rounds - 1) → (1 ≤ rounds)%nat →
  let k := left_of ip off len in
  ∃ s' l, rwip rounds (S fuel) n (one base len off UIO_READ) ioflag s =
      Done (one (base + k) (len - k) (off + k) UIO_READ, Some 0) s' ∧
    umem s' = ustore (umem s) base (file_bytes D (i_addr ip) off (Z.to_nat k)) ∧
    ready n (seen l (noted (negb (has (fs_flags (m_filsys r)) MNT_NOATIME)) ip)) D s'.
Proof.
  intros Hrd Hpl Hr Hnb Hnc Ho Hl Hol Hb Hbl Hf Hrn Hr1 k. pose proof Hrd as [Hco Hid Hip Hfs He]. unfold rwip.
  rewrite (bind_done _ _ _ _ _ (geti_eq _ _ _ Hip)). cbv beta zeta. unfold rwip_prepare.
  rewrite bind_assoc, (bind_done _ _ _ _ _ (geti_eq _ _ _ Hip)). cbv beta iota. change (uio_rw (one base len off UIO_READ)) with UIO_READ. cbv iota.
  set (ip1 := noted (negb (has (fs_flags (m_filsys r)) MNT_NOATIME)) ip).
  assert (Hacc : ∃ s1, set_accessed n s = Done tt s1 ∧ ready n ip1 D s1 ∧ umem s1 = umem s).
  { unfold set_accessed, getfs_of. rewrite (bind_done _ _ _ _ _ (geti_eq _ _ _ Hip)). cbv beta.
    rewrite bind_assoc, (bind_done _ _ _ _ _ (getm_eq _ _ _ Hr)). cbv beta. rewrite (bind_done _ _ _ _ _ (mret_eq _ _)). cbv beta.
    unfold ip1. destruct (has (fs_flags (m_filsys r)) MNT_NOATIME); cbn [negb when noted]; [by exists s|].
    unfold Inode.set_iflag. rewrite (seti_eq _ _ _ _ Hip). eexists. split; [done|]. split; [|done].
    split; try done; [by apply (coh_ext rg s)|apply lookup_insert_eq]. }
  destruct Hacc as (s1 & E1 & Hrd1 & U1). rewrite bind_assoc, (bind_done _ _ _ _ _ E1). cbv beta.
  rewrite (bind_done _ _ _ _ _ (mret_eq _ _)). cbv beta iota.
  assert (Hpl1 : plain D ip1).
  { destruct Hpl. unfold ip1, noted. destruct (negb _); [|done]. split; try done. simpl. rewrite has_setf; done. }
  assert (Esync : ∃ fl, rwip_sync n (Z.land (i_mode ip) IFMT) ioflag s1 = Done fl s1).
  { unfold rwip_sync. rewrite (bind_done _ _ _ _ _ (geti_eq _ _ _ (rd_ip _ _ _ _ Hrd1))). cbv beta.
    destruct (_ =? IFREG); [by eexists|]. destruct (_ =? IFDIR); [|by eexists].
    destruct (rd_fs _ _ _ _ Hrd1) as [r1 Hr1']. unfold getfs_of.
    rewrite bind_assoc, (bind_done _ _ _ _ _ (getm_eq _ _ _ Hr1')). cbv beta. by eexists. }
  destruct Esync as (fl & Es). rewrite (bind_done _ _ _ _ _ Es). cbv beta.
  rewrite (proj2 (Z.eqb_neq _ _) Hnc). change (uio_resid (one base len off UIO_READ)) with len.
  assert (Esz : left_of ip1 off len = k) by (unfold k, ip1, noted; by case_match).
  destruct (decide (len = 0)) as [->|Hlen].
  { cbn [Z.eqb]. assert (k = 0) as -> by (unfold k, left_of; lia). exists s1, (i_lastr ip1). rewrite Z.sub_0_r, !Z.add_0_r. split; [done|].
    split; [done|]. assert (seen (i_lastr ip1) ip1 = ip1) as -> by (by destruct ip1). done. }
  replace (len =? 0) with false by (symmetry; apply Z.eqb_neq; lia). change (isz (one base len off UIO_READ) UIO_WRITE) with false.
  cbn [andb]. rewrite (bind_done _ _ _ _ _ (mret_eq _ _)). cbv beta iota.
  rewrite (bind_done _ _ _ _ _ (geti_eq _ _ _ (rd_ip _ _ _ _ Hrd1))). cbv beta. rewrite (proj2 (Z.eqb_neq _ _) Hnb).
  destruct (loop_reads rounds fuel n ip1 D s1 (Z.land (i_mode ip) IFMT) fl (if has fl IO_SYNC then B_SYNC else 0) base len off Hrd1 Hpl1 Hnb)
    as (s2 & l & o & E2 & Eo & Hrd2 & U2); try done || lia.
  { right. rewrite Esz. unfold k, left_of. lia. }
  rewrite (bind_done _ _ _ _ _ E2). cbv beta iota. rewrite Esz in *. exists s2, l.
  assert (Ea : i_addr ip1 = i_addr ip) by (unfold ip1, noted; by destruct (negb _)). rewrite Ea, U1 in U2.
  destruct Eo as [-> | ->]; [by split|].
  rewrite (bind_done _ _ _ _ _ (getu_eq _ _)). cbv beta. rewrite (rd_error _ _ _ _ Hrd2). by split.
Qed.
End reading.
End Reading.

(** * Examples *)

Module ReadingExamples.
Import Bio Disk DiskExamples Subr Rw Reading.
#[local] Existing Instances gba_cfg Sched.layout1 Sig.sig_env0 md_env0 bio_env_md DinodeExamples.fs_env0.
#[local] Instance dev_env0 : DevEnv :=
  {| nchrdev := 4; cd_open := λ _ _ _ _, mret 0; cd_close := λ _ _ _ _, mret (Some 0);
     cd_read := λ _ _ ui _, mret (ui, Some 0); cd_write := λ _ _ ui _, mret (ui, Some 0);
     cd_ioctl := λ _ _ _ d _, mret (Some 0, d); cd_select := λ _ _ _, mret true;
     bd_open := λ _ _ _ _, mret 0; bd_close := λ _ _ _ _, mret (Some 0); bd_ioctl := λ _ _ _ d _, mret (Some 0, d);
     isdisk := λ _ _, false; chrtoblk := λ _, NODEV; iskmemdev := λ _, false |}.

(** A file of 2500 bytes: block 2, a hole, block 3. *)
Definition ip4 : inode := MkInode 0 1 0x600 3 0 [2; 0; 3; 0; 0; 0; 0] 0x81a4 1 100 10 2500 0 5 6 7 None None 0 0 None None 0 0 None None.
Definition holed : kstate := start <| inodes := {[ 0%nat := ip4 ]} |> <| mounts := [MkMount 0x600 BmapExamples.fs1 None] |>.
Lemma holed_ready : ready rg0 0 ip4 D0 holed.
Proof. split; [by apply (coh_ext rg0 start), coh0|exact idle0|reflexivity|by eexists|reflexivity]. Qed.
Lemma plain4 : plain rg0 D0 ip4.
Proof.
  split; [reflexivity|reflexivity|simpl; lia|]. intros i Hi.
  destruct i as [|[|[|[|[|[|[|i]]]]]]]; [right|left; reflexivity|right|left; reflexivity|left; reflexivity|left; reflexivity|left; reflexivity|lia];
    (split; [unfold in_range; simpl; lia|exact I]).
Qed.
Lemma rwip_reads_witness :
  ∃ s' ui, rwip 4 5 0 (one 0x10000 2000 1000 UIO_READ) 0 holed = Done (ui, Some 0) s' ∧ uio_resid ui = 500 ∧ uio_offset ui = 2500 ∧
    ubytes (umem s') 0x10000 28 = [2; 0; 0; 0; 2; 0; 0; 0; 2; 0; 0; 0; 2; 0; 0; 0; 2; 0; 0; 0; 2; 0; 0; 0; 0; 0; 0; 0] ∧
    ubytes (umem s') (0x10000 + 24 + 1024) 5 = [3; 0; 0; 0; 3].
Proof.
  destruct (rwip_reads rg0 on_md0 ltac:(vm_compute; lia) 4 4 0 ip4 D0 holed 0 0x10000 2000 1000 (MkMount 0x600 BmapExamples.fs1 None)
    holed_ready plain4 eq_refl ltac:(vm_compute; congruence) ltac:(vm_compute; congruence) ltac:(lia) ltac:(lia) ltac:(lia) ltac:(lia) ltac:(lia)
    ltac:(vm_compute; lia) ltac:(vm_compute; congruence) ltac:(lia)) as (s' & l & E & U & _).
  exists s', (one (0x10000 + 1500) 500 2500 UIO_READ). split; [exact E|]. split; [reflexivity|]. split; [reflexivity|].
  rewrite U. split; vm_compute; reflexivity.
Defined.
End ReadingExamples.
