(* ===== verification/Writing.v ===== *)
(** Writing a file: [rwip] puts the user's bytes into the file's blocks, over
    the block map, the buffer cache and the memory disk. *)
From stdpp Require Import functions.
From S2P Require Import Prelude Buf Kernel Links Callout Sched Prot Time Sig Clock Ring Bio Fs Md Disk Ahead Alloc Bmap Inode Dinode Ufs Descrip Rw Reading.

Module Writing.
Import Bio Disk Ahead Bmap Subr Rw Reading.

(** * Bytes and words *)

Definition is_byte (b : Z) : Prop := 0 ≤ b < 256.
Definition bytes_in (m : gmap Z Z) : Prop := ∀ a v, m !! a = Some v → is_byte v.
Lemma u8_is_byte x : is_byte (u8 x).
Proof. unfold is_byte, u8. change (2 ^ 8) with 256. by apply Z.mod_pos_bound. Qed.
Lemma word_bytes_word b0 b1 b2 b3 : is_byte b0 → is_byte b1 → is_byte b2 → is_byte b3 →
  word_bytes (i32 (b0 + 2 ^ 8 * b1 + 2 ^ 16 * b2 + 2 ^ 24 * b3)) = [b0; b1; b2; b3].
Proof.
  unfold is_byte. intros H0 H1 H2 H3. set (x := b0 + _ + _ + _).
  assert (E : ∃ q, i32 x = x - 2 ^ 32 * q).
  { unfold i32. exists ((x + 2 ^ 31) / 2 ^ 32). pose proof (Z.div_mod (x + 2 ^ 31) (2 ^ 32) ltac:(lia)). lia. }
  destruct E as [q ->]. unfold word_bytes, u8, x. rewrite !Z.shiftr_div_pow2 by lia.
  repeat f_equal; symmetry.
  - apply (Z.mod_unique_pos _ _ (b1 + 2 ^ 8 * b2 + 2 ^ 16 * b3 - 2 ^ 24 * q)); lia.
  - rewrite <- (Z.div_unique_pos _ _ (b1 + 2 ^ 8 * b2 + 2 ^ 16 * b3 - 2 ^ 24 * q) b0) by lia.
    apply (Z.mod_unique_pos _ _ (b2 + 2 ^ 8 * b3 - 2 ^ 16 * q)); lia.
  - rewrite <- (Z.div_unique_pos _ _ (b2 + 2 ^ 8 * b3 - 2 ^ 16 * q) (b0 + 2 ^ 8 * b1)) by lia.
    apply (Z.mod_unique_pos _ _ (b3 - 2 ^ 8 * q)); lia.
  - rewrite <- (Z.div_unique_pos _ _ (b3 - 2 ^ 8 * q) (b0 + 2 ^ 8 * b1 + 2 ^ 16 * b2)) by lia.
    apply (Z.mod_unique_pos _ _ (- q)); lia.
Qed.
Lemma block_bytes_words n bs : length bs = (4 * n)%nat → Forall is_byte bs →
  block_bytes (bytes_words bs) = bs ∧ length (bytes_words bs) = n.
Proof.
  revert bs. induction n as [|n IH]; intros bs Hl Hb.
  - by destruct bs.
  - destruct bs as [|b0 [|b1 [|b2 [|b3 bs]]]]; simpl in Hl; try lia.
    apply Forall_cons in Hb as [? Hb]. apply Forall_cons in Hb as [? Hb]. apply Forall_cons in Hb as [? Hb]. apply Forall_cons in Hb as [? Hb].
    destruct (IH bs ltac:(lia) Hb) as [E1 E2]. cbn [bytes_words]. split; [|cbn [length]; by rewrite E2].
    unfold block_bytes in *. cbn [mbind list_bind]. rewrite word_bytes_word by done. by rewrite E1.
Qed.
Lemma block_bytes_are ws : Forall is_byte (block_bytes ws).
Proof.
  unfold block_bytes. induction ws as [|w ws IH]; [constructor|]. cbn [mbind list_bind]. apply Forall_app. split; [|done].
  unfold word_bytes. repeat constructor; apply u8_is_byte.
Qed.
Lemma ubytes_are m a n : bytes_in m → Forall is_byte (ubytes m a n).
Proof.
  intros Hm. revert a. induction n as [|n IH]; intros a; [constructor|]. cbn [ubytes]. constructor; [|apply IH].
  destruct (m !! a) as [v|] eqn:E; [by apply (Hm a)|]. split; done.
Qed.
Lemma ubytes_app m a n k : ubytes m a (n + k) = ubytes m a n ++ ubytes m (a + Z.of_nat n) k.
Proof.
  revert a. induction n as [|n IH]; intros a; cbn [ubytes app Nat.add]; [by rewrite Z.add_0_r|].
  rewrite IH. do 3 f_equal. lia.
Qed.

(** The bytes of a block after [new] was put at [on]. *)
Definition spliced (ws : list Z) (on : Z) (new : list Z) : list Z :=
  let bs := block_bytes ws in
  bytes_words (take (Z.to_nat on) bs ++ new ++ drop (Z.to_nat on + length new) bs).
Lemma spliced_ok ws on new : length ws = 256%nat → Forall is_byte new → 0 ≤ on → on + Z.of_nat (length new) ≤ 1024 →
  length (spliced ws on new) = 256%nat ∧
  block_bytes (spliced ws on new) = take (Z.to_nat on) (block_bytes ws) ++ new ++ drop (Z.to_nat on + length new) (block_bytes ws).
Proof.
  intros Hl Hb Ho Hn. unfold spliced. pose proof (length_block_bytes ws) as Hbl. rewrite Hl in Hbl.
  destruct (block_bytes_words 256 (take (Z.to_nat on) (block_bytes ws) ++ new ++ drop (Z.to_nat on + length new) (block_bytes ws))) as [E1 E2].
  - rewrite !length_app, length_take, length_drop, Hbl. lia.
  - pose proof (block_bytes_are ws). rewrite !Forall_app. split; [by apply Forall_take|]. split; [done|by apply Forall_drop].
  - by split.
Qed.
Lemma spliced_nth ws on new i : length ws = 256%nat → Forall is_byte new → 0 ≤ on → on + Z.of_nat (length new) ≤ 1024 →
  0 ≤ i < 1024 → nth (Z.to_nat i) (block_bytes (spliced ws on new)) 0 =
    if decide (on ≤ i < on + Z.of_nat (length new)) then nth (Z.to_nat (i - on)) new 0 else nth (Z.to_nat i) (block_bytes ws) 0.
Proof.
  intros Hl Hb Ho Hn Hi. destruct (spliced_ok ws on new Hl Hb Ho Hn) as [_ ->].
  pose proof (length_block_bytes ws) as Hbl. rewrite Hl in Hbl.
  assert (Ht : length (take (Z.to_nat on) (block_bytes ws)) = Z.to_nat on) by (rewrite length_take; lia).
  case_decide.
  - rewrite app_nth2 by lia. rewrite Ht, app_nth1 by lia. f_equal. lia.
  - destruct (decide (i < on)).
    + rewrite app_nth1 by lia. rewrite <- (take_drop (Z.to_nat on) (block_bytes ws)) at 2.
      rewrite app_nth1; [done|]. rewrite Ht. lia.
    + rewrite app_nth2 by lia. rewrite Ht, app_nth2 by lia. rewrite nth_skipn. f_equal. lia.
Qed.

(** * What a write changes *)

(** The indirect blocks of a tree, and of a file. *)
Fixpoint inner (D : Z → list Z) (k : nat) (nb b : Z) : Prop :=
  match k with
  | O => False
  | S k => b = nb ∨ ∃ i, nth i (D nb) 0 ≠ 0 ∧ inner D k (nth i (D nb) 0) b
  end.
Definition index_block (D : Z → list Z) (addr : list Z) (b : Z) : Prop :=
  ∃ i, (i < 7)%nat ∧ nth i addr 0 ≠ 0 ∧ inner D (i - 3) (nth i addr 0) b.
(** No block of the file is in two places. *)
Record own (D : Z → list Z) (addr : list Z) : Prop := {
  ow_data : ∀ l b, 0 ≤ l < 2 ^ 21 → block_of D addr l = Some b → ¬ index_block D addr b;
  ow_once : ∀ l l' b, 0 ≤ l < 2 ^ 21 → 0 ≤ l' < 2 ^ 21 → block_of D addr l = Some b → block_of D addr l' = Some b → l = l';
}.

Lemma inner_same D D' k nb b : (∀ x, inner D k nb x → D' x = D x) → inner D' k nb b ↔ inner D k nb b.
Proof.
  revert nb. induction k as [|k IH]; intros nb Hs; [done|]. cbn [inner] in *.
  rewrite (Hs nb) by (by left). split; (intros [->|(i & Hi & Hx)]; [by left|right; exists i; split; [done|]]);
    (apply IH; [|done]); intros x Hin; apply Hs; right; by exists i.
Qed.
Lemma follow_same D D' k bn nb : (∀ x, inner D k nb x → D' x = D x) → follow D' k bn nb = follow D k bn nb.
Proof.
  revert nb. induction k as [|k IH]; intros nb Hs; [done|]. cbn [follow inner] in *. rewrite (Hs nb) by (by left).
  set (nb' := nth _ (D nb) 0). destruct (nb' =? 0) eqn:E; [done|]. apply IH. intros x Hx. apply Hs. right.
  eexists. split; [|exact Hx]. by apply Z.eqb_neq.
Qed.
Lemma tree_same rg D D' k nb : (∀ x, inner D k nb x → D' x = D x) → tree_ok rg D k nb → tree_ok rg D' k nb.
Proof.
  revert nb. induction k as [|k IH]; intros nb Hs Ht; [done|]. cbn [tree_ok inner] in *. intros i. rewrite (Hs nb) by (by left).
  destruct (decide (nth i (D nb) 0 = 0)) as [E|E]; [by left|]. destruct (Ht i) as [?|[Hin Ht']]; [by left|]. right. split; [done|].
  apply IH; [|done]. intros x Hx. apply Hs. right. by exists i.
Qed.

Section same.
Variables (D D' : Z → list Z) (addr : list Z).
Hypothesis Hs : ∀ x, index_block D addr x → D' x = D x.
Lemma inner_kept i : (i < 7)%nat → nth i addr 0 ≠ 0 → ∀ x, inner D (i - 3) (nth i addr 0) x → D' x = D x.
Proof. intros Hi Hz x Hx. apply Hs. by exists i. Qed.
Lemma block_of_same l : 0 ≤ l < 2 ^ 21 → block_of D' addr l = block_of D addr l.
Proof.
  intros Hl. destruct (root_of_small l Hl) as (i & k & q & Er & Hi & -> & Hq). unfold block_of. rewrite Er.
  destruct (_ =? 0) eqn:E; [done|]. apply Z.eqb_neq in E. by apply follow_same, inner_kept.
Qed.
Lemma file_ok_same rg : file_ok rg D addr → file_ok rg D' addr.
Proof.
  intros Hf i Hi. destruct (decide (nth i addr 0 = 0)) as [E|E]; [by left|].
  destruct (Hf i Hi) as [?|[Hin Ht]]; [by left|right]. split; [done|]. eapply tree_same; [|exact Ht]. by apply inner_kept.
Qed.
Lemma index_same b : index_block D' addr b ↔ index_block D addr b.
Proof.
  split; intros (i & Hi & Hz & Hb); exists i; (split; [done|]); (split; [done|]);
    by apply (inner_same D D' _ _ _ (inner_kept i Hi Hz)).
Qed.
Lemma own_same : own D addr → own D' addr.
Proof.
  intros [H1 H2]. split.
  - intros l b Hl. rewrite block_of_same by done. intros E Hx. apply index_same in Hx. by apply (H1 l b).
  - intros l l' b Hl Hl'. rewrite !block_of_same by done. by apply H2.
Qed.
End same.

(** The file holds [data] at [off] and is otherwise unchanged, and so is the
    disk but for the blocks of that part of the file. *)
Record written (D D' : Z → list Z) (addr : list Z) (off : Z) (data : list Z) : Prop := {
  wr_where : ∀ b, D' b ≠ D b → ∃ l, off / 1024 ≤ l ∧ 1024 * l < off + Z.of_nat (length data) ∧ block_of D addr l = Some b;
  wr_in : file_bytes D' addr off (length data) = data;
  wr_out : ∀ p, 0 ≤ p < 2 ^ 31 → p < off ∨ off + Z.of_nat (length data) ≤ p → file_byte D' addr p = file_byte D addr p;
}.
Lemma written_index D D' addr off data : own D addr → 0 ≤ off → off + Z.of_nat (length data) < 2 ^ 31 →
  written D D' addr off data → ∀ x, index_block D addr x → D' x = D x.
Proof.
  intros Ho Hoff Hl [Hw _ _] x Hx. destruct (decide (D' x = D x)) as [?|Hne]; [done|]. exfalso.
  destruct (Hw x Hne) as (l & H1 & H2 & Hb). pose proof (Z.div_pos off 1024 ltac:(lia) ltac:(lia)).
  by apply (ow_data _ _ Ho l x); [lia|..].
Qed.
Lemma block_number p : 0 ≤ p < 2 ^ 31 → 0 ≤ p / 1024 < 2 ^ 21.
Proof. intros Hp. split; [apply Z.div_pos; lia|apply Z.div_lt_upper_bound; lia]. Qed.
Lemma file_bytes_ext D D' addr off n : (∀ i, (i < n)%nat → file_byte D' addr (off + Z.of_nat i) = file_byte D addr (off + Z.of_nat i)) →
  file_bytes D' addr off n = file_bytes D addr off n.
Proof.
  intros He. unfold file_bytes. apply list_eq. intros i. rewrite !list_lookup_fmap. destruct (decide (i < n)%nat).
  - rewrite !lookup_seq_lt by done. simpl. f_equal. by apply He.
  - rewrite !lookup_seq_ge by lia. done.
Qed.
Lemma written_app D D1 D2 addr off d1 d2 : own D addr → 0 ≤ off → off + Z.of_nat (length d1 + length d2) < 2 ^ 31 →
  written D D1 addr off d1 → written D1 D2 addr (off + Z.of_nat (length d1)) d2 → written D D2 addr off (d1 ++ d2).
Proof.
  intros Ho Hoff Hl W1 W2. assert (Hix := written_index D D1 addr off d1 Ho Hoff ltac:(lia) W1).
  destruct W1 as [Hw1 Hi1 Ho1], W2 as [Hw2 Hi2 Ho2]. pose proof (Z.div_pos off 1024 ltac:(lia) ltac:(lia)) as Hd. split.
  - intros b Hb. rewrite length_app. destruct (decide (D1 b = D b)) as [E|E].
    + rewrite <- E in Hb. destruct (Hw2 b Hb) as (l & H1 & H2 & H3).
      pose proof (Z.div_le_mono off (off + Z.of_nat (length d1)) 1024 ltac:(lia) ltac:(lia)).
      exists l. split; [lia|]. split; [lia|]. rewrite <- (block_of_same D D1 addr Hix) by lia. done.
    + destruct (Hw1 b E) as (l & H1 & H2 & H3). exists l. split; [done|]. split; [lia|done].
  - rewrite length_app, file_bytes_app, Hi2. f_equal. rewrite <- Hi1 at 2. apply file_bytes_ext.
    intros i Hi. apply Ho2; lia.
  - rewrite length_app. intros p Hp Hpo. rewrite Ho2 by lia. apply Ho1; lia.
Qed.
(** One block, or part of it. *)
Lemma written_block D addr off new b ws : own D addr → 0 ≤ off → (0 < length new)%nat →
  off `mod` 1024 + Z.of_nat (length new) ≤ 1024 → off + Z.of_nat (length new) < 2 ^ 31 →
  block_of D addr (off / 1024) = Some b → length ws = 256%nat → Forall is_byte new →
  length new = 1024%nat ∨ ws = D b → written D (<[b := spliced ws (off `mod` 1024) new]> D) addr off new.
Proof.
  intros Ho Hoff Hn Hon Hl Hb Hws Hnew Hfull. pose proof (Z.mod_pos_bound off 1024 ltac:(lia)) as Hm.
  pose proof (Z.div_mod off 1024 ltac:(lia)) as Hdm. set (D' := <[b := _]> D).
  assert (Hbn := block_number off ltac:(lia)).
  assert (Hix : ∀ x, index_block D addr x → D' x = D x).
  { intros x Hx. unfold D'. destruct (decide (x = b)) as [->|]; [by destruct (ow_data _ _ Ho _ b Hbn Hb)|by rewrite fn_lookup_insert_ne]. }
  assert (Hby : ∀ p, 0 ≤ p < 2 ^ 31 → file_byte D' addr p =
    if decide (off ≤ p < off + Z.of_nat (length new)) then nth (Z.to_nat (p - off)) new 0 else file_byte D addr p).
  { intros p Hp. assert (Hpn := block_number p Hp). pose proof (Z.mod_pos_bound p 1024 ltac:(lia)) as Hpm.
    pose proof (Z.div_mod p 1024 ltac:(lia)) as Hpd. unfold file_byte, file_block. rewrite (block_of_same D D' addr Hix) by done.
    destruct (decide (p / 1024 = off / 1024)) as [E|E].
    - rewrite E, Hb. unfold D'. rewrite fn_lookup_insert, spliced_nth by (done || lia).
      repeat case_decide; try lia; [f_equal; lia|]. destruct Hfull as [Hfull|Ew]; [lia|].
      rewrite Ew. done.
    - rewrite decide_False by lia. destruct (block_of D addr (p / 1024)) as [b'|] eqn:Eb; [|done]. unfold D'.
      rewrite fn_lookup_insert_ne; [done|]. intros <-. by apply E, (ow_once _ _ Ho _ _ b). }
  split.
  - intros x Hx. destruct (decide (x = b)) as [->|Hxb]; [|unfold D' in Hx; by rewrite fn_lookup_insert_ne in Hx].
    exists (off / 1024). split; [lia|]. split; [lia|done].
  - apply list_eq. intros i. unfold file_bytes. rewrite list_lookup_fmap. destruct (decide (i < length new)%nat).
    + rewrite lookup_seq_lt by done. simpl. rewrite Hby by lia. rewrite decide_True by lia.
      replace (Z.to_nat (off + Z.of_nat i - off)) with i by lia. destruct (lookup_lt_is_Some_2 new i) as [x Hx]; [done|].
      rewrite Hx. f_equal. by apply nth_lookup_Some.
    + rewrite lookup_seq_ge by lia. simpl. symmetry. apply lookup_ge_None_2. lia.
  - intros p Hp Hpo. rewrite Hby by done. rewrite decide_False by lia. done.
Qed.

(** * From one piece of user memory *)

Lemma kstore_eq s a on new ws :
  bufdata s !! a = Some ws → length ws = 256%nat → 0 ≤ on → on + Z.of_nat (length new) ≤ 1024 →
  kstore a on new s = Done tt (with_d s a (spliced ws on new)).
Proof.
  intros Ha Hl Ho Hn. unfold kstore, getblock. rewrite bind_assoc, (bind_done _ _ _ _ _ (get_s_eq _)). cbv beta.
  rewrite Ha. cbn [unless_none]. rewrite (bind_done _ _ _ _ _ (mret_eq _ _)). cbv beta zeta.
  rewrite length_block_bytes, Hl. rewrite (proj2 (Z.leb_le _ _) Ho).
  replace (on + Z.of_nat (length new) <=? Z.of_nat (4 * 256)) with true by (symmetry; apply Z.leb_le; lia). cbn [andb].
  unfold setblock, getblock. rewrite bind_assoc, (bind_done _ _ _ _ _ (get_s_eq _)). cbv beta. rewrite Ha. reflexivity.
Qed.
Lemma uiomove_in s a on k ws base len off :
  bufdata s !! a = Some ws → length ws = 256%nat → 0 ≤ on → 0 < k → on + k ≤ 1024 → k ≤ len →
  0 ≤ base → base + len < 2 ^ 32 → 0 ≤ off → off + len < 2 ^ 31 →
  uiomove a on k (one base len off UIO_WRITE) s =
    Done (one (base + k) (len - k) (off + k) UIO_WRITE) (with_d s a (spliced ws on (ubytes (umem s) base (Z.to_nat k)))).
Proof.
  intros Ha Hl Ho Hk Hs Hlen Hb Hbl Hoff Hol. unfold uiomove, one. cbn [length uio_iov Nat.mul Nat.add uiomove_loop].
  replace (k <=? 0) with false by (symmetry; apply Z.leb_gt; lia). cbn [orb uio_resid].
  replace (len =? 0) with false by (symmetry; apply Z.eqb_neq; lia). cbn [uio_iov iov_len uio_rw iov_base].
  replace (len =? 0) with false by (symmetry; apply Z.eqb_neq; lia). rewrite Z.min_r by lia. unfold move.
  rewrite bind_assoc, (bind_done _ _ _ _ _ (get_s_eq _)). cbv beta.
  rewrite (bind_done _ _ _ _ _ (kstore_eq s a on (ubytes (umem s) base (Z.to_nat k)) ws Ha Hl Ho ltac:(rewrite length_ubytes; lia))). cbv beta.
  rewrite Z.sub_diag. cbn [Z.leb Z.compare orb].
  change (advance (MkIov base len) [] k (MkUio [MkIov base len] 1 off len UIO_WRITE)) with
    (MkUio [MkIov (u32 (base + k)) (len - k)] 1 (i32 (off + k)) (u32 (len - k)) UIO_WRITE).
  rewrite !u32_small, i32_small by lia. reflexivity.
Qed.

(** * One turn of the loop *)

Definition grown (e : Z) (ip : inode) : inode := ip <| i_size := Z.max (i_size ip) e |>.
Definition marked (ruid : Z) (ip : inode) : inode :=
  ip <| i_flag ::= λ f, setf f (Z.lor IUPD ICHG) |>
     <| i_mode ::= λ m, if ruid =? 0 then m else clrf m (Z.lor ISUID ISGID) |>.
Definition to_write (type : Z) : Prop := type = IFREG ∨ type = IFDIR ∨ type = IFLNK.

Section writing.
Context `{KConfig} `{KLayout} `{SigEnv} `{MdEnv} `{BioEnv} `{FsEnv} `{DevEnv}.
Variable rg : region.
Hypothesis Hmd : on_md rg.
Hypothesis Hbuf : (1 < NBUF)%nat.
Implicit Types (D : Z → list Z) (s : kstate).

Lemma map_writes fuel n ip D s type flags base len off k b :
  ready rg n ip D s → plain rg D ip → to_write type → 0 ≤ off → 0 < k → off + k < 2 ^ 31 → (NBUF < fuel)%nat →
  block_of D (i_addr ip) (off / 1024) = Some b →
  ∃ s', rwip_map (S fuel) n type flags (off / 1024) k (one base len off UIO_WRITE) s = Done (inr (b, k)) s' ∧
    ready rg n (grown (off + k) ip) D s' ∧ umem s' = umem s ∧ u_ruid (u s') = u_ruid (u s).
Proof.
  intros Hrd Hpl Ht Ho Hk Hok Hf Hb. assert (Hbn := block_number off ltac:(lia)).
  unfold rwip_map. rewrite (bind_done _ _ _ _ _ (geti_eq _ _ _ (rd_ip _ _ _ _ _ Hrd))). cbv beta.
  assert (Hnb : type =? IFBLK = false) by (by destruct Ht as [->|[->| ->]]). rewrite Hnb.
  change (isz (one base len off UIO_WRITE) UIO_READ) with false. change (isz (one base len off UIO_WRITE) UIO_WRITE) with true.
  change (uio_offset (one base len off UIO_WRITE)) with off. cbn [andb]. cbv zeta iota.
  destruct (bmap_ready rg Hmd Hbuf fuel n ip D s (off / 1024) B_WRITE (if k =? DEV_BSIZE then flags else Z.lor flags B_CLRBUF) Hrd Hpl Hbn Hf)
    as (s1 & E1 & Hrd1 & F1 & _); [right; by exists b|].
  rewrite (bind_done _ _ _ _ _ E1). cbv beta. rewrite (bind_done _ _ _ _ _ (getu_eq _ _)). cbv beta.
  rewrite (rd_error _ _ _ _ _ Hrd1), Hb. cbn [default Z.eqb negb orb]. unfold id.
  destruct (block_in rg D (i_addr ip) (off / 1024) b (pl_file _ _ _ Hpl) Hbn Hb) as [Hb0 _].
  replace (b <? 0) with false by (symmetry; apply Z.ltb_ge; lia).
  rewrite (bind_done _ _ _ _ _ (geti_eq _ _ _ (rd_ip _ _ _ _ _ Hrd1))). cbv beta.
  assert (Hty : (type =? IFDIR) || (type =? IFREG) || (type =? IFLNK) = true) by (by destruct Ht as [->|[->| ->]]).
  rewrite Hty, andb_true_r, i32_small by lia. destruct (look_fields _ _ F1) as (_ & _ & A3 & _ & A5).
  destruct (i_size ip <? off + k) eqn:Es; cbn [when]; rewrite ?Z.ltb_lt, ?Z.ltb_ge in Es.
  - rewrite (bind_done _ _ _ _ _ (seti_eq _ _ _ _ (rd_ip _ _ _ _ _ Hrd1))). cbv beta.
    eexists. split; [done|]. split; [|by split].
    assert (Eg : grown (off + k) ip = ip <| i_size := off + k |>) by (unfold grown; by rewrite Z.max_r by lia).
    destruct Hrd1 as [Hco Hid Hip Hfs He]. split; [by apply (coh_ext rg s1)|exact Hid|simpl; rewrite Eg; apply lookup_insert_eq|exact Hfs|exact He].
  - rewrite (bind_done _ _ _ _ _ (mret_eq _ _)). cbv beta. exists s1. split; [done|]. split; [|by split].
    assert (Eg : grown (off + k) ip = ip) by (unfold grown; rewrite Z.max_l by lia; by destruct ip). by rewrite Eg.
Qed.

Lemma write_buf_got fuel D s b k :
  coh rg s D ∅ → idle s → in_range rg b → (NBUF < fuel)%nat →
  ∃ j r s' ws, rwip_write_buf (S fuel) (rg_dev rg) b k s = Done (BufP j) s' ∧ got rg s s' D ∅ j r b ∧
    bufdata s' !! core j = Some ws ∧ length ws = 256%nat ∧ (k ≠ 1024 → ws = D b).
Proof.
  intros Hco Hid Hin Hf. pose proof (ndirty_le (bstore s)) as Hn. unfold rwip_write_buf. change DEV_BSIZE with 1024.
  assert (Hav := idle_available rg ltac:(lia) s D ∅ b Hco Hid).
  assert (Hg : ∃ j r s' ws, (if k =? 1024 then getblk (S fuel) (rg_dev rg) b else bread (S fuel) (rg_dev rg) b) s = Done (BufP j) s' ∧
    got rg s s' D ∅ j r b ∧ bufdata s' !! core j = Some ws ∧ length ws = 256%nat ∧ (k ≠ 1024 → ws = D b)).
  { destruct (k =? 1024) eqn:Ek; rewrite ?Z.eqb_eq, ?Z.eqb_neq in Ek.
    - destruct (getblk_coh rg Hmd fuel s D ∅ b Hco Hav Hin ltac:(lia)) as (j & r & s1 & E1 & Hg).
      destruct (bo_core _ _ _ _ _ _ (ch_pool _ _ _ _ (got_coh _ _ _ _ _ _ _ _ Hg) j r (got_lt _ _ _ _ _ _ _ _ Hg) (got_buf _ _ _ _ _ _ _ _ Hg)))
        as (ws & Hw & Hl). exists j, r, s1, ws. by do 4 (split; [done|]).
    - destruct (bread_coh rg Hmd fuel s D ∅ b Hco Hav Hin ltac:(lia)) as (j & r & s1 & E1 & Hg & Hd & _).
      exists j, r, s1, (D b). do 3 (split; [done|]). split; [|done].
      destruct (ch_disk _ _ _ _ Hco b Hin) as (ws & _ & Hl & _). exact Hl. }
  destruct Hg as (j & r & s1 & ws & E1 & Hg & Hw & Hl & Hk). exists j, r, s1, ws. split; [|done].
  rewrite (bind_done _ _ _ _ _ E1). cbv beta. destruct Hg as [Hco1 Hj Hr _ _ _ _ _ _ _].
  rewrite (bind_done _ _ _ _ _ (getbuf_eq _ _ _ Hr)). cbv beta. by rewrite (bo_resid _ _ _ _ _ _ (ch_pool _ _ _ _ Hco1 j r Hj Hr)).
Qed.

(** The buffer is let go, written or with its write due. *)
Lemma let_go_idle s s' D W j r (f : buf → buf) :
  coh rg s D W → bstore s !! BufP j = Some r →
  (∀ i ri, i ≠ j → (i < NBUF)%nat → bstore s !! BufP i = Some ri → has (b_flags ri) B_BUSY = false) →
  same_pool (bstore s) (bstore s') j f → has (b_flags (f r)) B_BUSY = false → idle s'.
Proof.
  intros Hco Hr Hoth Hp Hf i ri Hi Hri. destruct (same_pool_inv _ _ _ _ _ _ Hp Hri) as (r1 & Hr1 & B).
  apply bare_fields in B as (-> & _). case_decide as E; [subst i; by assert (r1 = r) as -> by congruence|]. by apply (Hoth i).
Qed.
Lemma bawrite_any fuel s D W j r b :
  coh rg s D W → (j < NBUF)%nat → bstore s !! BufP j = Some r → has (b_flags r) B_BUSY = true →
  holds r (rg_dev rg) b → in_range rg b → bufdata s !! core j = Some (D b) →
  ∃ s' f, bawrite fuel (BufP j) s = Done tt s' ∧ coh rg s' D (W ∖ {[j]}) ∧ io_frame s s' ∧
    same_pool (bstore s) (bstore s') j f ∧ has (b_flags (f r)) B_BUSY = false.
Proof.
  intros Hco Hj Hr Hb Hh Hin Hd. unfold bawrite, set_bflags at 1.
  rewrite (bind_done _ _ _ _ _ (setbuf_alter s _ _ ltac:(by eexists))). cbv beta.
  set (s1 := with_b s (alter asynced (BufP j) (bstore s))).
  assert (Hco1 : coh rg s1 D W) by (eapply (coh_flag rg s D W j r B_ASYNC); [done|done|done|done|by left]).
  assert (Hr1 : bstore s1 !! BufP j = Some (asynced r)) by (simpl; by rewrite lookup_alter_eq, Hr).
  assert (HN : has (b_flags (asynced r)) NEVER = false) by (apply (bo_never _ _ _ _ _ _ (ch_pool _ _ _ _ Hco1 j _ Hj Hr1))).
  destruct (bwrite_async_any rg Hmd fuel s1 D W j (asynced r) b Hco1 Hj Hr1) as (s2 & E2 & Hco2 & F2 & P2);
    [unfold asynced; by hasf|unfold asynced; by hasf| |done|done|].
  { destruct Hh as (? & ? & Hv). split; [done|]. split; [done|]. unfold asynced. by hasf. }
  exists s2, (λ r, (if has (b_flags (asynced r)) B_DELWRI then flushed else unlocked) (asynced r)).
  split; [exact E2|]. split; [done|]. split; [eapply io_frame_trans; [apply (io_frame_with_b s)|done]|]. split.
  - intros i. rewrite (P2 i). change (bstore s1) with (alter asynced (BufP j) (bstore s)).
    destruct (decide (i = j)) as [->|]; [|by rewrite !lookup_alter_ne by congruence].
    rewrite !lookup_alter_eq, Hr. done.
  - destruct (flushed_facts (asynced r) HN) as (_ & _ & F & _). destruct (has _ B_DELWRI); [exact F|]. unfold unlocked.
    destruct (let_go_ok (doned (wr_rec (asynced r)))) as (_ & _ & _ & ->); [|by hasf].
    simpl. rewrite has_setf by done. by apply has_clrf_mono.
Qed.
Lemma put_back fuel s D j r b n ip on k ioflag :
  coh rg s D {[j]} → (j < NBUF)%nat → bstore s !! BufP j = Some r → has (b_flags r) B_BUSY = true →
  has (b_flags r) B_ASYNC = false → holds r (rg_dev rg) b → in_range rg b → bufdata s !! core j = Some (D b) →
  (∀ i ri, i ≠ j → (i < NBUF)%nat → bstore s !! BufP i = Some ri → has (b_flags ri) B_BUSY = false) →
  inodes s !! n = Some ip → has (i_flag ip) IPIPE = false →
  ∃ s', (ip ← geti n;
    if has ioflag IO_SYNC then bwrite fuel (BufP j)
    else if (k + on =? DEV_BSIZE) && negb (has (i_flag ip) IPIPE) then set_bflags (BufP j) B_AGE ;; bawrite fuel (BufP j)
    else bdwrite fuel (BufP j)) s = Done tt s' ∧
    coh rg s' D ∅ ∧ idle s' ∧ io_frame s s'.
Proof.
  intros Hco Hj Hr Hb Ha Hh Hin Hd Hoth Hip Hpipe. rewrite (bind_done _ _ _ _ _ (geti_eq _ _ _ Hip)). cbv beta. rewrite Hpipe, andb_true_r.
  assert (HN := bo_never _ _ _ _ _ _ (ch_pool _ _ _ _ Hco j _ Hj Hr)).
  assert (EW : ({[j]} ∖ {[j]} : gset nat) = ∅) by set_solver.
  destruct (has ioflag IO_SYNC); [|destruct (k + on =? DEV_BSIZE)].
  - destruct (bwrite_coh rg Hmd fuel s D _ j r b Hco Hj Hr Hb Hh Hin Ha Hd) as (s1 & E1 & Hco1 & F1 & _ & P1). rewrite EW in Hco1.
    exists s1. split; [exact E1|]. split; [done|]. split; [|done]. eapply let_go_idle; [exact Hco|exact Hr|done|exact P1|].
    unfold Disk.written. destruct (let_go_ok (done_rec (wr_rec r))) as (_ & _ & _ & ->); [|by hasf].
    simpl. rewrite has_clrf_disj, has_setf by done. by apply has_clrf_mono.
  - unfold set_bflags. rewrite (bind_done _ _ _ _ _ (setbuf_alter s _ _ ltac:(by eexists))). cbv beta.
    set (s1 := with_b s (alter aged (BufP j) (bstore s))).
    assert (Hco1 : coh rg s1 D {[j]}) by (eapply (coh_flag rg s D _ j r B_AGE); [done|done|done|done|by left]).
    assert (Hr1 : bstore s1 !! BufP j = Some (aged r)) by (simpl; by rewrite lookup_alter_eq, Hr).
    destruct (bawrite_any fuel s1 D _ j (aged r) b Hco1 Hj Hr1) as (s2 & f & E2 & Hco2 & F2 & P2 & Hf);
      [unfold aged; by hasf| |done|done|].
    { destruct Hh as (? & ? & Hv). split; [done|]. split; [done|]. unfold aged. by hasf. }
    rewrite EW in Hco2. exists s2. split; [exact E2|]. split; [done|]. split; [|eapply io_frame_trans; [apply (io_frame_with_b s)|done]].
    eapply let_go_idle; [exact Hco1|exact Hr1| |exact P2|exact Hf].
    intros i ri Hij Hi Hri. simpl in Hri. rewrite lookup_alter_ne in Hri by congruence. by apply (Hoth i).
  - destruct (bdwrite_coh rg Hmd fuel s D _ j r b Hco Hj Hr Hb Hh Hd) as (s1 & E1 & Hco1 & F1 & _ & P1). rewrite EW in Hco1.
    exists s1. split; [exact E1|]. split; [done|]. split; [|done]. eapply let_go_idle; [exact Hco|exact Hr|done|exact P1|].
    destruct (let_go_ok (dirtied r)) as (_ & _ & _ & ->); [simpl; by rewrite has_setf|by hasf].
Qed.
(** The inode is marked. *)
Lemma write_done fuel s D j r b n ip on k ioflag :
  coh rg s D {[j]} → (j < NBUF)%nat → bstore s !! BufP j = Some r → has (b_flags r) B_BUSY = true →
  has (b_flags r) B_ASYNC = false → holds r (rg_dev rg) b → in_range rg b → bufdata s !! core j = Some (D b) →
  (∀ i ri, i ≠ j → (i < NBUF)%nat → bstore s !! BufP i = Some ri → has (b_flags ri) B_BUSY = false) →
  is_Some (mounts s !! i_fs ip) → u_error (u s) = 0 → inodes s !! n = Some ip → has (i_flag ip) IPIPE = false →
  ∃ s', rwip_write_done fuel n (BufP j) on k ioflag s = Done tt s' ∧
    ready rg n (marked (u_ruid (u s)) ip) D s' ∧ umem s' = umem s ∧ u_ruid (u s') = u_ruid (u s).
Proof.
  intros Hco Hj Hr Hb Ha Hh Hin Hd Hoth Hfs He Hip Hpipe.
  destruct (put_back fuel s D j r b n ip on k ioflag Hco Hj Hr Hb Ha Hh Hin Hd Hoth Hip Hpipe) as (s1 & E1 & Hco1 & Hid1 & F1).
  unfold rwip_write_done. rewrite (bind_done _ _ _ _ _ (geti_eq _ _ _ Hip)) in E1. cbv beta in E1.
  rewrite (bind_done _ _ _ _ _ (geti_eq _ _ _ Hip)). cbv beta. rewrite (bind_done _ _ _ _ _ E1). cbv beta.
  destruct (io_fields _ _ F1) as (A1 & A2 & A3 & A4 & A5). assert (Hip1 : inodes s1 !! n = Some ip) by (by rewrite A1).
  unfold Inode.set_iflag. rewrite (bind_done _ _ _ _ _ (seti_eq _ _ _ _ Hip1)). cbv beta.
  rewrite (bind_done _ _ _ _ _ (getu_eq _ _)). cbv beta. set (s2 := s1 <| inodes ::= _ |>).
  change (u_ruid (u s2)) with (u_ruid (u s1)). rewrite A5. set (ip1 := ip <| i_flag ::= λ f, setf f (Z.lor IUPD ICHG) |>).
  assert (Hip2 : inodes s2 !! n = Some ip1) by apply lookup_insert_eq.
  assert (Hco2 : coh rg s2 D ∅) by (by apply (coh_ext rg s1)).
  destruct (u_ruid (u s) =? 0) eqn:Er; cbn [negb when].
  - exists s2. split; [done|]. split; [|by split]. split; [done|done| |by rewrite <- A2 in Hfs|by rewrite <- A4 in He].
    rewrite Hip2. unfold ip1, marked. rewrite Er. by destruct ip.
  - rewrite (seti_eq _ _ _ _ Hip2). eexists. split; [done|]. split; [|by split]. split; [by apply (coh_ext rg s2)|done| |by rewrite <- A2 in Hfs|by rewrite <- A4 in He].
    simpl. rewrite lookup_insert_eq. unfold ip1, marked. by rewrite Er.
Qed.

Definition wrote (ruid e : Z) (ip : inode) : inode := marked ruid (grown e ip).
Lemma setf_again f m : setf (setf f m) m = setf f m.
Proof. unfold setf. by rewrite <- Z.lor_assoc, Z.lor_diag. Qed.
Lemma clrf_again f m : clrf (clrf f m) m = clrf f m.
Proof. unfold clrf. apply Z.bits_inj'. intros b Hb. rewrite !Z.ldiff_spec. by destruct (Z.testbit f b), (Z.testbit m b). Qed.
Lemma wrote_wrote ruid e1 e2 ip : wrote ruid e2 (wrote ruid e1 ip) = wrote ruid (Z.max e1 e2) ip.
Proof.
  destruct ip. cbv -[Z.max setf clrf Z.lor Z.eqb IUPD ICHG ISUID ISGID]. rewrite setf_again, Z.max_assoc.
  by destruct (ruid =? 0); rewrite ?clrf_again.
Qed.
Lemma plain_wrote D D' ip ruid e addr off data :
  plain rg D ip → addr = i_addr ip → own D addr → 0 ≤ off → off + Z.of_nat (length data) < 2 ^ 31 → written D D' addr off data →
  0 ≤ e < 2 ^ 31 → plain rg D' (wrote ruid e ip).
Proof.
  intros [Hdv Hp Hs Hf] -> Ho Hoff Hl W He. split; [done| | |].
  - unfold wrote, marked. simpl. by rewrite has_setf.
  - unfold wrote, marked, grown. simpl. lia.
  - unfold wrote, marked. simpl. eapply file_ok_same; [|exact Hf]. by eapply written_index.
Qed.

(** What the user has for one block, or part of it, reaches the file. *)
Lemma step_writes fuel n ip D s type ioflag flags base len off b :
  ready rg n ip D s → plain rg D ip → own D (i_addr ip) → to_write type → 0 ≤ off → 0 < len → off + len < 2 ^ 31 →
  0 ≤ base → base + len < 2 ^ 32 → bytes_in (umem s) → (NBUF < fuel)%nat → block_of D (i_addr ip) (off / 1024) = Some b →
  let k := Z.min (1024 - off `mod` 1024) len in
  ∃ s' D', rwip_step (S fuel) n type (i_dev ip) ioflag flags (one base len off UIO_WRITE) s =
      Done (one (base + k) (len - k) (off + k) UIO_WRITE, Again k) s' ∧
    ready rg n (wrote (u_ruid (u s)) (off + k) ip) D' s' ∧
    written D D' (i_addr ip) off (ubytes (umem s) base (Z.to_nat k)) ∧
    umem s' = umem s ∧ u_ruid (u s') = u_ruid (u s).
Proof.
  intros Hrd Hpl Ho Ht Hoff Hlen Hol Hb Hbl Hm Hf Hbk k. pose proof (Z.mod_pos_bound off 1024 ltac:(lia)) as Hmod.
  assert (Hk : 0 < k ≤ 1024 - off `mod` 1024 ∧ k ≤ len) by lia. assert (Hbn := block_number off ltac:(lia)).
  assert (Hin := block_in rg D (i_addr ip) (off / 1024) b (pl_file _ _ _ Hpl) Hbn Hbk).
  destruct (map_writes fuel n ip D s type flags base len off k b Hrd Hpl Ht Hoff ltac:(lia) ltac:(lia) Hf Hbk) as (s1 & E1 & Hrd1 & U1 & R1).
  pose proof Hrd1 as [Hco1 Hid1 Hip1 Hfs1 He1].
  destruct (write_buf_got fuel D s1 b k Hco1 Hid1 Hin Hf) as (j & r & s2 & ws & E2 & Hg & Hw & Hl & Hfull).
  pose proof (got_idle rg s1 s2 D ∅ j r b Hid1 Hco1 Hg) as Hoth. destruct Hg as [Hco2 Hj Hr Hh Hbz Ha _ _ _ F2].
  pose proof (ch_pool _ _ _ _ Hco2 j r Hj Hr) as [Ba _ Bn _ _ _ _ _ Br]. destruct (io_fields _ _ F2) as (B1 & B2 & B3 & B4 & B5).
  unfold rwip_step. cbv zeta. change (uio_offset (one base len off UIO_WRITE)) with off. change (uio_resid (one base len off UIO_WRITE)) with len.
  rewrite lblkno_div, blkoff_mod by lia. change DEV_BSIZE with 1024. fold k. rewrite (bind_done _ _ _ _ _ E1). cbv beta iota.
  change (isz (one base len off UIO_WRITE) UIO_READ) with false. cbv iota. rewrite (pl_dev _ _ _ Hpl), (bind_done _ _ _ _ _ E2). cbv beta.
  rewrite (bind_done _ _ _ _ _ (getbuf_eq s2 _ _ Hr)). cbv beta. rewrite Br.
  replace (has (b_flags r) B_ERROR) with false by (symmetry; by eapply has_sub; [|exact Bn]).
  change (u32 (1024 - 0)) with 1024. rewrite (Z.min_l k 1024) by lia. rewrite Ba. cbv iota.
  rewrite (bind_done _ _ _ _ _ (uiomove_in s2 (core j) (off `mod` 1024) k ws base len off Hw Hl ltac:(lia) ltac:(lia) ltac:(lia) ltac:(lia) Hb Hbl Hoff Hol)).
  cbv beta. rewrite (bind_done _ _ _ _ _ (set_error_eq _ _)). cbv beta. set (s4 := upd u _ _).
  change (isz (one (base + k) (len - k) (off + k) UIO_WRITE) UIO_READ) with false. cbv iota.
  set (new := ubytes (umem s2) base (Z.to_nat k)) in *. assert (Hnl : length new = Z.to_nat k) by apply length_ubytes.
  assert (Hnb : Forall is_byte new) by (apply ubytes_are; by rewrite B3, U1).
  destruct (spliced_ok ws (off `mod` 1024) new Hl Hnb ltac:(lia) ltac:(lia)) as [Hsl _].
  set (D' := <[b := spliced ws (off `mod` 1024) new]> D).
  assert (Hco4 : coh rg s4 D' {[j]}).
  { apply (coh_ext rg (with_d s2 (core j) (spliced ws (off `mod` 1024) new))); try done.
    replace ({[j]} : gset nat) with ({[j]} ∪ ∅ : gset nat) by set_solver. eapply coh_write; try done. by apply md_nodev. }
  destruct (write_done (S fuel) s4 D' j r b n (grown (off + k) ip) (off `mod` 1024) k ioflag Hco4 Hj Hr Hbz Ha Hh Hin) as (s5 & E5 & Hrd5 & U5 & R5).
  - unfold D'. rewrite fn_lookup_insert. simpl. apply lookup_insert_eq.
  - exact Hoth.
  - change (mounts s4) with (mounts s2). by rewrite B2.
  - done.
  - change (inodes s4) with (inodes s2). by rewrite B1.
  - apply (pl_pipe _ _ _ Hpl).
  - rewrite (bind_done _ _ _ _ _ E5). exists s5, D'. split; [done|].
    assert (Er : u_ruid (u s4) = u_ruid (u s)) by (change (u_ruid (u s4)) with (u_ruid (u s2)); by rewrite B5).
    rewrite Er in *. split; [exact Hrd5|]. assert (Eu : umem s4 = umem s) by (change (umem s4) with (umem s2); by rewrite B3).
    rewrite Eu in U5. split; [|by split]. replace (umem s) with (umem s2) by (by rewrite B3).
    apply (written_block D (i_addr ip) off new b ws Ho Hoff); try done; try lia.
    destruct (decide (k = 1024)) as [->|]; [left; done|right; by apply Hfull].
Qed.

(** * The whole request *)

(** The part of the file from [off] on has its blocks. *)
Definition mapped D (addr : list Z) (off len : Z) : Prop :=
  ∀ l, off / 1024 ≤ l → 1024 * l < off + len → is_Some (block_of D addr l).
Lemma next_block off k : 0 ≤ off → k = 1024 - off `mod` 1024 → (off + k) `mod` 1024 = 0 ∧ (off + k) / 1024 = off / 1024 + 1.
Proof.
  intros Ho Hk. pose proof (Z.div_mod off 1024 ltac:(lia)).
  split; symmetry; [apply (Z.mod_unique_pos _ _ (off / 1024 + 1))|apply (Z.div_unique_pos _ _ _ 0)]; lia.
Qed.
Lemma loop_writes rounds fuel n ip D s type ioflag flags base len off :
  ready rg n ip D s → plain rg D ip → own D (i_addr ip) → to_write type → 0 ≤ off → 0 < len → off + len < 2 ^ 31 →
  0 ≤ base → base + len < 2 ^ 32 → bytes_in (umem s) → (NBUF < fuel)%nat → mapped D (i_addr ip) off len →
  off `mod` 1024 + len ≤ 1024 * Z.of_nat rounds →
  ∃ s' D', rwip_loop rounds (S fuel) n type (i_dev ip) ioflag flags (one base len off UIO_WRITE) s =
      Done (one (base + len) 0 (off + len) UIO_WRITE, inr 0) s' ∧
    ready rg n (wrote (u_ruid (u s)) (off + len) ip) D' s' ∧
    written D D' (i_addr ip) off (ubytes (umem s) base (Z.to_nat len)) ∧
    umem s' = umem s ∧ u_ruid (u s') = u_ruid (u s).
Proof.
  intros Hrd Hpl Ho Ht. revert ip D s base len off Hrd Hpl Ho.
  induction rounds as [|rounds IH]; intros ip D s base len off Hrd Hpl Ho Hoff Hlen Hol Hb Hbl Hm Hf Hmap Hrn;
    pose proof (Z.mod_pos_bound off 1024 ltac:(lia)) as Hmod; [lia|].
  destruct (Hmap (off / 1024)) as [b Hbk]; [lia|pose proof (Z.div_mod off 1024 ltac:(lia)); lia|].
  cbn [rwip_loop].
  destruct (step_writes fuel n ip D s type ioflag flags base len off b Hrd Hpl Ho Ht Hoff Hlen Hol Hb Hbl Hm Hf Hbk) as (s1 & D1 & E1 & Hrd1 & W1 & U1 & R1).
  set (k := Z.min (1024 - off `mod` 1024) len) in *. assert (Hk : 0 < k ≤ len) by lia.
  rewrite (bind_done _ _ _ _ _ E1). cbv beta iota. rewrite (bind_done _ _ _ _ _ (getu_eq _ _)). cbv beta.
  rewrite (rd_error _ _ _ _ _ Hrd1). change (uio_resid (one (base + k) (len - k) (off + k) UIO_WRITE)) with (len - k).
  replace (k =? 0) with false by (symmetry; apply Z.eqb_neq; lia). destruct (decide (k = len)) as [El|El].
  - rewrite El, Z.sub_diag. cbn [Z.eqb negb andb]. exists s1, D1. rewrite El in Hrd1, W1. done.
  - replace (len - k =? 0) with false by (symmetry; apply Z.eqb_neq; lia). cbn [Z.eqb negb andb].
    set (ip1 := wrote (u_ruid (u s)) (off + k) ip) in *. set (d1 := ubytes (umem s) base (Z.to_nat k)) in *.
    assert (Hd1 : Z.of_nat (length d1) = k) by (unfold d1; rewrite length_ubytes; lia).
    destruct (next_block off k Hoff ltac:(lia)) as [Em Ed]. assert (Hbn := block_number off ltac:(lia)).
    assert (Hix := written_index D D1 (i_addr ip) off d1 Ho Hoff ltac:(lia) W1).
    destruct (IH ip1 D1 s1 (base + k) (len - k) (off + k)) as (s2 & D2 & E2 & Hrd2 & W2 & U2 & R2); try done || lia.
    + eapply (plain_wrote D D1 ip _ _ _ off d1); try done || lia.
    + exact (own_same D D1 (i_addr ip) Hix Ho).
    + by rewrite U1.
    + intros l Hl1 Hl2. change (i_addr ip1) with (i_addr ip). rewrite (block_of_same D D1 (i_addr ip) Hix) by lia. apply Hmap; lia.
    + exists s2, D2. change (i_dev ip1) with (i_dev ip) in E2. rewrite E2.
      replace (base + k + (len - k)) with (base + len) by lia. replace (off + k + (len - k)) with (off + len) in * by lia.
      split; [done|]. rewrite R1 in *. unfold ip1 in Hrd2. rewrite wrote_wrote, Z.max_r in Hrd2 by lia.
      split; [exact Hrd2|]. split; [|split; [by rewrite U2|done]].
      replace (Z.to_nat len) with (Z.to_nat k + Z.to_nat (len - k))%nat by lia. rewrite ubytes_app, Z2Nat.id by lia. fold d1.
      apply (written_app D D1 D2); [done|done|rewrite length_ubytes; lia|exact W1|]. rewrite Hd1. rewrite U1 in W2. exact W2.
Qed.

(** The offset that a write begins at. *)
Definition write_at (ip : inode) (ioflag off : Z) : Z :=
  if (Z.land (i_mode ip) IFMT =? IFREG) && has ioflag IO_APPEND then i_size ip else off.
Lemma prepare_writes n ip s base len off0 ioflag :
  inodes s !! n = Some ip → to_write (Z.land (i_mode ip) IFMT) →
  let off := write_at ip ioflag off0 in
  (Z.land (i_mode ip) IFMT = IFREG → has (i_flags ip) APPEND = true → off = i_size ip) →
  ∃ fl, rwip_prepare n (Z.land (i_mode ip) IFMT) (one base len off0 UIO_WRITE) ioflag s = Done (inr (one base len off UIO_WRITE, fl)) s.
Proof.
  intros Hip Ht off Ha. unfold rwip_prepare. rewrite (bind_done _ _ _ _ _ (geti_eq _ _ _ Hip)). cbv beta.
  change (uio_rw (one base len off0 UIO_WRITE)) with UIO_WRITE. cbv iota. unfold off, write_at in *. destruct Ht as [Et|[Et|Et]]; rewrite Et in *.
  - change (IFREG =? IFREG) with true in *. cbv iota. cbn [andb] in *. cbv zeta. exists ioflag.
    set (ui := if has ioflag IO_APPEND then _ else _). assert (Eu : ui = one base len (if has ioflag IO_APPEND then i_size ip else off0) UIO_WRITE)
      by (unfold ui; by destruct (has ioflag IO_APPEND)).
    rewrite Eu. change (uio_offset (one ?a ?b ?c ?d)) with c.
    destruct (has (i_flags ip) APPEND); cbn [andb]; [|done]. rewrite (Ha eq_refl eq_refl), Z.eqb_refl. done.
  - by eexists.
  - by eexists.
Qed.
Lemma sync_writes n ip D s ioflag : ready rg n ip D s → to_write (Z.land (i_mode ip) IFMT) →
  ∃ fl, rwip_sync n (Z.land (i_mode ip) IFMT) ioflag s = Done fl s.
Proof.
  intros Hrd Ht. unfold rwip_sync. rewrite (bind_done _ _ _ _ _ (geti_eq _ _ _ (rd_ip _ _ _ _ _ Hrd))). cbv beta.
  destruct (_ =? IFREG); [by eexists|]. destruct (_ =? IFDIR); [|by eexists]. destruct (rd_fs _ _ _ _ _ Hrd) as [r Hr].
  unfold getfs_of. rewrite bind_assoc, (bind_done _ _ _ _ _ (getm_eq _ _ _ Hr)). by eexists.
Qed.

(** C4: Writing [len] bytes at offset [off], or at the end of the file where the
    request appends, to a part of a file, directory or symbolic link that has
    its blocks, puts the user's bytes there: read back, they are what the
    user's memory held. Every other byte of the file, every block that is not
    among those of that part, and the user's memory are unchanged; the size
    grows to the end of the request, the inode is marked changed, a writer that
    is not root clears the set-id bits, and no error is left; the file can be
    read and written on. *)
Theorem rwip_writes rounds fuel n ip D s ioflag base len off0 l :
  ready rg n ip D s → plain rg D ip → own D (i_addr ip) → to_write (Z.land (i_mode ip) IFMT) → bytes_in (umem s) →
  let off := write_at ip ioflag off0 in
  (Z.land (i_mode ip) IFMT = IFREG → has (i_flags ip) APPEND = true → off = i_size ip) →
  u_rlimit (u s) !! RLIMIT_FSIZE = Some l → off + len ≤ u32 (rlim_cur l) →
  0 ≤ off → 0 < len → off + len < 2 ^ 31 → 0 ≤ base → base + len < 2 ^ 32 → mapped D (i_addr ip) off len →
  (NBUF < fuel)%nat → off `mod` 1024 + len ≤ 1024 * Z.of_nat rounds →
  let ip' := wrote (u_ruid (u s)) (off + len) ip in
  ∃ s' D', rwip rounds (S fuel) n (one base len off0 UIO_WRITE) ioflag s =
      Done (one (base + len) 0 (off + len) UIO_WRITE, Some 0) s' ∧
    written D D' (i_addr ip) off (ubytes (umem s) base (Z.to_nat len)) ∧ umem s' = umem s ∧
    ready rg n ip' D' s' ∧ plain rg D' ip' ∧ own D' (i_addr ip').
Proof.
  intros Hrd Hpl Ho Ht Hm off Happ Hl Hlim Hoff Hlen Hol Hb Hbl Hmap Hf Hrn ip'. unfold rwip.
  rewrite (bind_done _ _ _ _ _ (geti_eq _ _ _ (rd_ip _ _ _ _ _ Hrd))). cbv beta zeta.
  destruct (prepare_writes n ip s base len off0 ioflag (rd_ip _ _ _ _ _ Hrd) Ht Happ) as (fl & Ep). fold off in Ep.
  rewrite (bind_done _ _ _ _ _ Ep). cbv beta iota. destruct (sync_writes n ip D s fl Hrd Ht) as (fl2 & Es).
  rewrite (bind_done _ _ _ _ _ Es). cbv beta. set (type := Z.land (i_mode ip) IFMT) in *.
  assert (Hty : type =? IFCHR = false ∧ type =? IFBLK = false) by (by destruct Ht as [->|[->| ->]]). destruct Hty as [-> ->].
  change (uio_resid (one base len off UIO_WRITE)) with len. replace (len =? 0) with false by (symmetry; apply Z.eqb_neq; lia).
  change (isz (one base len off UIO_WRITE) UIO_WRITE) with true. cbn [andb].
  assert (Eo : (if type =? IFREG then over_limit (one base len off UIO_WRITE) else mret false) s = Done false s).
  { destruct (type =? IFREG); [|done]. unfold over_limit. rewrite (bind_done _ _ _ _ _ (getu_eq _ _)). cbv beta. rewrite Hl.
    cbn [unless_none]. rewrite (bind_done _ _ _ _ _ (mret_eq _ _)). cbv beta.
    change (uio_offset (one base len off UIO_WRITE)) with off. change (uio_resid (one base len off UIO_WRITE)) with len.
    rewrite (u32_small (off + len)) by lia. by replace (u32 (rlim_cur l) <? off + len) with false by (symmetry; apply Z.ltb_ge; lia). }
  rewrite (bind_done _ _ _ _ _ Eo). cbv beta iota. rewrite (bind_done _ _ _ _ _ (geti_eq _ _ _ (rd_ip _ _ _ _ _ Hrd))). cbv beta.
  destruct (loop_writes rounds fuel n ip D s type fl2 (if has fl2 IO_SYNC then B_SYNC else 0) base len off Hrd Hpl Ho Ht Hoff Hlen Hol Hb Hbl Hm Hf Hmap Hrn)
    as (s1 & D1 & E1 & Hrd1 & W1 & U1 & _).
  rewrite (bind_done _ _ _ _ _ E1). cbv beta iota. rewrite (bind_done _ _ _ _ _ (getu_eq _ _)). cbv beta.
  rewrite (rd_error _ _ _ _ _ Hrd1). unfold rwip_undo. cbn [Z.eqb negb andb]. rewrite (bind_done _ _ _ _ _ (mret_eq _ _)). cbv beta.
  assert (Hln : off + Z.of_nat (length (ubytes (umem s) base (Z.to_nat len))) < 2 ^ 31) by (rewrite length_ubytes; lia).
  exists s1, D1. split; [done|]. split; [exact W1|]. split; [exact U1|]. split; [exact Hrd1|]. split.
  - eapply (plain_wrote D D1 ip _ _ _ off _ Hpl eq_refl Ho Hoff Hln W1). lia.
  - apply (own_same D D1 (i_addr ip)); [|done]. apply (written_index D D1 (i_addr ip) off _ Ho Hoff Hln W1).
Qed.
End writing.
End Writing.

(** * Examples *)

Module WritingExamples.
Import Bio Disk DiskExamples Subr Rw Reading ReadingExamples Writing.
#[local] Existing Instances gba_cfg Sched.layout1 Sig.sig_env0 md_env0 bio_env_md DinodeExamples.fs_env0 ReadingExamples.dev_env0.

(** A file of 2500 bytes in blocks 2, 3 and 1; the user has 5 bytes to write,
    and zeros after them. *)
Definition ip5 : inode := ip4 <| i_addr := [2; 3; 1; 0; 0; 0; 0] |>.
Definition five : list Z := [104; 101; 108; 108; 111].
Definition before : kstate :=
  start <| inodes := {[ 0%nat := ip5 ]} |> <| mounts := [MkMount 0x600 BmapExamples.fs1 None] |>
    <| umem := ustore ∅ 0x10000 five |>
    <| u ::= λ r, r <| u_ruid := 7 |> <| u_rlimit := replicate 6 (MkRlim 0x7fffffff 0x7fffffff) |> |>.
Lemma before_ready : ready rg0 0 ip5 D0 before.
Proof. split; [by apply (coh_ext rg0 start), coh0|exact idle0|reflexivity|by eexists|reflexivity]. Qed.
Lemma plain5 : plain rg0 D0 ip5.
Proof.
  split; [reflexivity|reflexivity|simpl; lia|]. intros i Hi.
  destruct i as [|[|[|[|[|[|[|i]]]]]]]; [right|right|right|left; reflexivity|left; reflexivity|left; reflexivity|left; reflexivity|lia];
    (split; [unfold in_range; simpl; lia|exact I]).
Qed.
Lemma blocks5 l b : 0 ≤ l < 2 ^ 21 → Bmap.block_of D0 (i_addr ip5) l = Some b → l = 0 ∧ b = 2 ∨ l = 1 ∧ b = 3 ∨ l = 2 ∧ b = 1.
Proof.
  intros Hl. unfold Bmap.block_of, Bmap.root_of. repeat case_match; intros E; simplify_eq; rewrite ?Z.ltb_lt, ?Z.ltb_ge in *; try done.
  assert (l = 0 ∨ l = 1 ∨ l = 2 ∨ l = 3) as [->|[->|[->| ->]]] by lia; simpl in E; try done; injection E as <-; auto.
Qed.
Lemma own5 : own D0 (i_addr ip5).
Proof.
  split.
  - intros l b _ _ (i & Hi & Hz & Hx). destruct i as [|[|[|[|[|[|[|i]]]]]]]; [done|done|done|done|done|done|done|lia].
  - intros l l' b Hl Hl' E E'. apply blocks5 in E, E'; lia.
Qed.
Lemma bytes_before : bytes_in (umem before).
Proof.
  intros a v. change (umem before) with (ustore ∅ 0x10000 five). unfold five. cbn [ustore].
  rewrite !lookup_insert_Some, lookup_empty. unfold is_byte. intros H. intuition (try discriminate; subst; lia).
Qed.
Lemma rwip_writes_witness :
  ∃ s' D', rwip 4 5 0 (one 0x10000 2000 1000 UIO_WRITE) 0 before = Done (one (0x10000 + 2000) 0 3000 UIO_WRITE, Some 0) s' ∧
    file_bytes D' (i_addr ip5) 1000 2000 = five ++ replicate 1995 0 ∧ file_byte D' (i_addr ip5) 996 = 2 ∧
    i_size <$> inodes s' !! 0%nat = Some 3000 ∧ D' 0 = D0 0.
Proof.
  destruct (rwip_writes rg0 on_md0 ltac:(vm_compute; lia) 4 4 0 ip5 D0 before 0 0x10000 2000 1000 (MkRlim 0x7fffffff 0x7fffffff)
    before_ready plain5 own5 ltac:(left; reflexivity) bytes_before ltac:(discriminate) ltac:(reflexivity) ltac:(vm_compute; congruence)
    ltac:(vm_compute; congruence) ltac:(lia) ltac:(vm_compute; reflexivity) ltac:(lia) ltac:(lia)) as (s' & D' & E & [Ww Wi Wo] & U & Hrd & _).
  - intros l H1 H2. change (write_at ip5 0 1000) with 1000 in *. change (1000 / 1024) with 0 in H1.
    assert (l = 0 ∨ l = 1 ∨ l = 2) as [->|[->| ->]] by lia; eexists; reflexivity.
  - vm_compute; lia.
  - vm_compute; congruence.
  - change (write_at ip5 0 1000) with 1000 in *. exists s', D'. split; [exact E|]. split; [|split; [|split]].
    + rewrite length_ubytes in Wi. change (Z.to_nat 2000) with 2000%nat in Wi. rewrite Wi. vm_compute. reflexivity.
    + rewrite Wo; [reflexivity|lia|left; lia].
    + rewrite (rd_ip _ _ _ _ _ Hrd). reflexivity.
    + destruct (decide (D' 0 = D0 0)) as [?|Hne]; [done|]. destruct (Ww 0 Hne) as (l & H1 & H2 & H3). exfalso.
      rewrite length_ubytes in H2. change (1000 / 1024) with 0 in H1. apply blocks5 in H3; lia.
Defined.
End WritingExamples.
