(* ===== verification/Pipe.v ===== *)
(** Pipes: kern/sys_pipe.c, and [selwakeup] of kern/sys_generic.c. A pipe is an
    unlinked inode whose two descriptors share it; [i_count] is 2 while both
    are open. *)
From S2P Require Import Prelude Buf Kernel Links Callout Sched Prot Time Sig Clock Ring Bio Fs Md Alloc Bmap Inode Ufs Descrip Rw.

Definition MAXPIPSIZ : Z := 4 * MAXBSIZE.
Definition PPIPE : Z := 26.
Definition EPIPE : Z := 32.
Definition SIGPIPE : Z := 13.
Definition P_SELECT : Z := 0x4000.
Definition IRCOLL : Z := 0x2000.
Definition IWCOLL : Z := 0x4000.

(** Sleep channels: [&selwait], [(caddr_t)ip+4] of a reader and [(caddr_t)ip+2]
    of a writer. *)
Definition c_selwait : wchan := WChan "selwait" 0.
Definition c_reader (n : nat) : wchan := WChan "inode+4" (Z.of_nat n).
Definition c_writer (n : nat) : wchan := WChan "inode+2" (Z.of_nat n).

Module Pipe.
Import Rw.
Section pipe.
Context `{KConfig} `{KLayout} `{SigEnv} `{BioEnv} `{FsEnv} `{DevEnv}.

Definition selwakeup (o : option nat) (coll : Z) : K unit :=
  when (negb (coll =? 0)) (modify (λ s, s <| nselcoll ::= λ c, i32 (c + 1) |>) ;; Sched.wakeup c_selwait) ;;
  match o with
  | None => mret tt
  | Some p =>
    r ← getp p;
    if bool_decide (p_wchan r = Some c_selwait) then
      if p_stat r =? SSLEEP then Sched.setrun p else Sched.unsleep p
    else when (has (p_flag r) P_SELECT) (setp p (λ r, r <| p_flag ::= λ f, clrf f P_SELECT |>))
  end.

(** The processes that select for reading and for writing. *)
Definition wake_rsel (n : nat) : K unit :=
  ip ← geti n;
  match i_rsel ip with
  | None => mret tt
  | Some p =>
    selwakeup (Some p) (Z.land (i_flag ip) IRCOLL) ;;
    seti n (λ i, i <| i_rsel := None |>) ;; Inode.clr_iflag n IRCOLL
  end.
Definition wake_wsel (n : nat) : K unit :=
  ip ← geti n;
  match i_wsel ip with
  | None => mret tt
  | Some p =>
    selwakeup (Some p) (Z.land (i_flag ip) IWCOLL) ;;
    seti n (λ i, i <| i_wsel := None |>) ;; Inode.clr_iflag n IWCOLL
  end.
(** One that sleeps in [readp] or [writep] has marked the mode. *)
Definition wake_reader (n : nat) : K unit :=
  ip ← geti n;
  when (has (i_mode ip) IREAD) (seti n (λ i, i <| i_mode ::= λ m, clrf m IREAD |>) ;; Sched.wakeup (c_reader n)).
Definition wake_writer (n : nat) : K unit :=
  ip ← geti n;
  when (has (i_mode ip) IWRITE) (seti n (λ i, i <| i_mode ::= λ m, clrf m IWRITE |>) ;; Sched.wakeup (c_writer n)).

(** [loop:] of [readp], until there is something in the pipe: [inr] with the
    lock held, or what to return. *)
Fixpoint readp_wait (fuel fp n : nat) : K (option Z + unit) :=
  match fuel with
  | O => nofuel
  | S fuel =>
    Inode.ILOCK fuel n ;;
    ip ← geti n;
    if i_size ip =? 0 then
      Inode.IUNLOCK n ;;
      ip ← geti n;
      if negb (i_count ip =? 2) then mret (inl (Some 0))
      else
        f ← getfile fp;
        if has (f_flag f) FNONBLOCK then mret (inl (Some EWOULDBLOCK))
        else
          seti n (λ i, i <| i_mode ::= λ m, setf m IREAD |>) ;;
          b ← Clock.sleep (c_reader n) PPIPE;
          if b : bool then readp_wait fuel fp n else mret (inl None)
    else mret (inr tt)
  end.
(** The reader has caught up. *)
Definition readp_reset (fp n : nat) : K unit :=
  setfile fp (λ f, f <| f_offset := 0 |>) ;;
  seti n (λ i, i <| i_size := 0 |>) ;;
  wake_writer n ;;
  wake_wsel n.
Definition readp (rounds fuel fp : nat) (ui : uio) (flag : Z) : K (uio * option Z) :=
  f ← getfile fp;
  n ← unless_none (f_data f);
  w ← readp_wait fuel fp n;
  match w with
  | inl e => mret (ui, e)
  | inr _ =>
    f ← getfile fp;
    '(ui, r) ← rwip rounds fuel n (ui <| uio_offset := f_offset f |>) flag;
    match r with
    | None => mret (ui, None)
    | Some error =>
      setfile fp (λ f, f <| f_offset := uio_offset ui |>) ;;
      ip ← geti n;
      when (uio_offset ui =? i_size ip) (readp_reset fp n) ;;
      Inode.IUNLOCK n ;;
      mret (ui, Some error)
    end
  end.

(** [loop:] of [writep]; [c] bytes are left. *)
Fixpoint writep_loop (rounds fuel n : nat) (flag c error : Z) (ui : uio) : K (uio * option Z) :=
  match fuel with
  | O => nofuel
  | S fuel =>
    if c =? 0 then Inode.IUNLOCK n ;; mret (ui <| uio_resid := 0 |>, Some error)
    else
      ip ← geti n;
      if negb (i_count ip =? 2) then
        p ← getu u_procp; Sig.psignal p SIGPIPE ;; Inode.IUNLOCK n ;; mret (ui, Some EPIPE)
      else if MAXPIPSIZ <=? i_size ip then
        seti n (λ i, i <| i_mode ::= λ m, setf m IWRITE |>) ;;
        Inode.IUNLOCK n ;;
        b ← Clock.sleep (c_writer n) PPIPE;
        if b : bool then Inode.ILOCK fuel n ;; writep_loop rounds fuel n flag c error ui
        else mret (ui, None)
      else
        let k := Z.min (u32 c) MAXPIPSIZ in
        '(ui, r) ← rwip rounds fuel n (ui <| uio_offset := i_size ip |> <| uio_resid := k |>) flag;
        match r with
        | None => mret (ui, None)
        | Some error =>
          wake_reader n ;;
          wake_rsel n ;;
          writep_loop rounds fuel n flag (i32 (c - k)) error ui
        end
  end.
Definition writep (rounds fuel fp : nat) (ui : uio) (flag : Z) : K (uio * option Z) :=
  f ← getfile fp;
  n ← unless_none (f_data f);
  let c := i32 (uio_resid ui) in
  Inode.ILOCK fuel n ;;
  f ← getfile fp; ip ← geti n;
  if has (f_flag f) FNONBLOCK && (MAXPIPSIZ <=? i32 (i_size ip + c)) then
    Inode.IUNLOCK n ;; mret (ui, Some EWOULDBLOCK)
  else writep_loop rounds fuel n flag c 0 ui.
Definition pipe_rw (rounds fuel fp : nat) (ui : uio) (flag : Z) : K (uio * option Z) :=
  if isz ui UIO_READ then readp rounds fuel fp ui flag else writep rounds fuel fp ui flag.

(** Is another process that waits in [select] noted already? *)
Definition sel_busy (o : option nat) : K bool :=
  match o with None => mret false | Some p => r ← getp p; mret (bool_decide (p_wchan r = Some c_selwait)) end.
Definition pipe_select (fuel fp : nat) (which : Z) : K bool :=
  f ← getfile fp;
  n ← unless_none (f_data f);
  Inode.ILOCK fuel n ;;
  ip ← geti n;
  me ← getu u_procp;
  retval ←
    (if negb (i_count ip =? 2) then mret true
     else if which =? FREAD then
       if negb (i_size ip =? 0) then mret true
       else
         b ← sel_busy (i_rsel ip);
         (if b : bool then Inode.set_iflag n IRCOLL else seti n (λ i, i <| i_rsel := Some me |>)) ;; mret false
     else if which =? FWRITE then
       if i_size ip <? MAXPIPSIZ then mret true
       else
         b ← sel_busy (i_wsel ip);
         (if b : bool then Inode.set_iflag n IWCOLL else seti n (λ i, i <| i_wsel := Some me |>)) ;; mret false
     else mret false);
  Inode.IUNLOCK n ;;
  mret retval.

Definition pipe_close (fuel fp : nat) : K Z :=
  f ← getfile fp;
  n ← unless_none (f_data f);
  Inode.ilock fuel n ;;
  ip ← geti n;
  when (DIAGNOSTIC && negb (has (i_flag ip) IPIPE)) (panic "pipe_close !IPIPE") ;;
  wake_rsel n ;;
  wake_wsel n ;;
  seti n (λ i, i <| i_mode ::= λ m, clrf m (Z.lor IREAD IWRITE) |>) ;;
  Sched.wakeup (c_writer n) ;;
  Sched.wakeup (c_reader n) ;;
  Inode.iput fuel n ;;
  mret 0.

(** The mount table slot of the pipe device, or slot 0. *)
Fixpoint pipe_slot (ms : list mount) (i : nat) (dev : Z) : nat :=
  match ms with
  | [] => 0
  | m :: ms => if bool_decide (m_inodp m = None) || negb (m_dev m =? dev) then pipe_slot ms (S i) dev else i
  end.
(** [mp] is there, or found; [false] where the file system is read-only. *)
Definition pipe_mount : K bool :=
  s ← get_s;
  let search :=
    let m := pipe_slot (mounts s) 0 (pipedev s) in
    modify (λ s, s <| pipe_mp := Some m |>) ;;
    f ← getfs_of m;
    if negb (fs_ronly f =? 0) then set_error EROFS ;; mret false else mret true in
  match pipe_mp s with
  | None => search
  | Some m =>
    mp ← getm m;
    if bool_decide (m_inodp mp = None) || negb (m_dev mp =? pipedev s) then search else mret true
  end.
(** [ialloc] looks at the file system and the device of [itmp] only. *)
Definition itmp (m : nat) (dev : Z) : inode :=
  MkInode 0 0 dev 0 m [] 0 0 0 0 0 0 0 0 0 None None 0 0 None None 0 0 None None.
Definition pipe (fuel : nat) : K unit :=
  ok ← pipe_mount;
  if negb ok then mret tt
  else
    s ← get_s;
    m ← unless_none (pipe_mp s);
    mp ← getm m;
    o ← Ufs.ialloc fuel (itmp m (m_dev mp));
    match o with
    | None => mret tt
    | Some n =>
      o ← Descrip.falloc;
      match o with
      | None => Inode.iput fuel n
      | Some rf =>
        r ← getu u_rval;
        o ← Descrip.falloc;
        match o with
        | None =>
          setfile rf (λ f, f <| f_count := 0 |>) ;;
          setu (λ x, x <| u_ofile ::= <[Z.to_nat r := None]> |>) ;;
          Inode.iput fuel n
        | Some wf =>
          w ← getu u_rval;
          modify (λ s, s <| u_rval2 := w |>) ;;
          set_rval r ;;
          setfile wf (λ f, f <| f_flag := FWRITE |>) ;;
          setfile rf (λ f, f <| f_flag := FREAD |>) ;;
          setfile wf (λ f, f <| f_type := DTYPE_PIPE |>) ;;
          setfile rf (λ f, f <| f_type := DTYPE_PIPE |>) ;;
          setfile wf (λ f, f <| f_data := Some n |>) ;;
          setfile rf (λ f, f <| f_data := Some n |>) ;;
          seti n (λ i, i <| i_count := 2 |> <| i_mode := IFREG |>
            <| i_flag := Z.lor IACC (Z.lor IUPD (Z.lor ICHG IPIPE)) |>)
        end
      end
    end.
End pipe.
End Pipe.
