(* ===== verification/Generic.v ===== *)
(** The calls on descriptors of kern/sys_generic.c: read, readv, write, writev,
    ioctl, select and pselect, and the table of a file's operations. *)
From S2P Require Import Prelude Buf Kernel Links Callout Sched Prot Time Sig Clock Ring Bio Fs Md Alloc Bmap Inode Ufs Descrip Rw Pipe.

Definition DTYPE_SOCKET : Z := 2.
Definition PSOCK : Z := 26.
Definition NFDBITS : Z := 32.
(** What [pipe_rw] finds where its third argument would be: it is called
    through a table whose functions have two. *)
Class AbiEnv := { rw_flag : K Z }.

Module Generic.
Import Rw Pipe.
Section generic.
Context `{KConfig} `{KLayout} `{SigEnv} `{BioEnv} `{FsEnv} `{DevEnv} `{AbiEnv}.

(** * The table of operations *)

Definition sorw : K Z := mret EOPNOTSUPP.
Definition soctl : K Z := mret EOPNOTSUPP.
Definition sosel : K Z := mret EOPNOTSUPP.
Definition socls : K Z := mret EOPNOTSUPP.
(** The operations of [Fops[fp->f_type]]; there are none of type 0. *)
Definition fops_of {A} (fp : nat) (inode socket pipe : K A) : K A :=
  f ← getfile fp;
  if f_type f =? DTYPE_INODE then inode
  else if f_type f =? DTYPE_SOCKET then socket
  else if f_type f =? DTYPE_PIPE then pipe
  else fault.
Definition fops_rw (rounds fuel fp : nat) (ui : uio) : K (uio * option Z) :=
  fops_of fp (ino_rw rounds fuel fp ui) (e ← sorw; mret (ui, Some e))
    (flag ← rw_flag; pipe_rw rounds fuel fp ui flag).
Definition fops_ioctl (fp : nat) (com : Z) (data : ioarg) : K (Z * ioarg) :=
  fops_of fp (ino_ioctl fp com data) (e ← soctl; mret (e, data)) (ino_ioctl fp com data).
Definition fops_select (fuel fp : nat) (which : Z) : K bool :=
  fops_of fp (ino_select fp which) (e ← sosel; mret (negb (e =? 0))) (pipe_select fuel fp which).
Definition fops_close (fuel fp : nat) : K Z :=
  fops_of fp (vn_closefile fuel fp) socls (pipe_close fuel fp).
(** What Descrip's calls use of it. *)
Definition file_env (fuel : nat) : FileEnv := {|
  fo_ioctl := λ fp com v, '(e, d) ← fops_ioctl fp com (Kern v); mret (e, match d with Kern v => v | User _ => v end);
  fo_close := fops_close fuel;
|}.

(** * Reading and writing *)

Definition total_len (iovs : list iovec) : Z := foldl (λ t v, i32 (t + iov_len v)) 0 iovs.
Definition rwuio (rounds fuel : nat) (ui : uio) : K unit :=
  fdes ← uap 0;
  o ← Descrip.getf fdes;
  match o with
  | None => mret tt
  | Some fp =>
    f ← getfile fp;
    if negb (has (f_flag f) (if isz ui UIO_READ then FREAD else FWRITE)) then set_error EBADF
    else
      let total := total_len (take (Z.to_nat (uio_iovcnt ui)) (uio_iov ui)) in
      let ui := ui <| uio_resid := u32 total |> in
      if negb (uio_resid ui =? u32 total) then set_error EINVAL
      else
        let count := uio_resid ui in
        '(ui, r) ← fops_rw rounds fuel fp ui;
        match r with
        | Some e => set_error e ;; set_rval (i32 (count - uio_resid ui))
        | None => if uio_resid ui =? count then mret tt else set_error 0 ;; set_rval (i32 (count - uio_resid ui))
        end
  end.
Definition rw_one (rw : uio_dir) (rounds fuel : nat) : K unit :=
  cbuf ← uap 1; count ← uap 2;
  rwuio rounds fuel (MkUio [MkIov (u32 cbuf) (u32 count)] 1 0 0 rw).
Definition read : nat → nat → K unit := rw_one UIO_READ.
Definition write : nat → nat → K unit := rw_one UIO_WRITE.
(** The words of the user's array of pieces. *)
Fixpoint words_iovs (ws : list Z) : list iovec :=
  match ws with b :: l :: ws => MkIov (u32 b) (u32 l) :: words_iovs ws | _ => [] end.
Definition rw_many (rw : uio_dir) (rounds fuel : nat) : K unit :=
  iovp ← uap 1; iovcnt ← uap 2;
  if 16 <? u32 iovcnt then set_error EINVAL
  else
    r ← copyin_words iovp (2 * Z.to_nat (u32 iovcnt));
    match r with
    | inr e => set_error e
    | inl ws => set_error 0 ;; rwuio rounds fuel (MkUio (words_iovs ws) (u32 iovcnt) 0 0 rw)
    end.
Definition readv : nat → nat → K unit := rw_many UIO_READ.
Definition writev : nat → nat → K unit := rw_many UIO_WRITE.

(** * ioctl *)

(** The [int] at [uap->cmarg]. *)
Definition user_int (a : Z) : K Z := s ← get_s; mret (nth 0 (bytes_words (ubytes (umem s) a 4)) 0).
Definition set_user_int (a v : Z) : K unit := modify (λ s, s <| umem ::= λ m, ustore m a (word_bytes v) |>).
Definition set_pofile (fdes : Z) (f : Z → Z) : K unit :=
  setu (λ r, r <| u_pofile ::= alter (λ x, cchar (f x)) (Z.to_nat fdes) |>).
Definition ioctl (fuel : nat) : K unit :=
  fdes ← uap 0; cmd ← uap 1; cmarg ← uap 2;
  o ← Descrip.getf fdes;
  match o with
  | None => mret tt
  | Some fp =>
    f ← getfile fp;
    if negb (has (f_flag f) (Z.lor FREAD FWRITE)) then set_error EBADF
    else
      let com := u32 cmd in
      let nbytes := Z.shiftr (Z.ldiff com (Z.lor IOC_INOUT IOC_VOID)) 16 in
      if has com (Z.lor IOC_IN IOC_OUT) && badrange cmarg nbytes then set_error EFAULT
      else if com =? FIOCLEX then set_pofile fdes (λ x, setf x UF_EXCLOSE)
      else if com =? FIONCLEX then set_pofile fdes (λ x, clrf x UF_EXCLOSE)
      else if com =? FIONBIO then v ← user_int cmarg; e ← @Descrip.fset (file_env fuel) fp FNONBLOCK v; set_error e
      else if com =? FIOASYNC then v ← user_int cmarg; e ← @Descrip.fset (file_env fuel) fp FASYNC v; set_error e
      else if com =? FIOSETOWN then v ← user_int cmarg; e ← @Descrip.fsetown (file_env fuel) fp v; set_error e
      else if com =? FIOGETOWN then
        v ← user_int cmarg; r ← @Descrip.fgetown (file_env fuel) fp v; set_user_int cmarg r.2 ;; set_error r.1
      else '(e, _) ← fops_ioctl fp com (User cmarg); set_error e
  end.

(** * select *)

(** The descriptors below [nfd] in [bits]; those that are ready are added to
    [obits] and counted in [n]. [None] is EBADF. *)
Fixpoint selscan_bits (rounds fuel : nat) (bits nfd flag obits n : Z) : K (option (Z * Z)) :=
  let j := ffs bits - 1 in
  if (j <? 0) || (nfd <=? j) then mret (Some (obits, n))
  else
    match rounds with
    | O => nofuel
    | S rounds =>
      o ← getu u_ofile;
      fp ← unless_none (o !! Z.to_nat j);
      match fp with
      | None => mret None
      | Some fp =>
        b ← fops_select fuel fp flag;
        let bits := clrf bits (2 ^ j) in
        if b : bool then selscan_bits rounds fuel bits nfd flag (setf obits (2 ^ j)) (n + 1)
        else selscan_bits rounds fuel bits nfd flag obits n
      end
    end.
(** For each of the three sets; a set is one word. *)
Fixpoint selscan_sets (fuel : nat) (flags ibits obits : list Z) (nfd n : Z) : K (option (list Z * Z)) :=
  match flags, ibits, obits with
  | flag :: flags, ib :: ibits, ob :: obits =>
    if NFDBITS <? nfd then fault
    else
      o ← (if 0 <? nfd then selscan_bits 32 fuel (u32 ib) nfd flag (u32 ob) n else mret (Some (u32 ob, n)));
      match o with
      | None => mret None
      | Some (ob, n) =>
        o ← selscan_sets fuel flags ibits obits nfd n;
        mret ((λ r, (i32 ob :: r.1, r.2)) <$> o)
      end
  | _, _, _ => mret (Some (obits, n))
  end.
(** The error, and the sets. *)
Definition selscan (fuel : nat) (ibits obits : list Z) (nfd : Z) : K (Z * list Z) :=
  o ← selscan_sets fuel [FREAD; FWRITE; 0] ibits obits nfd 0;
  match o with
  | None => mret (EBADF, obits)
  | Some (obits, n) => set_rval n ;; mret (0, obits)
  end.

Definition howmany (x y : Z) : Z := u32 (x + (y - 1)) / y.
(** [getbits]: a set of [ni] words, or an error. *)
Definition getbits (a ni : Z) : K (Z + Z) :=
  if a =? 0 then mret (inl 0)
  else
    r ← copyin_words a (Z.to_nat ni);
    match r with
    | inr e => mret (inr e)
    | inl [] => mret (inl 0)
    | inl [w] => mret (inl w)
    | inl _ => fault
    end.
Definition putbits (a ni w error : Z) : K Z :=
  if a =? 0 then mret error
  else e ← copyout_words (take (Z.to_nat ni) [w]) a; mret (if e =? 0 then error else e).
Definition sel_mask (maskp : Z) : K (Z + Z) :=
  if maskp =? 0 then mret (inl 0)
  else
    r ← copyin_words maskp 1;
    match r with inr e => mret (inr e) | inl [w] => mret (inl (clrf w sigcantmask)) | inl _ => fault end.
(** The time at which to give up. *)
Definition sel_deadline (ts : Z) (is_pselect : bool) : K (option timeval + Z) :=
  if ts =? 0 then mret (inl None)
  else
    r ← Time.copyin_tv ts;
    match r with
    | inr e => mret (inr e)
    | inl atv =>
      let atv :=
        if is_pselect then
          atv <| tv_usec := if (tv_sec atv =? 0) && (tv_usec atv <? 1000) then 1 else Z.quot (tv_usec atv) 1000 |>
        else atv in
      let '(e, atv) := Time.itimerfix atv in
      if negb (e =? 0) then mret (inr EINVAL)
      else
        modify (λ s, s <| time ::= λ t, t <| tv_usec := i32 (lbolt s * Time.usechz) |> |>) ;;
        s ← get_s;
        mret (inl (Some (Time.timevaladd atv (time s))))
    end.
Definition sel_expired (atv : timeval) (s : kstate) : bool :=
  (tv_sec atv <? tv_sec (time s))
  || ((tv_sec (time s) =? tv_sec atv) && (tv_usec atv <=? i32 (lbolt s * Time.usechz))).
Definition sel_flag (p : nat) (f : Z → Z → Z) : K unit := setp p (λ r, r <| p_flag ::= λ x, f x P_SELECT |>).
(** The wait, with the mask of [pselect] if there is one. *)
Definition sel_sleep (p : nat) (mask : option Z) (timo : Z) : K Z :=
  match mask with
  | None => mret tt
  | Some m =>
    r ← getp p;
    setu (λ x, x <| u_oldmask := p_sigmask r |> <| u_psflags ::= λ f, setf f SAS_OLDMASK |>) ;;
    setp p (λ r, r <| p_sigmask := m |>)
  end ;;
  error ← Clock.tsleep c_selwait (Z.lor PSOCK PCATCH) timo;
  match mask with
  | None => mret tt
  | Some _ => old ← getu u_oldmask; setp p (λ r, r <| p_sigmask := old |>)
  end ;;
  mret error.
(** [retry:]. *)
Fixpoint sel_loop (rounds fuel : nat) (ibits obits : list Z) (atv : option timeval) (mask : option Z) : K (Z * list Z) :=
  match rounds with
  | O => nofuel
  | S rounds =>
    s ← get_s;
    let ncoll := nselcoll s in
    p ← getu u_procp;
    sel_flag p setf ;;
    nd ← uap 0;
    '(error, obits) ← selscan fuel ibits obits nd;
    rval ← getu u_rval;
    s ← get_s;
    if negb (error =? 0) || negb (rval =? 0) then mret (error, obits)
    else if match atv with Some atv => sel_expired atv s | None => false end then mret (0, obits)
    else
      timo ← (match atv with
              | Some atv => t ← Time.hzto atv; mret (if t =? 0 then 1 else t)
              | None => mret 0
              end);
      r ← getp p;
      sel_flag p clrf ;;
      if negb (has (p_flag r) P_SELECT) || negb (nselcoll s =? ncoll) then sel_loop rounds fuel ibits obits atv mask
      else
        error ← sel_sleep p mask timo;
        if error =? 0 then sel_loop rounds fuel ibits obits atv mask else mret (error, obits)
  end.
(** From [getbits] to [retry]: what is asked for, or an error. *)
Definition sel_args (ni : Z) (is_pselect : bool) : K (list Z * option timeval * option Z + Z) :=
  in_ ← uap 1; ou ← uap 2; ex ← uap 3; ts ← uap 4; maskp ← uap 5;
  i0 ← getbits in_ ni;
  match i0 with inr e => mret (inr e) | inl i0 =>
  i1 ← getbits ou ni;
  match i1 with inr e => mret (inr e) | inl i1 =>
  i2 ← getbits ex ni;
  match i2 with inr e => mret (inr e) | inl i2 =>
  m ← sel_mask maskp;
  match m with inr e => mret (inr e) | inl m =>
  t ← sel_deadline ts is_pselect;
  match t with inr e => mret (inr e) | inl t =>
  mret (inl ([i0; i1; i2], t, if maskp =? 0 then None else Some m))
  end end end end end.
(** [done:]. *)
Definition sel_done (ni error : Z) (obits : list Z) : K Z :=
  p ← getu u_procp;
  sel_flag p clrf ;;
  let error := if error =? ERESTART then EINTR else error in
  let error := if error =? EWOULDBLOCK then 0 else error in
  if negb (error =? 0) then mret error
  else
    in_ ← uap 1; ou ← uap 2; ex ← uap 3;
    error ← putbits in_ ni (nth 0 obits 0) 0;
    error ← putbits ou ni (nth 1 obits 0) error;
    putbits ex ni (nth 2 obits 0) error.
Definition select1 (rounds fuel : nat) (is_pselect : bool) : K Z :=
  nd ← uap 0;
  when (Z.of_nat NOFILE <? nd) (set_uap 0 (Z.of_nat NOFILE)) ;;
  nd ← uap 0;
  let ni := howmany nd NFDBITS in
  a ← sel_args ni is_pselect;
  match a with
  | inr e => sel_done ni e [0; 0; 0]
  | inl (ibits, atv, mask) =>
    '(error, obits) ← sel_loop rounds fuel ibits [0; 0; 0] atv mask;
    sel_done ni error obits
  end.
Definition select (rounds fuel : nat) : K unit :=
  set_uap 5 0 ;; e ← select1 rounds fuel false; set_error e.
Definition pselect (rounds fuel : nat) : K unit := e ← select1 rounds fuel true; set_error e.
Definition seltrue (dev flag : Z) : Z := 1.
End generic.
End Generic.
