(* ===== verification/Select.v ===== *)
(** [selscan]: what select answers. *)
From S2P Require Import Prelude Buf Kernel Links Callout Sched Prot Time Sig Clock Ring Bio Fs Md Alloc Bmap Inode Dinode Ufs Descrip Rw Pipe Generic.

Module Select.
Import Generic.

(** * Sets of descriptors as lists *)

(** The descriptors below [nfd] in a set, in order; a set from a list. *)
Definition members (bits nfd : Z) : list nat := List.filter (λ j, Z.testbit bits (Z.of_nat j)) (seq 0 (Z.to_nat nfd)).
Definition add_bit (w : Z) (j : nat) : Z := setf w (2 ^ Z.of_nat j).
Definition to_set (w : Z) (l : list nat) : Z := foldl add_bit w l.

Lemma filter_skip (f : nat → bool) a j : (∀ i, (a ≤ i < a + j)%nat → f i = false) → List.filter f (seq a j) = [].
Proof.
  revert a. induction j as [|j IH]; intros a Hf; [done|]. cbn [seq List.filter]. rewrite (Hf a) by lia. apply IH. intros i Hi. apply Hf. lia.
Qed.
Lemma filter_ext_seq (f g : nat → bool) a j : (∀ i, (a ≤ i < a + j)%nat → f i = g i) → List.filter f (seq a j) = List.filter g (seq a j).
Proof.
  intros Hf. apply List.filter_ext_in. intros i Hi. apply in_seq in Hi. by apply Hf.
Qed.
Lemma clr_bit w j i : 0 ≤ j → 0 ≤ i → Z.testbit (clrf w (2 ^ j)) i = Z.testbit w i && negb (i =? j).
Proof.
  intros Hj Hi. unfold clrf. rewrite Z.ldiff_spec, Z.pow2_bits_eqb by lia. rewrite (Z.eqb_sym j i). done.
Qed.
Lemma clr_range w j : 0 ≤ w < 2 ^ 32 → 0 ≤ j → 0 ≤ clrf w (2 ^ j) < 2 ^ 32.
Proof.
  intros Hw Hj. unfold clrf. assert (H0 : 0 ≤ Z.ldiff w (2 ^ j)) by (apply Z.ldiff_nonneg; lia).
  split; [done|]. apply Z.bounded_iff_bits_nonneg; [lia|done|].
  intros i Hi. rewrite Z.ldiff_spec, (proj1 (Z.bounded_iff_bits_nonneg 32 w ltac:(lia) ltac:(lia)) ltac:(lia)) by done. done.
Qed.
(** One descriptor after the other. *)
Lemma members_step bits nfd : 0 ≤ bits < 2 ^ 32 → 0 ≤ nfd →
  let j := ffs bits - 1 in
  if (j <? 0) || (nfd <=? j) then members bits nfd = []
  else 0 ≤ j < 32 ∧ members bits nfd = Z.to_nat j :: members (clrf bits (2 ^ j)) nfd.
Proof.
  intros Hb Hn j. unfold members. destruct (decide (bits = 0)) as [->|Hz].
  { unfold j. change (ffs 0 - 1 <? 0) with true. cbn [orb]. apply filter_skip. intros i _. apply Z.testbit_0_l. }
  destruct (Sig.ffs_spec bits) as (H1 & H2 & H3); [lia|]. fold j in H2, H3. assert (Hj : 0 ≤ j < 32) by (unfold j; lia).
  replace (j <? 0) with false by (symmetry; apply Z.ltb_ge; lia). cbn [orb].
  destruct (nfd <=? j) eqn:E; rewrite ?Z.leb_le, ?Z.leb_gt in E.
  - apply filter_skip. intros i Hi. apply H3. lia.
  - split; [done|]. replace (Z.to_nat nfd) with (Z.to_nat j + S (Z.to_nat nfd - Z.to_nat j - 1))%nat by lia.
    rewrite seq_app, !List.filter_app, Nat.add_0_l. cbn [seq List.filter]. rewrite Z2Nat.id by lia.
    rewrite clr_bit, Z.eqb_refl, andb_false_r, H2 by lia.
    rewrite (filter_skip _ 0 (Z.to_nat j)) by (intros i Hi; apply H3; lia).
    rewrite (filter_skip _ 0 (Z.to_nat j)) by (intros i Hi; rewrite clr_bit by lia; rewrite H3 by lia; done).
    cbn [app]. f_equal. apply filter_ext_seq. intros i Hi. rewrite clr_bit by lia.
    replace (Z.of_nat i =? j) with false by (symmetry; apply Z.eqb_neq; lia). by rewrite andb_true_r.
Qed.
Lemma members_length bits nfd : (length (members bits nfd) ≤ Z.to_nat nfd)%nat.
Proof. unfold members. etrans; [apply List.filter_length_le|by rewrite length_seq]. Qed.
Lemma to_set_bit w l i : Z.testbit (to_set w l) (Z.of_nat i) = Z.testbit w (Z.of_nat i) || bool_decide (i ∈ l).
Proof.
  revert w. induction l as [|j l IH]; intros w; cbn [to_set foldl].
  - rewrite bool_decide_eq_false_2 by apply not_elem_of_nil. by rewrite orb_false_r.
  - unfold to_set in IH. rewrite IH. unfold add_bit, setf. rewrite Z.lor_spec, Z.pow2_bits_eqb by lia.
    rewrite <- orb_assoc. f_equal. destruct (decide (i = j)) as [->|Hij].
    + rewrite Z.eqb_refl, (bool_decide_eq_true_2 (j ∈ j :: l)) by (by left). done.
    + replace (Z.of_nat j =? Z.of_nat i) with false by (symmetry; apply Z.eqb_neq; lia). cbn [orb].
      apply bool_decide_ext. rewrite elem_of_cons. intuition congruence.
Qed.

(** * The scan *)

Section selscan.
Context `{KConfig} `{KLayout} `{SigEnv} `{BioEnv} `{FsEnv} `{DevEnv} `{AbiEnv}.
(** Asking an open file whether it is ready answers [ready], and leaves the
    descriptors alone. *)
Variables (fuel : nat) (I : kstate → Prop) (ready : nat → Z → bool) (fds : list (option nat)).
Hypothesis Hlen : length fds = NOFILE.
Hypothesis Hfds : ∀ s, I s → u_ofile (u s) = fds.
Hypothesis Hask : ∀ s fp flag, I s → Some fp ∈ fds → ∃ s', fops_select fuel fp flag s = Done (ready fp flag) s' ∧ I s'.

Definition file_at (j : nat) : option nat := mjoin (fds !! j).
Definition all_open (l : list nat) : bool := forallb (λ j, bool_decide (is_Some (file_at j))) l.
(** The descriptors asked for that are ready. *)
Definition answers (flag : Z) (l : list nat) : list nat :=
  List.filter (λ j, match file_at j with Some fp => ready fp flag | None => false end) l.

Lemma selscan_bits_ok rounds bits nfd flag ob n s :
  I s → 0 ≤ bits < 2 ^ 32 → 0 ≤ nfd ≤ Z.of_nat NOFILE → (length (members bits nfd) ≤ rounds)%nat →
  let l := members bits nfd in
  ∃ s', I s' ∧ selscan_bits rounds fuel bits nfd flag ob n s =
    Done (if all_open l then Some (to_set ob (answers flag l), n + Z.of_nat (length (answers flag l))) else None) s'.
Proof.
  revert bits ob n s. induction rounds as [|rounds IH]; intros bits ob n s Hs Hb Hn Hl l; cbn [selscan_bits];
    pose proof (members_step bits nfd Hb ltac:(lia)) as Hm; cbv zeta in Hm; unfold l in *; destruct (_ || _) eqn:E;
    try (rewrite Hm; exists s; split; [done|]; cbn; by rewrite Z.add_0_r).
  - destruct Hm as [_ Hm]. rewrite Hm in Hl. simpl in Hl. lia.
  - destruct Hm as [Hj Hm]. apply orb_false_iff in E as [_ E]. apply Z.leb_gt in E. set (j := ffs bits - 1) in *. rewrite Hm in *. cbn [length] in Hl.
    rewrite (bind_done _ _ _ _ _ (getu_eq _ _)). cbv beta. rewrite (Hfds _ Hs).
    destruct (lookup_lt_is_Some_2 fds (Z.to_nat j)) as [o Ho]; [rewrite Hlen; lia|]. rewrite Ho. cbn [unless_none].
    rewrite (bind_done _ _ _ _ _ (mret_eq _ _)). cbv beta.
    assert (Ef : file_at (Z.to_nat j) = o) by (unfold file_at; by rewrite Ho). destruct o as [fp|].
    + destruct (Hask s fp flag Hs) as (s1 & E1 & Hs1); [by eapply list_elem_of_lookup_2|]. rewrite (bind_done _ _ _ _ _ E1). cbv beta zeta.
      cbn [all_open forallb answers List.filter]. rewrite Ef. cbn. set (l' := members (clrf bits (2 ^ j)) nfd) in *.
      destruct (ready fp flag).
      * destruct (IH (clrf bits (2 ^ j)) (setf ob (2 ^ j)) (n + 1) s1 Hs1 (clr_range bits j Hb ltac:(lia)) Hn ltac:(fold l'; lia)) as (s2 & Hs2 & E2).
        exists s2. split; [done|]. rewrite E2. fold l'. unfold all_open. destruct (forallb _ _); [|done].
        unfold answers. cbn [length to_set foldl]. unfold add_bit at 2. rewrite Z2Nat.id by lia. do 3 f_equal. lia.
      * destruct (IH (clrf bits (2 ^ j)) ob n s1 Hs1 (clr_range bits j Hb ltac:(lia)) Hn ltac:(fold l'; lia)) as (s2 & Hs2 & E2).
        by exists s2.
    + exists s. split; [done|]. cbn [all_open forallb]. rewrite Ef. done.
Qed.

(** The answer for one of the three sets. *)
Definition answer (nfd : Z) (fb : Z * Z) : list nat := answers fb.1 (members (u32 fb.2) nfd).
Lemma selscan_sets_ok flags ibits nfd n s :
  I s → 0 ≤ nfd ≤ Z.of_nat NOFILE → length flags = length ibits →
  ∃ s', I s' ∧ selscan_sets fuel flags ibits (replicate (length flags) 0) nfd n s =
    Done (if forallb (λ w, all_open (members (u32 w) nfd)) ibits
          then Some ((λ fb, i32 (to_set 0 (answer nfd fb))) <$> zip flags ibits,
                     n + Z.of_nat (length (mjoin (answer nfd <$> zip flags ibits)))) else None) s'.
Proof.
  revert ibits n s. induction flags as [|flag flags IH]; intros [|w ibits] n s Hs Hn Hl; try discriminate.
  { exists s. split; [done|]. cbn. by rewrite Z.add_0_r. }
  cbn [selscan_sets length replicate]. replace (NFDBITS <? nfd) with false by (symmetry; apply Z.ltb_ge; unfold NFDBITS, NOFILE in *; lia).
  assert (Hw : 0 ≤ u32 w < 2 ^ 32) by (unfold u32; apply Z.mod_pos_bound; lia). change (u32 0) with 0.
  assert (Hset : ∃ s1, I s1 ∧ (if 0 <? nfd then selscan_bits 32 fuel (u32 w) nfd flag 0 n else mret (Some (0, n))) s =
    Done (if all_open (members (u32 w) nfd) then Some (to_set 0 (answer nfd (flag, w)), n + Z.of_nat (length (answer nfd (flag, w)))) else None) s1).
  { destruct (0 <? nfd) eqn:E; rewrite ?Z.ltb_lt, ?Z.ltb_ge in E.
    - apply selscan_bits_ok; [done|done|done|]. etrans; [apply members_length|]. unfold NOFILE in *. lia.
    - exists s. split; [done|]. assert (nfd = 0) as -> by lia. cbn. by rewrite Z.add_0_r. }
  destruct Hset as (s1 & Hs1 & E1). rewrite (bind_done _ _ _ _ _ E1). cbv beta. cbn [forallb].
  destruct (all_open _); cbn [andb]; [|by exists s1].
  destruct (IH ibits (n + Z.of_nat (length (answer nfd (flag, w)))) s1 Hs1 Hn) as (s2 & Hs2 & E2); [by injection Hl|].
  rewrite (bind_done _ _ _ _ _ E2). exists s2. split; [done|]. destruct (forallb _ _); [|done].
  cbn. rewrite length_app, Nat2Z.inj_add, Z.add_assoc. done.
Qed.

(** C16: [selscan] returns EBADF exactly when a descriptor below [nfd] in one of the
    three sets is not open; otherwise each set it returns holds exactly the
    descriptors of that set whose file is ready to be read, to be written or in
    an exceptional condition, and the value is how many they are. It ends. *)
Theorem selscan_exact a b c nfd s :
  I s → 0 ≤ nfd ≤ Z.of_nat NOFILE →
  let asked := [(FREAD, a); (FWRITE, b); (0, c)] in
  ∃ s', I s' ∧ selscan fuel [a; b; c] [0; 0; 0] nfd s =
    if forallb (λ w, all_open (members (u32 w) nfd)) [a; b; c]
    then Done (0, (λ fb, i32 (to_set 0 (answer nfd fb))) <$> asked)
           (s' <| u ::= λ r, r <| u_rval := Z.of_nat (length (mjoin (answer nfd <$> asked))) |> |>)
    else Done (EBADF, [0; 0; 0]) s'.
Proof.
  intros Hs Hn asked. destruct (selscan_sets_ok [FREAD; FWRITE; 0] [a; b; c] nfd 0 s Hs Hn eq_refl) as (s1 & Hs1 & E1).
  exists s1. split; [done|]. unfold selscan. change [0; 0; 0] with (replicate 3 0). rewrite (bind_done _ _ _ _ _ E1). cbv beta.
  destruct (forallb _ _); [|done]. cbv iota. rewrite (bind_done _ _ _ _ _ (set_rval_eq _ _)). done.
Qed.
End selscan.
End Select.

(** * Examples *)

Module SelectExamples.
Import Bio Generic Select.
#[local] Existing Instances gba_cfg Sched.layout1 Sig.sig_env0 DinodeExamples.fs_env0.
#[local] Instance bio_env0 : BioEnv := {| nblkdev := 1; d_strategy := λ _ _, mret tt; d_flags := λ _, 0; bufdata_addr := 0 |}.
(** Devices with an even number are ready. *)
#[local] Instance dev_env1 : DevEnv :=
  {| nchrdev := 4; cd_open := λ _ _ _ _, mret 0; cd_close := λ _ _ _ _, mret (Some 0);
     cd_read := λ _ _ ui _, mret (ui, Some 0); cd_write := λ _ _ ui _, mret (ui, Some 0);
     cd_ioctl := λ _ _ _ d _, mret (Some 0, d); cd_select := λ _ dev _, mret (Z.even dev);
     bd_open := λ _ _ _ _, mret 0; bd_close := λ _ _ _ _, mret (Some 0); bd_ioctl := λ _ _ _ d _, mret (Some 0, d);
     isdisk := λ _ _, false; chrtoblk := λ _, NODEV; iskmemdev := λ _, false |}.
#[local] Instance abi_env0 : AbiEnv := {| rw_flag := mret 0 |}.

Definition ino (mode dev : Z) : inode :=
  MkInode 0 1 0x600 3 0 [0; dev; 0; 0; 0; 0; 0] mode 1 0 0 0 0 0 0 0 None None 0 0 None None 0 0 None None.
(** Descriptor 1 is a plain file, 3 a device that is not ready. *)
Definition open2 : list (option nat) := [None; Some 0%nat; None; Some 1%nat] ++ replicate 26 None.
Definition asking : kstate :=
  kstate0 <| u ::= λ r, r <| u_ofile := open2 |> |>
    <| files := {[ 0%nat := MkFile FREAD DTYPE_INODE 1 (Some 0%nat) 0; 1%nat := MkFile FREAD DTYPE_INODE 1 (Some 1%nat) 0 ]} |>
    <| inodes := {[ 0%nat := ino IFREG 0; 1%nat := ino IFCHR 0x601 ]} |>.
Lemma asked_fp fp : Some fp ∈ open2 → fp = 0%nat ∨ fp = 1%nat.
Proof.
  unfold open2. rewrite elem_of_app. intros [Hi|Hi]; [|by apply elem_of_replicate in Hi as [? _]].
  apply list_elem_of_lookup in Hi as [i Hi]. do 4 (destruct i as [|i]; [simpl in Hi; simplify_eq; auto|]). done.
Qed.
(** Descriptors 1 and 3 to be read, 0 as well in the second call. *)
Lemma selscan_exact_witness :
  (∃ s', selscan 3 [10; 0; 0] [0; 0; 0] 5 asking = Done (0, [2; 0; 0]) s' ∧ u_rval (u s') = 1) ∧
  (∃ s', selscan 3 [11; 0; 0] [0; 0; 0] 5 asking = Done (EBADF, [0; 0; 0]) s').
Proof.
  assert (Hask : ∀ s fp flag, asking = s → Some fp ∈ open2 → ∃ s', fops_select 3 fp flag s = Done (bool_decide (fp = 0%nat)) s' ∧ asking = s').
  { intros s fp flag <- [->| ->]%asked_fp; exists asking; (split; [reflexivity|done]). }
  split.
  - destruct (selscan_exact 3 (λ s, asking = s) (λ fp _, bool_decide (fp = 0%nat)) open2 eq_refl ltac:(by intros s <-) Hask 10 0 0 5 asking eq_refl
      ltac:(vm_compute; split; congruence)) as (s' & <- & E). eexists. split; [exact E|]. reflexivity.
  - destruct (selscan_exact 3 (λ s, asking = s) (λ fp _, bool_decide (fp = 0%nat)) open2 eq_refl ltac:(by intros s <-) Hask 11 0 0 5 asking eq_refl
      ltac:(vm_compute; split; congruence)) as (s' & <- & E). exists asking. exact E.
Defined.
End SelectExamples.
