(* ===== verification/Ncache.v ===== *)
(** The name cache (kern/ufs_namei.c, sys/namei.h): the entries, their hash
    chains, and the LRU chain. *)
From stdpp Require Import functions.
From S2P Require Import Prelude Buf Kernel Links Callout Sched Prot Time Sig Clock Ring Bio Fs Alloc Bmap Inode.

Definition NCHHASH : nat := 16.
Definition NCHNAMLEN : Z := 15.
Definition NNAMECACHE `{KConfig} : nat := NINODE * 11 / 10.
(** [NHASH (h, i, d)]; the chains are a power of two. *)
Definition NHASH (h i d : Z) : nat := Z.to_nat (Z.land (u32 (h + i + 13 * d)) (Z.of_nat NCHHASH - 1)).

Module Ncache.

(** * The hash chains *)

Definition nclinks (p : ncptr) : K (option ncptr * option ncptr) :=
  match p with
  | NcP n => c ← getnc n; mret (Some (nc_forw c), Some (nc_back c))
  | NcHead h => s ← get_s; '(f, b) ← unless_none (nchash s !! h); mret (Some f, Some b)
  end.
Definition set_ncnext (p q : ncptr) : K unit :=
  match p with
  | NcP n => setnc n (λ c, c <| nc_forw := q |>)
  | NcHead h => s ← get_s; '(f, b) ← unless_none (nchash s !! h);
      modify (λ s, s <| nchash ::= <[h := (q, b)]> |>)
  end.
Definition set_ncprev (p q : ncptr) : K unit :=
  match p with
  | NcP n => setnc n (λ c, c <| nc_back := q |>)
  | NcHead h => s ← get_s; '(f, b) ← unless_none (nchash s !! h);
      modify (λ s, s <| nchash ::= <[h := (f, q)]> |>)
  end.
#[local] Notation insque := (Inode.insque nclinks set_ncnext set_ncprev).
#[local] Notation remque := (Inode.remque nclinks set_ncnext set_ncprev).

(** * The LRU chain *)

(** [*pp = c]. *)
Definition set_ncslot (pp : ncslot) (c : option nat) : K unit :=
  match pp with
  | NchHead => modify (λ s, s <| nchhead := c |>)
  | NxtOfNc n => setnc n (λ r, r <| nc_nxt := c |>)
  end.
Definition set_nchtail (pp : ncslot) : K unit := modify (λ s, s <| nchtail := pp |>).
(** Off the chain. *)
Definition lru_remove (n : nat) : K unit :=
  c ← getnc n;
  set_ncslot (nc_prev c) (nc_nxt c) ;;
  c ← getnc n;
  match nc_nxt c with
  | Some m => setnc m (λ r, r <| nc_prev := nc_prev c |>)
  | None => set_nchtail (nc_prev c)
  end.
(** At its end: the entry is the last to be taken. *)
Definition lru_append (n : nat) : K unit :=
  setnc n (λ r, r <| nc_nxt := None |>) ;;
  s ← get_s;
  setnc n (λ r, r <| nc_prev := nchtail s |>) ;;
  set_ncslot (nchtail s) (Some n) ;;
  set_nchtail (NxtOfNc n).
(** At its head: the first to be taken. *)
Definition lru_push (n : nat) : K unit :=
  s ← get_s;
  setnc n (λ r, r <| nc_nxt := nchhead s |>) ;;
  setnc n (λ r, r <| nc_prev := NchHead |>) ;;
  h ← unless_none (nchhead s);
  setnc h (λ r, r <| nc_prev := NxtOfNc n |>) ;;
  modify (λ s, s <| nchhead := Some n |>).
(** An entry that is used moves to the end, if it is not there. *)
Definition lru_touch (n : nat) : K unit :=
  c ← getnc n; when (bool_decide (is_Some (nc_nxt c))) (lru_remove n ;; lru_append n).

(** A hash chain of its own. *)
Definition nc_dummy (n : nat) : K unit :=
  setnc n (λ r, r <| nc_forw := NcP n |>) ;; setnc n (λ r, r <| nc_back := NcP n |>).
(** An entry that names nothing any more. *)
Definition nc_drop (n : nat) : K unit := lru_remove n ;; remque (NcP n) ;; lru_push n ;; nc_dummy n.

(** * Looking up and entering *)

Record ncquery := MkNq { nq_ino : Z; nq_dev : Z; nq_name : list Z }.
Definition nc_matches (q : ncquery) (c : namecache) : bool :=
  (nc_ino c =? nq_ino q) && (nc_dev c =? nq_dev q) && (nc_nlen c =? Z.of_nat (length (nq_name q))) &&
  bool_decide (take (length (nq_name q)) (nc_name c) = nq_name q).
(** A chain from [p], up to its head. *)
Fixpoint nc_chain (fuel : nat) (nhp p : ncptr) (q : ncquery) : K (option nat) :=
  if decide (p = nhp) then mret None
  else
    match fuel, p with
    | S fuel, NcP n => c ← getnc n; if nc_matches q c then mret (Some n) else nc_chain fuel nhp (nc_forw c) q
    | S _, NcHead _ => fault
    | O, _ => nofuel
    end.
Definition nc_find (h : nat) (q : ncquery) : K (option nat) :=
  s ← get_s;
  '(f, _) ← unless_none (nchash s !! h);
  nc_chain (size (namecaches s)) (NcHead h) f q.

(** The name of inode [dp] is entered for the directory [pdp]; the entry that
    is first in the LRU chain is taken. *)
Definition nc_enter (h pdp dp : nat) (name : list Z) : K unit :=
  s ← get_s;
  match nchhead s with
  | None => mret tt
  | Some n =>
    lru_remove n ;;
    remque (NcP n) ;;
    d ← geti dp;
    p ← geti pdp;
    setnc n (λ c, c <| nc_ip := Some dp |> <| nc_ino := i_number p |> <| nc_dev := i_dev p |>
      <| nc_idev := i_dev d |> <| nc_id := u16 (i_id d) |> <| nc_nlen := Z.of_nat (length name) |>
      <| nc_name ::= λ old, name ++ drop (length name) old |>) ;;
    lru_append n ;;
    insque (NcP n) (NcHead h)
  end.

(** * Starting and emptying *)

Fixpoint nchinit_loop (ids : list nat) : K unit :=
  match ids with
  | [] => mret tt
  | n :: ids =>
    nc_dummy n ;;
    setnc n (λ c, c <| nc_nxt := None |>) ;;
    s ← get_s;
    set_ncslot (nchtail s) (Some n) ;;
    setnc n (λ c, c <| nc_prev := nchtail s |>) ;;
    set_nchtail (NxtOfNc n) ;;
    nchinit_loop ids
  end.
Fixpoint nchinit_heads (hs : list nat) : K unit :=
  match hs with
  | [] => mret tt
  | h :: hs => modify (λ s, s <| nchash ::= <[h := (NcHead h, NcHead h)]> |>) ;; nchinit_heads hs
  end.
Definition nchinit `{KConfig} : K unit :=
  modify (λ s, s <| nchhead := None |>) ;;
  set_nchtail NchHead ;;
  nchinit_loop (seq 0 NNAMECACHE) ;;
  nchinit_heads (seq 0 NCHHASH).

Definition nc_free (n : nat) : K unit :=
  setnc n (λ c, c <| nc_idev := NODEV |> <| nc_dev := NODEV |> <| nc_id := 0 |> <| nc_ino := 0 |> <| nc_ip := None |>) ;;
  remque (NcP n) ;;
  nc_dummy n.
(** From [o]; the scan starts again after an entry was freed. *)
Fixpoint nchinval_loop (fuel : nat) (o : option nat) (dev : Z) : K unit :=
  match o with
  | None => mret tt
  | Some n =>
    match fuel with
    | O => nofuel
    | S fuel =>
      c ← getnc n;
      if bool_decide (nc_ip c = None) || negb (nc_idev c =? dev) && negb (nc_dev c =? dev)
      then nchinval_loop fuel (nc_nxt c) dev
      else
        nc_free n ;;
        lru_remove n ;;
        s ← get_s;
        let nxtcp := nchhead s in
        lru_push n ;;
        nchinval_loop fuel nxtcp dev
    end
  end.
(** Each entry is freed once, and the chain scanned once for each. *)
Definition nchinval (dev : Z) : K unit :=
  s ← get_s; nchinval_loop (S (size (namecaches s)) * S (size (namecaches s))) (nchhead s) dev.

Fixpoint cinval_loop (ids : list nat) : K unit :=
  match ids with
  | [] => mret tt
  | n :: ids => setnc n (λ c, c <| nc_id := 0 |>) ;; cinval_loop ids
  end.
Definition cinvalall `{KConfig} : K unit := cinval_loop (seq 0 NNAMECACHE).

(** * The LRU chain is a queue *)

Definition upd_nc (n : nat) (f : namecache → namecache) (s : kstate) : kstate := s <| namecaches ::= alter f n |>.
Lemma setnc_upd s n f : is_Some (namecaches s !! n) → setnc n f s = Done tt (upd_nc n f s).
Proof.
  intros [c E]. rewrite (setnc_eq _ _ _ _ E). do 2 f_equal. unfold upd_nc, upd. do 2 f_equal.
  apply map_eq. intros i. destruct (decide (i = n)) as [->|Hn].
  - by rewrite lookup_insert_eq, lookup_alter_eq, E.
  - by rewrite lookup_insert_ne, lookup_alter_ne.
Qed.

(** From slot [sl], which holds [h], the links run through [l] and reach slot
    [sl'], which holds [h']; each entry knows the slot that points at it. *)
Fixpoint seg (m : gmap nat namecache) (sl : ncslot) (h : option nat) (l : list nat) (sl' : ncslot) (h' : option nat) : Prop :=
  match l with
  | [] => sl = sl' ∧ h = h'
  | n :: l => h = Some n ∧ ∃ c, m !! n = Some c ∧ nc_prev c = sl ∧ seg m (NxtOfNc n) (nc_nxt c) l sl' h'
  end.
Definition lru_seg (s : kstate) l sl h : Prop := seg (namecaches s) NchHead (nchhead s) l sl h.
Definition lru_is (s : kstate) (l : list nat) : Prop := NoDup l ∧ lru_seg s l (nchtail s) None.

Lemma seg_app m sl h l1 l2 sl' h' :
  seg m sl h (l1 ++ l2) sl' h' ↔ ∃ sm hm, seg m sl h l1 sm hm ∧ seg m sm hm l2 sl' h'.
Proof.
  revert sl h. induction l1 as [|n l1 IH]; intros sl h; cbn [app seg].
  - split; [intros Hs; by exists sl, h|]. by intros (sm & hm & [-> ->] & Hs).
  - setoid_rewrite IH. naive_solver.
Qed.
(** The two links of the LRU chain. *)
Definition lru_links (c : namecache) : option nat * ncslot := (nc_nxt c, nc_prev c).
Lemma seg_agree m m' sl h l sl' h' :
  (∀ n, n ∈ l → lru_links <$> m' !! n = lru_links <$> m !! n) → seg m sl h l sl' h' → seg m' sl h l sl' h'.
Proof.
  revert sl h. induction l as [|n l IH]; intros sl h Hm; [done|]. intros (-> & c & Hc & Hp & Hs).
  pose proof (Hm n ltac:(set_solver)) as E. rewrite Hc in E. destruct (m' !! n) as [c'|] eqn:E'; [|done].
  cbn in E. injection E as E1 E2. split; [done|]. exists c'. split; [done|]. rewrite E1, E2. split; [done|].
  apply IH; [|done]. intros k Hk. apply Hm. set_solver.
Qed.
Lemma seg_elem m sl h l sl' h' n : seg m sl h l sl' h' → n ∈ l → is_Some (m !! n).
Proof.
  revert sl h. induction l as [|a l IH]; intros sl h; [by intros _ Hn%elem_of_nil|].
  intros (-> & c & Hc & _ & Hs) [->|Hn]%elem_of_cons; eauto.
Qed.
(** The last slot is the head's, or that of the last entry. *)
Lemma seg_slot m sl h l sl' h' : seg m sl h l sl' h' → (l = [] ∧ sl' = sl) ∨ ∃ n, n ∈ l ∧ sl' = NxtOfNc n.
Proof.
  revert sl h. induction l as [|a l IH]; intros sl h; [intros [-> _]; by left|].
  intros (-> & c & Hc & _ & Hs). right. destruct (IH _ _ Hs) as [[-> ->]|(n & Hn & ->)]; [exists a|exists n]; set_solver.
Qed.

Definition put_slot (pp : ncslot) (c : option nat) (s : kstate) : kstate :=
  match pp with NchHead => s <| nchhead := c |> | NxtOfNc n => upd_nc n (λ r, r <| nc_nxt := c |>) s end.
Lemma set_ncslot_put s l sl h c : lru_seg s l sl h → set_ncslot sl c s = Done tt (put_slot sl c s).
Proof.
  intros Hs. destruct (seg_slot _ _ _ _ _ _ Hs) as [[_ ->]|(n & Hn & ->)]; [done|]. apply setnc_upd. by eapply seg_elem.
Qed.
(** What stays as it is. *)
Lemma put_slot_tail sl c s : nchtail (put_slot sl c s) = nchtail s.
Proof. by destruct sl. Qed.
Lemma put_slot_lookup sl c s n : sl ≠ NxtOfNc n → namecaches (put_slot sl c s) !! n = namecaches s !! n.
Proof. destruct sl; [done|]. intros Hn. apply lookup_alter_ne. congruence. Qed.
(** Storing into the last slot of a chain. *)
Lemma seg_put s l sl h c : NoDup l → lru_seg s l sl h → lru_seg (put_slot sl c s) l sl c.
Proof.
  intros Hnd Hs. unfold lru_seg in *. destruct (decide (l = [])) as [->|Hl].
  { destruct Hs as [<- <-]. done. }
  destruct (exists_last Hl) as (l0 & n & ->). apply seg_app in Hs as (sm & hm & Hs & -> & r & Hr & Hp & <- & <-).
  cbn [put_slot]. apply NoDup_app in Hnd as (_ & Hd & _). apply seg_app. exists sm, (Some n). split.
  - eapply seg_agree; [|exact Hs]. intros k Hk. cbn. rewrite lookup_alter_ne by set_solver. done.
  - split; [done|]. exists (r <| nc_nxt := c |>). split; [cbn; by rewrite lookup_alter_eq, Hr|].
    split; [done|]. by split.
Qed.

(** What the operations on the chain leave alone. *)
Definition body (c : namecache) : namecache := c <| nc_nxt := None |> <| nc_prev := NchHead |>.
Record lru_frame (s s' : kstate) : Prop := {
  lf_rest : s' = s <| namecaches := namecaches s' |> <| nchhead := nchhead s' |> <| nchtail := nchtail s' |>;
  lf_body n : body <$> namecaches s' !! n = body <$> namecaches s !! n;
}.
Lemma lru_frame_refl s : lru_frame s s.
Proof. split; [destruct s; reflexivity|reflexivity]. Qed.
Lemma lru_frame_trans s1 s2 s3 : lru_frame s1 s2 → lru_frame s2 s3 → lru_frame s1 s3.
Proof. intros [E1 B1] [E2 B2]. split; [rewrite E2, E1; done|]. intros n. by rewrite B2, B1. Qed.
Lemma lru_frame_upd s n f : (∀ c, body (f c) = body c) → lru_frame s (upd_nc n f s).
Proof.
  intros Hf. split; [destruct s; reflexivity|]. intros k. cbn. destruct (decide (k = n)) as [->|Hk]; [|by rewrite lookup_alter_ne].
  rewrite lookup_alter_eq. destruct (namecaches s !! n); [|done]. cbn. by rewrite Hf.
Qed.
Lemma lru_frame_put s sl c : lru_frame s (put_slot sl c s).
Proof. destruct sl; [split; [destruct s; reflexivity|reflexivity]|by apply lru_frame_upd]. Qed.
Lemma lru_frame_tail s t : lru_frame s (s <| nchtail := t |>).
Proof. split; [destruct s; reflexivity|reflexivity]. Qed.
Lemma lru_frame_head s t : lru_frame s (s <| nchhead := t |>).
Proof. split; [destruct s; reflexivity|reflexivity]. Qed.
Lemma lru_frame_dom s s' n : lru_frame s s' → is_Some (namecaches s' !! n) ↔ is_Some (namecaches s !! n).
Proof. intros [_ B]. rewrite <- (fmap_is_Some body (namecaches s' !! n)), B. by rewrite fmap_is_Some. Qed.

(** Any entry is taken off the chain. *)
Lemma lru_remove_is s l1 n l2 : lru_is s (l1 ++ n :: l2) →
  ∃ s', lru_remove n s = Done tt s' ∧ lru_is s' (l1 ++ l2) ∧ lru_frame s s'.
Proof.
  intros [Hnd Hs]. apply seg_app in Hs as (sm & hm & H1 & -> & c & Hc & <- & H2).
  pose proof Hnd as (Hnd1 & Hd & [Hn2 Hnd2]%NoDup_cons)%NoDup_app. assert (Hn1 : n ∉ l1) by (intros Hn; apply (Hd n Hn); set_solver).
  assert (Hne : nc_prev c ≠ NxtOfNc n).
  { destruct (seg_slot _ _ _ _ _ _ H1) as [[_ ->]|(k & Hk & ->)]; [done|]. intros [= ->]. done. }
  unfold lru_remove. rewrite (bind_done _ _ _ _ _ (getnc_eq _ _ _ Hc)). cbv beta.
  rewrite (bind_done _ _ _ _ _ (set_ncslot_put s l1 _ _ (nc_nxt c) H1)). cbv beta. set (s1 := put_slot _ _ s).
  assert (Hc1 : namecaches s1 !! n = Some c) by (unfold s1; by rewrite put_slot_lookup).
  assert (Hs1 : lru_seg s1 l1 (nc_prev c) (nc_nxt c)) by by eapply seg_put.
  assert (H2' : seg (namecaches s1) (NxtOfNc n) (nc_nxt c) l2 (nchtail s) None).
  { eapply seg_agree; [|exact H2]. intros k Hk. unfold s1. rewrite put_slot_lookup; [done|].
    destruct (seg_slot _ _ _ _ _ _ H1) as [[_ ->]|(a & Ha & ->)]; [done|]. intros [= ->]. apply (Hd k Ha). set_solver. }
  assert (Hnd12 : NoDup (l1 ++ l2)) by (apply NoDup_app; split; [done|]; split; [set_solver|done]).
  rewrite (bind_done _ _ _ _ _ (getnc_eq _ _ _ Hc1)). cbv beta. destruct l2 as [|m l2].
  - destruct H2' as [E Hx]. rewrite Hx. eexists. split; [done|]. rewrite app_nil_r in *. split; [split; [done|]|].
    + rewrite Hx in Hs1. exact Hs1.
    + eapply lru_frame_trans; [apply lru_frame_put|apply lru_frame_tail].
  - destruct H2' as (E & r & Hr & Hp & H3). rewrite E. rewrite setnc_upd by by eexists. eexists. split; [done|].
    split; [split; [done|]|]; [|eapply lru_frame_trans; [apply lru_frame_put|by apply lru_frame_upd]].
    unfold lru_seg. cbn [nchtail nchhead upd_nc]. apply seg_app. exists (nc_prev c), (nc_nxt c). split.
    + eapply seg_agree; [|exact Hs1]. intros k Hk. cbn. destruct (decide (k = m)) as [->|]; [|by rewrite lookup_alter_ne].
      exfalso. apply (Hd m Hk). set_solver.
    + split; [done|]. exists (r <| nc_prev := nc_prev c |>). split; [cbn; by rewrite lookup_alter_eq, Hr|]. split; [done|].
      change (nchtail (upd_nc m _ s1)) with (nchtail s1). unfold s1 at 2. rewrite put_slot_tail.
      eapply seg_agree; [|exact H3]. intros k Hk. cbn. destruct (decide (k = m)) as [->|]; [|by rewrite lookup_alter_ne].
      apply NoDup_cons in Hnd2 as [? _]. done.
Qed.
Lemma lru_append_is s l n : lru_is s l → n ∉ l → is_Some (namecaches s !! n) →
  ∃ s', lru_append n s = Done tt s' ∧ lru_is s' (l ++ [n]) ∧ lru_frame s s'.
Proof.
  intros [Hnd Hs] Hn Hc. unfold lru_append. rewrite (bind_done _ _ _ _ _ (setnc_upd _ _ _ Hc)). cbv beta. set (s1 := upd_nc n _ s).
  rewrite (bind_done _ _ _ _ _ (get_s_eq _)). cbv beta. assert (F1 : lru_frame s s1) by by apply lru_frame_upd.
  rewrite (bind_done _ _ _ _ _ (setnc_upd s1 n _ (proj2 (lru_frame_dom _ _ n F1) Hc))). cbv beta. set (s2 := upd_nc n _ s1).
  assert (F2 : lru_frame s1 s2) by by apply lru_frame_upd.
  assert (Hs2 : lru_seg s2 l (nchtail s) None).
  { eapply seg_agree; [|exact Hs]. intros k Hk. assert (k ≠ n) by congruence. cbn. by rewrite !lookup_alter_ne by done. }
  change (nchtail s1) with (nchtail s). rewrite (bind_done _ _ _ _ _ (set_ncslot_put s2 l _ _ (Some n) Hs2)). cbv beta.
  eexists. split; [done|]. split; [|eapply lru_frame_trans; [exact F1|eapply lru_frame_trans; [exact F2|]];
    eapply lru_frame_trans; [apply lru_frame_put|apply lru_frame_tail]].
  split; [apply NoDup_app; split; [done|]; split; [set_solver|apply NoDup_singleton]|].
  apply seg_app. exists (nchtail s), (Some n). split; [by eapply seg_put|]. split; [done|].
  destruct Hc as [c Hc]. exists (c <| nc_nxt := None |> <| nc_prev := nchtail s |>). split; [|done].
  cbn [nchtail]. change (namecaches (upd nchtail _ ?x)) with (namecaches x). cbn. rewrite put_slot_lookup.
  - cbn. by rewrite !lookup_alter_eq, Hc.
  - destruct (seg_slot _ _ _ _ _ _ Hs2) as [[_ ->]|(k & Hk & ->)]; [done|]. intros [= ->]. done.
Qed.
Lemma lru_push_is s l n : lru_is s l → n ∉ l → l ≠ [] → is_Some (namecaches s !! n) →
  ∃ s', lru_push n s = Done tt s' ∧ lru_is s' (n :: l) ∧ lru_frame s s'.
Proof.
  intros [Hnd Hs] Hn Hl Hc. destruct l as [|h l]; [done|]. pose proof Hs as (Eh & r & Hr & Hp & Hs'). apply not_elem_of_cons in Hn as [Hnh Hn].
  unfold lru_push. rewrite (bind_done _ _ _ _ _ (get_s_eq _)). cbv beta.
  rewrite (bind_done _ _ _ _ _ (setnc_upd _ _ _ Hc)). cbv beta. set (s1 := upd_nc n _ s).
  assert (F1 : lru_frame s s1) by by apply lru_frame_upd.
  rewrite (bind_done _ _ _ _ _ (setnc_upd s1 n _ (proj2 (lru_frame_dom _ _ n F1) Hc))). cbv beta. set (s2 := upd_nc n _ s1).
  assert (F2 : lru_frame s1 s2) by by apply lru_frame_upd.
  rewrite Eh. cbn [unless_none]. rewrite (bind_done _ _ _ _ _ (mret_eq _ _)). cbv beta.
  assert (Hh2 : is_Some (namecaches s2 !! h)) by (apply (lru_frame_dom _ _ _ F2), (lru_frame_dom _ _ _ F1); by eexists).
  rewrite (bind_done _ _ _ _ _ (setnc_upd s2 h _ Hh2)). cbv beta. set (s3 := upd_nc h _ s2).
  assert (F3 : lru_frame s2 s3) by by apply lru_frame_upd.
  eexists. split; [done|]. split; [|eapply lru_frame_trans; [exact F1|eapply lru_frame_trans; [exact F2|]];
    eapply lru_frame_trans; [exact F3|apply lru_frame_head]].
  split; [constructor; [set_solver|done]|]. split; [done|]. destruct Hc as [c Hc].
  exists (c <| nc_nxt := Some h |> <| nc_prev := NchHead |>). split; [cbn; by rewrite Eh, lookup_alter_ne, !lookup_alter_eq, Hc by done|].
  split; [done|]. split; [done|]. exists (r <| nc_prev := NxtOfNc n |>).
  split; [cbn; by rewrite lookup_alter_eq, !lookup_alter_ne, Hr by done|]. split; [done|].
  eapply seg_agree; [|exact Hs']. intros k Hk. apply NoDup_cons in Hnd as [Hh _].
  assert (k ≠ h ∧ k ≠ n) as [? ?] by (split; congruence). cbn. by rewrite !lookup_alter_ne by done.
Qed.

(** * The hash chains are linked *)

Definition nc_valid (s : kstate) (p : ncptr) : Prop :=
  match p with NcP n => is_Some (namecaches s !! n) | NcHead h => is_Some (nchash s !! h) end.
(** No link is stray: the entry's own, and a head's. *)
Record hash_ok (s : kstate) : Prop := {
  ho_head h l : nchash s !! h = Some l → nc_valid s l.1 ∧ nc_valid s l.2;
  ho_entry n c : namecaches s !! n = Some c → nc_valid s (nc_forw c) ∧ nc_valid s (nc_back c);
}.
(** What the operations on the hash chains leave alone. *)
Definition unhashed (c : namecache) : namecache := c <| nc_forw := NcHead 0 |> <| nc_back := NcHead 0 |>.
Record hash_frame (s s' : kstate) : Prop := {
  hf_rest : s' = s <| namecaches := namecaches s' |> <| nchash := nchash s' |>;
  hf_entry n : unhashed <$> namecaches s' !! n = unhashed <$> namecaches s !! n;
  hf_head h : is_Some (nchash s' !! h) ↔ is_Some (nchash s !! h);
}.
Lemma hash_frame_trans s1 s2 s3 : hash_frame s1 s2 → hash_frame s2 s3 → hash_frame s1 s3.
Proof. intros [E1 B1 H1] [E2 B2 H2]. split; [rewrite E2, E1; reflexivity|intros n; by rewrite B2, B1|intros h; by rewrite H2, H1]. Qed.
Lemma hash_frame_valid s s' p : hash_frame s s' → nc_valid s' p ↔ nc_valid s p.
Proof.
  intros [_ B H]. destruct p as [n|h]; [|apply H]. cbn. rewrite <- (fmap_is_Some unhashed (namecaches s' !! n)), B. by rewrite fmap_is_Some.
Qed.
Lemma lru_frame_valid s s' p : lru_frame s s' → nc_valid s' p ↔ nc_valid s p.
Proof. intros F. destruct p as [n|h]; cbn; [by apply lru_frame_dom|]. by rewrite (lf_rest _ _ F). Qed.
Lemma hash_ok_lru s s' : lru_frame s s' → hash_ok s → hash_ok s'.
Proof.
  intros F [Hh He]. split; [intros h l|intros n c]; rewrite !(lru_frame_valid s s') by done.
  - rewrite (lf_rest _ _ F). apply Hh.
  - intros Hc. pose proof (lf_body _ _ F n) as B. rewrite Hc in B. destruct (namecaches s !! n) as [c'|] eqn:E; [|done].
    assert (nc_forw c = nc_forw c' ∧ nc_back c = nc_back c') as [-> ->] by (cbn in B; injection B; done). by apply (He n).
Qed.
Lemma lru_is_hash s s' l : hash_frame s s' → lru_is s l → lru_is s' l.
Proof.
  intros F [Hnd Hs]. split; [done|]. unfold lru_seg. rewrite (hf_rest _ _ F). cbn [nchtail nchhead namecaches upd].
  eapply seg_agree; [|exact Hs]. intros n _. cbn. pose proof (hf_entry _ _ F n) as E.
  destruct (namecaches s' !! n), (namecaches s !! n); [|done..]. cbn in *. injection E as E1 E2 E3. unfold lru_links. congruence.
Qed.

(** One link is set. *)
Lemma set_ncnext_ok s p q : hash_ok s → nc_valid s p → nc_valid s q →
  ∃ s', set_ncnext p q s = Done tt s' ∧ hash_ok s' ∧ hash_frame s s'.
Proof.
  intros [Hh He] Hp Hq. destruct p as [n|h]; cbn [set_ncnext].
  - rewrite (setnc_upd s n _ Hp). eexists. split; [done|].
    assert (F : hash_frame s (upd_nc n (λ c, c <| nc_forw := q |>) s)).
    { split; [destruct s; reflexivity| |done]. intros k. cbn. destruct (decide (k = n)) as [->|]; [|by rewrite lookup_alter_ne].
      rewrite lookup_alter_eq. by destruct (namecaches s !! n). }
    split; [|done]. split; [intros h l Hl|intros k c Hk]; rewrite !(hash_frame_valid _ _ _ F); [by apply (Hh h)|].
    cbn in Hk. destruct (decide (k = n)) as [->|]; [|rewrite lookup_alter_ne in Hk by done; by apply (He k)].
    rewrite lookup_alter_eq in Hk. destruct (namecaches s !! n) as [c'|] eqn:E; [|done]. injection Hk as <-. split; [done|]. exact (proj2 (He _ _ E)).
  - destruct Hp as [[f b] Hl]. rewrite (bind_done _ _ _ _ _ (get_s_eq _)). cbv beta. rewrite Hl. cbn [unless_none].
    rewrite (bind_done _ _ _ _ _ (mret_eq _ _)). cbv beta iota. eexists. split; [done|].
    assert (F : hash_frame s (s <| nchash ::= <[h := (q, b)]> |>)).
    { split; [destruct s; reflexivity|done|]. intros k. cbn. destruct (decide (k = h)) as [->|]; [|by rewrite lookup_insert_ne].
      rewrite lookup_insert_eq, Hl. split; by eexists. }
    split; [|done]. split; [intros k l Hk|intros k c Hk]; rewrite !(hash_frame_valid _ _ _ F); [|by apply (He k)].
    cbn in Hk. destruct (decide (k = h)) as [->|]; [|rewrite lookup_insert_ne in Hk by done; by apply (Hh k)].
    rewrite lookup_insert_eq in Hk. injection Hk as <-. split; [done|]. exact (proj2 (Hh _ _ Hl)).
Qed.
Lemma set_ncprev_ok s p q : hash_ok s → nc_valid s p → nc_valid s q →
  ∃ s', set_ncprev p q s = Done tt s' ∧ hash_ok s' ∧ hash_frame s s' ∧
    (∀ n c, namecaches s' !! n = Some c → ∃ c', namecaches s !! n = Some c' ∧ nc_forw c = nc_forw c').
Proof.
  intros [Hh He] Hp Hq. destruct p as [n|h]; cbn [set_ncprev].
  - rewrite (setnc_upd s n _ Hp). eexists. split; [done|].
    assert (F : hash_frame s (upd_nc n (λ c, c <| nc_back := q |>) s)).
    { split; [destruct s; reflexivity| |done]. intros k. cbn. destruct (decide (k = n)) as [->|]; [|by rewrite lookup_alter_ne].
      rewrite lookup_alter_eq. by destruct (namecaches s !! n). }
    split; [|split; [done|]].
    + split; [intros h l Hl|intros k c Hk]; rewrite !(hash_frame_valid _ _ _ F); [by apply (Hh h)|].
      cbn in Hk. destruct (decide (k = n)) as [->|]; [|rewrite lookup_alter_ne in Hk by done; by apply (He k)].
      rewrite lookup_alter_eq in Hk. destruct (namecaches s !! n) as [c'|] eqn:E; [|done]. injection Hk as <-. split; [exact (proj1 (He _ _ E))|done].
    + intros k c Hk. cbn in Hk. destruct (decide (k = n)) as [->|]; [|rewrite lookup_alter_ne in Hk by done; by exists c].
      rewrite lookup_alter_eq in Hk. destruct (namecaches s !! n) as [c'|]; [|done]. injection Hk as <-. by exists c'.
  - destruct Hp as [[f b] Hl]. rewrite (bind_done _ _ _ _ _ (get_s_eq _)). cbv beta. rewrite Hl. cbn [unless_none].
    rewrite (bind_done _ _ _ _ _ (mret_eq _ _)). cbv beta iota. eexists. split; [done|].
    assert (F : hash_frame s (s <| nchash ::= <[h := (f, q)]> |>)).
    { split; [destruct s; reflexivity|done|]. intros k. cbn. destruct (decide (k = h)) as [->|]; [|by rewrite lookup_insert_ne].
      rewrite lookup_insert_eq, Hl. split; by eexists. }
    split; [|split; [done|]; intros k c Hk; by exists c].
    split; [intros k l Hk|intros k c Hk]; rewrite !(hash_frame_valid _ _ _ F); [|by apply (He k)].
    cbn in Hk. destruct (decide (k = h)) as [->|]; [|rewrite lookup_insert_ne in Hk by done; by apply (Hh k)].
    rewrite lookup_insert_eq in Hk. injection Hk as <-. split; [exact (proj1 (Hh _ _ Hl))|done].
Qed.
Lemma nclinks_ok s p : hash_ok s → nc_valid s p →
  ∃ f b, nclinks p s = Done (Some f, Some b) s ∧ nc_valid s f ∧ nc_valid s b.
Proof.
  intros [Hh He] Hp. destruct p as [n|h]; cbn [nclinks]; destruct Hp as [x Hx].
  - rewrite (bind_done _ _ _ _ _ (getnc_eq _ _ _ Hx)). exists (nc_forw x), (nc_back x). split; [done|]. by apply (He n).
  - rewrite (bind_done _ _ _ _ _ (get_s_eq _)). cbv beta. rewrite Hx. cbn [unless_none].
    rewrite (bind_done _ _ _ _ _ (mret_eq _ _)). destruct x as [f b]. exists f, b. split; [done|]. by apply (Hh h (f, b)).
Qed.
Lemma remque_ok s p : hash_ok s → nc_valid s p → ∃ s', remque p s = Done tt s' ∧ hash_ok s' ∧ hash_frame s s'.
Proof.
  intros Ho Hp. unfold Inode.remque. destruct (nclinks_ok s p Ho Hp) as (f & b & E & Hf & Hb).
  rewrite (bind_done _ _ _ _ _ E). cbn [fst snd unless_none]. rewrite (bind_done _ _ _ _ _ (mret_eq _ _)). cbv beta.
  rewrite (bind_done _ _ _ _ _ (mret_eq _ _)). cbv beta.
  destruct (set_ncnext_ok s b f Ho Hb Hf) as (s1 & E1 & Ho1 & F1). rewrite (bind_done _ _ _ _ _ E1). cbv beta.
  destruct (nclinks_ok s1 p Ho1 (proj2 (hash_frame_valid _ _ _ F1) Hp)) as (f1 & b1 & E2 & Hf1 & Hb1).
  rewrite (bind_done _ _ _ _ _ E2). cbn [fst snd unless_none]. rewrite (bind_done _ _ _ _ _ (mret_eq _ _)). cbv beta.
  rewrite (bind_done _ _ _ _ _ (mret_eq _ _)). cbv beta.
  destruct (set_ncprev_ok s1 f1 b1 Ho1 Hf1 Hb1) as (s2 & E3 & Ho2 & F2 & _). exists s2. split; [done|]. split; [done|].
  by eapply hash_frame_trans.
Qed.
(** The entry becomes the first of the chain. *)
Lemma insque_ok s n h : hash_ok s → is_Some (namecaches s !! n) → is_Some (nchash s !! h) →
  ∃ s' b, insque (NcP n) (NcHead h) s = Done tt s' ∧ hash_ok s' ∧ hash_frame s s' ∧ nchash s' !! h = Some (NcP n, b).
Proof.
  intros Ho Hn Hh. unfold Inode.insque.
  destruct (set_ncprev_ok s (NcP n) (NcHead h) Ho Hn Hh) as (s1 & E1 & Ho1 & F1 & _). rewrite (bind_done _ _ _ _ _ E1). cbv beta.
  destruct (nclinks_ok s1 (NcHead h) Ho1 (proj2 (hash_frame_valid _ _ (NcHead h) F1) Hh)) as (f1 & b1 & E2 & Hf1 & _).
  rewrite (bind_done _ _ _ _ _ E2). cbn [fst unless_none]. rewrite (bind_done _ _ _ _ _ (mret_eq _ _)). cbv beta.
  destruct (set_ncnext_ok s1 (NcP n) f1 Ho1 (proj2 (hash_frame_valid _ _ (NcP n) F1) Hn) Hf1) as (s2 & E3 & Ho2 & F2).
  rewrite (bind_done _ _ _ _ _ E3). cbv beta. pose proof (hash_frame_trans _ _ _ F1 F2) as F12.
  destruct (nclinks_ok s2 (NcHead h) Ho2 (proj2 (hash_frame_valid _ _ (NcHead h) F12) Hh)) as (f2 & b2 & E4 & Hf2 & _).
  rewrite (bind_done _ _ _ _ _ E4). cbn [fst unless_none]. rewrite (bind_done _ _ _ _ _ (mret_eq _ _)). cbv beta.
  destruct (set_ncprev_ok s2 f2 (NcP n) Ho2 Hf2 (proj2 (hash_frame_valid _ _ (NcP n) F12) Hn)) as (s3 & E5 & Ho3 & F3 & _).
  rewrite (bind_done _ _ _ _ _ E5). cbv beta. pose proof (hash_frame_trans _ _ _ F12 F3) as F13.
  destruct (set_ncnext_ok s3 (NcHead h) (NcP n) Ho3 (proj2 (hash_frame_valid _ _ (NcHead h) F13) Hh) (proj2 (hash_frame_valid _ _ (NcP n) F13) Hn))
    as (s4 & E6 & Ho4 & F4).
  destruct (proj2 (hf_head _ _ F13 h) Hh) as [[f b] Hl]. exists s4, b. split; [done|]. split; [done|].
  split; [by eapply hash_frame_trans|]. cbn [set_ncnext] in E6. rewrite (bind_done _ _ _ _ _ (get_s_eq _)) in E6. cbv beta in E6.
  rewrite Hl in E6. injection E6 as <-. cbn. apply lookup_insert_eq.
Qed.

(** * What the cache promises *)

(** The LRU chain holds the entries [l], and no link is stray. *)
Definition nc_inv (s : kstate) (l : list nat) : Prop := lru_is s l ∧ hash_ok s.
(** Its abstract operations. *)
Definition to_end (n : nat) (l : list nat) : list nat := filter (.≠ n) l ++ [n].
Definition to_front (n : nat) (l : list nat) : list nat := n :: filter (.≠ n) l.
Lemma filter_other (n : nat) l1 l2 : NoDup (l1 ++ n :: l2) → filter (.≠ n) (l1 ++ n :: l2) = l1 ++ l2.
Proof.
  intros (_ & Hd & [Hn _]%NoDup_cons)%NoDup_app. rewrite filter_app, filter_cons_False by (intros Hx; by apply Hx).
  f_equal; apply filter_all; apply Forall_forall; intros x Hx ->; [apply (Hd n Hx); set_solver|done].
Qed.

Lemma nc_find_first s h n b q c :
  nchash s !! h = Some (NcP n, b) → namecaches s !! n = Some c → nc_matches q c = true → nc_find h q s = Done (Some n) s.
Proof.
  intros Hh Hn Hm. unfold nc_find. rewrite (bind_done _ _ _ _ _ (get_s_eq _)). cbv beta. rewrite Hh. cbn [unless_none].
  rewrite (bind_done _ _ _ _ _ (mret_eq _ _)). cbv beta iota.
  destruct (size (namecaches s)) as [|k] eqn:Es; [apply map_size_empty_inv in Es; rewrite Es in Hn; by apply lookup_empty_Some in Hn|].
  cbn [nc_chain]. destruct (decide _) as [|_]; [done|]. rewrite (bind_done _ _ _ _ _ (getnc_eq _ _ _ Hn)). cbv beta. by rewrite Hm.
Qed.

(** C0: The chain that decides which entry of the name cache is taken next is a
    queue: an entry that is used moves to its end, one that is dropped to its
    front. *)
Theorem nc_queue s l n : nc_inv s l → n ∈ l →
  (∃ s', lru_touch n s = Done tt s' ∧ nc_inv s' (to_end n l)) ∧
  (l ≠ [n] → ∃ s', nc_drop n s = Done tt s' ∧ nc_inv s' (to_front n l)).
Proof.
  intros [Hl Ho] (l1 & l2 & ->)%list_elem_of_split. pose proof (proj1 Hl) as Hnd. unfold to_end, to_front. rewrite filter_other by done.
  assert (Hv : is_Some (namecaches s !! n)) by (eapply seg_elem; [apply Hl|set_solver]). pose proof Hv as [c Hc].
  apply NoDup_app in Hnd as (Hnd1 & Hd & [Hn2 Hnd2]%NoDup_cons).
  assert (Hn : n ∉ l1 ++ l2) by (intros [Hn|?]%elem_of_app; [apply (Hd n Hn); set_solver|done]).
  destruct (lru_remove_is s l1 n l2 Hl) as (s1 & E1 & Hl1 & F1).
  pose proof (proj2 (lru_frame_dom _ _ n F1) Hv) as Hv1. split.
  - unfold lru_touch. rewrite (bind_done _ _ _ _ _ (getnc_eq _ _ _ Hc)). cbv beta. destruct (bool_decide_reflect (is_Some (nc_nxt c))) as [Hs|Hs].
    + cbn [when]. rewrite (bind_done _ _ _ _ _ E1). cbv beta. destruct (lru_append_is s1 _ n Hl1 Hn Hv1) as (s2 & E2 & Hl2 & F2).
      exists s2. split; [done|]. split; [done|]. by eapply hash_ok_lru, hash_ok_lru.
    + exists s. split; [done|]. split; [|done]. pose proof (proj2 Hl) as Hs'. apply seg_app in Hs' as (sm & hm & H1 & -> & c' & Hc' & _ & H2).
      rewrite Hc in Hc'. injection Hc' as <-. destruct l2 as [|m l2]; [by rewrite app_nil_r|].
      destruct H2 as (E & _). destruct Hs. rewrite E. by eexists.
  - intros Hne. unfold nc_drop. rewrite (bind_done _ _ _ _ _ E1). cbv beta. pose proof (hash_ok_lru _ _ F1 Ho) as Ho1.
    destruct (remque_ok s1 (NcP n) Ho1 Hv1) as (s2 & E2 & Ho2 & F2). rewrite (bind_done _ _ _ _ _ E2). cbv beta.
    assert (Hl2 : lru_is s2 (l1 ++ l2)) by by eapply lru_is_hash. pose proof (proj2 (hash_frame_valid _ _ (NcP n) F2) Hv1) as Hv2.
    destruct (lru_push_is s2 _ n Hl2 Hn) as (s3 & E3 & Hl3 & F3); [|done|].
    { intros E. apply app_nil in E as [-> ->]. done. }
    rewrite (bind_done _ _ _ _ _ E3). cbv beta. pose proof (hash_ok_lru _ _ F3 Ho2) as Ho3.
    pose proof (proj2 (lru_frame_dom _ _ n F3) Hv2) as Hv3. unfold nc_dummy.
    destruct (set_ncnext_ok s3 (NcP n) (NcP n) Ho3 Hv3 Hv3) as (s4 & E4 & Ho4 & F4). rewrite (bind_done _ _ _ _ _ E4). cbv beta.
    pose proof (proj2 (hash_frame_valid _ _ (NcP n) F4) Hv3) as Hv4.
    destruct (set_ncprev_ok s4 (NcP n) (NcP n) Ho4 Hv4 Hv4) as (s5 & E5 & Ho5 & F5 & _). exists s5. split; [done|]. split; [|done].
    eapply lru_is_hash; [exact F5|]. by eapply lru_is_hash.
Qed.

(** Filling in an entry leaves its links. *)
Lemma upd_nc_ok s n f : (∀ c, lru_links (f c) = lru_links c ∧ nc_forw (f c) = nc_forw c ∧ nc_back (f c) = nc_back c) →
  (∀ l, lru_is s l → lru_is (upd_nc n f s) l) ∧ (hash_ok s → hash_ok (upd_nc n f s)).
Proof.
  intros Hf. assert (Hv : ∀ p, nc_valid s p → nc_valid (upd_nc n f s) p).
  { intros [k|k]; [|done]. cbn. intros Hk. destruct (decide (k = n)) as [->|]; [|by rewrite lookup_alter_ne].
    rewrite lookup_alter_eq. by apply fmap_is_Some. }
  split.
  - intros l [Hnd Hs]. split; [done|]. eapply seg_agree; [|exact Hs]. intros k _. cbn.
    destruct (decide (k = n)) as [->|]; [|by rewrite lookup_alter_ne]. rewrite lookup_alter_eq.
    destruct (namecaches s !! n); [|done]. cbn. by rewrite (proj1 (Hf _)).
  - intros [Hh He]. split; [intros h l Hl; destruct (Hh h l Hl); split; by apply Hv|]. intros k c Hk. cbn in Hk.
    destruct (decide (k = n)) as [->|]; [|rewrite lookup_alter_ne in Hk by done; destruct (He _ _ Hk); split; by apply Hv].
    rewrite lookup_alter_eq in Hk. destruct (namecaches s !! n) as [c'|] eqn:E; [|done]. injection Hk as <-.
    destruct (Hf c') as (_ & -> & ->). destruct (He _ _ E). split; by apply Hv.
Qed.

(** C0: Entering a name takes the entry that is first in the queue, puts it last,
    and from then on the search of the hash chain for that name in that
    directory finds it, with the inode entered. What the entry keeps of the
    inode's identifier is its low 16 bits (the identifier has 32), so that the
    entry passes the test on later lookups just for identifiers below 65536. *)
Theorem nc_enter_found s l n h pdp dp name p d :
  nc_inv s (n :: l) → is_Some (nchash s !! h) → inodes s !! pdp = Some p → inodes s !! dp = Some d →
  0 ≤ i_id d < 2 ^ 32 →
  ∃ s' c, nc_enter h pdp dp name s = Done tt s' ∧ nc_inv s' (l ++ [n]) ∧
    nc_find h (MkNq (i_number p) (i_dev p) name) s' = Done (Some n) s' ∧
    namecaches s' !! n = Some c ∧ nc_ip c = Some dp ∧ (nc_id c = i_id d ↔ i_id d < 2 ^ 16).
Proof.
  intros [Hl Ho] Hh Hp Hd Hid. pose proof Hl as [[Hn Hnd]%NoDup_cons (Eh & c & Hc & _)].
  assert (Hv : is_Some (namecaches s !! n)) by by eexists. unfold nc_enter.
  rewrite (bind_done _ _ _ _ _ (get_s_eq _)). cbv beta. rewrite Eh.
  destruct (lru_remove_is s [] n l Hl) as (s1 & E1 & Hl1 & F1). rewrite (bind_done _ _ _ _ _ E1). cbv beta.
  pose proof (hash_ok_lru _ _ F1 Ho) as Ho1. pose proof (proj2 (lru_frame_dom _ _ n F1) Hv) as Hv1.
  destruct (remque_ok s1 (NcP n) Ho1 Hv1) as (s2 & E2 & Ho2 & F2). rewrite (bind_done _ _ _ _ _ E2). cbv beta.
  assert (Hl2 : lru_is s2 l) by (eapply lru_is_hash; [exact F2|done]).
  pose proof (proj2 (hash_frame_valid _ _ (NcP n) F2) Hv1) as Hv2.
  assert (Ei : inodes s2 = inodes s) by (rewrite (hf_rest _ _ F2), (lf_rest _ _ F1); done).
  rewrite (bind_done _ _ _ _ _ (geti_eq s2 dp d ltac:(by rewrite Ei))). cbv beta.
  rewrite (bind_done _ _ _ _ _ (geti_eq s2 pdp p ltac:(by rewrite Ei))). cbv beta.
  rewrite (bind_done _ _ _ _ _ (setnc_upd s2 n _ Hv2)). cbv beta.
  match goal with |- context [upd_nc n ?g s2] => set (f := g) end.
  destruct (upd_nc_ok s2 n f (λ c, conj eq_refl (conj eq_refl eq_refl))) as [Hl3 Ho3]. specialize (Hl3 l Hl2). specialize (Ho3 Ho2).
  set (s3 := upd_nc n f s2) in *. destruct Hv2 as [c2 Hc2].
  assert (Hc3 : namecaches s3 !! n = Some (f c2)) by (cbn; by rewrite lookup_alter_eq, Hc2).
  destruct (lru_append_is s3 l n Hl3 Hn ltac:(by eexists)) as (s4 & E4 & Hl4 & F4). rewrite (bind_done _ _ _ _ _ E4). cbv beta.
  pose proof (hash_ok_lru _ _ F4 Ho3) as Ho4. pose proof (lf_body _ _ F4 n) as B4. rewrite Hc3 in B4.
  destruct (namecaches s4 !! n) as [c4|] eqn:Hc4; [|done]. cbn in B4.
  assert (Hh4 : is_Some (nchash s4 !! h)).
  { rewrite (lf_rest _ _ F4). apply (hf_head _ _ F2). by rewrite (lf_rest _ _ F1). }
  destruct (insque_ok s4 n h Ho4 ltac:(by eexists) Hh4) as (s5 & b & E5 & Ho5 & F5 & Hb).
  pose proof (hf_entry _ _ F5 n) as B5. rewrite Hc4 in B5. destruct (namecaches s5 !! n) as [c5|] eqn:Hc5; [|done]. cbn in B5.
  exists s5, c5. split; [done|]. split; [split; [by eapply lru_is_hash|done]|]. injection B4 as ? ? ? ? ? ? ? ? ?. injection B5 as ? ? ? ? ? ? ? ? ?.
  split; [|split; [done|]; split; [congruence|]].
  - eapply nc_find_first; [exact Hb|exact Hc5|]. unfold nc_matches. cbn [nq_ino nq_dev nq_name].
    replace (nc_ino c5) with (i_number p) by congruence. replace (nc_dev c5) with (i_dev p) by congruence.
    replace (nc_nlen c5) with (Z.of_nat (length name)) by congruence.
    replace (nc_name c5) with (name ++ drop (length name) (nc_name c2)) by congruence.
    rewrite !Z.eqb_refl, take_app_length. cbn. by apply bool_decide_eq_true.
  - replace (nc_id c5) with (u16 (i_id d)) by congruence. unfold u16. split; intros Hx; [|by apply Z.mod_small; lia].
    pose proof (Z.mod_pos_bound (i_id d) (2 ^ 16) ltac:(lia)). lia.
Qed.

(** * After start-up *)

Definition entries (s : kstate) (l : list nat) : Prop := ∀ n, is_Some (namecaches s !! n) ↔ n ∈ l.
Definition alone (s : kstate) (l : list nat) : Prop :=
  ∀ n, n ∈ l → ∃ c, namecaches s !! n = Some c ∧ nc_forw c = NcP n ∧ nc_back c = NcP n.
Definition same_rest (s s' : kstate) : Prop :=
  s' = s <| namecaches := namecaches s' |> <| nchhead := nchhead s' |> <| nchtail := nchtail s' |>.
Lemma upd_nc_dom s n f k : is_Some (namecaches (upd_nc n f s) !! k) ↔ is_Some (namecaches s !! k).
Proof.
  cbn. destruct (decide (k = n)) as [->|]; [rewrite lookup_alter_eq; by rewrite fmap_is_Some|by rewrite lookup_alter_ne].
Qed.
Lemma nchinit_step s l n ns all :
  entries s all → n ∈ all → lru_is s l → alone s l → n ∉ l →
  ∃ s', nchinit_loop (n :: ns) s = nchinit_loop ns s' ∧ entries s' all ∧ lru_is s' (l ++ [n]) ∧ alone s' (l ++ [n]) ∧ same_rest s s'.
Proof.
  intros He Hin [Hnd Hs] Ha Hn. cbn [nchinit_loop]. unfold nc_dummy.
  set (s1 := upd_nc n (λ r, r <| nc_forw := NcP n |>) s). set (s2 := upd_nc n (λ r, r <| nc_back := NcP n |>) s1).
  set (s3 := upd_nc n (λ c, c <| nc_nxt := None |>) s2). pose proof (proj2 (He n) Hin) as Hv.
  assert (D1 : ∀ k, is_Some (namecaches s1 !! k) ↔ is_Some (namecaches s !! k)) by apply upd_nc_dom.
  assert (D2 : ∀ k, is_Some (namecaches s2 !! k) ↔ is_Some (namecaches s !! k)) by (intros; rewrite <- D1; apply upd_nc_dom).
  assert (D3 : ∀ k, is_Some (namecaches s3 !! k) ↔ is_Some (namecaches s !! k)) by (intros; rewrite <- D2; apply upd_nc_dom).
  rewrite bind_assoc, (bind_done _ _ _ _ _ (setnc_upd s n _ Hv)). cbv beta.
  rewrite (bind_done _ _ _ _ _ (setnc_upd s1 n _ (proj2 (D1 n) Hv))). cbv beta.
  rewrite (bind_done _ _ _ _ _ (setnc_upd s2 n _ (proj2 (D2 n) Hv))). cbv beta.
  rewrite (bind_done _ _ _ _ _ (get_s_eq _)). cbv beta. fold s1. fold s2. fold s3.
  assert (O3 : ∀ k, k ≠ n → namecaches s3 !! k = namecaches s !! k) by (intros k Hk; cbn; by rewrite !lookup_alter_ne by done).
  assert (Hs3 : lru_seg s3 l (nchtail s) None).
  { eapply seg_agree; [|exact Hs]. intros k Hk. rewrite O3; [done|]. congruence. }
  change (nchtail s3) with (nchtail s). rewrite (bind_done _ _ _ _ _ (set_ncslot_put s3 l _ _ (Some n) Hs3)). cbv beta.
  set (s4 := put_slot _ _ s3). assert (Hne : nchtail s ≠ NxtOfNc n).
  { destruct (seg_slot _ _ _ _ _ _ Hs3) as [[_ ->]|(k & Hk & ->)]; [done|]. intros [= ->]. done. }
  pose proof (lru_frame_put s3 (nchtail s) (Some n)) as F4. fold s4 in F4.
  rewrite (bind_done _ _ _ _ _ (setnc_upd s4 n _ (proj2 (lru_frame_dom _ _ n F4) (proj2 (D3 n) Hv)))). cbv beta.
  set (s5 := upd_nc n _ s4). eexists. split; [reflexivity|].
  assert (O5 : namecaches (s5 <| nchtail := NxtOfNc n |>) = namecaches s5) by done.
  destruct Hv as [c Hc]. assert (Hc5 : namecaches s5 !! n =
    Some (c <| nc_forw := NcP n |> <| nc_back := NcP n |> <| nc_nxt := None |> <| nc_prev := nchtail s |>)).
  { unfold s5. cbn [namecaches upd_nc upd]. rewrite lookup_alter_eq. unfold s4. rewrite put_slot_lookup by done.
    cbn. by rewrite !lookup_alter_eq, Hc. }
  assert (Hoth : ∀ k, k ≠ n → body <$> namecaches s5 !! k = body <$> namecaches s !! k).
  { intros k Hk. unfold s5. cbn [namecaches upd_nc upd]. rewrite lookup_alter_ne by done. by rewrite (lf_body _ _ F4), O3. }
  split; [|split; [|split]].
  - intros k. rewrite O5, <- (He k). destruct (decide (k = n)) as [->|Hk]; [rewrite Hc5, Hc; split; by eexists|].
    rewrite <- (fmap_is_Some body (namecaches s5 !! k)), Hoth by done. by rewrite fmap_is_Some.
  - split; [apply NoDup_app; split; [done|]; split; [set_solver|apply NoDup_singleton]|].
    apply seg_app. exists (nchtail s), (Some n). split.
    + eapply seg_agree; [|exact (seg_put s3 l _ _ (Some n) Hnd Hs3)]. intros k Hk. rewrite O5. unfold s5. cbn [namecaches upd_nc upd].
      rewrite lookup_alter_ne by congruence. done.
    + split; [done|]. eexists. rewrite O5, Hc5. split; [reflexivity|]. done.
  - intros k [Hk| ->%list_elem_of_singleton]%elem_of_app; [|eexists; rewrite O5; split; [exact Hc5|done]].
    destruct (Ha k Hk) as (ck & Eck & ? & ?). assert (Hkn : k ≠ n) by congruence. pose proof (Hoth k Hkn) as E. rewrite O5, Eck in *.
    destruct (namecaches s5 !! k) as [ck'|]; [|done]. cbn in E. exists ck'. split; [done|]. injection E as ? ? ? ? ? ? ? ? ?. split; congruence.
  - unfold same_rest, s5, s4, s3, s2, s1. destruct (nchtail s); destruct s; reflexivity.
Qed.
Lemma nchinit_loop_ok ns s l all :
  entries s all → (∀ n, n ∈ ns → n ∈ all) → lru_is s l → alone s l → NoDup ns → (∀ n, n ∈ ns → n ∉ l) →
  ∃ s', nchinit_loop ns s = Done tt s' ∧ entries s' all ∧ lru_is s' (l ++ ns) ∧ alone s' (l ++ ns) ∧ same_rest s s'.
Proof.
  revert s l. induction ns as [|n ns IH]; intros s l He Hin Hl Ha Hnd Hd.
  { exists s. rewrite app_nil_r. do 4 (split; [done|]). destruct s; reflexivity. }
  apply NoDup_cons in Hnd as [Hn Hnd].
  destruct (nchinit_step s l n ns all He (Hin n ltac:(set_solver)) Hl Ha (Hd n ltac:(set_solver))) as (s1 & -> & He1 & Hl1 & Ha1 & E1).
  destruct (IH s1 (l ++ [n]) He1) as (s2 & E2 & He2 & Hl2 & Ha2 & E3); [set_solver..|].
  exists s2. rewrite <- app_assoc in Hl2, Ha2. do 4 (split; [done|]). unfold same_rest in *. rewrite E3, E1. reflexivity.
Qed.
Lemma nchinit_heads_ok hs s : ∃ m, nchinit_heads hs s = Done tt (s <| nchash := m |>) ∧
  ∀ h, m !! h = if decide (h ∈ hs) then Some (NcHead h, NcHead h) else nchash s !! h.
Proof.
  revert s. induction hs as [|h hs IH]; intros s.
  { exists (nchash s). split; [by destruct s|]. intros k. by rewrite decide_False by set_solver. }
  cbn [nchinit_heads]. rewrite (bind_done _ _ _ _ _ (modify_eq _ _)). cbv beta.
  destruct (IH (s <| nchash ::= <[h := (NcHead h, NcHead h)]> |>)) as (m & E & Hm). exists m. split; [rewrite E; done|].
  intros k. rewrite Hm. destruct (decide (k ∈ hs)); [by rewrite decide_True by set_solver|]. cbn.
  destruct (decide (k = h)) as [->|]; [rewrite lookup_insert_eq; by rewrite decide_True by set_solver|].
  rewrite lookup_insert_ne by done. by rewrite decide_False by set_solver.
Qed.
(** Start-up puts every entry into the LRU chain, in the order of the table. *)
Lemma nchinit_inv `{KConfig} s : entries s (seq 0 NNAMECACHE) → nchash s = ∅ →
  ∃ s', nchinit s = Done tt s' ∧ nc_inv s' (seq 0 NNAMECACHE) ∧ (∀ h, h < NCHHASH → is_Some (nchash s' !! h))%nat ∧ inodes s' = inodes s.
Proof.
  intros He Hh. unfold nchinit. rewrite (bind_done _ _ _ _ _ (modify_eq _ _)). cbv beta.
  unfold set_nchtail. rewrite (bind_done _ _ _ _ _ (modify_eq _ _)). cbv beta. set (s1 := upd nchtail _ _).
  destruct (nchinit_loop_ok (seq 0 NNAMECACHE) s1 [] (seq 0 NNAMECACHE) He) as (s2 & E2 & He2 & Hl2 & Ha2 & Eh);
    [done|by split; [constructor|]|by intros n Hn%elem_of_nil|apply NoDup_seq|set_solver|].
  rewrite (bind_done _ _ _ _ _ E2). cbv beta. destruct (nchinit_heads_ok (seq 0 NCHHASH) s2) as (m & E3 & Hm). eexists. split; [exact E3|].
  assert (Enh : nchash s2 = ∅) by (rewrite Eh; exact Hh). rewrite Enh in Hm. set (s3 := s2 <| nchash := m |>).
  assert (Hv : ∀ n, n ∈ seq 0 NNAMECACHE → nc_valid s3 (NcP n)) by (intros n Hn; by apply (He2 n)).
  assert (Hvh : ∀ h, (h < NCHHASH)%nat → nc_valid s3 (NcHead h)).
  { intros h Hlt. cbn. rewrite Hm, decide_True; [by eexists|]. apply elem_of_seq. lia. }
  split; [split; [exact Hl2|split]|split; [exact Hvh|change (inodes s3) with (inodes s2); rewrite Eh; done]].
  - intros h l Hl. cbn in Hl. rewrite Hm in Hl. destruct (decide (h ∈ _)) as [Hin|]; [|by rewrite lookup_empty in Hl].
    injection Hl as <-. apply elem_of_seq in Hin. split; apply Hvh; lia.
  - intros n c Hc. assert (Hin : n ∈ seq 0 NNAMECACHE) by (apply He2; by eexists). destruct (Ha2 n Hin) as (c' & Hc' & E1 & E4).
    change (namecaches s3) with (namecaches s2) in Hc. rewrite Hc in Hc'. injection Hc' as <-. rewrite E1, E4. split; by apply Hv.
Qed.

(** What the inode table expects of the name cache. *)
Definition nc_env `{KConfig} : FsEnv := {| Inode.cinvalall := cinvalall |}.
End Ncache.

(** * Examples *)

Module NcacheExamples.
Import Ncache.
#[local] Existing Instance gba_cfg.
Definition nc0 : namecache := MkNc (NcHead 0) (NcHead 0) None NchHead None 0 0 0 0 0 (replicate 15 0).
Definition dir0 : inode := MkInode 0 1 0x600 2 0 (replicate 7 0) 0x41ed 2 0 0 1024 0 0 0 0 None None 1 0 None None 0 0 None None.
(** At boot: the table is zero; two inodes are in use, the second with an
    identifier beyond 65535. *)
Definition boot : kstate :=
  kstate0 <| namecaches := gset_to_gmap nc0 (list_to_set (seq 0 35)) |>
          <| inodes := {[ 0%nat := dir0; 1%nat := dir0 <| i_number := 7 |> <| i_id := 70000 |> ]} |>.
Lemma boot_entries : entries boot (seq 0 NNAMECACHE).
Proof.
  intros n. change NNAMECACHE with 35%nat. unfold boot. cbn [namecaches upd]. split.
  - intros [c [Hc _]%lookup_gset_to_gmap_Some]. by apply elem_of_list_to_set in Hc.
  - intros Hn. exists nc0. apply lookup_gset_to_gmap_Some. split; [by apply elem_of_list_to_set|done].
Qed.
Lemma nc_queue_witness : ∃ s s1 s2, lru_touch 33 s = Done tt s1 ∧ nc_inv s1 (seq 0 33 ++ [34; 33]%nat) ∧
  nc_drop 3 s = Done tt s2 ∧ nc_inv s2 (3 :: seq 0 3 ++ seq 4 31)%nat.
Proof.
  destruct (nchinit_inv boot boot_entries eq_refl) as (s & _ & Hi & _).
  destruct (nc_queue s (seq 0 NNAMECACHE) 33 Hi ltac:(apply elem_of_seq; vm_compute; lia)) as [(s1 & E1 & H1) _].
  destruct (nc_queue s (seq 0 NNAMECACHE) 3 Hi ltac:(apply elem_of_seq; vm_compute; lia)) as [_ H].
  destruct (H ltac:(vm_compute; congruence)) as (s2 & E2 & H2). exists s, s1, s2. split; [exact E1|]. split; [exact H1|].
  split; [exact E2|exact H2].
Defined.
Lemma nc_enter_found_witness : ∃ s s' c, nc_enter 5 0 1 [97; 98] s = Done tt s' ∧
  nc_find 5 (MkNq 2 0x600 [97; 98]) s' = Done (Some 0%nat) s' ∧ namecaches s' !! 0%nat = Some c ∧ nc_ip c = Some 1%nat ∧ nc_id c ≠ 70000.
Proof.
  destruct (nchinit_inv boot boot_entries eq_refl) as (s & _ & Hi & Hh & Ei).
  destruct (nc_enter_found s (seq 1 34) 0 5 0 1 [97; 98] dir0 (dir0 <| i_number := 7 |> <| i_id := 70000 |>) Hi (Hh 5%nat ltac:(unfold NCHHASH; lia))
    ltac:(rewrite Ei; reflexivity) ltac:(rewrite Ei; reflexivity) ltac:(cbn; lia)) as (s' & c & E & _ & F & Hc & Hp & Hid).
  exists s, s', c. split; [exact E|]. split; [exact F|]. split; [exact Hc|]. split; [exact Hp|]. intros E1. apply Hid in E1. cbn in E1. lia.
Defined.
End NcacheExamples.
